(** * xs: a 16-byte string with inline storage, heap storage and
      copy-on-write sharing (xs.c)

    The C type [xs] is a 16-byte union.  It is modelled as the list of its
    16 bytes; the members of its two anonymous structures are views of
    those bytes, laid out as the x86-64 ABI lays them out (little endian,
    bit fields allocated from the least significant bit):

    - [data\[16\]]        : the bytes themselves;
    - [filler\[15\]], then in byte 15: [space_left] (bits 0-3),
      [is_ptr] (bit 4), [flag1..3] (bits 5-7);
    - [ptr]               : bytes 0-7;
    - [size : 54], [capacity : 6] : bits 0-53 and 54-59 of the 64-bit
      word held in bytes 8-15.

    Heap buffers live in a block store.  An access outside a live block,
    outside the 16 bytes of a string object, or to a temporary string
    object whose lifetime has ended, is undefined behaviour in C; every
    operation returns [None] there.

    String objects are passed by value: an operation takes the bytes of
    [*x] and returns the bytes it leaves there.  Two pointer arguments of
    one call are taken to point to different objects; two objects may
    well hold the same [ptr]. *)

From stdpp Require Import base numbers option list strings.
From Stdlib Require Import ZArith Lia.
Local Open Scope Z_scope.

(** ** Fixed-width integers and bit fields *)

(** [size_t] arithmetic. *)
Definition sz (z : Z) : Z := z mod 2 ^ 64.

(** [char] arithmetic on the stored byte. *)
Definition byte (z : Z) : Z := z mod 256.

(** The [w]-bit field at bit offset [off] of [x], and its update. *)
Definition bits (off w x : Z) : Z := Z.land (x ≫ off) (Z.ones w).

Definition set_bits (off w v x : Z) : Z :=
  Z.lor (Z.ldiff x (Z.ones w ≪ off)) (Z.land v (Z.ones w) ≪ off).

Fixpoint le_decode (bs : list Z) : Z :=
  match bs with
  | [] => 0
  | b :: r => Z.lor b (le_decode r ≪ 8)
  end.

Fixpoint le_encode (n : nat) (w : Z) : list Z :=
  match n with
  | O => []
  | S k => bits 0 8 w :: le_encode k (w ≫ 8)
  end.

(** ** The union [xs] *)

Abbreviation xs := (list Z) (only parsing).

Definition byte15 (x : xs) : Z := nth 15 x 0.

Definition x_space_left (x : xs) : Z := bits 0 4 (byte15 x).
Definition x_is_ptr (x : xs) : bool := Z.testbit (byte15 x) 4.
Definition set_space_left (v : Z) (x : xs) : xs :=
  <[15%nat := set_bits 0 4 v (byte15 x)]> x.
Definition set_is_ptr (b : bool) (x : xs) : xs :=
  <[15%nat := set_bits 4 1 (Z.b2z b) (byte15 x)]> x.

Definition x_ptr (x : xs) : Z := le_decode (take 8 x).
Definition set_ptr (p : Z) (x : xs) : xs := le_encode 8 p ++ drop 8 x.

Definition x_word (x : xs) : Z := le_decode (take 8 (drop 8 x)).
Definition set_word (w : Z) (x : xs) : xs :=
  take 8 x ++ le_encode 8 w ++ drop 16 x.

Definition x_size (x : xs) : Z := bits 0 54 (x_word x).
Definition x_capacity (x : xs) : Z := bits 54 6 (x_word x).
Definition set_size (v : Z) (x : xs) : xs :=
  set_word (set_bits 0 54 v (x_word x)) x.
Definition set_capacity (v : Z) (x : xs) : xs :=
  set_word (set_bits 54 6 v (x_word x)) x.

(** ** Memory *)

(** The heap: block [p] (a positive address; 0 is the null pointer) is
    slot [p - 1]; a freed block is [None].  [malloc] never reuses an
    address and never fails. *)
Abbreviation heap := (list (option (list Z))) (only parsing).

Definition heap_get (h : heap) (p : Z) : option (list Z) :=
  if 0 <? p then mjoin (h !! Z.to_nat (p - 1)) else None.

Definition heap_set (h : heap) (p : Z) (b : option (list Z)) : heap :=
  <[Z.to_nat (p - 1) := b]> h.

(** Contents of memory that was allocated and not yet written. *)
Definition uninit : Z := 170.

Definition malloc (n : Z) (h : heap) : Z * heap :=
  (Z.of_nat (length h) + 1, h ++ [Some (replicate (Z.to_nat n) uninit)]).

Definition free (p : Z) (h : heap) : option heap :=
  if p =? 0 then Some h
  else _ ← heap_get h p; Some (heap_set h p None).

Definition realloc (p n : Z) (h : heap) : option (Z * heap) :=
  if p =? 0 then Some (malloc n h)
  else
    old ← heap_get h p;
    h ← free p h;
    let '(q, h) := malloc n h in
    let kept := take (Z.to_nat n) old in
    Some (q, heap_set h q
               (Some (kept ++ replicate (Z.to_nat n - length kept) uninit))).

(** A [char *]: into the string object at hand, or into a heap block. *)
Inductive addr :=
  | InObj (off : Z)
  | InHeap (p off : Z).

Definition padd (a : addr) (k : Z) : addr :=
  match a with
  | InObj o => InObj (o + k)
  | InHeap p o => InHeap p (o + k)
  end.

Definition is_null (a : addr) : bool :=
  match a with
  | InObj _ => false
  | InHeap p o => (p =? 0) && (o =? 0)
  end.

Definition buf_read (b : list Z) (off n : Z) : option (list Z) :=
  if (0 <=? off) && (0 <=? n) && (off + n <=? Z.of_nat (length b))
  then Some (take (Z.to_nat n) (drop (Z.to_nat off) b))
  else None.

Definition buf_write (b : list Z) (off : Z) (bs : list Z) : option (list Z) :=
  if (0 <=? off) && (off + Z.of_nat (length bs) <=? Z.of_nat (length b))
  then Some (take (Z.to_nat off) b ++ bs
             ++ drop (Z.to_nat off + length bs) b)
  else None.

Definition addr_off (a : addr) : Z :=
  match a with InObj o | InHeap _ o => o end.

Definition object_at (x : xs) (h : heap) (a : addr) : option (list Z) :=
  match a with
  | InObj _ => Some x
  | InHeap p _ => heap_get h p
  end.

Definition mem_read (x : xs) (h : heap) (a : addr) (n : Z)
  : option (list Z) :=
  b ← object_at x h a; buf_read b (addr_off a) n.

Definition mem_write (x : xs) (h : heap) (a : addr) (bs : list Z)
  : option (xs * heap) :=
  match a with
  | InObj o => x' ← buf_write x o bs; Some (x', h)
  | InHeap p o =>
      b ← heap_get h p;
      b' ← buf_write b o bs;
      Some (x, heap_set h p (Some b'))
  end.

Definition mem_load (x : xs) (h : heap) (a : addr) : option Z :=
  bs ← mem_read x h a 1; head bs.

Definition mem_store (x : xs) (h : heap) (a : addr) (v : Z)
  : option (xs * heap) :=
  mem_write x h a [byte v].

(** The bytes from [a] to the end of its object: what a function that
    scans for a terminator may look at. *)
Definition mem_cstr (x : xs) (h : heap) (a : addr) : option (list Z) :=
  b ← object_at x h a;
  if (0 <=? addr_off a) && (addr_off a <=? Z.of_nat (length b))
  then Some (drop (Z.to_nat (addr_off a)) b)
  else None.

(** [strlen]: [None] when no terminator lies inside the object. *)
Fixpoint strlen (s : list Z) : option Z :=
  match s with
  | [] => None
  | c :: r => if c =? 0 then Some 0 else Z.succ <$> strlen r
  end.

(** ** Accessors *)

Definition xs_is_ptr (x : xs) : bool := x_is_ptr x.

Definition xs_size (x : xs) : Z :=
  if xs_is_ptr x then x_size x else 15 - x_space_left x.

Definition xs_data (x : xs) : addr :=
  if xs_is_ptr x then InHeap (x_ptr x) 0 else InObj 0.

Definition xs_capacity (x : xs) : Z :=
  if xs_is_ptr x then sz (1 ≪ x_capacity x) - 1 else 15.

Definition xs_literal_empty : xs := replicate 15 0 ++ [15].

(** [xs_ref_counter(xs)] is [*(xs->ptr + xs->size + 1)]. *)
Definition ref_addr (x : xs) : addr := InHeap (x_ptr x) (x_size x + 1).

Definition xs_ref_counter (x : xs) (h : heap) : option Z :=
  mem_load x h (ref_addr x).

Definition set_ref_counter (x : xs) (v : Z) (h : heap) : option heap :=
  snd <$> mem_store x h (ref_addr x) v.

Definition MAX_REF_COUNTER : Z := 255.

(** [__builtin_clz] is undefined at 0. *)
Definition builtin_clz (n : Z) : option Z :=
  if n =? 0 then None else Some (31 - Z.log2 n).

Definition ilog2 (n : Z) : option Z :=
  c ← builtin_clz (n mod 2 ^ 32); Some (32 - c - 1).

(** ** Construction, growth, release *)

Definition xs_new (p : list Z) (h : heap) : option (xs * heap) :=
  let x := xs_literal_empty in
  n ← strlen p;
  let len := sz (n + 1) in
  if 16 <? len then
    lg ← ilog2 len;
    let x := set_capacity (lg + 1) x in
    let x := set_size (len - 1) x in
    let x := set_is_ptr true x in
    let '(q, h) := malloc (sz (1 ≪ x_capacity x)) h in
    let x := set_ptr q x in
    '(x, h) ← mem_write x h (InHeap (x_ptr x) 0) (take (Z.to_nat len) p);
    h ← set_ref_counter x 1 h;
    Some (x, h)
  else
    '(x, h) ← mem_write x h (InObj 0) (take (Z.to_nat len) p);
    let x := set_space_left (15 - (len - 1)) x in
    let x := set_is_ptr false x in
    Some (x, h).

(** [xs_tmp(p)] is [xs_new] on a fresh object. *)
Definition xs_tmp := xs_new.

Definition xs_grow (x : xs) (len : Z) (h : heap) : option (xs * heap) :=
  if len <=? xs_capacity x then Some (x, h)
  else
    lg ← ilog2 len;
    let len := lg + 1 in
    '(x, h) ←
      (if xs_is_ptr x then
         '(q, h) ← realloc (x_ptr x) (sz (1 ≪ len)) h;
         Some (set_ptr q x, h)
       else
         buf ← mem_read x h (InObj 0) 16;
         let '(q, h) := malloc (sz (1 ≪ len)) h in
         let x := set_ptr q x in
         mem_write x h (InHeap (x_ptr x) 0) buf);
    let x := set_is_ptr true x in
    let x := set_capacity len x in
    Some (x, h).

Definition xs_newempty (x : xs) : xs := xs_literal_empty.

Definition xs_free (x : xs) (h : heap) : option (xs * heap) :=
  h ← (if xs_is_ptr x then
         match xs_data x with
         | InHeap p _ => free p h
         | InObj _ => None
         end
       else Some h);
  Some (xs_newempty x, h).

(** ** Copy on write *)

Definition xs_cow (x : xs) (h : heap) : option (xs * heap) :=
  c ← mem_load x h (InHeap (x_ptr x) (x_size x + 1));
  '(x, h) ← mem_store x h (InHeap (x_ptr x) (x_size x + 1)) (c - 1);
  s ← mem_cstr x h (InHeap (x_ptr x) 0);
  '(dup_x, h) ← xs_tmp s h;
  Some (dup_x, h).

(** The test [xs_is_ptr(x) && xs_ref_counter(x) != 1] and its branch. *)
Definition cow_if_shared (x : xs) (h : heap) : option (xs * heap) :=
  if xs_is_ptr x then
    c ← xs_ref_counter x h;
    if c =? 1 then Some (x, h) else xs_cow x h
  else Some (x, h).

(** ** Concatenation *)

Definition xs_concat (string prefix suffix : xs) (h : heap)
  : option (xs * heap) :=
  '(string, h) ← cow_if_shared string h;
  let pres := xs_size prefix in
  let sufs := xs_size suffix in
  let size := xs_size string in
  let capacity := xs_capacity string in
  let pre := xs_data prefix in
  let suf := xs_data suffix in
  let data := xs_data string in
  '(string, h) ←
    (if sz (size + pres + sufs) <=? capacity then
       bs ← mem_read string h data size;
       '(string, h) ← mem_write string h (padd data pres) bs;
       bs ← mem_read prefix h pre pres;
       '(string, h) ← mem_write string h data bs;
       bs ← mem_read suffix h suf (sz (sufs + 1));
       '(string, h) ← mem_write string h (padd (padd data pres) size) bs;
       if xs_is_ptr string
       then Some (set_size (sz (size + pres + sufs)) string, h)
       else Some (set_space_left (sz (15 - (size + pres + sufs))) string, h)
     else
       let tmps := xs_literal_empty in
       '(tmps, h) ← xs_grow tmps (sz (size + pres + sufs)) h;
       let tmpdata := xs_data tmps in
       bs ← mem_read string h data size;
       '(tmps, h) ← mem_write tmps h (padd tmpdata pres) bs;
       bs ← mem_read prefix h pre pres;
       '(tmps, h) ← mem_write tmps h tmpdata bs;
       bs ← mem_read suffix h suf (sz (sufs + 1));
       '(tmps, h) ← mem_write tmps h (padd (padd tmpdata pres) size) bs;
       '(string, h) ← xs_free string h;
       let string := tmps in
       Some (set_size (sz (size + pres + sufs)) string, h));
  if xs_is_ptr string then
    h ← set_ref_counter string 1 h; Some (string, h)
  else Some (string, h).

(** ** Byte sets: the 32-byte [mask] with [set_bit] and [check_bit] *)

Definition set_bit (mask : list Z) (c : Z) : list Z :=
  let b := byte c in
  <[Z.to_nat (b / 8) :=
      byte (Z.lor (nth (Z.to_nat (b / 8)) mask 0) (1 ≪ (b mod 8)))]> mask.

Definition check_bit (mask : list Z) (c : Z) : bool :=
  let b := byte c in
  negb (Z.land (nth (Z.to_nat (b / 8)) mask 0) (1 ≪ (b mod 8)) =? 0).

Definition make_mask (set : list Z) (n : Z) : list Z :=
  foldl set_bit (replicate 32 0) (take (Z.to_nat n) set).

(** [for (; i < n; i++) if (stop(p\[i\])) break;], at most [rounds = n - i]
    rounds; the result is the final [i]. *)
Fixpoint scan_up (rounds : nat) (rd : Z → option Z) (stop : Z → bool) (i : Z)
  : option Z :=
  match rounds with
  | O => Some i
  | S k => c ← rd i; if stop c then Some i else scan_up k rd stop (i + 1)
  end.

(** [for (; n > 0; n--) if (stop(p\[n - 1\])) break;], at most [rounds = n]
    rounds; the result is the final [n]. *)
Fixpoint scan_down (rounds : nat) (rd : Z → option Z) (stop : Z → bool) (n : Z)
  : option Z :=
  match rounds with
  | O => Some n
  | S k =>
      c ← rd (n - 1); if stop c then Some n else scan_down k rd stop (n - 1)
  end.

(** ** Trim *)

Definition xs_trim (x : xs) (trimset : list Z) (h : heap)
  : option (xs * heap) :=
  t0 ← trimset !! 0%nat;
  if t0 =? 0 then Some (x, h)
  else
    '(x, h) ← cow_if_shared x h;
    let dataptr := xs_data x in
    let orig := dataptr in
    let slen := xs_size x in
    trimlen ← strlen trimset;
    let mask := make_mask trimset trimlen in
    let rd := λ k, mem_load x h (padd dataptr k) in
    i ← scan_up (Z.to_nat slen) rd (λ c, negb (check_bit mask c)) 0;
    slen ← scan_down (Z.to_nat slen) rd (λ c, negb (check_bit mask c)) slen;
    let dataptr := padd dataptr i in
    let slen := sz (slen - i) in
    bs ← mem_read x h dataptr slen;
    '(x, h) ← mem_write x h orig bs;
    c ← mem_load x h (padd orig slen);
    '(x, h) ← (if c =? 0 then Some (x, h)
               else mem_store x h (padd orig slen) 0);
    if xs_is_ptr x then
      let x := set_size slen x in
      h ← set_ref_counter x 1 h; Some (x, h)
    else Some (set_space_left (sz (15 - slen)) x, h).

(** ** Assignment *)

(** [dest] and [src] are pointers: [None] is [NULL], and two non-null
    arguments are distinct objects.  The result is the object [dest]
    points to afterwards. *)
Definition xs_copy (dest src : option xs) (h : heap)
  : option (option xs * heap) :=
  match dest, src with
  | Some d, Some s =>
      h ← (if xs_is_ptr d then
             c ← xs_ref_counter d h;
             h ← set_ref_counter d (c - 1) h;
             c ← xs_ref_counter d h;
             if c =? 0 then
               match xs_data d with
               | InHeap p _ => free p h
               | InObj _ => None
               end
             else Some h
           else Some h);
      saturated ← (if xs_is_ptr s then
                     c ← xs_ref_counter s h; Some (c =? MAX_REF_COUNTER)
                   else Some false);
      if saturated : bool then
        str ← mem_cstr s h (InHeap (x_ptr s) 0);
        '(dup_x, h) ← xs_tmp str h;
        Some (Some dup_x, h)
      else
        let d := s in
        if xs_is_ptr s then
          c ← xs_ref_counter s h;
          h ← set_ref_counter s (c + 1) h;
          Some (Some d, h)
        else Some (Some d, h)
  | _, _ => Some (dest, h)
  end.

(** The first step of [xs_copy]: [dest] lets go of the buffer it holds. *)
Definition release (d : xs) (h : heap) : option heap :=
  if xs_is_ptr d then
    c ← xs_ref_counter d h;
    h ← set_ref_counter d (c - 1) h;
    c ← xs_ref_counter d h;
    if c =? 0 then
      match xs_data d with
      | InHeap p _ => free p h
      | InObj _ => None
      end
    else Some h
  else Some h.

(** ** Tokenizer *)

(** [xs_tok] keeps the pointer [static xs *old].  The only address ever
    stored there (xs.c:287) is that of a temporary made by [xs_tmp]: a
    compound literal in the body of [xs_tok], whose lifetime ends when the
    call returns.  At the start of a call [old] is therefore [NULL]
    ([None]) or dangling, and it is never again a pointer to a live
    object. *)
Inductive dangling := Dangling.

(** The object behind [old], for a call of [xs_copy] that goes on to read
    it: [NULL] points to none, and reading the object of an earlier call
    is undefined. *)
Definition pointee (old : option dangling) : option (option xs) :=
  match old with
  | None => Some None
  | Some Dangling => None
  end.

(** The outcome of one call: the token returned ([None] is [NULL]), the
    object [x] worked on, the value of [old] on return and the heap. *)
Record tok_out := TokOut {
  token : option xs;
  tok_x : xs;
  tok_old : option dangling;
  tok_heap : heap
}.

(** With [x == NULL] the string worked on is the temporary that [xs_tmp]
    makes for the empty string in [x = xs_copy(xs_tmp(..), old)].  That
    compound literal belongs to the block of the [if] statement and ends
    with it, so that the test on the next line, [xs_data(x)], reads an
    object whose lifetime is over: the call has no defined result. *)
Definition xs_tok (x : option xs) (delim : list Z) (old : option dangling)
    (h : heap) : option tok_out :=
  '(x, h) ←
    match x with
    | Some x => Some (x, h)
    | None =>
        '(empty, h) ← xs_tmp [0] h;
        src ← pointee old;
        _ ← xs_copy (Some empty) src h;
        None
    end;
  if is_null (xs_data x) then
    dest ← pointee old;
    '(_, h) ← xs_copy dest (Some x) h;
    Some (TokOut None x old h)
  else
    d0 ← delim !! 0%nat;
    if d0 =? 0 then Some (TokOut (Some x) x old h)
    else
      '(x, h) ← cow_if_shared x h;
      let dataptr := xs_data x in
      let orig := dataptr in
      let xlen := xs_size x in
      dlen ← strlen delim;
      let mask := make_mask delim dlen in
      i ← scan_up (Z.to_nat xlen) (λ k, mem_load x h (padd dataptr k))
             (λ c, negb (check_bit mask c)) 0;
      let dataptr := padd dataptr i in
      let xlen := sz (xlen - i) in
      bs ← mem_read x h dataptr xlen;
      '(x, h) ← mem_write x h orig bs;
      '(x, h) ← mem_store x h (padd orig xlen) 0;
      let x := if xs_is_ptr x then set_size xlen x
               else set_space_left (sz (15 - xlen)) x in
      c ← mem_load x h (xs_data x);
      if c =? 0 then
        dest ← pointee old;
        '(_, h) ← xs_copy dest (Some x) h;
        h ← (if xs_is_ptr x then set_ref_counter x 1 h else Some h);
        Some (TokOut None x old h)
      else
        let dataptr := xs_data x in
        i ← scan_up (Z.to_nat xlen) (λ k, mem_load x h (padd dataptr k))
               (check_bit mask) 0;
        let xlen := i in
        c ← mem_load x h (padd (xs_data x) xlen);
        if c =? 0 then
          '(empty, h) ← xs_tmp [0] h;
          dest ← pointee old;
          '(_, h) ← xs_copy dest (Some empty) h;
          h ← (if xs_is_ptr x then set_ref_counter x 1 h else Some h);
          Some (TokOut (Some x) x old h)
        else
          '(x, h) ← mem_store x h (padd orig xlen) 0;
          rest ← mem_cstr x h (padd (padd (xs_data x) xlen) 1);
          '(_, h) ← xs_tmp rest h;
          let old := Some Dangling in
          if xs_is_ptr x then
            let x := set_size xlen x in
            h ← set_ref_counter x 1 h;
            Some (TokOut (Some x) x old h)
          else
            let x := set_space_left (sz (15 - xlen)) x in
            Some (TokOut (Some x) x old h).

(** ** Well-formed values

    What the operations establish and rely on: a string object is 16
    bytes; an inline string has its terminator at [data\[size\]] and no
    earlier zero byte; a heap string points to a live block of
    [2 ^ capacity] bytes that holds the payload, the terminator and, right
    after it, the reference count. *)

Definition is_byte (b : Z) : bool := (0 <=? b) && (b <? 256).

Definition xs_ok (x : xs) : bool :=
  (length x =? 16)%nat && forallb is_byte x.

Definition strlen_is (s : list Z) (n : Z) : bool :=
  match strlen s with
  | Some m => m =? n
  | None => false
  end.

Definition xs_wf (x : xs) (h : heap) : bool :=
  xs_ok x &&
  if xs_is_ptr x then
    match heap_get h (x_ptr x) with
    | Some b =>
        (Z.of_nat (length b) =? 2 ^ x_capacity x)
        && (x_capacity x <=? 32)
        && (x_size x + 1 <? 2 ^ x_capacity x)
        && forallb is_byte b
        && strlen_is b (x_size x)
    | None => false
    end
  else strlen_is x (15 - x_space_left x).

(** [dest] is a heap string on the buffer [src] points to. *)
Definition already_shares (dest src : xs) : bool :=
  xs_is_ptr dest && (x_ptr dest =? x_ptr src).

(** The payload of a string: the [size] bytes at [data]. *)
Definition xs_bytes (x : xs) (h : heap) : option (list Z) :=
  mem_read x h (xs_data x) (xs_size x).

(** The payload of a string literal, and the literal in memory with its
    terminator. *)
Definition bytes_of (s : string) : list Z :=
  (λ a, Z.of_N (Ascii.N_of_ascii a)) <$> String.list_ascii_of_string s.

Definition cstr (s : string) : list Z := bytes_of s ++ [0].

(** The bytes of the token a call of [xs_tok] returned. *)
Definition tok_payload (r : tok_out) : option (list Z) :=
  t ← token r; xs_bytes t (tok_heap r).

(** ** Sample states

    Runs of the operations from the empty heap, used as concrete inputs
    below. *)

(** A 20-byte heap string, alone on its buffer. *)
Definition twenty : list Z * list (option (list Z)) :=
  Eval vm_compute in
    default ([], []) (xs_new (cstr "aaaaaaaaaaaaaaaaaaaa") []).

(** The same string after [xs_copy(&d, &s)] into an empty [d]: two
    aliases, count 2. *)
Definition twenty_shared : list Z * list (option (list Z)) :=
  Eval vm_compute in
    default ([], [])
      ('(d, h) ← xs_copy (Some xs_literal_empty) (Some twenty.1) twenty.2;
       d ← d; Some (d, h)).

(** Two 20-byte heap strings, each alone on its buffer. *)
Definition twenty_pair : (list Z * list Z) * list (option (list Z)) :=
  Eval vm_compute in
    default (([], []), [])
      ('(d, h) ← xs_new (cstr "bbbbbbbbbbbbbbbbbbbb") twenty.2;
       Some ((twenty.1, d), h)).

(** A 21-byte heap string with two aliases. *)
Definition greeting_shared : list Z * list (option (list Z)) :=
  Eval vm_compute in
    default ([], [])
      ('(s, h) ← xs_new (cstr "  hello, wide world  ") [];
       '(d, h) ← xs_copy (Some xs_literal_empty) (Some s) h;
       d ← d; Some (d, h)).

(** The inline string "ab". *)
Definition ab : list Z :=
  Eval vm_compute in default [] (fst <$> xs_new (cstr "ab") []).

(** [n] more assignments from [s] into fresh empty strings. *)
Fixpoint share (n : nat) (s : xs) (h : heap) : option heap :=
  match n with
  | O => Some h
  | S k =>
      '(_, h) ← xs_copy (Some xs_literal_empty) (Some s) h; share k s h
  end.

(** The 20-byte string with 255 aliases. *)
Definition twenty_saturated : list (option (list Z)) :=
  Eval vm_compute in default [] (share 254 twenty.1 twenty.2).

(** ** Heaps that differ in one block

    [same_but p h h1]: [h1] has the blocks of [h], except perhaps block
    [p]. *)
Definition same_but (p : Z) (h h1 : list (option (list Z))) : Prop :=
  length h1 = length h ∧ ∀ q, q ≠ p → heap_get h1 q = heap_get h q.

(** The heap block an address points into; 0 for an address into the
    string object. *)
Definition addr_block (a : addr) : Z :=
  match a with InObj _ => 0 | InHeap p _ => p end.

(** ** More sample states *)

(** The inline string "  hi  ". *)
Definition hi_padded : list Z :=
  Eval vm_compute in default [] (fst <$> xs_new (cstr "  hi  ") []).

(** The inline string "a,b". *)
Definition a_b : list Z :=
  Eval vm_compute in default [] (fst <$> xs_new (cstr "a,b") []).

(** The inline string ",,". *)
Definition commas : list Z :=
  Eval vm_compute in default [] (fst <$> xs_new (cstr ",,") []).

(** A 9-byte inline string. *)
Definition nine : list Z :=
  Eval vm_compute in default [] (fst <$> xs_new (cstr "123456789") []).

(** A 15-byte inline string: the inline capacity. *)
Definition fifteen : list Z :=
  Eval vm_compute in default [] (fst <$> xs_new (cstr "0123456789abcde") []).

(** A 16-byte heap string, alone on its block of 32 bytes. *)
Definition sixteen : list Z * list (option (list Z)) :=
  Eval vm_compute in
    default ([], []) (xs_new (cstr "0123456789abcdef") []).

(** ** Exact reference counts

    A state is a heap and the list of its string objects.  Two strings
    that share a buffer are two entries of the list, with the same
    [ptr]. *)

(** [y] is a heap string on block [p]. *)
Definition on_block (p : Z) (y : list Z) : bool :=
  xs_is_ptr y && (x_ptr y =? p).

(** The number of strings of [ys] on block [p]. *)
Fixpoint holders (p : Z) (ys : list (list Z)) : Z :=
  match ys with
  | [] => 0
  | y :: ys => Z.b2z (on_block p y) + holders p ys
  end.

(** [y] is well formed and, when on the heap, its count is the number of
    strings of [ys] on its block. *)
Definition counted (ys : list (list Z)) (h : list (option (list Z)))
    (y : list Z) : bool :=
  xs_wf y h &&
  (if xs_is_ptr y then
     match xs_ref_counter y h with
     | Some c => c =? holders (x_ptr y) ys
     | None => false
     end
   else true).

(** Every reference count is exact.  [ys] lists the string objects of a
    state, two aliases as two entries. *)
Definition counts_exact (ys : list (list Z)) (h : list (option (list Z)))
  : bool :=
  forallb (counted ys h) ys.

(** * Bit fields *)

Lemma testbit_bits off w x i :
  0 <= off → 0 <= w → 0 <= i →
  Z.testbit (bits off w x) i = (i <? w) && Z.testbit x (i + off).
Proof.
  intros Ho Hw Hi. unfold bits.
  rewrite Z.land_spec, Z.shiftr_spec, Z.testbit_ones by lia.
  destruct (Z.ltb_spec i w), (Z.leb_spec 0 i); simpl;
    rewrite ?andb_true_r, ?andb_false_r; try reflexivity; lia.
Qed.

Lemma testbit_set_bits off w v x i :
  0 <= off → 0 <= w → 0 <= i →
  Z.testbit (set_bits off w v x) i =
  if (off <=? i) && (i <? off + w) then Z.testbit v (i - off)
  else Z.testbit x i.
Proof.
  intros Ho Hw Hi. unfold set_bits.
  rewrite Z.lor_spec, Z.ldiff_spec, !Z.shiftl_spec, Z.land_spec by lia.
  destruct (Z.leb_spec off i), (Z.ltb_spec i (off + w)); simpl.
  - rewrite !Z.testbit_ones by lia.
    replace ((0 <=? i - off) && (i - off <? w)) with true
      by (symmetry; apply andb_true_iff; split;
          [apply Z.leb_le | apply Z.ltb_lt]; lia).
    simpl. rewrite andb_false_r, andb_true_r. reflexivity.
  - rewrite !Z.testbit_ones by lia.
    replace (i - off <? w) with false by (symmetry; apply Z.ltb_ge; lia).
    rewrite !andb_false_r. simpl. rewrite andb_true_r, orb_false_r.
    reflexivity.
  - rewrite (Z.testbit_neg_r _ (i - off)) by lia.
    rewrite (Z.testbit_neg_r v (i - off)) by lia.
    simpl. rewrite andb_true_r, orb_false_r. reflexivity.
  - rewrite (Z.testbit_neg_r _ (i - off)) by lia.
    rewrite (Z.testbit_neg_r v (i - off)) by lia.
    simpl. rewrite andb_true_r, orb_false_r. reflexivity.
Qed.

Lemma bits_mod off w x : 0 <= off → 0 <= w → bits off w x = (x / 2 ^ off) mod 2 ^ w.
Proof.
  intros. unfold bits. rewrite Z.land_ones, Z.shiftr_div_pow2 by lia.
  reflexivity.
Qed.

Lemma bits_range off w x : 0 <= off → 0 <= w → 0 <= bits off w x < 2 ^ w.
Proof.
  intros. rewrite bits_mod by lia. apply Z.mod_pos_bound. lia.
Qed.

Lemma bits_small w x : 0 <= w → 0 <= x < 2 ^ w → bits 0 w x = x.
Proof.
  intros. rewrite bits_mod by lia. rewrite Z.pow_0_r, Z.div_1_r.
  apply Z.mod_small. lia.
Qed.

Lemma testbit_high w x i : 0 <= w → 0 <= x < 2 ^ w → w <= i → Z.testbit x i = false.
Proof.
  intros Hw Hx Hi. rewrite <- (bits_small w x) by lia.
  rewrite testbit_bits by lia.
  replace (i <? w) with false by (symmetry; apply Z.ltb_ge; lia).
  reflexivity.
Qed.

(** Equalities between bit-field expressions, bit by bit. *)
Ltac bitblast_step :=
  first
    [ progress (rewrite ?testbit_bits, ?testbit_set_bits, ?Z.lor_spec,
                  ?Z.land_spec, ?Z.shiftr_spec, ?Z.shiftl_spec by lia)
    | match goal with
      | |- context [?a <? ?b] => destruct (Z.ltb_spec a b)
      | |- context [?a <=? ?b] => destruct (Z.leb_spec a b)
      end
    | progress (simpl andb; simpl orb;
                rewrite ?andb_true_r, ?andb_false_r, ?orb_false_r) ].

Ltac bitblast :=
  apply Z.bits_inj'; intros ?i ?Hi;
  repeat bitblast_step;
  try reflexivity; try lia; try (f_equal; lia).

Lemma bits_set_bits_same off w v x :
  0 <= off → 0 <= w → bits off w (set_bits off w v x) = bits 0 w v.
Proof. intros. bitblast. Qed.

Lemma bits_set_bits_other o1 w1 o2 w2 v x :
  0 <= o1 → 0 <= w1 → 0 <= o2 → 0 <= w2 →
  o1 + w1 <= o2 ∨ o2 + w2 <= o1 →
  bits o1 w1 (set_bits o2 w2 v x) = bits o1 w1 x.
Proof. intros. bitblast. Qed.

Lemma bits_bits o1 w1 o2 w2 x :
  0 <= o1 → 0 <= w1 → 0 <= o2 → o1 + w1 <= w2 →
  bits o1 w1 (bits o2 w2 x) = bits (o1 + o2) w1 x.
Proof. intros. bitblast. Qed.

Lemma set_bits_id off w x :
  0 <= off → 0 <= w → set_bits off w (bits off w x) x = x.
Proof. intros. bitblast. Qed.

(** * Little-endian words *)

Lemma is_byte_true b : is_byte b = true ↔ 0 <= b < 256.
Proof. unfold is_byte. rewrite andb_true_iff, Z.leb_le, Z.ltb_lt. tauto. Qed.

Lemma forallb_is_byte bs :
  forallb is_byte bs = true ↔ Forall (λ b, 0 <= b < 256) bs.
Proof.
  rewrite forallb_forall, Forall_forall. split; intros H b Hb.
  - apply is_byte_true, H, list_elem_of_In, Hb.
  - apply is_byte_true, H, list_elem_of_In, Hb.
Qed.

Lemma nth_byte bs k :
  Forall (λ b, 0 <= b < 256) bs → 0 <= nth k bs 0 < 256.
Proof.
  intros H. revert k. induction H; intros [|k]; simpl; auto; lia.
Qed.

Lemma le_decode_testbit bs i :
  Forall (λ b, 0 <= b < 256) bs → 0 <= i →
  Z.testbit (le_decode bs) i
  = Z.testbit (nth (Z.to_nat (i / 8)) bs 0) (i mod 8).
Proof.
  intros Hbs. revert i. induction Hbs as [|b r Hb Hr IH]; intros i Hi.
  - simpl. destruct (Z.to_nat (i / 8)); rewrite !Z.testbit_0_l; reflexivity.
  - simpl le_decode. rewrite Z.lor_spec, Z.shiftl_spec by lia.
    destruct (Z.ltb_spec i 8).
    + rewrite Z.div_small, Z.mod_small by lia. simpl.
      rewrite (Z.testbit_neg_r _ (i - 8)) by lia. apply orb_false_r.
    + rewrite (testbit_high 8 b i) by lia. simpl.
      rewrite IH by lia.
      replace (Z.to_nat (i / 8)) with (S (Z.to_nat ((i - 8) / 8)))
        by (Z.to_euclidean_division_equations; lia).
      replace ((i - 8) mod 8) with (i mod 8)
        by (Z.to_euclidean_division_equations; lia).
      reflexivity.
Qed.

Lemma length_le_encode n w : length (le_encode n w) = n.
Proof. revert w. induction n; intros; simpl; auto. Qed.

Lemma nth_le_encode n w k :
  (k < n)%nat → nth k (le_encode n w) 0 = bits (8 * Z.of_nat k) 8 w.
Proof.
  revert w k. induction n as [|n IH]; intros w k Hk; [lia|].
  destruct k as [|k]; simpl nth.
  - reflexivity.
  - rewrite IH by lia. bitblast.
Qed.

Lemma le_encode_bytes n w : Forall (λ b, 0 <= b < 256) (le_encode n w).
Proof.
  revert w. induction n; intros; simpl; constructor; auto.
  apply (bits_range 0 8); lia.
Qed.

Lemma le_decode_encode n w :
  le_decode (le_encode n w) = bits 0 (8 * Z.of_nat n) w.
Proof.
  apply Z.bits_inj'; intros i Hi.
  rewrite le_decode_testbit by (auto using le_encode_bytes).
  rewrite testbit_bits by lia.
  destruct (Z.ltb_spec i (8 * Z.of_nat n)).
  - rewrite nth_le_encode by (Z.to_euclidean_division_equations; lia).
    rewrite testbit_bits by (Z.to_euclidean_division_equations; lia).
    replace (i mod 8 <? 8) with true
      by (symmetry; apply Z.ltb_lt; Z.to_euclidean_division_equations; lia).
    simpl. f_equal. Z.to_euclidean_division_equations; lia.
  - rewrite nth_overflow
      by (rewrite length_le_encode; Z.to_euclidean_division_equations; lia).
    apply Z.testbit_0_l.
Qed.

Lemma le_encode_decode bs :
  Forall (λ b, 0 <= b < 256) bs → le_encode (length bs) (le_decode bs) = bs.
Proof.
  intros Hbs. apply (nth_ext _ _ 0 0); rewrite length_le_encode; auto.
  intros k Hk. rewrite nth_le_encode by lia.
  apply Z.bits_inj'; intros i Hi.
  rewrite testbit_bits by lia.
  destruct (Z.ltb_spec i 8); simpl.
  - rewrite le_decode_testbit by (auto; lia).
    replace (Z.to_nat ((i + 8 * Z.of_nat k) / 8)) with k
      by (Z.to_euclidean_division_equations; lia).
    f_equal. Z.to_euclidean_division_equations; lia.
  - symmetry. apply (testbit_high 8); [lia | | lia].
    apply nth_byte, Hbs.
Qed.

Lemma le_decode_insert bs k b :
  Forall (λ b, 0 <= b < 256) bs → (k < length bs)%nat → 0 <= b < 256 →
  le_decode (<[k := b]> bs) = set_bits (8 * Z.of_nat k) 8 b (le_decode bs).
Proof.
  intros Hbs Hk Hb. apply Z.bits_inj'; intros i Hi.
  rewrite testbit_set_bits by lia.
  rewrite !le_decode_testbit by (auto using Forall_insert).
  destruct (Z.leb_spec (8 * Z.of_nat k) i), (Z.ltb_spec i (8 * Z.of_nat k + 8));
    simpl.
  - replace (Z.to_nat (i / 8)) with k
      by (Z.to_euclidean_division_equations; lia).
    rewrite nth_lookup, list_lookup_insert_eq by lia. simpl.
    f_equal. Z.to_euclidean_division_equations; lia.
  - rewrite !nth_lookup, list_lookup_insert_ne
      by (Z.to_euclidean_division_equations; lia). reflexivity.
  - rewrite !nth_lookup, list_lookup_insert_ne
      by (Z.to_euclidean_division_equations; lia). reflexivity.
  - lia.
Qed.

(** * The members of the union as views of its bytes *)

Lemma xs_ok_spec x :
  xs_ok x = true ↔ length x = 16%nat ∧ Forall (λ b, 0 <= b < 256) x.
Proof.
  unfold xs_ok. rewrite andb_true_iff, Nat.eqb_eq, forallb_is_byte. tauto.
Qed.

Ltac field_bits :=
  repeat first
    [ rewrite testbit_bits by lia
    | rewrite testbit_set_bits by lia ];
  simpl; rewrite ?andb_true_r; try reflexivity.

(** The members in byte 15 need only the 16 bytes to be there. *)
Section inline_fields.
Variable x : list Z.
Hypothesis Hlen : length x = 16%nat.

Lemma byte15_lookup : x !! 15%nat = Some (byte15 x).
Proof.
  unfold byte15. rewrite nth_lookup.
  destruct (lookup_lt_is_Some_2 x 15) as [y Hy]; [lia|].
  rewrite Hy. reflexivity.
Qed.

Lemma byte15_insert b : byte15 (<[15%nat := b]> x) = b.
Proof.
  unfold byte15. rewrite nth_lookup, list_lookup_insert_eq by lia.
  reflexivity.
Qed.

(** [x->is_ptr = b] *)
Lemma is_ptr_set_is_ptr b : x_is_ptr (set_is_ptr b x) = b.
Proof.
  unfold x_is_ptr, set_is_ptr. rewrite byte15_insert.
  field_bits. destruct b; reflexivity.
Qed.

Lemma space_left_set_is_ptr b :
  x_space_left (set_is_ptr b x) = x_space_left x.
Proof.
  unfold x_space_left, set_is_ptr. rewrite byte15_insert.
  apply bits_set_bits_other; lia.
Qed.

Lemma length_set_is_ptr b : length (set_is_ptr b x) = 16%nat.
Proof. unfold set_is_ptr. rewrite length_insert. exact Hlen. Qed.

Lemma take_set_is_ptr b k :
  (k <= 15)%nat → take k (set_is_ptr b x) = take k x.
Proof. intros. apply take_insert_ge. lia. Qed.

(** [x->space_left = v] *)
Lemma space_left_set_space_left v :
  x_space_left (set_space_left v x) = bits 0 4 v.
Proof.
  unfold x_space_left, set_space_left. rewrite byte15_insert.
  apply bits_set_bits_same; lia.
Qed.

Lemma is_ptr_set_space_left v :
  x_is_ptr (set_space_left v x) = x_is_ptr x.
Proof.
  unfold x_is_ptr, set_space_left. rewrite byte15_insert. field_bits.
Qed.

Lemma length_set_space_left v : length (set_space_left v x) = 16%nat.
Proof. unfold set_space_left. rewrite length_insert. exact Hlen. Qed.

Lemma take_set_space_left v k :
  (k <= 15)%nat → take k (set_space_left v x) = take k x.
Proof. intros. apply take_insert_ge. lia. Qed.

Lemma set_space_left_id : set_space_left (x_space_left x) x = x.
Proof.
  unfold set_space_left, x_space_left. rewrite set_bits_id by lia.
  apply list_insert_id, byte15_lookup.
Qed.
End inline_fields.

Section fields.
Variable x : list Z.
Hypothesis Hx : xs_ok x = true.

Lemma xs_ok_length : length x = 16%nat.
Proof. apply xs_ok_spec in Hx. tauto. Qed.

Lemma xs_ok_bytes : Forall (λ b, 0 <= b < 256) x.
Proof. apply xs_ok_spec in Hx. tauto. Qed.

Lemma xs_split : x = take 8 x ++ drop 8 x.
Proof. symmetry. apply take_drop. Qed.

Lemma word_bytes : take 8 (drop 8 x) = drop 8 x.
Proof. apply take_ge. rewrite length_drop, xs_ok_length. lia. Qed.

Lemma word_bytes_ok : Forall (λ b, 0 <= b < 256) (drop 8 x).
Proof. apply Forall_drop, xs_ok_bytes. Qed.

Lemma set_word_eq w : set_word w x = take 8 x ++ le_encode 8 w.
Proof.
  unfold set_word. rewrite (drop_ge x 16) by (rewrite xs_ok_length; lia).
  rewrite app_nil_r. reflexivity.
Qed.

Lemma set_word_ok w : xs_ok (set_word w x) = true.
Proof.
  apply xs_ok_spec. rewrite set_word_eq. split.
  - rewrite length_app, length_take, length_le_encode, xs_ok_length. lia.
  - apply Forall_app. split; [apply Forall_take, xs_ok_bytes|].
    apply le_encode_bytes.
Qed.

Lemma word_set_word w : x_word (set_word w x) = bits 0 64 w.
Proof.
  unfold x_word. rewrite set_word_eq.
  rewrite drop_app_length' by (rewrite length_take, xs_ok_length; lia).
  rewrite take_ge by (rewrite length_le_encode; lia).
  apply (le_decode_encode 8).
Qed.

Lemma ptr_set_word w : x_ptr (set_word w x) = x_ptr x.
Proof.
  unfold x_ptr. rewrite set_word_eq.
  rewrite take_app_length' by (rewrite length_take, xs_ok_length; lia).
  reflexivity.
Qed.

Lemma byte15_set_word w : byte15 (set_word w x) = bits 56 8 w.
Proof.
  unfold byte15. rewrite set_word_eq.
  rewrite app_nth2 by (rewrite length_take, xs_ok_length; lia).
  rewrite length_take, xs_ok_length.
  change (15 - 8 `min` 16)%nat with 7%nat.
  apply (nth_le_encode 8 w 7). lia.
Qed.

Lemma byte15_word : byte15 x = bits 56 8 (x_word x).
Proof.
  unfold byte15, x_word. rewrite word_bytes.
  apply Z.bits_inj'; intros i Hi.
  rewrite testbit_bits by lia.
  destruct (Z.ltb_spec i 8); simpl.
  - rewrite le_decode_testbit by (auto using word_bytes_ok; lia).
    replace (Z.to_nat ((i + 56) / 8)) with 7%nat
      by (Z.to_euclidean_division_equations; lia).
    rewrite !nth_lookup, lookup_drop. simpl.
    f_equal. Z.to_euclidean_division_equations; lia.
  - apply (testbit_high 8); [lia | | lia]. apply nth_byte, xs_ok_bytes.
Qed.

Lemma insert15_ok b : 0 <= b < 256 → xs_ok (<[15%nat := b]> x) = true.
Proof.
  intros Hb. apply xs_ok_spec. rewrite length_insert. split.
  - apply xs_ok_length.
  - apply Forall_insert; auto using xs_ok_bytes.
Qed.

Lemma word_insert15 b :
  0 <= b < 256 → x_word (<[15%nat := b]> x) = set_bits 56 8 b (x_word x).
Proof.
  intros Hb. unfold x_word.
  rewrite (take_ge (drop 8 (<[15%nat := b]> x)))
    by (rewrite length_drop, length_insert, xs_ok_length; lia).
  rewrite word_bytes.
  replace (drop 8 (<[15%nat := b]> x)) with (<[7%nat := b]> (drop 8 x)).
  - apply (le_decode_insert _ 7); auto using word_bytes_ok.
    rewrite length_drop, xs_ok_length. lia.
  - rewrite drop_insert_ge by lia. reflexivity.
Qed.

Lemma ptr_insert15 b : x_ptr (<[15%nat := b]> x) = x_ptr x.
Proof. unfold x_ptr. rewrite take_insert_ge by lia. reflexivity. Qed.

Lemma set_ptr_ok p : xs_ok (set_ptr p x) = true.
Proof.
  apply xs_ok_spec. unfold set_ptr. split.
  - rewrite length_app, length_drop, length_le_encode, xs_ok_length. lia.
  - apply Forall_app. split; [apply le_encode_bytes | apply word_bytes_ok].
Qed.

Lemma ptr_set_ptr p : x_ptr (set_ptr p x) = bits 0 64 p.
Proof.
  unfold x_ptr, set_ptr.
  rewrite take_app_length' by (rewrite length_le_encode; lia).
  apply (le_decode_encode 8).
Qed.

Lemma drop8_set_ptr p : drop 8 (set_ptr p x) = drop 8 x.
Proof.
  unfold set_ptr.
  rewrite drop_app_length' by (rewrite length_le_encode; lia).
  reflexivity.
Qed.

Lemma word_set_ptr p : x_word (set_ptr p x) = x_word x.
Proof. unfold x_word. rewrite drop8_set_ptr. reflexivity. Qed.

Lemma byte15_set_ptr p : byte15 (set_ptr p x) = byte15 x.
Proof.
  unfold byte15. rewrite !nth_lookup.
  replace (set_ptr p x !! 15%nat) with (drop 8 (set_ptr p x) !! 7%nat)
    by (rewrite lookup_drop; reflexivity).
  rewrite drop8_set_ptr, lookup_drop. reflexivity.
Qed.
End fields.

Lemma set_bits_range n off w v x :
  0 <= off → 0 <= w → off + w <= n → 0 <= x < 2 ^ n →
  0 <= set_bits off w v x < 2 ^ n.
Proof.
  intros Ho Hw Hn Hx.
  assert (set_bits off w v x = bits 0 n (set_bits off w v x)) as ->.
  { apply Z.bits_inj'; intros i Hi.
    rewrite testbit_bits, Z.add_0_r by lia.
    destruct (Z.ltb_spec i n); simpl; [reflexivity|].
    rewrite testbit_set_bits by lia.
    replace (i <? off + w) with false by (symmetry; apply Z.ltb_ge; lia).
    rewrite andb_false_r. apply (testbit_high n); lia. }
  apply bits_range; lia.
Qed.

Section field_updates.
Variable x : list Z.
Hypothesis Hx : xs_ok x = true.

Lemma byte15_range : 0 <= byte15 x < 256.
Proof. apply nth_byte, xs_ok_bytes, Hx. Qed.

Lemma set_size_ok v : xs_ok (set_size v x) = true.
Proof. apply set_word_ok, Hx. Qed.

Lemma set_capacity_ok v : xs_ok (set_capacity v x) = true.
Proof. apply set_word_ok, Hx. Qed.

Lemma set_is_ptr_ok b : xs_ok (set_is_ptr b x) = true.
Proof.
  apply insert15_ok; [exact Hx|].
  apply (set_bits_range 8); [lia..|]. apply byte15_range.
Qed.

Lemma set_space_left_ok v : xs_ok (set_space_left v x) = true.
Proof.
  apply insert15_ok; [exact Hx|].
  apply (set_bits_range 8); [lia..|]. apply byte15_range.
Qed.

(** [x->size = v] *)
Lemma size_set_size v : x_size (set_size v x) = bits 0 54 v.
Proof.
  unfold x_size, set_size. rewrite word_set_word by exact Hx. bitblast.
Qed.

Lemma capacity_set_size v : x_capacity (set_size v x) = x_capacity x.
Proof.
  unfold x_capacity, set_size. rewrite word_set_word by exact Hx. bitblast.
Qed.

Lemma is_ptr_set_size v : x_is_ptr (set_size v x) = x_is_ptr x.
Proof.
  unfold x_is_ptr, set_size.
  rewrite byte15_set_word, byte15_word by exact Hx. field_bits.
Qed.

Lemma ptr_set_size v : x_ptr (set_size v x) = x_ptr x.
Proof. apply ptr_set_word, Hx. Qed.

(** [x->capacity = v] *)
Lemma size_set_capacity v : x_size (set_capacity v x) = x_size x.
Proof.
  unfold x_size, set_capacity. rewrite word_set_word by exact Hx. bitblast.
Qed.

Lemma capacity_set_capacity v : x_capacity (set_capacity v x) = bits 0 6 v.
Proof.
  unfold x_capacity, set_capacity. rewrite word_set_word by exact Hx.
  bitblast.
Qed.

Lemma is_ptr_set_capacity v : x_is_ptr (set_capacity v x) = x_is_ptr x.
Proof.
  unfold x_is_ptr, set_capacity.
  rewrite byte15_set_word, byte15_word by exact Hx. field_bits.
Qed.

Lemma ptr_set_capacity v : x_ptr (set_capacity v x) = x_ptr x.
Proof. apply ptr_set_word, Hx. Qed.

(** [x->is_ptr = b] *)
Lemma size_set_is_ptr b : x_size (set_is_ptr b x) = x_size x.
Proof.
  unfold x_size, set_is_ptr.
  rewrite word_insert15; [bitblast | exact Hx |].
  apply (set_bits_range 8); [lia..|]. apply byte15_range.
Qed.

Lemma capacity_set_is_ptr b : x_capacity (set_is_ptr b x) = x_capacity x.
Proof.
  unfold x_capacity, set_is_ptr.
  rewrite word_insert15; [| exact Hx |].
  - rewrite (byte15_word x Hx). bitblast.
  - apply (set_bits_range 8); [lia..|]. apply byte15_range.
Qed.

Lemma ptr_set_is_ptr b : x_ptr (set_is_ptr b x) = x_ptr x.
Proof. apply ptr_insert15. Qed.

(** [x->ptr = p] *)
Lemma size_set_ptr p : x_size (set_ptr p x) = x_size x.
Proof. unfold x_size. rewrite word_set_ptr. reflexivity. Qed.

Lemma capacity_set_ptr p : x_capacity (set_ptr p x) = x_capacity x.
Proof. unfold x_capacity. rewrite word_set_ptr. reflexivity. Qed.

Lemma is_ptr_set_ptr p : x_is_ptr (set_ptr p x) = x_is_ptr x.
Proof. unfold x_is_ptr. rewrite byte15_set_ptr. reflexivity. Qed.

(** Storing a member's current value changes nothing. *)
Lemma set_size_id : set_size (x_size x) x = x.
Proof.
  unfold set_size, x_size. rewrite set_bits_id by lia.
  rewrite set_word_eq by exact Hx. unfold x_word.
  rewrite word_bytes by exact Hx.
  replace 8%nat with (length (drop 8 x)) at 2
    by (rewrite length_drop, xs_ok_length by exact Hx; reflexivity).
  rewrite le_encode_decode by (apply word_bytes_ok, Hx).
  apply take_drop.
Qed.

End field_updates.

(** * The heap *)

Lemma heap_get_Some h p b :
  heap_get h p = Some b → 0 < p <= Z.of_nat (length h).
Proof.
  unfold heap_get. destruct (Z.ltb_spec 0 p); [|discriminate].
  destruct (h !! Z.to_nat (p - 1)) eqn:E; [|discriminate].
  apply lookup_lt_Some in E. lia.
Qed.

Lemma heap_get_fresh h p : Z.of_nat (length h) < p → heap_get h p = None.
Proof.
  intros Hp. unfold heap_get. destruct (Z.ltb_spec 0 p); [|reflexivity].
  rewrite lookup_ge_None_2 by lia. reflexivity.
Qed.

Lemma heap_get_app_l h k p :
  p <= Z.of_nat (length h) → heap_get (h ++ k) p = heap_get h p.
Proof.
  intros Hp. unfold heap_get. destruct (Z.ltb_spec 0 p); [|reflexivity].
  rewrite lookup_app_l by lia. reflexivity.
Qed.

Lemma heap_get_app_new h b :
  heap_get (h ++ [b]) (Z.of_nat (length h) + 1) = b.
Proof.
  unfold heap_get.
  destruct (Z.ltb_spec 0 (Z.of_nat (length h) + 1)); [|lia].
  replace (Z.to_nat (Z.of_nat (length h) + 1 - 1)) with (length h + 0)%nat
    by lia.
  rewrite lookup_app_r by lia.
  replace (length h + 0 - length h)%nat with 0%nat by lia. reflexivity.
Qed.

Lemma heap_get_set_eq h p b :
  0 < p <= Z.of_nat (length h) → heap_get (heap_set h p b) p = b.
Proof.
  intros Hp. unfold heap_get, heap_set.
  destruct (Z.ltb_spec 0 p); [|lia].
  rewrite list_lookup_insert_eq by lia. reflexivity.
Qed.

Lemma heap_get_set_ne h p q b :
  0 < q → p ≠ q → heap_get (heap_set h q b) p = heap_get h p.
Proof.
  intros Hq Hne. unfold heap_get, heap_set.
  destruct (Z.ltb_spec 0 p); [|reflexivity].
  rewrite list_lookup_insert_ne by lia. reflexivity.
Qed.

Lemma length_heap_set h p b : length (heap_set h p b) = length h.
Proof. apply length_insert. Qed.

Lemma heap_set_app_new h b b' :
  heap_set (h ++ [b]) (Z.of_nat (length h) + 1) b' = h ++ [b'].
Proof.
  unfold heap_set.
  replace (Z.to_nat (Z.of_nat (length h) + 1 - 1)) with (length h + 0)%nat
    by lia.
  rewrite insert_app_r. reflexivity.
Qed.

(** * Buffers *)

Lemma buf_write_prefix b bs :
  (length bs <= length b)%nat →
  buf_write b 0 bs = Some (bs ++ drop (length bs) b).
Proof.
  intros H. unfold buf_write.
  destruct (Z.leb_spec (0 + Z.of_nat (length bs)) (Z.of_nat (length b)));
    [|lia].
  reflexivity.
Qed.

Lemma buf_write_one b i v :
  0 <= i < Z.of_nat (length b) →
  buf_write b i [v] = Some (<[Z.to_nat i := v]> b).
Proof.
  intros H. unfold buf_write. change (length [v]) with 1%nat.
  destruct (Z.leb_spec 0 i); [|lia].
  destruct (Z.leb_spec (i + Z.of_nat 1) (Z.of_nat (length b))); [|lia].
  cbn [andb]. f_equal. rewrite insert_take_drop by lia.
  cbn [app]. do 3 f_equal. lia.
Qed.

Lemma buf_write_length b off bs b' :
  buf_write b off bs = Some b' → length b' = length b.
Proof.
  unfold buf_write.
  destruct (Z.leb_spec 0 off); [|discriminate].
  destruct (Z.leb_spec (off + Z.of_nat (length bs)) (Z.of_nat (length b)));
    [|discriminate].
  simpl. intros [= <-].
  rewrite !length_app, length_take, length_drop. lia.
Qed.

Lemma buf_read_Some b off n :
  0 <= off → 0 <= n → off + n <= Z.of_nat (length b) →
  buf_read b off n = Some (take (Z.to_nat n) (drop (Z.to_nat off) b)).
Proof.
  intros. unfold buf_read.
  destruct (Z.leb_spec 0 off); [|lia].
  destruct (Z.leb_spec 0 n); [|lia].
  destruct (Z.leb_spec (off + n) (Z.of_nat (length b))); [|lia].
  reflexivity.
Qed.

Lemma buf_read_one b i :
  0 <= i → (buf_read b i 1 ≫= head) = b !! Z.to_nat i.
Proof.
  intros Hi. unfold buf_read.
  destruct (Z.leb_spec 0 i); [|lia]. simpl.
  destruct (Z.leb_spec (i + 1) (Z.of_nat (length b))); simpl.
  - destruct (drop (Z.to_nat i) b) eqn:E.
    + apply (f_equal length) in E. rewrite length_drop in E. simpl in E. lia.
    + simpl. rewrite <- (Nat.add_0_r (Z.to_nat i)), <- lookup_drop, E.
      reflexivity.
  - symmetry. apply lookup_ge_None_2. lia.
Qed.

Lemma mem_load_heap x h p i b :
  heap_get h p = Some b → 0 <= i →
  mem_load x h (InHeap p i) = b !! Z.to_nat i.
Proof.
  intros Hb Hi. unfold mem_load, mem_read. simpl. rewrite Hb. simpl.
  apply buf_read_one, Hi.
Qed.

Lemma mem_load_obj x h i :
  0 <= i → mem_load x h (InObj i) = x !! Z.to_nat i.
Proof. intros Hi. unfold mem_load, mem_read. simpl. apply buf_read_one, Hi. Qed.

Lemma mem_store_heap x h p i v b :
  heap_get h p = Some b → 0 <= i < Z.of_nat (length b) →
  mem_store x h (InHeap p i) v
  = Some (x, heap_set h p (Some (<[Z.to_nat i := byte v]> b))).
Proof.
  intros Hb Hi. unfold mem_store, mem_write. rewrite Hb. simpl.
  rewrite buf_write_one by lia. reflexivity.
Qed.

(** * [strlen] *)

Lemma strlen_app a r :
  Forall (λ c, c ≠ 0) a → strlen (a ++ 0 :: r) = Some (Z.of_nat (length a)).
Proof.
  induction 1 as [|c a Hc Ha IH]; simpl; [reflexivity|].
  destruct (Z.eqb_spec c 0); [contradiction|].
  rewrite IH. simpl. f_equal. lia.
Qed.

Lemma strlen_inv s n :
  strlen s = Some n →
  ∃ a r, s = a ++ 0 :: r ∧ Z.of_nat (length a) = n ∧ Forall (λ c, c ≠ 0) a.
Proof.
  revert n. induction s as [|c s IH]; intros n; simpl; [discriminate|].
  destruct (Z.eqb_spec c 0) as [->|Hc].
  - intros [= <-]. exists [], s. auto.
  - destruct (strlen s) as [m|]; [|discriminate]. simpl. intros [= <-].
    destruct (IH m eq_refl) as (a & r & -> & <- & Ha).
    exists (c :: a), r. repeat split; [simpl; lia|]. constructor; auto.
Qed.

(** * Construction *)

Lemma sz_small z : 0 <= z < 2 ^ 64 → sz z = z.
Proof. intros. apply Z.mod_small. lia. Qed.

Lemma ilog2_spec n : 0 < n < 2 ^ 32 → ilog2 n = Some (Z.log2 n).
Proof.
  intros Hn. unfold ilog2, builtin_clz. rewrite Z.mod_small by lia.
  destruct (Z.eqb_spec n 0); [lia|]. simpl. f_equal. lia.
Qed.

Lemma literal_empty_ok : xs_ok xs_literal_empty = true.
Proof. reflexivity. Qed.

Lemma heap_header_fields n c :
  0 <= n < 2 ^ 54 → 0 <= c < 64 →
  let x := set_is_ptr true (set_size n (set_capacity c xs_literal_empty)) in
  xs_ok x = true ∧ x_capacity x = c ∧ x_size x = n ∧ x_is_ptr x = true.
Proof.
  intros Hn Hc x.
  pose proof literal_empty_ok as H0.
  pose proof (set_capacity_ok _ H0 c) as H1.
  pose proof (set_size_ok _ H1 n) as H2.
  pose proof (set_is_ptr_ok _ H2 true) as H3.
  split; [exact H3|]. subst x. split; [|split].
  - rewrite capacity_set_is_ptr, capacity_set_size, capacity_set_capacity
      by assumption.
    apply bits_small; lia.
  - rewrite size_set_is_ptr, size_set_size by assumption.
    apply bits_small; lia.
  - apply is_ptr_set_is_ptr, xs_ok_length, H2.
Qed.

Lemma set_ptr_fields x q :
  xs_ok x = true → 0 <= q < 2 ^ 64 →
  xs_ok (set_ptr q x) = true ∧ x_ptr (set_ptr q x) = q
  ∧ x_capacity (set_ptr q x) = x_capacity x
  ∧ x_size (set_ptr q x) = x_size x
  ∧ x_is_ptr (set_ptr q x) = x_is_ptr x.
Proof.
  intros Hx Hq. split; [apply set_ptr_ok, Hx|]. split.
  - rewrite ptr_set_ptr. apply bits_small; lia.
  - auto using capacity_set_ptr, size_set_ptr, is_ptr_set_ptr.
Qed.

Lemma log2_bounds n : 16 < n < 2 ^ 32 → 4 <= Z.log2 n < 32 ∧ 2 ^ Z.log2 n <= n < 2 ^ (Z.log2 n + 1).
Proof.
  intros Hn. pose proof (Z.log2_spec n ltac:(lia)) as Hs.
  split; [|exact Hs]. split.
  - apply Z.log2_le_pow2; lia. 
  - apply Z.log2_lt_pow2; lia.
Qed.

Lemma take_cstr a r k :
  k = Z.of_nat (length a) + 1 → take (Z.to_nat k) (a ++ 0 :: r) = a ++ [0].
Proof.
  intros ->.
  replace (Z.to_nat (Z.of_nat (length a) + 1)) with (length (a ++ [0]))
    by (rewrite length_app; simpl; lia).
  rewrite (cons_middle 0 a r), app_assoc. apply take_app_length.
Qed.

Lemma shiftl_1 c : 0 <= c < 64 → sz (1 ≪ c) = 2 ^ c.
Proof.
  intros Hc. rewrite Z.shiftl_1_l. apply sz_small.
  split; [lia|]. apply Z.pow_lt_mono_r; lia.
Qed.

Lemma xs_new_heap a r h :
  Forall (λ c, c ≠ 0) a →
  16 <= Z.of_nat (length a) → Z.of_nat (length a) + 1 < 2 ^ 32 →
  Z.of_nat (length h) + 1 < 2 ^ 64 →
  let n := Z.of_nat (length a) in
  let c := Z.log2 (n + 1) + 1 in
  ∃ x,
    xs_new (a ++ 0 :: r) h
    = Some (x, h ++ [Some (a ++ [0; 1]
                       ++ replicate (Z.to_nat (2 ^ c - n - 2)) uninit)])
    ∧ xs_ok x = true ∧ x_is_ptr x = true
    ∧ x_ptr x = Z.of_nat (length h) + 1
    ∧ x_size x = n ∧ x_capacity x = c.
Proof.
  intros Ha Hn16 Hn32 Hh n c.
  destruct (log2_bounds (n + 1) ltac:(lia)) as [Hlg Hpow]. fold c in Hpow.
  unfold xs_new. rewrite (strlen_app a r Ha). cbn [mbind option_bind].
  fold n. rewrite (sz_small (n + 1)) by lia.
  destruct (Z.ltb_spec 16 (n + 1)); [|lia].
  rewrite ilog2_spec by lia. cbn [mbind option_bind]. fold c.
  replace (n + 1 - 1) with n by lia.
  destruct (heap_header_fields n c ltac:(lia) ltac:(lia))
    as (Hok0 & Hc0 & Hn0 & Hp0).
  set (x0 := set_is_ptr true (set_size n (set_capacity c xs_literal_empty)))
    in *.
  rewrite Hc0. unfold malloc.
  set (q := Z.of_nat (length h) + 1).
  destruct (set_ptr_fields x0 q Hok0 ltac:(lia)) as (Hok & Hq & Hc1 & Hn1 & Hp1).
  set (x := set_ptr q x0) in *. clearbody x x0. subst q.
  rewrite Hq, shiftl_1 by lia. rewrite take_cstr by reflexivity.
  assert (Hlen : (length (a ++ [0%Z]) <= Z.to_nat (2 ^ c))%nat)
    by (rewrite length_app; simpl; lia).
  unfold mem_write. rewrite heap_get_app_new. cbn [mbind option_bind].
  rewrite buf_write_prefix by (rewrite length_replicate; exact Hlen).
  cbn [mbind option_bind]. rewrite heap_set_app_new.
  unfold set_ref_counter, ref_addr. rewrite Hq, Hn1, Hn0.
  rewrite (mem_store_heap _ _ _ _ _ _ (heap_get_app_new _ _)).
  2:{ rewrite length_app, length_app, length_drop, length_replicate.
      simpl. lia. }
  cbn [fmap option_fmap option_map snd mbind option_bind].
  rewrite heap_set_app_new.
  exists x. split; [|rewrite Hc1, Hn1, Hp1; auto].
  do 4 f_equal. rewrite drop_replicate.
  replace (Z.to_nat (n + 1)) with (length (a ++ [0%Z]) + 0)%nat
    by (rewrite length_app; simpl; lia).
  rewrite insert_app_r, <- app_assoc. f_equal. simpl. f_equal.
  replace (Z.to_nat (2 ^ c) - length (a ++ [0%Z]))%nat
    with (S (Z.to_nat (2 ^ c - n - 2)))
    by (rewrite length_app; simpl; lia).
  reflexivity.
Qed.


Lemma xs_new_inline a r h :
  Forall (λ c, c ≠ 0) a → (length a <= 15)%nat →
  ∃ x,
    xs_new (a ++ 0 :: r) h = Some (x, h)
    ∧ length x = 16%nat ∧ x_is_ptr x = false
    ∧ x_space_left x = 15 - Z.of_nat (length a)
    ∧ take (length a) x = a ∧ x !! length a = Some 0
    ∧ (Forall (λ b, 0 <= b < 256) a → xs_ok x = true).
Proof.
  intros Ha Hn.
  unfold xs_new. rewrite (strlen_app a r Ha). cbn [mbind option_bind].
  rewrite (sz_small (Z.of_nat (length a) + 1)) by lia.
  destruct (Z.ltb_spec 16 (Z.of_nat (length a) + 1)); [lia|].
  rewrite take_cstr by reflexivity.
  unfold mem_write.
  rewrite buf_write_prefix by (rewrite length_app; simpl; lia).
  cbn [mbind option_bind].
  set (x1 := (a ++ [0]) ++ drop (length (a ++ [0])) xs_literal_empty).
  assert (Hlen1 : length x1 = 16%nat).
  { unfold x1. rewrite !length_app, length_drop. simpl. lia. }
  assert (Ht1 : take (length a) x1 = a).
  { unfold x1. rewrite <- app_assoc. apply take_app_length. }
  assert (Hz1 : x1 !! length a = Some 0).
  { unfold x1. rewrite <- app_assoc. rewrite lookup_app_r by lia.
    rewrite Nat.sub_diag. reflexivity. }
  replace (15 - (Z.of_nat (length a) + 1 - 1)) with (15 - Z.of_nat (length a))
    by lia.
  pose proof (length_set_space_left x1 Hlen1 (15 - Z.of_nat (length a))) as Hl2.
  eexists. split; [reflexivity|].
  split; [apply length_set_is_ptr, Hl2|].
  split; [apply is_ptr_set_is_ptr, Hl2|].
  split.
  { rewrite space_left_set_is_ptr, space_left_set_space_left by assumption.
    apply bits_small; lia. }
  split.
  { rewrite take_set_is_ptr, take_set_space_left by lia. exact Ht1. }
  split.
  { destruct (decide (length a = 15%nat)) as [E|E].
    - set (X := set_is_ptr false _). rewrite E.
      rewrite (byte15_lookup X (length_set_is_ptr _ Hl2 false)).
      unfold X, set_is_ptr. rewrite byte15_insert by exact Hl2.
      unfold set_space_left. rewrite byte15_insert by exact Hlen1.
      rewrite E in Hz1. rewrite (byte15_lookup x1 Hlen1) in Hz1.
      injection Hz1 as ->. rewrite E. reflexivity.
    - unfold set_is_ptr, set_space_left.
      rewrite !list_lookup_insert_ne by lia. exact Hz1. }
  intros Hb. apply set_is_ptr_ok, set_space_left_ok.
  apply xs_ok_spec. split; [exact Hlen1|].
  unfold x1. rewrite !Forall_app. repeat split; auto.
  - repeat constructor; lia.
  - apply Forall_drop. apply xs_ok_spec. reflexivity.
Qed.

Lemma mem_read_heap x h p off n b :
  heap_get h p = Some b → mem_read x h (InHeap p off) n = buf_read b off n.
Proof. intros Hb. unfold mem_read. simpl. rewrite Hb. reflexivity. Qed.

Lemma buf_read_prefix a k n :
  n = Z.of_nat (length a) → buf_read (a ++ k) 0 n = Some a.
Proof.
  intros ->. rewrite buf_read_Some by (rewrite ?length_app; lia).
  rewrite Nat2Z.id. change (Z.to_nat 0) with 0%nat.
  rewrite drop_0, take_app_length. reflexivity.
Qed.

Lemma strlen_is_true s n : strlen_is s n = true ↔ strlen s = Some n.
Proof.
  unfold strlen_is. destruct (strlen s) as [m|]; [|split; discriminate].
  rewrite Z.eqb_eq. split; congruence.
Qed.

Lemma xs_wf_heap x h b :
  xs_ok x = true → x_is_ptr x = true → heap_get h (x_ptr x) = Some b →
  Z.of_nat (length b) = 2 ^ x_capacity x → x_capacity x <= 32 →
  x_size x + 1 < 2 ^ x_capacity x →
  Forall (λ c, 0 <= c < 256) b → strlen b = Some (x_size x) →
  xs_wf x h = true.
Proof.
  intros Hok Hp Hb Hl Hc Hs Hbytes Hstr. unfold xs_wf, xs_is_ptr.
  rewrite Hok, Hp, Hb. simpl.
  repeat (apply andb_true_intro; split).
  - apply Z.eqb_eq, Hl.
  - apply Z.leb_le, Hc.
  - apply Z.ltb_lt, Hs.
  - apply forallb_is_byte, Hbytes.
  - apply strlen_is_true, Hstr.
Qed.

Lemma xs_wf_heap_inv x h :
  xs_wf x h = true → x_is_ptr x = true →
  xs_ok x = true ∧
  ∃ b, heap_get h (x_ptr x) = Some b
    ∧ Z.of_nat (length b) = 2 ^ x_capacity x ∧ x_capacity x <= 32
    ∧ x_size x + 1 < 2 ^ x_capacity x
    ∧ Forall (λ c, 0 <= c < 256) b ∧ strlen b = Some (x_size x).
Proof.
  unfold xs_wf, xs_is_ptr. intros H Hp. rewrite Hp in H.
  apply andb_true_iff in H as [Hok H]. split; [exact Hok|].
  destruct (heap_get h (x_ptr x)) as [b|]; [|discriminate].
  exists b. repeat (apply andb_true_iff in H as [H ?]).
  repeat split; auto.
  - apply Z.eqb_eq, H.
  - apply Z.leb_le; assumption.
  - apply Z.ltb_lt; assumption.
  - apply forallb_is_byte; assumption.
  - apply strlen_is_true; assumption.
Qed.

Lemma xs_wf_inline x h :
  xs_ok x = true → x_is_ptr x = false →
  strlen x = Some (15 - x_space_left x) → xs_wf x h = true.
Proof.
  intros Hok Hp Hs. unfold xs_wf, xs_is_ptr. rewrite Hok, Hp. simpl.
  apply strlen_is_true, Hs.
Qed.

Lemma xs_wf_inline_inv x h :
  xs_wf x h = true → x_is_ptr x = false →
  xs_ok x = true ∧ strlen x = Some (15 - x_space_left x).
Proof.
  unfold xs_wf, xs_is_ptr. intros H Hp. rewrite Hp in H.
  apply andb_true_iff in H as [Hok H]. split; [exact Hok|].
  apply strlen_is_true, H.
Qed.

Lemma xs_new_spec a r h :
  Forall (λ c, c ≠ 0) a →
  Z.of_nat (length a) + 1 < 2 ^ 32 → Z.of_nat (length h) + 1 < 2 ^ 64 →
  ∃ x h',
    xs_new (a ++ 0 :: r) h = Some (x, h')
    ∧ xs_size x = Z.of_nat (length a)
    ∧ xs_bytes x h' = Some a
    ∧ mem_load x h' (padd (xs_data x) (xs_size x)) = Some 0
    ∧ (Forall (λ b, 0 <= b < 256) a → xs_wf x h' = true)
    ∧ xs_is_ptr x = (16 <=? Z.of_nat (length a))
    ∧ (xs_is_ptr x = false → h' = h)
    ∧ (xs_is_ptr x = true →
       x_ptr x = Z.of_nat (length h) + 1
       ∧ x_capacity x = Z.log2 (Z.of_nat (length a) + 1) + 1
       ∧ xs_ref_counter x h' = Some 1
       ∧ ∃ blk, h' = h ++ [Some blk]
           ∧ Z.of_nat (length blk) = 2 ^ x_capacity x).
Proof.
  intros Ha Hn Hh.
  destruct (Z.leb_spec 16 (Z.of_nat (length a))) as [H16|H16].
  - destruct (xs_new_heap a r h Ha H16 Hn Hh)
      as (x & Hnew & Hok & Hp & Hq & Hs & Hc).
    destruct (log2_bounds (Z.of_nat (length a) + 1) ltac:(lia)) as [Hlg Hpow].
    set (n := Z.of_nat (length a)) in *.
    set (c := Z.log2 (n + 1) + 1) in *.
    set (blk := a ++ [0; 1] ++ replicate (Z.to_nat (2 ^ c - n - 2)) uninit)
      in *.
    assert (Hget : heap_get (h ++ [Some blk]) (x_ptr x) = Some blk)
      by (rewrite Hq; apply heap_get_app_new).
    assert (Hblk : Z.of_nat (length blk) = 2 ^ c).
    { unfold blk. rewrite !length_app, length_replicate. simpl. lia. }
    exists x, (h ++ [Some blk]). split; [exact Hnew|].
    unfold xs_size, xs_bytes, xs_data, xs_size, xs_is_ptr. rewrite Hp, Hs.
    split; [reflexivity|]. split.
    { rewrite (mem_read_heap _ _ _ _ _ _ Hget).
      apply buf_read_prefix. reflexivity. }
    split.
    { cbn [padd]. rewrite Z.add_0_l.
      rewrite (mem_load_heap _ _ _ _ _ Hget) by lia.
      unfold blk, n. rewrite Nat2Z.id, lookup_app_r by lia.
      rewrite Nat.sub_diag. reflexivity. }
    split.
    { intros Hb. apply (xs_wf_heap _ _ blk); auto; rewrite ?Hc, ?Hs; try lia.
      - unfold blk. rewrite !Forall_app. split; [exact Hb|]. split.
        + repeat constructor; lia.
        + apply Forall_replicate. unfold uninit. lia.
      - unfold blk. apply strlen_app, Ha. }
    split; [reflexivity|]. split; [discriminate|]. intros _.
    split; [exact Hq|]. split; [exact Hc|]. split.
    { unfold xs_ref_counter, ref_addr. rewrite Hs.
      rewrite (mem_load_heap _ _ _ _ _ Hget) by lia.
      unfold blk, n.
      replace (Z.to_nat (Z.of_nat (length a) + 1)) with (length a + 1)%nat
        by lia.
      rewrite lookup_app_r by lia.
      replace (length a + 1 - length a)%nat with 1%nat by lia. reflexivity. }
    exists blk. rewrite Hc. auto.
  - destruct (xs_new_inline a r h Ha ltac:(lia))
      as (x & Hnew & Hlen & Hp & Hsl & Htake & Hz & Hok).
    exists x, h. split; [exact Hnew|].
    unfold xs_size, xs_bytes, xs_data, xs_size, xs_is_ptr. rewrite Hp, Hsl.
    split; [lia|]. split.
    { unfold mem_read. cbn [object_at addr_off mbind option_bind].
      rewrite buf_read_Some by lia.
      change (Z.to_nat 0) with 0%nat. rewrite drop_0.
      replace (Z.to_nat (15 - (15 - Z.of_nat (length a)))) with (length a)
        by lia.
      rewrite Htake. reflexivity. }
    split.
    { cbn [padd]. rewrite Z.add_0_l, mem_load_obj by lia.
      replace (Z.to_nat (15 - (15 - Z.of_nat (length a)))) with (length a)
        by lia.
      exact Hz. }
    split.
    { intros Hb. apply xs_wf_inline; auto. rewrite Hsl.
      rewrite <- (take_drop_middle x (length a) 0 Hz), Htake.
      rewrite strlen_app by exact Ha. f_equal. lia. }
    split; [reflexivity|]. split; [reflexivity|]. discriminate.
Qed.

(** * Construction: layout, capacity class, size and contents *)

(** C3 (amended).  A terminated input whose payload [a] (the bytes before
    the first zero byte) has at most 15 bytes is built inline, without
    touching the heap.  With 16 bytes or more it is built on the heap: the
    capacity class [c] is the least with [2 ^ c] strictly above the length
    counted with its terminator, the capacity is [2 ^ c - 1], the block
    allocated has exactly [2 ^ c] bytes, and the reference count is the
    byte right after the terminator, inside that block, set to 1. *)
Theorem xs_new_layout (a r : list Z) (h : heap) :
  Forall (λ c, c ≠ 0) a →
  Z.of_nat (length a) + 1 < 2 ^ 32 → Z.of_nat (length h) + 1 < 2 ^ 64 →
  ∃ x h',
    xs_new (a ++ 0 :: r) h = Some (x, h')
    ∧ (Z.of_nat (length a) <= 15 → xs_is_ptr x = false ∧ h' = h)
    ∧ (16 <= Z.of_nat (length a) →
       let len := Z.of_nat (length a) + 1 in
       let c := x_capacity x in
       xs_is_ptr x = true
       ∧ xs_capacity x = 2 ^ c - 1 ∧ Z.of_nat (length a) <= xs_capacity x
       ∧ len < 2 ^ c ∧ (∀ k, 0 <= k → len < 2 ^ k → c <= k)
       ∧ ∃ blk, h' = h ++ [Some blk]
           ∧ heap_get h' (x_ptr x) = Some blk
           ∧ Z.of_nat (length blk) = 2 ^ c
           ∧ x_size x + 1 < Z.of_nat (length blk)
           ∧ xs_ref_counter x h' = Some 1).
Proof.
  intros Ha Hn Hh.
  destruct (xs_new_spec a r h Ha Hn Hh)
    as (x & h' & Hnew & Hsz & _ & _ & _ & Hp & Hin & Hhp).
  exists x, h'. split; [exact Hnew|]. split.
  - intros Hle. rewrite Hp in *.
    destruct (Z.leb_spec 16 (Z.of_nat (length a))); [lia|]. auto.
  - intros Hge. rewrite Hp in *.
    destruct (Z.leb_spec 16 (Z.of_nat (length a))); [|lia].
    destruct (Hhp eq_refl) as (Hq & Hc & Hrc & blk & -> & Hblk).
    destruct (log2_bounds (Z.of_nat (length a) + 1) ltac:(lia)) as [Hlg Hpow].
    assert (Hsize : x_size x = Z.of_nat (length a)).
    { unfold xs_size, xs_is_ptr in *. rewrite Hp in Hsz. exact Hsz. }
    cbv zeta. rewrite Hc. split; [reflexivity|].
    assert (Hcap : xs_capacity x
                   = 2 ^ (Z.log2 (Z.of_nat (length a) + 1) + 1) - 1).
    { unfold xs_capacity. rewrite Hp, Hc, shiftl_1 by lia. reflexivity. }
    split; [exact Hcap|]. split; [lia|]. split; [lia|]. split.
    { intros k Hk Hlt.
      assert (Z.log2 (Z.of_nat (length a) + 1) < k); [|lia].
      apply (Z.pow_lt_mono_r_iff 2); lia. }
    exists blk. split; [reflexivity|]. split.
    { rewrite Hq. apply heap_get_app_new. }
    rewrite Hc in Hblk. rewrite Hblk, Hsize. auto with lia.
Qed.

(** C4 (amended).  [xs_new] reads its input up to the first zero byte:
    the string built has that many bytes, they are the input's, and a
    terminator follows them. *)
Theorem xs_new_roundtrip (a r : list Z) (h : heap) :
  Forall (λ c, c ≠ 0) a →
  Z.of_nat (length a) + 1 < 2 ^ 32 → Z.of_nat (length h) + 1 < 2 ^ 64 →
  ∃ x h',
    xs_new (a ++ 0 :: r) h = Some (x, h')
    ∧ xs_size x = Z.of_nat (length a)
    ∧ xs_bytes x h' = Some a
    ∧ mem_load x h' (padd (xs_data x) (xs_size x)) = Some 0.
Proof.
  intros Ha Hn Hh.
  destruct (xs_new_spec a r h Ha Hn Hh) as (x & h' & Hnew & Hsz & Hb & Hz & _).
  exists x, h'. auto.
Qed.

(** * Heap strings and their block *)

Lemma byte_small v : 0 <= v < 256 → byte v = v.
Proof. intros. apply Z.mod_small. lia. Qed.

Lemma byte_range v : 0 <= byte v < 256.
Proof. apply Z.mod_pos_bound. lia. Qed.

(** A well-formed heap string: its block is the payload, the terminator,
    the reference count and the rest. *)
Lemma wf_heap_block x h :
  xs_wf x h = true → xs_is_ptr x = true →
  ∃ a c r,
    heap_get h (x_ptr x) = Some (a ++ 0 :: c :: r)
    ∧ Z.of_nat (length a) = x_size x
    ∧ Forall (λ b, b ≠ 0) a ∧ Forall (λ b, 0 <= b < 256) a
    ∧ 0 <= c < 256 ∧ xs_ok x = true
    ∧ x_capacity x <= 32
    ∧ Z.of_nat (length (a ++ 0 :: c :: r)) = 2 ^ x_capacity x.
Proof.
  intros Hwf Hp.
  destruct (xs_wf_heap_inv x h Hwf Hp)
    as (Hok & b & Hb & Hl & Hc & Hs & Hbytes & Hstr).
  destruct (strlen_inv b _ Hstr) as (a & r & -> & Hla & Ha).
  destruct r as [|c r].
  { rewrite length_app in Hl. simpl in Hl. lia. }
  exists a, c, r. repeat split; auto.
  - apply Forall_app in Hbytes. tauto.
  - apply Forall_app in Hbytes as [_ Hb2].
    inversion Hb2 as [|? ? _ Hb3]; subst. inversion Hb3; subst. lia.
  - apply Forall_app in Hbytes as [_ Hb2].
    inversion Hb2 as [|? ? _ Hb3]; subst. inversion Hb3; subst. lia.
Qed.

Section heap_string.
Variables (x : list Z) (h : list (option (list Z))) (a : list Z) (c : Z)
  (r : list Z).
Hypothesis Hp : xs_is_ptr x = true.
Hypothesis Hb : heap_get h (x_ptr x) = Some (a ++ 0 :: c :: r).
Hypothesis Ha : Z.of_nat (length a) = x_size x.

Lemma heap_string_bytes : xs_bytes x h = Some a.
Proof.
  unfold xs_bytes, xs_data, xs_size. rewrite Hp.
  rewrite (mem_read_heap _ _ _ _ _ _ Hb). apply buf_read_prefix. lia.
Qed.

Lemma heap_string_counter : xs_ref_counter x h = Some c.
Proof.
  unfold xs_ref_counter, ref_addr.
  rewrite (mem_load_heap _ _ _ _ _ Hb) by lia.
  replace (Z.to_nat (x_size x + 1)) with (length a + 1)%nat by lia.
  rewrite lookup_app_r by lia.
  replace (length a + 1 - length a)%nat with 1%nat by lia. reflexivity.
Qed.

Lemma heap_string_set_counter v :
  set_ref_counter x v h
  = Some (heap_set h (x_ptr x) (Some (a ++ 0 :: byte v :: r))).
Proof.
  unfold set_ref_counter, ref_addr.
  rewrite (mem_store_heap _ _ _ _ _ _ Hb)
    by (rewrite length_app; simpl; lia).
  simpl. do 3 f_equal.
  replace (Z.to_nat (x_size x + 1)) with (length a + 1)%nat by lia.
  rewrite insert_app_r. reflexivity.
Qed.

Lemma heap_string_terminator :
  mem_load x h (padd (xs_data x) (xs_size x)) = Some 0.
Proof.
  unfold xs_data, xs_size. rewrite Hp. cbn [padd]. rewrite Z.add_0_l.
  rewrite (mem_load_heap _ _ _ _ _ Hb) by lia.
  replace (Z.to_nat (x_size x)) with (length a + 0)%nat by lia.
  rewrite lookup_app_r by lia.
  replace (length a + 0 - length a)%nat with 0%nat by lia. reflexivity.
Qed.
End heap_string.

Lemma set_ref_counter_get x v h h' :
  set_ref_counter x v h = Some h' → xs_ref_counter x h' = Some (byte v).
Proof.
  unfold set_ref_counter, xs_ref_counter, mem_store, mem_write, ref_addr.
  destruct (heap_get h (x_ptr x)) as [b|] eqn:Hb; [|discriminate].
  cbn [mbind option_bind].
  destruct (buf_write b (x_size x + 1) [byte v]) as [b'|] eqn:Hw;
    [|discriminate].
  cbn [mbind option_bind fmap option_fmap option_map snd]. intros [= <-].
  pose proof (heap_get_Some _ _ _ Hb) as Hrange.
  unfold buf_write in Hw.
  destruct (Z.leb_spec 0 (x_size x + 1)); [|discriminate].
  destruct (Z.leb_spec (x_size x + 1 + Z.of_nat (length [byte v]))
              (Z.of_nat (length b))); [|discriminate].
  simpl in Hw. injection Hw as <-.
  rewrite (mem_load_heap x _ _ _ _ (heap_get_set_eq _ _ _ Hrange)) by lia.
  rewrite lookup_app_r by (rewrite length_take; lia).
  rewrite length_take.
  replace (Z.to_nat (x_size x + 1) - Z.to_nat (x_size x + 1) `min` length b)%nat
    with 0%nat by (simpl in *; lia).
  reflexivity.
Qed.

Lemma byte_pred_zero k : 0 <= k < 256 → (byte (k - 1) = 0 ↔ k = 1).
Proof.
  intros Hk. unfold byte. split; [|intros ->; reflexivity].
  intros H. destruct (Z.eq_dec k 0) as [->|]; [discriminate H|].
  rewrite Z.mod_small in H by lia. lia.
Qed.

Lemma free_live h p b :
  heap_get h p = Some b → free p h = Some (heap_set h p None).
Proof.
  intros Hb. unfold free. pose proof (heap_get_Some _ _ _ Hb).
  destruct (Z.eqb_spec p 0); [lia|]. rewrite Hb. reflexivity.
Qed.

(** * Assignment *)

(** C2 (amended).  Assigning from a heap string whose count [c] is below
    255 makes [dest] a bit copy of [src], so both have the same data
    pointer.  The count of the buffer of [src] ends one above its value
    after the first step: it is [c + 1], unless [dest] already referenced
    that buffer, where the first step's decrement and the increment cancel
    and it stays [c].  The first step decrements the count of the buffer
    [dest] held, and frees that buffer exactly when the count reaches 0. *)
Theorem xs_copy_shares (h : heap) (dest src : list Z) (c : Z) :
  xs_wf src h = true → xs_is_ptr src = true →
  xs_ref_counter src h = Some c → 1 <= c < 255 →
  xs_wf dest h = true →
  (already_shares dest src = true → dest = src ∧ 2 <= c) →
  ∃ dest' h',
    xs_copy (Some dest) (Some src) h = Some (Some dest', h')
    ∧ dest' = src ∧ xs_data dest' = xs_data src
    ∧ xs_bytes src h' = xs_bytes src h
    ∧ xs_ref_counter src h'
      = Some (if already_shares dest src then c else c + 1)
    ∧ (xs_is_ptr dest = true →
       ∀ k, xs_ref_counter dest h = Some k →
         (heap_get h' (x_ptr dest) = None ↔ byte (k - 1) = 0)
         ∧ (already_shares dest src = false → byte (k - 1) ≠ 0 →
            xs_ref_counter dest h' = Some (byte (k - 1)))).
Proof.
  intros Hws Hps Hcs Hc Hwd Hal.
  destruct (wf_heap_block src h Hws Hps)
    as (sa & sc & sr & Hsb & Hsa & Hsnz & Hsbytes & Hscr & Hsok & _ & _).
  rewrite (heap_string_counter src h sa sc sr Hsb Hsa) in Hcs.
  injection Hcs as Hcs. subst sc.
  pose proof (heap_get_Some _ _ _ Hsb) as Hsrange.
  unfold xs_copy.
  destruct (xs_is_ptr dest) eqn:Hpd.
  - destruct (wf_heap_block dest h Hwd Hpd)
      as (da & dk & dr & Hdb & Hda & _ & _ & Hdk & _ & _ & _).
    pose proof (heap_get_Some _ _ _ Hdb) as Hdrange.
    rewrite (heap_string_counter dest h da dk dr Hdb Hda).
    cbn [mbind option_bind].
    rewrite (heap_string_set_counter dest h da dk dr Hdb Hda).
    cbn [mbind option_bind].
    set (h1 := heap_set h (x_ptr dest) (Some (da ++ 0 :: byte (dk - 1) :: dr))).
    assert (Hdb1 : heap_get h1 (x_ptr dest)
                   = Some (da ++ 0 :: byte (dk - 1) :: dr))
      by (apply heap_get_set_eq; lia).
    rewrite (heap_string_counter dest h1 da _ dr Hdb1 Hda).
    cbn [mbind option_bind].
    unfold already_shares in *. rewrite Hpd in *. cbn [andb] in *.
    destruct (Z.eqb_spec (x_ptr dest) (x_ptr src)) as [Heq|Hne].
    + (* dest already references the buffer of src *)
      destruct (Hal eq_refl) as [-> Hc2].
      rewrite Hsb in Hdb. injection Hdb as Hblk.
      apply app_inj_1 in Hblk as [Hblk1 Hblk]; [|lia].
      injection Hblk as Hblk2 Hblk3. subst da dk dr.
      rewrite (byte_small (c - 1)) in * by lia.
      destruct (Z.eqb_spec (c - 1) 0); [lia|].
      cbn [mbind option_bind]. rewrite Hps.
      rewrite (heap_string_counter src h1 _ _ _ Hdb1 Hsa).
      cbn [mbind option_bind]. unfold MAX_REF_COUNTER.
      destruct (Z.eqb_spec (c - 1) 255); [lia|].
      cbn [mbind option_bind].
      rewrite (heap_string_set_counter src h1 _ _ _ Hdb1 Hsa).
      cbn [mbind option_bind].
      replace (c - 1 + 1) with c by lia. rewrite (byte_small c) by lia.
      set (h2 := heap_set h1 (x_ptr src) (Some (sa ++ 0 :: c :: sr))).
      assert (Hb2 : heap_get h2 (x_ptr src) = Some (sa ++ 0 :: c :: sr))
        by (apply heap_get_set_eq; unfold h1; rewrite length_heap_set; lia).
      exists src, h2. split; [reflexivity|]. split; [reflexivity|].
      split; [reflexivity|]. split.
      { rewrite (heap_string_bytes src h2 _ _ _ Hps Hb2 Hsa).
        rewrite (heap_string_bytes src h _ _ _ Hps Hsb Hsa). reflexivity. }
      split; [apply (heap_string_counter src h2 _ _ _ Hb2 Hsa)|].
      intros _ k Hk. injection Hk as <-. split; [|discriminate].
      rewrite Hb2, (byte_small (c - 1)) by lia. split; [discriminate|lia].
    + (* dest references another buffer *)
      assert (Hrel : ∃ h2,
        (if byte (dk - 1) =? 0
         then match xs_data dest with
              | InObj _ => None
              | InHeap p _ => free p h1
              end
         else Some h1) = Some h2
        ∧ heap_get h2 (x_ptr src) = Some (sa ++ 0 :: c :: sr)
        ∧ length h2 = length h
        ∧ heap_get h2 (x_ptr dest)
          = (if byte (dk - 1) =? 0 then None
             else Some (da ++ 0 :: byte (dk - 1) :: dr))).
      { destruct (Z.eqb_spec (byte (dk - 1)) 0).
        - unfold xs_data. rewrite Hpd. rewrite (free_live _ _ _ Hdb1).
          eexists. split; [reflexivity|]. split; [|split].
          + unfold h1. rewrite !heap_get_set_ne by lia. exact Hsb.
          + unfold h1. rewrite !length_heap_set. reflexivity.
          + apply heap_get_set_eq. unfold h1. rewrite length_heap_set. lia.
        - exists h1. split; [reflexivity|]. split; [|split].
          + unfold h1. rewrite heap_get_set_ne by lia. exact Hsb.
          + unfold h1. rewrite length_heap_set. reflexivity.
          + exact Hdb1. }
      destruct Hrel as (h2 & -> & Hsb2 & Hlen2 & Hdb2).
      cbn [mbind option_bind]. rewrite Hps.
      rewrite (heap_string_counter src h2 _ _ _ Hsb2 Hsa).
      cbn [mbind option_bind]. unfold MAX_REF_COUNTER.
      destruct (Z.eqb_spec c 255); [lia|].
      cbn [mbind option_bind].
      rewrite (heap_string_set_counter src h2 _ _ _ Hsb2 Hsa).
      cbn [mbind option_bind]. rewrite (byte_small (c + 1)) by lia.
      set (h3 := heap_set h2 (x_ptr src) (Some (sa ++ 0 :: c + 1 :: sr))).
      assert (Hb3 : heap_get h3 (x_ptr src) = Some (sa ++ 0 :: c + 1 :: sr))
        by (apply heap_get_set_eq; lia).
      assert (Hd3 : heap_get h3 (x_ptr dest) = heap_get h2 (x_ptr dest))
        by (apply heap_get_set_ne; lia).
      exists src, h3. split; [reflexivity|]. split; [reflexivity|].
      split; [reflexivity|]. split.
      { rewrite (heap_string_bytes src h3 _ _ _ Hps Hb3 Hsa).
        rewrite (heap_string_bytes src h _ _ _ Hps Hsb Hsa). reflexivity. }
      split; [apply (heap_string_counter src h3 _ _ _ Hb3 Hsa)|].
      intros _ k Hk. injection Hk as <-. rewrite Hd3, Hdb2. split.
      * destruct (Z.eqb_spec (byte (dk - 1)) 0); split;
          try discriminate; try reflexivity; try tauto.
      * intros _ Hnz. destruct (Z.eqb_spec (byte (dk - 1)) 0); [tauto|].
        apply (heap_string_counter dest h3 da _ dr); [|exact Hda].
        rewrite Hd3, Hdb2.
        destruct (Z.eqb_spec (byte (dk - 1)) 0); [tauto|]. reflexivity.
  - (* dest is inline *)
    cbn [mbind option_bind]. rewrite Hps.
    rewrite (heap_string_counter src h _ _ _ Hsb Hsa).
    cbn [mbind option_bind]. unfold MAX_REF_COUNTER.
    destruct (Z.eqb_spec c 255); [lia|].
    cbn [mbind option_bind].
    rewrite (heap_string_set_counter src h _ _ _ Hsb Hsa).
    cbn [mbind option_bind]. rewrite (byte_small (c + 1)) by lia.
    set (h3 := heap_set h (x_ptr src) (Some (sa ++ 0 :: c + 1 :: sr))).
    assert (Hb3 : heap_get h3 (x_ptr src) = Some (sa ++ 0 :: c + 1 :: sr))
      by (apply heap_get_set_eq; lia).
    exists src, h3. split; [reflexivity|]. split; [reflexivity|].
    split; [reflexivity|]. split.
    { rewrite (heap_string_bytes src h3 _ _ _ Hps Hb3 Hsa).
      rewrite (heap_string_bytes src h _ _ _ Hps Hsb Hsa). reflexivity. }
    unfold already_shares. rewrite Hpd. cbn [andb].
    split; [apply (heap_string_counter src h3 _ _ _ Hb3 Hsa)|].
    discriminate.
Qed.

(** * Deep copies *)

(** [xs_tmp(x->ptr)] on the block of a heap string. *)
Lemma clone_spec x h a c r :
  xs_is_ptr x = true →
  heap_get h (x_ptr x) = Some (a ++ 0 :: c :: r) →
  Z.of_nat (length a) = x_size x →
  Forall (λ b, b ≠ 0) a → Forall (λ b, 0 <= b < 256) a →
  Z.of_nat (length a) + 1 < 2 ^ 32 → Z.of_nat (length h) + 1 < 2 ^ 64 →
  mem_cstr x h (InHeap (x_ptr x) 0) = Some (a ++ 0 :: c :: r)
  ∧ ∃ x' h',
      xs_tmp (a ++ 0 :: c :: r) h = Some (x', h')
      ∧ xs_size x' = xs_size x
      ∧ xs_bytes x' h' = Some a
      ∧ xs_wf x' h' = true
      ∧ (∀ q b, heap_get h q = Some b → heap_get h' q = Some b)
      ∧ Z.of_nat (length h') <= Z.of_nat (length h) + 1
      ∧ (xs_is_ptr x' = true →
         x_ptr x' = Z.of_nat (length h) + 1
         ∧ xs_ref_counter x' h' = Some 1).
Proof.
  intros Hp Hb Ha Hnz Hbytes Hn Hh. split.
  { unfold mem_cstr. cbn [object_at addr_off mbind option_bind]. rewrite Hb.
    cbn [mbind option_bind andb].
    change (0 <=? 0) with true. cbn [andb].
    destruct (Z.leb_spec 0 (Z.of_nat (length (a ++ 0 :: c :: r)))); [|lia].
    reflexivity. }
  destruct (xs_new_spec a (c :: r) h Hnz Hn Hh)
    as (x' & h' & Hnew & Hsz & Hby & _ & Hwf & Hp' & Hin & Hhp).
  exists x', h'. split; [exact Hnew|]. split.
  { rewrite Hsz. unfold xs_size. rewrite Hp. exact Ha. }
  split; [exact Hby|]. split; [auto|].
  destruct (xs_is_ptr x') eqn:E.
  - destruct (Hhp eq_refl) as (Hq & _ & Hrc & blk & -> & _).
    split; [|split].
    + intros q b Hq'. rewrite heap_get_app_l; [exact Hq'|].
      apply heap_get_Some in Hq'. lia.
    + rewrite length_app. simpl. lia.
    + intros _. split; [exact Hq|exact Hrc].
  - rewrite (Hin eq_refl). split; [auto|]. split; [lia|discriminate].
Qed.

Lemma wf_heap_length x h (a : list Z) :
  xs_wf x h = true → xs_is_ptr x = true →
  Z.of_nat (length a) = x_size x → Z.of_nat (length a) + 1 < 2 ^ 32.
Proof.
  intros Hwf Hp Ha.
  destruct (xs_wf_heap_inv x h Hwf Hp) as (_ & b & _ & _ & Hc & Hs & _).
  assert (2 ^ x_capacity x <= 2 ^ 32) by (apply Z.pow_le_mono_r; lia).
  lia.
Qed.

(** Copy on write: the count of the shared buffer goes down by one, no
    other byte of it changes, and the string becomes a deep copy of its
    own: inline, or alone on a block that did not exist before. *)
Lemma xs_cow_spec x h :
  xs_wf x h = true → xs_is_ptr x = true →
  Z.of_nat (length h) + 1 < 2 ^ 64 →
  ∃ a c r x' h',
    heap_get h (x_ptr x) = Some (a ++ 0 :: c :: r)
    ∧ Z.of_nat (length a) = x_size x
    ∧ xs_cow x h = Some (x', h')
    ∧ heap_get h' (x_ptr x) = Some (a ++ 0 :: byte (c - 1) :: r)
    ∧ xs_size x' = xs_size x
    ∧ xs_bytes x' h' = Some a
    ∧ xs_wf x' h' = true
    ∧ (xs_is_ptr x' = true →
       heap_get h (x_ptr x') = None ∧ xs_ref_counter x' h' = Some 1).
Proof.
  intros Hwf Hp Hh.
  destruct (wf_heap_block x h Hwf Hp)
    as (a & c & r & Hb & Ha & Hnz & Hbytes & Hc & Hok & Hcap & Hlen).
  pose proof (heap_get_Some _ _ _ Hb) as Hrange.
  exists a, c, r. unfold xs_cow.
  fold (ref_addr x). fold (xs_ref_counter x h).
  rewrite (heap_string_counter x h a c r Hb Ha). cbn [mbind option_bind].
  pose proof (heap_string_set_counter x h a c r Hb Ha (c - 1)) as Hset.
  unfold set_ref_counter in Hset.
  destruct (mem_store x h (ref_addr x) (c - 1)) as [[x1 h1]|] eqn:Hst;
    [|discriminate].
  cbn [mbind option_bind].
  assert (x1 = x) as ->.
  { unfold mem_store, mem_write, ref_addr in Hst. rewrite Hb in Hst.
    cbn [mbind option_bind] in Hst.
    destruct (buf_write _ _ _); [|discriminate]. simpl in Hst. congruence. }
  simpl in Hset. injection Hset as ->.
  set (h1 := heap_set h (x_ptr x) (Some (a ++ 0 :: byte (c - 1) :: r))).
  assert (Hb1 : heap_get h1 (x_ptr x) = Some (a ++ 0 :: byte (c - 1) :: r))
    by (apply heap_get_set_eq; lia).
  assert (Hl1 : length h1 = length h) by apply length_heap_set.
  destruct (clone_spec x h1 a (byte (c - 1)) r Hp Hb1 Ha Hnz Hbytes
              (wf_heap_length x h a Hwf Hp Ha) ltac:(lia))
    as (Hcstr & x' & h' & Hnew & Hsz & Hby & Hwf' & Hkeep & _ & Hfresh).
  rewrite Hcstr. cbn [mbind option_bind]. rewrite Hnew.
  cbn [mbind option_bind].
  exists x', h'. repeat (split; [first [exact Hb | exact Ha | reflexivity
                                  | auto; fail]|]).
  intros Hp'. destruct (Hfresh Hp') as [Hf Hrc]. split; [|exact Hrc].
  rewrite Hf, Hl1. apply heap_get_fresh. lia.
Qed.

Lemma release_other d h p b :
  xs_wf d h = true → heap_get h p = Some b →
  (xs_is_ptr d = true → x_ptr d ≠ p) →
  ∃ h1, release d h = Some h1 ∧ heap_get h1 p = Some b
        ∧ length h1 = length h.
Proof.
  intros Hwf Hb Hne. unfold release.
  destruct (xs_is_ptr d) eqn:Hp; [|exists h; auto].
  destruct (wf_heap_block d h Hwf Hp)
    as (da & dk & dr & Hdb & Hda & _ & _ & Hdk & _ & _ & _).
  pose proof (heap_get_Some _ _ _ Hdb) as Hdrange.
  specialize (Hne eq_refl).
  rewrite (heap_string_counter d h da dk dr Hdb Hda).
  cbn [mbind option_bind].
  rewrite (heap_string_set_counter d h da dk dr Hdb Hda).
  cbn [mbind option_bind].
  set (h1 := heap_set h (x_ptr d) (Some (da ++ 0 :: byte (dk - 1) :: dr))).
  assert (Hdb1 : heap_get h1 (x_ptr d)
                 = Some (da ++ 0 :: byte (dk - 1) :: dr))
    by (apply heap_get_set_eq; lia).
  rewrite (heap_string_counter d h1 da _ dr Hdb1 Hda).
  cbn [mbind option_bind].
  destruct (Z.eqb_spec (byte (dk - 1)) 0).
  - unfold xs_data. rewrite Hp. rewrite (free_live _ _ _ Hdb1).
    eexists. split; [reflexivity|]. split.
    + unfold h1. rewrite !heap_get_set_ne by lia. exact Hb.
    + unfold h1. rewrite !length_heap_set. reflexivity.
  - exists h1. split; [reflexivity|]. split.
    + unfold h1. rewrite heap_get_set_ne by lia. exact Hb.
    + unfold h1. rewrite length_heap_set. reflexivity.
Qed.

(** C5 (amended).  Assigning from a heap string whose count is 255, to a
    [dest] that does not already reference that buffer: the count stays
    255 and [dest] becomes a deep copy of the bytes of [src], inline or
    alone (count 1) on a block that did not exist before. *)
Theorem xs_copy_saturated (h : heap) (dest src : list Z) :
  xs_wf src h = true → xs_is_ptr src = true →
  xs_ref_counter src h = Some MAX_REF_COUNTER →
  xs_wf dest h = true → already_shares dest src = false →
  Z.of_nat (length h) + 1 < 2 ^ 64 →
  ∃ dest' h',
    xs_copy (Some dest) (Some src) h = Some (Some dest', h')
    ∧ xs_ref_counter src h' = Some MAX_REF_COUNTER
    ∧ xs_bytes src h' = xs_bytes src h
    ∧ xs_size dest' = xs_size src
    ∧ xs_bytes dest' h' = xs_bytes src h
    ∧ (xs_is_ptr dest' = true →
       heap_get h (x_ptr dest') = None
       ∧ x_ptr dest' ≠ x_ptr src
       ∧ xs_ref_counter dest' h' = Some 1).
Proof.
  intros Hws Hps Hcs Hwd Hal Hh.
  destruct (wf_heap_block src h Hws Hps)
    as (sa & sc & sr & Hsb & Hsa & Hsnz & Hsbytes & Hscr & Hsok & _ & _).
  rewrite (heap_string_counter src h sa sc sr Hsb Hsa) in Hcs.
  injection Hcs as Hcs. subst sc.
  destruct (release_other dest h (x_ptr src) _ Hwd Hsb)
    as (h1 & Hrel & Hsb1 & Hlen1).
  { intros Hpd E. unfold already_shares in Hal. rewrite Hpd, E in Hal.
    rewrite Z.eqb_refl in Hal. discriminate. }
  unfold xs_copy. fold (release dest h). rewrite Hrel.
  cbn [mbind option_bind]. rewrite Hps.
  rewrite (heap_string_counter src h1 _ _ _ Hsb1 Hsa).
  cbn [mbind option_bind]. rewrite Z.eqb_refl.
  destruct (clone_spec src h1 sa MAX_REF_COUNTER sr Hps Hsb1 Hsa Hsnz Hsbytes
              (wf_heap_length src h sa Hws Hps Hsa) ltac:(lia))
    as (Hcstr & x' & h' & Hnew & Hsz & Hby & Hwf' & Hkeep & _ & Hfresh).
  rewrite Hcstr. cbn [mbind option_bind]. rewrite Hnew.
  cbn [mbind option_bind].
  pose proof (Hkeep _ _ Hsb1) as Hsb'.
  exists x', h'. split; [reflexivity|]. split.
  { apply (heap_string_counter src h' _ _ _ Hsb' Hsa). }
  rewrite (heap_string_bytes src h _ _ _ Hps Hsb Hsa).
  split; [apply (heap_string_bytes src h' _ _ _ Hps Hsb' Hsa)|].
  split; [exact Hsz|]. split; [exact Hby|].
  intros Hp'. destruct (Hfresh Hp') as [Hf Hrc].
  pose proof (heap_get_Some _ _ _ Hsb) as Hsrange.
  split; [|split; [lia|exact Hrc]].
  rewrite Hf, Hlen1. apply heap_get_fresh. lia.
Qed.

(** * Reads and writes through a data pointer *)

Lemma object_at_padd x h a k : object_at x h (padd a k) = object_at x h a.
Proof. destruct a; reflexivity. Qed.

Lemma addr_off_padd a k : addr_off (padd a k) = addr_off a + k.
Proof. destruct a; reflexivity. Qed.

Lemma mem_read_object x h a n b :
  object_at x h a = Some b → mem_read x h a n = buf_read b (addr_off a) n.
Proof. intros Hb. unfold mem_read. rewrite Hb. reflexivity. Qed.

Lemma buf_write_read_same b off n bs :
  buf_read b off n = Some bs → buf_write b off bs = Some b.
Proof.
  unfold buf_read, buf_write.
  destruct (Z.leb_spec 0 off); [|discriminate].
  destruct (Z.leb_spec 0 n); [|discriminate].
  destruct (Z.leb_spec (off + n) (Z.of_nat (length b))); [|discriminate].
  cbn [andb]. intros [= <-].
  rewrite length_take, length_drop.
  destruct (Z.leb_spec
              (off + Z.of_nat (Z.to_nat n `min` (length b - Z.to_nat off)))
              (Z.of_nat (length b))); [|lia].
  f_equal.
  replace (Z.to_nat off + Z.to_nat n `min` (length b - Z.to_nat off))%nat
    with (Z.to_nat off + Z.to_nat n)%nat by lia.
  rewrite <- drop_drop, take_drop, take_drop. reflexivity.
Qed.

Lemma heap_set_same h p b : heap_get h p = Some b → heap_set h p (Some b) = h.
Proof.
  unfold heap_get, heap_set. destruct (Z.ltb_spec 0 p); [|discriminate].
  destruct (h !! Z.to_nat (p - 1)) as [[b'|]|] eqn:E; try discriminate.
  simpl. intros [= ->]. apply list_insert_id, E.
Qed.

Lemma mem_write_same x h a bs b :
  object_at x h a = Some b → buf_write b (addr_off a) bs = Some b →
  mem_write x h a bs = Some (x, h).
Proof.
  intros Hb Hw. unfold mem_write. destruct a as [o|p o]; simpl in *.
  - injection Hb as ->. rewrite Hw. reflexivity.
  - rewrite Hb. cbn [mbind option_bind]. rewrite Hw.
    cbn [mbind option_bind]. rewrite (heap_set_same _ _ _ Hb). reflexivity.
Qed.

(** The buffer behind [xs_data]: payload, terminator, rest. *)
Lemma wf_data x h :
  xs_wf x h = true →
  ∃ a r, object_at x h (xs_data x) = Some (a ++ 0 :: r)
         ∧ addr_off (xs_data x) = 0
         ∧ Z.of_nat (length a) = xs_size x
         ∧ xs_size x <= xs_capacity x ∧ 0 <= xs_size x < 2 ^ 54
         ∧ length x = 16%nat.
Proof.
  intros Hwf. unfold xs_data, xs_size, xs_capacity.
  destruct (xs_is_ptr x) eqn:Hp.
  - destruct (wf_heap_block x h Hwf Hp)
      as (a & c & r & Hb & Ha & _ & _ & _ & Hok & Hcap & Hlen).
    exists a, (c :: r). simpl. split; [exact Hb|]. split; [reflexivity|].
    split; [exact Ha|].
    rewrite length_app in Hlen. simpl in Hlen.
    assert (0 <= x_capacity x) by (apply (bits_range 54 6); lia).
    assert (2 ^ x_capacity x <= 2 ^ 32) by (apply Z.pow_le_mono_r; lia).
    rewrite shiftl_1 by lia.
    split; [lia|]. split; [lia|]. apply xs_ok_length, Hok.
  - destruct (xs_wf_inline_inv x h Hwf Hp) as [Hok Hs].
    destruct (strlen_inv _ _ Hs) as (a & r & Hx & Ha & _).
    exists a, r. simpl. split; [congruence|]. split; [reflexivity|].
    split; [exact Ha|].
    pose proof (bits_range 0 4 (byte15 x) ltac:(lia) ltac:(lia)).
    unfold x_space_left in *. split; [lia|]. split; [lia|].
    apply xs_ok_length, Hok.
Qed.

Lemma xs_concat_empty_exclusive x p s h :
  xs_wf x h = true →
  (xs_is_ptr x = true → xs_ref_counter x h = Some 1) →
  xs_wf p h = true → xs_is_ptr p = false → xs_size p = 0 →
  xs_wf s h = true → xs_is_ptr s = false → xs_size s = 0 →
  xs_concat x p s h = Some (x, h).
Proof.
  intros Hwf Hex Hwp Hpp Hsp Hws Hps Hss.
  destruct (wf_data x h Hwf) as (a & r & Hobj & Hoff & Ha & Hcap & Hsz & Hlen).
  destruct (wf_data p h Hwp) as (pa & pr & Hpobj & Hpoff & Hpa & _).
  destruct (wf_data s h Hws) as (sa & sr & Hsobj & Hsoff & Hsa & _).
  destruct pa; [|simpl in Hpa; lia]. destruct sa; [|simpl in Hsa; lia].
  unfold xs_concat.
  assert (Hcow : cow_if_shared x h = Some (x, h)).
  { unfold cow_if_shared. destruct (xs_is_ptr x); [|reflexivity].
    rewrite (Hex eq_refl). reflexivity. }
  rewrite Hcow. cbn [mbind option_bind]. rewrite Hsp, Hss.
  replace (xs_size x + 0 + 0) with (xs_size x) by lia.
  rewrite (sz_small (xs_size x)) by lia.
  destruct (Z.leb_spec (xs_size x) (xs_capacity x)); [|lia].
  (* memmove(data + pres, data, size) *)
  rewrite (mem_read_object _ _ _ _ _ Hobj), Hoff.
  rewrite buf_read_prefix by lia. cbn [mbind option_bind].
  rewrite (mem_write_same x h _ a (a ++ 0 :: r)).
  2:{ rewrite object_at_padd. exact Hobj. }
  2:{ rewrite addr_off_padd, Hoff.
      apply (buf_write_read_same _ _ (xs_size x)), buf_read_prefix. lia. }
  cbn [mbind option_bind].
  (* memcpy(data, pre, pres) *)
  rewrite (mem_read_object _ _ _ _ _ Hpobj), Hpoff.
  rewrite (buf_read_prefix [] _ 0) by reflexivity. cbn [mbind option_bind].
  rewrite (mem_write_same x h _ [] (a ++ 0 :: r) Hobj).
  2:{ rewrite Hoff. apply (buf_write_read_same _ _ 0).
      apply (buf_read_prefix [] _ 0). reflexivity. }
  cbn [mbind option_bind].
  (* memcpy(data + pres + size, suf, sufs + 1) *)
  rewrite (mem_read_object _ _ _ _ _ Hsobj), Hsoff.
  change (sz (0 + 1)) with 1.
  change ([] ++ 0 :: sr) with ([0] ++ sr).
  rewrite (buf_read_prefix [0] sr 1) by reflexivity.
  cbn [mbind option_bind].
  rewrite (mem_write_same x h _ [0] (a ++ 0 :: r)).
  2:{ rewrite !object_at_padd. exact Hobj. }
  2:{ rewrite !addr_off_padd, Hoff.
      apply (buf_write_read_same _ _ 1).
      rewrite buf_read_Some by (rewrite ?length_app; simpl; lia).
      replace (Z.to_nat (0 + 0 + xs_size x)) with (length a) by lia.
      rewrite drop_app_length. reflexivity. }
  cbn [mbind option_bind].
  destruct (xs_is_ptr x) eqn:Hp.
  - assert (Hok : xs_ok x = true).
    { unfold xs_wf in Hwf. apply andb_true_iff in Hwf. tauto. }
    assert (Hxs : xs_size x = x_size x) by (unfold xs_size; rewrite Hp; reflexivity).
    rewrite Hxs, set_size_id by exact Hok.
    cbn [mbind option_bind]. rewrite Hp.
    destruct (wf_heap_block x h Hwf Hp)
      as (a' & c & r' & Hb & Ha' & _).
    rewrite (heap_string_set_counter x h a' c r' Hb Ha').
    cbn [mbind option_bind].
    rewrite (heap_string_counter x h a' c r' Hb Ha') in Hex.
    injection (Hex eq_refl) as ->. change (byte 1) with 1.
    rewrite (heap_set_same _ _ _ Hb). reflexivity.
  - assert (Hxs : xs_size x = 15 - x_space_left x)
      by (unfold xs_size; rewrite Hp; reflexivity).
    rewrite Hxs.
    replace (15 - (15 - x_space_left x)) with (x_space_left x) by lia.
    pose proof (bits_range 0 4 (byte15 x) ltac:(lia) ltac:(lia)).
    rewrite sz_small by (unfold x_space_left; lia).
    rewrite set_space_left_id by exact Hlen.
    cbn [mbind option_bind]. rewrite Hp. reflexivity.
Qed.

Lemma xs_wf_inline_any x h h' :
  xs_is_ptr x = false → xs_wf x h = true → xs_wf x h' = true.
Proof. unfold xs_wf. intros ->. auto. Qed.

Lemma xs_concat_cow x x' p s h h1 :
  cow_if_shared x h = Some (x', h1) → cow_if_shared x' h1 = Some (x', h1) →
  xs_concat x p s h = xs_concat x' p s h1.
Proof. unfold xs_concat. intros -> ->. reflexivity. Qed.

(** Either [x] is left alone, or it is shared and [xs_cow] detaches it. *)
Lemma cow_if_shared_spec x h :
  xs_wf x h = true → Z.of_nat (length h) + 1 < 2 ^ 64 →
  ∃ x' h' bs,
    cow_if_shared x h = Some (x', h')
    ∧ xs_bytes x h = Some bs
    ∧ xs_size x' = xs_size x ∧ xs_bytes x' h' = Some bs
    ∧ xs_wf x' h' = true
    ∧ (xs_is_ptr x' = true → xs_ref_counter x' h' = Some 1).
Proof.
  intros Hwf Hh. unfold cow_if_shared.
  destruct (xs_is_ptr x) eqn:Hp.
  - destruct (wf_heap_block x h Hwf Hp)
      as (a & c & r & Hb & Ha & _).
    rewrite (heap_string_counter x h a c r Hb Ha). cbn [mbind option_bind].
    rewrite (heap_string_bytes x h a c r Hp Hb Ha).
    destruct (Z.eqb_spec c 1) as [->|Hc].
    + exists x, h, a. repeat split; auto.
      * apply (heap_string_bytes x h a 1 r Hp Hb Ha).
      * intros _. apply (heap_string_counter x h a 1 r Hb Ha).
    + destruct (xs_cow_spec x h Hwf Hp Hh)
        as (a' & c' & r' & x' & h' & Hb' & Ha' & Hcow & _ & Hsz & Hby & Hwf'
            & Hex).
      rewrite Hb in Hb'. injection Hb' as Hb'.
      apply app_inj_1 in Hb' as [<- _]; [|lia].
      exists x', h', a. repeat split; auto. intros Hp'. apply Hex, Hp'.
  - destruct (wf_data x h Hwf) as (a & r & Hobj & Hoff & Ha & _).
    exists x, h, a. repeat split; auto.
    + unfold xs_bytes. rewrite (mem_read_object _ _ _ _ _ Hobj), Hoff.
      apply buf_read_prefix. lia.
    + unfold xs_bytes. rewrite (mem_read_object _ _ _ _ _ Hobj), Hoff.
      apply buf_read_prefix. lia.
    + intros Hp'. congruence.
Qed.

(** C7.  Concatenating an empty prefix and an empty suffix leaves the
    size and the bytes of any well-formed string as they were. *)
Theorem xs_concat_empty (h : heap) (x p s : list Z) :
  xs_wf x h = true → Z.of_nat (length h) + 1 < 2 ^ 64 →
  xs_wf p h = true → xs_is_ptr p = false → xs_size p = 0 →
  xs_wf s h = true → xs_is_ptr s = false → xs_size s = 0 →
  ∃ x' h' bs,
    xs_concat x p s h = Some (x', h')
    ∧ xs_bytes x h = Some bs
    ∧ xs_size x' = xs_size x
    ∧ xs_bytes x' h' = Some bs.
Proof.
  intros Hwf Hh Hwp Hpp Hsp Hws Hps Hss.
  destruct (cow_if_shared_spec x h Hwf Hh)
    as (x' & h' & bs & Hcow & Hby & Hsz & Hby' & Hwf' & Hex).
  exists x', h', bs.
  assert (Hcow' : cow_if_shared x' h' = Some (x', h')).
  { unfold cow_if_shared. destruct (xs_is_ptr x'); [|reflexivity].
    rewrite (Hex eq_refl). reflexivity. }
  rewrite (xs_concat_cow x x' p s h h' Hcow Hcow').
  split; [|auto].
  apply xs_concat_empty_exclusive; eauto using xs_wf_inline_any.
Qed.

(** * The claims at concrete inputs *)

Ltac run := vm_compute; reflexivity.

(** The sample states are what the operations compute from the empty
    heap. *)
Lemma samples_reachable :
  xs_new (cstr "aaaaaaaaaaaaaaaaaaaa") [] = Some twenty
  ∧ xs_copy (Some xs_literal_empty) (Some twenty.1) twenty.2
    = Some (Some twenty_shared.1, twenty_shared.2)
  ∧ xs_new (cstr "bbbbbbbbbbbbbbbbbbbb") twenty.2
    = Some (twenty_pair.1.2, twenty_pair.2)
  ∧ twenty_pair.1.1 = twenty.1
  ∧ share 254 twenty.1 twenty.2 = Some twenty_saturated
  ∧ xs_tmp [0] [] = Some (xs_literal_empty, [])
  ∧ xs_new (cstr "ab") [] = Some (ab, [])
  ∧ (∃ s h, xs_new (cstr "  hello, wide world  ") [] = Some (s, h)
            ∧ xs_copy (Some xs_literal_empty) (Some s) h
              = Some (Some greeting_shared.1, greeting_shared.2)).
Proof.
  repeat (split; [run|]). do 2 eexists. split; [run|]. run.
Qed.

(** C2, as stated, fails when [dest] already references the buffer of
    [src]: the count is 2 before the assignment and 2 after it. *)
Lemma xs_copy_alias_count_unchanged :
  let '(s, _) := twenty in
  let '(d, h) := twenty_shared in
  xs_wf s h = true ∧ xs_is_ptr s = true ∧ xs_ref_counter s h = Some 2
  ∧ ∃ h', xs_copy (Some d) (Some s) h = Some (Some s, h')
          ∧ xs_ref_counter s h' ≠ Some (2 + 1).
Proof.
  cbv beta iota delta [twenty twenty_shared].
  repeat (split; [run|]).
  eexists. split; [run|]. vm_compute. discriminate.
Qed.

(** The sharing theorem at two heap strings on buffers of their own: the
    buffer of [dest], held by nobody else, is freed. *)
Lemma xs_copy_shares_witness :
  let '((s, d), h) := twenty_pair in
  xs_wf s h = true ∧ xs_is_ptr s = true ∧ xs_ref_counter s h = Some 1
  ∧ xs_wf d h = true ∧ already_shares d s = false
  ∧ xs_ref_counter d h = Some 1
  ∧ ∃ dest' h',
      xs_copy (Some d) (Some s) h = Some (Some dest', h')
      ∧ xs_data dest' = xs_data s
      ∧ xs_ref_counter s h' = Some 2
      ∧ heap_get h' (x_ptr d) = None.
Proof.
  cbv beta iota delta [twenty_pair].
  repeat (split; [run|]).
  match goal with
  | |- ∃ _ _, xs_copy (Some ?d) (Some ?s) ?h = _ ∧ _ =>
      destruct (xs_copy_shares h d s 1) as (dest' & h' & Hc & -> & Hd & _ & Hrc & Hrel);
        [run | run | run | lia | run | vm_compute; discriminate |];
      exists s, h'; split; [exact Hc|]; split; [reflexivity|];
      split; [exact Hrc|];
      apply (Hrel eq_refl 1 ltac:(run)); reflexivity
  end.
Defined.

(** C3, as stated, fails for a payload of 31 bytes: class 5 already has
    [2 ^ 5] at least the 32 bytes to store and capacity [2 ^ 5 - 1] at
    least the payload, yet the class chosen is 6; and the block has
    [2 ^ 6] bytes, not one more. *)
Lemma xs_new_class_not_least :
  ∃ x h blk,
    xs_new (replicate 31 97 ++ [0]) [] = Some (x, h)
    ∧ xs_is_ptr x = true
    ∧ ¬ (∀ k, 0 <= k → 31 + 1 <= 2 ^ k → x_capacity x <= k)
    ∧ ¬ (∀ k, 0 <= k → 31 <= 2 ^ k - 1 → xs_capacity x <= 2 ^ k - 1)
    ∧ heap_get h (x_ptr x) = Some blk
    ∧ Z.of_nat (length blk) ≠ 2 ^ x_capacity x + 1.
Proof.
  do 3 eexists. split; [run|]. split; [run|]. split; [|split].
  - intros H. specialize (H 5 ltac:(lia) ltac:(vm_compute; discriminate)).
    vm_compute in H. apply H. reflexivity.
  - intros H. specialize (H 5 ltac:(lia) ltac:(vm_compute; discriminate)).
    vm_compute in H. apply H. reflexivity.
  - split; [run|]. vm_compute. discriminate.
Qed.

(** The layout theorem at a 20-byte payload. *)
Lemma xs_new_layout_witness :
  let a := bytes_of "aaaaaaaaaaaaaaaaaaaa" in
  Forall (λ c, c ≠ 0) a
  ∧ Z.of_nat (length a) + 1 < 2 ^ 32
  ∧ ∃ x h',
      xs_new (a ++ [0]) [] = Some (x, h')
      ∧ xs_is_ptr x = true ∧ x_capacity x = 5 ∧ xs_capacity x = 31
      ∧ xs_ref_counter x h' = Some 1.
Proof.
  intros a.
  assert (Ha : Forall (λ c, c ≠ 0) a)
    by (vm_compute; repeat constructor; discriminate).
  assert (Hn : Z.of_nat (length a) + 1 < 2 ^ 32) by (vm_compute; reflexivity).
  split; [exact Ha|]. split; [exact Hn|].
  destruct (xs_new_layout a [] [] Ha Hn ltac:(vm_compute; reflexivity))
    as (x & h' & Hnew & _ & Hheap).
  destruct (Hheap ltac:(vm_compute; discriminate))
    as (Hp & Hcap & _ & _ & _ & blk & _ & _ & _ & _ & Hrc).
  exists x, h'. split; [exact Hnew|]. split; [exact Hp|].
  assert (Hx : Some (x, h') = xs_new (a ++ [0]) []) by (symmetry; exact Hnew).
  vm_compute in Hx. injection Hx as -> ->.
  split; [run|]. split; [run|]. exact Hrc.
Defined.

(** C4, as stated, fails for a sequence with a zero byte inside: from
    the three bytes [97; 0; 98] a string of size 1 is built. *)
Lemma xs_new_stops_at_nul :
  ∃ x h,
    xs_new ([97; 0; 98] ++ [0]) [] = Some (x, h)
    ∧ xs_size x ≠ Z.of_nat (length [97; 0; 98])
    ∧ xs_bytes x h ≠ Some [97; 0; 98].
Proof.
  do 2 eexists. split; [run|]. split; vm_compute; discriminate.
Qed.

(** The round trip at "hello". *)
Lemma xs_new_roundtrip_witness :
  let a := bytes_of "hello" in
  Forall (λ c, c ≠ 0) a
  ∧ Z.of_nat (length a) + 1 < 2 ^ 32
  ∧ ∃ x h',
      xs_new (a ++ [0]) [] = Some (x, h')
      ∧ xs_size x = 5
      ∧ xs_bytes x h' = Some a
      ∧ mem_load x h' (padd (xs_data x) (xs_size x)) = Some 0.
Proof.
  intros a.
  assert (Ha : Forall (λ c, c ≠ 0) a)
    by (vm_compute; repeat constructor; discriminate).
  assert (Hn : Z.of_nat (length a) + 1 < 2 ^ 32) by (vm_compute; reflexivity).
  split; [exact Ha|]. split; [exact Hn|].
  apply (xs_new_roundtrip a [] [] Ha Hn). vm_compute; reflexivity.
Defined.

(** C5, as stated, fails when [dest] is one of the 255 aliases: the first
    step takes the count to 254, so no copy is made and [dest] keeps
    pointing to the buffer of [src]. *)
Lemma xs_copy_saturated_alias :
  let s := twenty.1 in
  let h := twenty_saturated in
  xs_wf s h = true ∧ xs_is_ptr s = true
  ∧ xs_ref_counter s h = Some MAX_REF_COUNTER
  ∧ ∃ dest' h',
      xs_copy (Some s) (Some s) h = Some (Some dest', h')
      ∧ xs_data dest' = xs_data s
      ∧ xs_ref_counter s h' = Some MAX_REF_COUNTER.
Proof.
  cbv zeta. repeat (split; [run|]).
  do 2 eexists. repeat (split; [run|]). run.
Qed.

(** The saturation theorem at an empty [dest]. *)
Lemma xs_copy_saturated_witness :
  let s := twenty.1 in
  let h := twenty_saturated in
  xs_wf s h = true ∧ xs_is_ptr s = true
  ∧ xs_ref_counter s h = Some MAX_REF_COUNTER
  ∧ xs_wf xs_literal_empty h = true
  ∧ already_shares xs_literal_empty s = false
  ∧ ∃ dest' h',
      xs_copy (Some xs_literal_empty) (Some s) h = Some (Some dest', h')
      ∧ xs_ref_counter s h' = Some MAX_REF_COUNTER
      ∧ xs_bytes dest' h' = xs_bytes s h
      ∧ (xs_is_ptr dest' = true → xs_ref_counter dest' h' = Some 1).
Proof.
  cbv zeta. repeat (split; [run|]).
  destruct (xs_copy_saturated twenty_saturated xs_literal_empty twenty.1)
    as (dest' & h' & Hc & Hrc & _ & _ & Hby & Hnew);
    [run | run | run | run | run | run |].
  exists dest', h'. split; [exact Hc|]. split; [exact Hrc|].
  split; [exact Hby|]. intros Hp. apply Hnew, Hp.
Defined.

(** C6, at the input of the claim.  Tokenizing "a,,b,c" with the
    delimiter set ",": the call with the string returns "a" and leaves in
    [old] the address of a temporary that ends with the call.  The
    continuing call, with [NULL], has no defined result, there and in
    every other state. *)
Theorem tokenize_continuation_undefined :
  ∃ x h r1,
    xs_new (cstr "a,,b,c") [] = Some (x, h)
    ∧ xs_tok (Some x) (cstr ",") None h = Some r1
    ∧ tok_payload r1 = Some (bytes_of "a")
    ∧ tok_old r1 = Some Dangling
    ∧ xs_tok None (cstr ",") (tok_old r1) (tok_heap r1) = None
    ∧ ∀ delim old h', xs_tok None delim old h' = None.
Proof.
  do 3 eexists.
  repeat (split; [run|]).
  intros delim old h'. unfold xs_tok.
  destruct (xs_tmp [0] h') as [[e k]|]; [|reflexivity].
  cbn [mbind option_bind]. destruct (pointee old) as [src|]; [|reflexivity].
  cbn [mbind option_bind]. destruct (xs_copy (Some e) src k); reflexivity.
Qed.

(** The identity at a shared 20-byte heap string. *)
Lemma xs_concat_empty_witness :
  let '(x, h) := twenty_shared in
  xs_wf x h = true ∧ xs_ref_counter x h = Some 2
  ∧ xs_wf xs_literal_empty h = true
  ∧ xs_size xs_literal_empty = 0
  ∧ ∃ x' h' bs,
      xs_concat x xs_literal_empty xs_literal_empty h = Some (x', h')
      ∧ xs_bytes x h = Some bs
      ∧ xs_size x' = xs_size x
      ∧ xs_bytes x' h' = Some bs.
Proof.
  cbv beta iota delta [twenty_shared].
  repeat (split; [run|]).
  apply xs_concat_empty; run.
Defined.

(** C1, at a failing input.  After "a,b" has been tokenized, [old]
    points to a temporary of that call.  A heap string [y] of twenty
    commas is built and assigned to [d], so that the two share one buffer
    with count 2.  Mutating [d] (or [y]) with [xs_tok] finds only
    delimiters and, at xs.c:267, hands [old] to [xs_copy] as the string to
    assign to: the call writes through a dangling pointer and has no
    defined result. *)
Theorem tok_after_remainder_undefined :
  ∃ x h0 r1 y h1 d h2,
    xs_new (cstr "a,b") [] = Some (x, h0)
    ∧ xs_tok (Some x) (cstr ",") None h0 = Some r1
    ∧ tok_old r1 = Some Dangling
    ∧ xs_new (cstr ",,,,,,,,,,,,,,,,,,,,") (tok_heap r1) = Some (y, h1)
    ∧ xs_copy (Some xs_literal_empty) (Some y) h1 = Some (Some d, h2)
    ∧ xs_is_ptr y = true
    ∧ xs_data d = xs_data y
    ∧ xs_ref_counter y h2 = Some 2
    ∧ xs_wf y h2 = true ∧ xs_wf d h2 = true
    ∧ xs_tok (Some d) (cstr ",") (tok_old r1) h2 = None
    ∧ xs_tok (Some y) (cstr ",") (tok_old r1) h2 = None
    ∧ xs_tok (Some y) (cstr ",") (tok_old r1) h1 = None.
Proof.
  do 7 eexists.
  repeat (split; [run|]). run.
Qed.

(** C8, at a failing input.  Trimming "aaa" with the set "a": both scans
    run over the whole string, the length left is [0 - 3] in [size_t],
    and [memmove] is called with it. *)
Theorem xs_trim_all_members :
  ∃ x h,
    xs_new (cstr "aaa") [] = Some (x, h)
    ∧ xs_wf x h = true
    ∧ xs_trim x (cstr "a") h = None.
Proof. do 2 eexists. repeat (split; [run|]). run. Qed.

(** C9, at a failing input.  Growing the inline string "hello" to 20:
    the bytes are copied to the new buffer, but [size] is now read from
    the bits of the union that held bytes 8 to 14 of the inline data. *)
Theorem xs_grow_inline_loses_size :
  ∃ x h x' h',
    xs_new (cstr "hello") [] = Some (x, h)
    ∧ xs_size x = 5
    ∧ xs_bytes x h = Some (bytes_of "hello")
    ∧ xs_grow x 20 h = Some (x', h')
    ∧ xs_is_ptr x' = true ∧ xs_capacity x' = 31
    ∧ mem_read x' h' (xs_data x') 5 = Some (bytes_of "hello")
    ∧ xs_size x' = 0
    ∧ xs_bytes x' h' = Some [].
Proof. do 4 eexists. repeat (split; [run|]). run. Qed.

(** The same call on "0123456789": the size read afterwards is
    [56 + 256 * 57], the bytes "89" taken as a number. *)
Lemma xs_grow_inline_size_from_payload :
  ∃ x h x' h',
    xs_new (cstr "0123456789") [] = Some (x, h)
    ∧ xs_grow x 20 h = Some (x', h')
    ∧ xs_size x' = 14648.
Proof. do 4 eexists. repeat (split; [run|]). run. Qed.

(** Below the capacity, [xs_grow] does nothing. *)
Lemma xs_grow_noop x len h :
  len <= xs_capacity x → xs_grow x len h = Some (x, h).
Proof.
  intros H. unfold xs_grow.
  destruct (Z.leb_spec len (xs_capacity x)); [reflexivity|lia].
Qed.

(** Where some byte is outside the set, trimming works and a second
    trim changes nothing. *)
Lemma xs_trim_twice_example :
  ∃ x h x1 h1,
    xs_new (cstr "  aaa b  ") [] = Some (x, h)
    ∧ xs_trim x (cstr " ") h = Some (x1, h1)
    ∧ xs_bytes x1 h1 = Some (bytes_of "aaa b")
    ∧ xs_trim x1 (cstr " ") h1 = Some (x1, h1).
Proof. do 4 eexists. repeat (split; [run|]). run. Qed.

(** C10, as stated, fails for an empty set (in memory, the terminator
    alone): [xs_trim] and [xs_tok] return at once, and a string shared by
    two values stays shared, count 2. *)
Lemma empty_set_leaves_shared :
  let '(d, h) := twenty_shared in
  xs_trim d [0] h = Some (d, h)
  ∧ (∃ r, xs_tok (Some d) [0] None h = Some r
          ∧ token r = Some d ∧ tok_heap r = h)
  ∧ xs_is_ptr d = true
  ∧ xs_ref_counter d h = Some 2.
Proof.
  cbv beta iota delta [twenty_shared].
  split; [run|]. split; [eexists; repeat (split; [run|]); run|].
  split; run.
Qed.

(** Where the count byte falls outside the block: a 16-byte heap string
    has a block of 32 bytes; with a 15-byte suffix the new size is 31, the
    capacity, the terminator is the last byte of the block and the count
    would be the byte after it. *)
Lemma xs_concat_count_past_block :
  ∃ x h suffix,
    xs_new (cstr "0123456789abcdef") [] = Some (x, h)
    ∧ xs_new (cstr "0123456789abcde") h = Some (suffix, h)
    ∧ xs_capacity x = 31
    ∧ xs_size x + xs_size suffix = 31
    ∧ (∃ b, heap_get h (x_ptr x) = Some b ∧ length b = 32%nat)
    ∧ xs_concat x xs_literal_empty suffix h = None.
Proof.
  do 3 eexists. repeat (split; [run|]).
  split; [eexists; split; [run|]; run|]. run.
Qed.

(** * More on construction, growth and release *)

(** X1.  [ilog2] looks at the low 32 bits of its argument only, and for
    a value [n] with [0 < n < 2 ^ 32] there returns the [k] with
    [2 ^ k <= n < 2 ^ (k + 1)]. *)
Theorem ilog2_floor (n m : Z) :
  0 < n < 2 ^ 32 →
  ∃ k, ilog2 (n + m * 2 ^ 32) = Some k
       ∧ 0 <= k < 32 ∧ 2 ^ k <= n < 2 ^ (k + 1).
Proof.
  intros Hn. exists (Z.log2 n). split.
  - unfold ilog2, builtin_clz.
    rewrite Z.mod_add by lia. rewrite Z.mod_small by lia.
    destruct (Z.eqb_spec n 0); [lia|]. simpl. f_equal. lia.
  - pose proof (Z.log2_spec n ltac:(lia)) as Hs.
    split; [|exact Hs]. split; [apply Z.log2_nonneg|].
    apply Z.log2_lt_pow2; lia.
Qed.

Lemma xs_wf_heap_mono (y : list Z) (h h' : list (option (list Z))) :
  (∀ q b, heap_get h q = Some b → heap_get h' q = Some b) →
  xs_wf y h = true → xs_wf y h' = true.
Proof.
  intros Hk Hwf. unfold xs_wf in *.
  destruct (xs_ok y); [|discriminate]. simpl in *.
  destruct (xs_is_ptr y); [|exact Hwf].
  destruct (heap_get h (x_ptr y)) as [b|] eqn:E; [|discriminate].
  rewrite (Hk _ _ E). exact Hwf.
Qed.

(** X2.  [xs_new] on a terminated input of bytes returns a
    well-formed string whose size is at most its capacity; it leaves every
    block that existed as it was, so every string that was well formed
    stays so, and a heap result points to a block that did not exist. *)
Theorem xs_new_well_formed (a r : list Z) (h : list (option (list Z))) :
  Forall (λ c, c ≠ 0) a → Forall (λ b, 0 <= b < 256) a →
  Z.of_nat (length a) + 1 < 2 ^ 32 → Z.of_nat (length h) + 1 < 2 ^ 64 →
  ∃ x h',
    xs_new (a ++ 0 :: r) h = Some (x, h')
    ∧ xs_wf x h' = true
    ∧ xs_size x <= xs_capacity x
    ∧ (∀ q b, heap_get h q = Some b → heap_get h' q = Some b)
    ∧ (∀ y, xs_wf y h = true → xs_wf y h' = true)
    ∧ (xs_is_ptr x = true → heap_get h (x_ptr x) = None).
Proof.
  intros Ha Hb Hn Hh.
  destruct (xs_new_spec a r h Ha Hn Hh)
    as (x & h' & Hnew & Hsz & _ & _ & Hwf & Hp & Hin & Hhp).
  exists x, h'. split; [exact Hnew|]. split; [auto|].
  destruct (wf_data x h' (Hwf Hb)) as (_ & _ & _ & _ & _ & Hcap & _).
  split; [exact Hcap|].
  assert (Hkeep : ∀ q b, heap_get h q = Some b → heap_get h' q = Some b).
  { destruct (xs_is_ptr x) eqn:E.
    - destruct (Hhp eq_refl) as (_ & _ & _ & blk & -> & _).
      intros q b Hq. rewrite heap_get_app_l; [exact Hq|].
      apply heap_get_Some in Hq. lia.
    - rewrite (Hin eq_refl). auto. }
  split; [exact Hkeep|]. split.
  - intros y. apply xs_wf_heap_mono, Hkeep.
  - intros E. destruct (Hhp E) as (Hq & _). rewrite Hq.
    apply heap_get_fresh. lia.
Qed.


(** The buffer behind [xs_data] of a well-formed string, with all that
    well-formedness says about it. *)
Lemma wf_buffer x h :
  xs_wf x h = true →
  ∃ a r, object_at x h (xs_data x) = Some (a ++ 0 :: r)
         ∧ Z.of_nat (length a) = xs_size x
         ∧ Z.of_nat (length (a ++ 0 :: r)) = xs_capacity x + 1
         ∧ Forall (λ b, b ≠ 0) a
         ∧ Forall (λ b, 0 <= b < 256) (a ++ 0 :: r)
         ∧ xs_ok x = true
         ∧ addr_off (xs_data x) = 0
         ∧ xs_bytes x h = Some a.
Proof.
  intros Hwf. unfold xs_bytes, mem_read, xs_data, xs_size, xs_capacity.
  pose proof (bits_range 0 4 (byte15 x) ltac:(lia) ltac:(lia)) as Hsl.
  fold (x_space_left x) in Hsl.
  destruct (xs_is_ptr x) eqn:Hp.
  - destruct (xs_wf_heap_inv x h Hwf Hp)
      as (Hok & b & Hb & Hl & Hc & Hs & Hbytes & Hstr).
    destruct (strlen_inv b _ Hstr) as (a & r & -> & Hla & Ha).
    exists a, r. cbn [object_at addr_off]. rewrite Hb.
    assert (0 <= x_capacity x) by (apply (bits_range 54 6); lia).
    rewrite shiftl_1 by lia. cbn [mbind option_bind].
    rewrite buf_read_prefix by lia.
    repeat split; auto; lia.
  - destruct (xs_wf_inline_inv x h Hwf Hp) as [Hok Hs].
    destruct (strlen_inv _ _ Hs) as (a & r & Hx & Ha & Hnz).
    exists a, r. cbn [object_at addr_off mbind option_bind].
    pose proof (xs_ok_length _ Hok). pose proof (xs_ok_bytes _ Hok).
    assert (Hrd : buf_read x 0 (15 - x_space_left x) = Some a)
      by (rewrite Hx at 1; apply buf_read_prefix; lia).
    rewrite Hrd, <- Hx.
    repeat split; auto; lia.
Qed.

(** X3.  [xs_free] on a well-formed string returns the empty
    inline string.  An inline string leaves the heap alone.  A heap string
    has its block released whatever its reference count is, every other
    block stays, and any other string that pointed to the block can no
    longer be read nor freed. *)
Theorem xs_free_releases (x : list Z) (h : list (option (list Z))) :
  xs_wf x h = true →
  ∃ h',
    xs_free x h = Some (xs_literal_empty, h')
    ∧ xs_wf xs_literal_empty h' = true
    ∧ (xs_is_ptr x = false → h' = h)
    ∧ (xs_is_ptr x = true →
       heap_get h' (x_ptr x) = None
       ∧ (∀ q, q ≠ x_ptr x → heap_get h' q = heap_get h q)
       ∧ ∀ y, xs_is_ptr y = true → x_ptr y = x_ptr x →
              xs_bytes y h' = None ∧ xs_free y h' = None).
Proof.
  intros Hwf. unfold xs_free, xs_newempty.
  assert (Hlit : ∀ k, xs_wf xs_literal_empty k = true)
    by (intros k; reflexivity).
  destruct (xs_is_ptr x) eqn:Hp.
  - destruct (wf_heap_block x h Hwf Hp) as (a & c & r & Hb & _).
    pose proof (heap_get_Some _ _ _ Hb) as Hrange.
    unfold xs_data. rewrite Hp, (free_live _ _ _ Hb). cbn [mbind option_bind].
    eexists. split; [reflexivity|]. split; [apply Hlit|].
    split; [discriminate|]. intros _.
    assert (Hgone : heap_get (heap_set h (x_ptr x) None) (x_ptr x) = None)
      by (apply heap_get_set_eq; lia).
    split; [exact Hgone|]. split.
    + intros q Hq. apply heap_get_set_ne; lia.
    + intros y Hy Hpy. split.
      * unfold xs_bytes, xs_data, mem_read. rewrite Hy. cbn [object_at].
        rewrite Hpy, Hgone. reflexivity.
      * unfold xs_free, xs_data, free. rewrite Hy, Hpy.
        destruct (Z.eqb_spec (x_ptr x) 0); [lia|]. rewrite Hgone. reflexivity.
  - exists h. split; [reflexivity|]. split; [apply Hlit|].
    split; [reflexivity|discriminate].
Qed.

Lemma xs_wf_block_update (y : list Z) h p (b b' : list Z) :
  xs_wf y h = true → heap_get h p = Some b →
  length b' = length b → Forall (λ c, 0 <= c < 256) b' →
  strlen b' = strlen b →
  xs_wf y (heap_set h p (Some b')) = true.
Proof.
  intros Hy Hb Hl Hbytes Hs. pose proof (heap_get_Some _ _ _ Hb) as Hrange.
  unfold xs_wf in *. destruct (xs_ok y); [|discriminate]. cbn [andb] in *.
  destruct (xs_is_ptr y) eqn:Hyp; [|exact Hy].
  destruct (Z.eq_dec (x_ptr y) p) as [E|E].
  - rewrite E in *. rewrite Hb in Hy. rewrite heap_get_set_eq by lia.
    rewrite !andb_true_iff in Hy. destruct Hy as [[[[H1 H2] H3] H4] H5].
    rewrite !andb_true_iff. repeat split; auto.
    + rewrite Hl. exact H1.
    + apply forallb_is_byte, Hbytes.
    + unfold strlen_is in *. rewrite Hs. exact H5.
  - rewrite heap_get_set_ne by lia. exact Hy.
Qed.

(** The payload a string reads is the part of its buffer before the
    terminator; a change behind the terminator does not show. *)
Lemma bytes_block_update (y : list Z) h h' p (a k k' : list Z) :
  xs_wf y h = true → Forall (λ c, c ≠ 0) a →
  heap_get h p = Some (a ++ 0 :: k) → heap_get h' p = Some (a ++ 0 :: k') →
  (∀ q b, q ≠ p → heap_get h q = Some b → heap_get h' q = Some b) →
  xs_bytes y h' = xs_bytes y h.
Proof.
  intros Hy Hnz Hb Hb' Hkeep.
  destruct (wf_buffer y h Hy)
    as (ya & yr & Hobj & Hya & _ & Hynz & _ & _ & _ & Hbytes).
  rewrite Hbytes. unfold xs_bytes, mem_read, xs_data, xs_size in *.
  destruct (xs_is_ptr y); [|exact Hbytes]. cbn [object_at addr_off] in *.
  destruct (Z.eq_dec (x_ptr y) p) as [E|E].
  - rewrite E in *. rewrite Hb in Hobj. injection Hobj as Hobj.
    assert (Hs : strlen (a ++ 0 :: k) = strlen (ya ++ 0 :: yr))
      by (rewrite Hobj; reflexivity).
    rewrite !strlen_app in Hs by assumption. injection Hs as Hs.
    apply app_inj_1 in Hobj as [<- _]; [|lia].
    rewrite Hb'. cbn [mbind option_bind]. apply buf_read_prefix. lia.
  - rewrite (Hkeep _ _ E Hobj). cbn [mbind option_bind].
    apply buf_read_prefix. lia.
Qed.

(** All of [xs_cow]: the count of the shared buffer goes down by one and
    nothing else in it changes; the string becomes a deep copy, inline or
    alone on a block that did not exist; every other string is as it
    was. *)
Lemma xs_cow_full x h :
  xs_wf x h = true → xs_is_ptr x = true →
  Z.of_nat (length h) + 1 < 2 ^ 64 →
  ∃ a c r x' h',
    heap_get h (x_ptr x) = Some (a ++ 0 :: c :: r)
    ∧ Z.of_nat (length a) = x_size x
    ∧ xs_cow x h = Some (x', h')
    ∧ heap_get h' (x_ptr x) = Some (a ++ 0 :: byte (c - 1) :: r)
    ∧ xs_size x' = xs_size x
    ∧ xs_bytes x' h' = Some a
    ∧ xs_wf x' h' = true
    ∧ xs_is_ptr x' = (16 <=? xs_size x)
    ∧ (xs_is_ptr x' = true →
       heap_get h (x_ptr x') = None ∧ xs_ref_counter x' h' = Some 1)
    ∧ (∀ q b, q ≠ x_ptr x → heap_get h q = Some b → heap_get h' q = Some b)
    ∧ (∀ y, xs_wf y h = true →
            xs_wf y h' = true ∧ xs_bytes y h' = xs_bytes y h)
    ∧ Z.of_nat (length h') <= Z.of_nat (length h) + 1.
Proof.
  intros Hwf Hp Hh.
  destruct (wf_heap_block x h Hwf Hp)
    as (a & c & r & Hb & Ha & Hnz & Hbytes & Hc' & Hok & Hcap & Hlen).
  pose proof (heap_get_Some _ _ _ Hb) as Hrange.
  exists a, c, r. unfold xs_cow.
  fold (ref_addr x). fold (xs_ref_counter x h).
  rewrite (heap_string_counter x h a c r Hb Ha). cbn [mbind option_bind].
  unfold ref_addr.
  rewrite (mem_store_heap _ _ _ _ _ _ Hb) by (rewrite length_app; simpl; lia).
  cbn [mbind option_bind].
  replace (Z.to_nat (x_size x + 1)) with (length a + 1)%nat by lia.
  rewrite insert_app_r. cbn [insert list_insert].
  set (h1 := heap_set h (x_ptr x) (Some (a ++ 0 :: byte (c - 1) :: r))).
  assert (Hb1 : heap_get h1 (x_ptr x) = Some (a ++ 0 :: byte (c - 1) :: r))
    by (apply heap_get_set_eq; lia).
  assert (Hl1 : length h1 = length h) by apply length_heap_set.
  assert (Hxs : xs_size x = x_size x)
    by (unfold xs_size; rewrite Hp; reflexivity).
  unfold mem_cstr. cbn [object_at addr_off]. rewrite Hb1.
  cbn [mbind option_bind]. change (0 <=? 0) with true. cbn [andb].
  destruct (Z.leb_spec 0 (Z.of_nat (length (a ++ 0 :: byte (c - 1) :: r))));
    [|lia].
  change (drop (Z.to_nat 0) ?l) with l.
  destruct (xs_new_spec a (byte (c - 1) :: r) h1 Hnz
              (wf_heap_length x h a Hwf Hp Ha) ltac:(lia))
    as (x' & h' & Hnew & Hsz & Hby & _ & Hwf' & Hp' & Hin & Hhp).
  exists x', h'. cbn [mbind option_bind]. unfold xs_tmp. rewrite Hnew.
  cbn [mbind option_bind].
  assert (Hkeep : ∀ q b, heap_get h1 q = Some b → heap_get h' q = Some b).
  { destruct (xs_is_ptr x') eqn:E.
    - destruct (Hhp eq_refl) as (_ & _ & _ & blk & -> & _).
      intros q b Hq. rewrite heap_get_app_l; [exact Hq|].
      apply heap_get_Some in Hq. lia.
    - rewrite (Hin eq_refl). auto. }
  assert (Hkeep0 : ∀ q b, q ≠ x_ptr x → heap_get h q = Some b →
                          heap_get h' q = Some b).
  { intros q b Hq Hqb. apply Hkeep. unfold h1.
    rewrite heap_get_set_ne by lia. exact Hqb. }
  pose proof (Hkeep _ _ Hb1) as Hb'.
  split; [exact Hb|]. split; [exact Ha|]. split; [reflexivity|].
  split; [exact Hb'|].
  split; [lia|]. split; [exact Hby|]. split; [auto|].
  split; [rewrite Hp'; f_equal; lia|].
  split.
  { intros E. destruct (Hhp E) as (Hq & _ & Hrc & _). split; [|exact Hrc].
    rewrite Hq. apply heap_get_fresh. lia. }
  split; [exact Hkeep0|].
  split.
  { intros y Hy. split.
    - apply (xs_wf_heap_mono y h1 h' Hkeep).
      apply (xs_wf_block_update y h (x_ptr x) _ _ Hy Hb).
      + rewrite !length_app. reflexivity.
      + apply Forall_app. split; [exact Hbytes|].
        pose proof (xs_wf_heap_inv x h Hwf Hp)
          as (_ & b0 & Hb0 & _ & _ & _ & Hby0 & _).
        rewrite Hb in Hb0. injection Hb0 as <-.
        apply Forall_app in Hby0 as [_ Hby0].
        inversion Hby0 as [|? ? ? Hby1]; subst. inversion Hby1; subst.
        pose proof (byte_range (c - 1)). repeat constructor; auto; lia.
      + rewrite !strlen_app by exact Hnz. reflexivity.
    - apply (bytes_block_update y h h' (x_ptr x) a _ _ Hy Hnz Hb Hb' Hkeep0). }
  destruct (xs_is_ptr x') eqn:E.
  - destruct (Hhp eq_refl) as (_ & _ & _ & blk & -> & _).
    rewrite length_app. simpl. lia.
  - rewrite (Hin eq_refl). lia.
Qed.

(** X4.  [xs_cow] on a well-formed heap string with count [c]:
    the result is a well-formed deep copy with the same size and bytes,
    inline exactly when the size is below 16 and otherwise alone (count 1) on
    a block that did not exist; the old buffer keeps its bytes, its count
    is [c - 1] as a byte, no other block changes and every well-formed
    string stays well formed. *)
Theorem xs_cow_detaches (x : list Z) (h : list (option (list Z))) (c : Z) :
  xs_wf x h = true → xs_is_ptr x = true →
  xs_ref_counter x h = Some c →
  Z.of_nat (length h) + 1 < 2 ^ 64 →
  ∃ bs x' h',
    xs_cow x h = Some (x', h')
    ∧ xs_bytes x h = Some bs
    ∧ xs_size x' = xs_size x ∧ xs_bytes x' h' = Some bs
    ∧ xs_wf x' h' = true
    ∧ xs_is_ptr x' = (16 <=? xs_size x)
    ∧ (xs_is_ptr x' = true →
       heap_get h (x_ptr x') = None ∧ xs_ref_counter x' h' = Some 1)
    ∧ xs_ref_counter x h' = Some (byte (c - 1))
    ∧ xs_bytes x h' = Some bs
    ∧ (∀ q b, q ≠ x_ptr x → heap_get h q = Some b → heap_get h' q = Some b)
    ∧ (∀ y, xs_wf y h = true → xs_wf y h' = true).
Proof.
  intros Hwf Hp Hc Hh.
  destruct (xs_cow_full x h Hwf Hp Hh)
    as (a & c' & r & x' & h' & Hb & Ha & Hcow & Hb' & Hsz & Hby & Hwf' & Hp'
        & Hfresh & Hkeep & Hall & _).
  rewrite (heap_string_counter x h a c' r Hb Ha) in Hc. injection Hc as ->.
  exists a, x', h'. split; [exact Hcow|].
  split; [exact (heap_string_bytes x h a c r Hp Hb Ha)|].
  split; [exact Hsz|]. split; [exact Hby|]. split; [exact Hwf'|].
  split; [exact Hp'|]. split; [exact Hfresh|].
  split; [exact (heap_string_counter x h' a _ r Hb' Ha)|].
  split; [exact (heap_string_bytes x h' a _ r Hp Hb' Ha)|].
  split; [exact Hkeep|]. intros y Hy. apply Hall, Hy.
Qed.


(** The header [xs_grow] leaves behind: pointer, layout flag and capacity
    class are stored, the size member is not. *)
Lemma grow_header x q c :
  xs_ok x = true → 0 <= q < 2 ^ 64 → 0 <= c < 64 →
  let x' := set_capacity c (set_is_ptr true (set_ptr q x)) in
  xs_ok x' = true ∧ x_ptr x' = q ∧ x_capacity x' = c
  ∧ x_is_ptr x' = true ∧ x_size x' = x_size x.
Proof.
  intros Hok Hq Hc x'.
  destruct (set_ptr_fields x q Hok Hq) as (Ho1 & Hp1 & Hc1 & Hs1 & Hi1).
  pose proof (set_is_ptr_ok _ Ho1 true) as Ho2.
  unfold x'. split; [apply set_capacity_ok, Ho2|].
  rewrite ptr_set_capacity, ptr_set_is_ptr by exact Ho2.
  rewrite capacity_set_capacity, is_ptr_set_capacity by exact Ho2.
  rewrite size_set_capacity, size_set_is_ptr by assumption.
  rewrite is_ptr_set_is_ptr by (apply xs_ok_length, Ho1).
  rewrite bits_small by lia. auto.
Qed.

Lemma grow_class len :
  0 < len < 2 ^ 32 →
  ilog2 len = Some (Z.log2 len)
  ∧ 0 <= Z.log2 len + 1 <= 32 ∧ len < 2 ^ (Z.log2 len + 1)
  ∧ sz (1 ≪ (Z.log2 len + 1)) = 2 ^ (Z.log2 len + 1).
Proof.
  intros Hl. split; [apply ilog2_spec, Hl|].
  pose proof (Z.log2_nonneg len).
  pose proof (Z.log2_spec len ltac:(lia)) as Hs.
  assert (Z.log2 len < 32) by (apply Z.log2_lt_pow2; lia).
  replace (Z.succ (Z.log2 len)) with (Z.log2 len + 1) in Hs by lia.
  split; [lia|]. split; [lia|]. apply shiftl_1. lia.
Qed.

Lemma wf_capacity x h :
  xs_wf x h = true →
  0 <= xs_size x <= xs_capacity x
  ∧ (xs_is_ptr x = true → xs_capacity x = 2 ^ x_capacity x - 1
                           ∧ 0 <= x_capacity x <= 32
                           ∧ xs_size x < xs_capacity x).
Proof.
  intros Hwf.
  destruct (wf_data x h Hwf) as (a & r & _ & _ & Ha & Hcap & Hsz & _).
  split; [lia|]. intros Hp.
  destruct (xs_wf_heap_inv x h Hwf Hp) as (_ & b & _ & _ & Hc & Hs & _).
  assert (0 <= x_capacity x) by (apply (bits_range 54 6); lia).
  unfold xs_capacity, xs_size. rewrite Hp, shiftl_1 by lia. lia.
Qed.

(** Reallocation of a live block to a size that is not smaller. *)
Lemma realloc_bigger h p n b :
  heap_get h p = Some b → Z.of_nat (length b) <= n →
  realloc p n h
  = Some (Z.of_nat (length h) + 1,
          heap_set h p None
          ++ [Some (b ++ replicate (Z.to_nat n - length b) uninit)]).
Proof.
  intros Hb Hn. pose proof (heap_get_Some _ _ _ Hb) as Hr.
  unfold realloc. destruct (Z.eqb_spec p 0); [lia|].
  rewrite Hb. cbn [mbind option_bind]. rewrite (free_live _ _ _ Hb).
  cbn [mbind option_bind]. unfold malloc.
  cbv beta iota. rewrite take_ge by lia.
  pose proof (heap_set_app_new (heap_set h p None)
                (Some (replicate (Z.to_nat n) uninit))
                (Some (b ++ replicate (Z.to_nat n - length b) uninit))) as E.
  rewrite length_heap_set in *. rewrite E. reflexivity.
Qed.

(** What [xs_grow] returns when it reallocates a heap string. *)
Lemma xs_grow_heap_result x len h b :
  xs_wf x h = true → xs_is_ptr x = true →
  heap_get h (x_ptr x) = Some b →
  xs_capacity x < len < 2 ^ 32 →
  let c := Z.log2 len + 1 in
  xs_grow x len h
  = Some (set_capacity c
            (set_is_ptr true (set_ptr (Z.of_nat (length h) + 1) x)),
          heap_set h (x_ptr x) None
          ++ [Some (b ++ replicate (Z.to_nat (2 ^ c) - length b) uninit)])
  ∧ Z.of_nat (length b) <= 2 ^ c.
Proof.
  intros Hwf Hp Hb Hlen c.
  destruct (wf_capacity x h Hwf) as [Hsz Hcapx].
  destruct (Hcapx Hp) as [Hcx Hcr].
  destruct (xs_wf_heap_inv x h Hwf Hp) as (_ & b' & Hb' & Hbl & _).
  rewrite Hb in Hb'. injection Hb' as <-.
  destruct (grow_class len ltac:(lia)) as (Hlg & Hc & Hpow & Hshift).
  fold c in Hc, Hpow, Hshift.
  unfold xs_grow. destruct (Z.leb_spec len (xs_capacity x)); [lia|].
  rewrite Hlg. cbn [mbind option_bind]. fold c. rewrite Hshift, Hp.
  rewrite (realloc_bigger _ _ _ _ Hb) by lia.
  split; [reflexivity|lia].
Qed.

(** What [xs_grow] returns when it moves an inline string to the heap. *)
Lemma xs_grow_inline_result x len h :
  xs_ok x = true → xs_is_ptr x = false → 15 < len < 2 ^ 32 →
  Z.of_nat (length h) + 1 < 2 ^ 64 →
  let c := Z.log2 len + 1 in
  xs_grow x len h
  = Some (set_capacity c
            (set_is_ptr true (set_ptr (Z.of_nat (length h) + 1) x)),
          h ++ [Some (x ++ replicate (Z.to_nat (2 ^ c) - 16) uninit)])
  ∧ 16 < 2 ^ c.
Proof.
  intros Hok Hp Hlen Hh c.
  destruct (grow_class len ltac:(lia)) as (Hlg & Hc & Hpow & Hshift).
  fold c in Hc, Hpow, Hshift.
  assert (Hx16 : length x = 16%nat) by (apply xs_ok_length, Hok).
  assert (H16 : 16 < 2 ^ c).
  { assert (2 ^ 4 < 2 ^ c); [|lia].
    apply Z.pow_lt_mono_r; try lia.
    assert (4 <= Z.log2 len); [|unfold c; lia].
    apply Z.log2_le_pow2; lia. }
  split; [|exact H16].
  unfold xs_grow, xs_capacity. rewrite Hp.
  destruct (Z.leb_spec len 15); [lia|].
  rewrite Hlg. cbn [mbind option_bind]. fold c. rewrite Hshift.
  unfold mem_read. cbn [object_at addr_off mbind option_bind].
  rewrite buf_read_Some by lia.
  change (Z.to_nat 0) with 0%nat. change (Z.to_nat 16) with 16%nat.
  rewrite drop_0, take_ge by lia. cbn [mbind option_bind].
  unfold malloc. cbv beta iota.
  rewrite ptr_set_ptr, bits_small by lia.
  unfold mem_write. rewrite heap_get_app_new. cbn [mbind option_bind].
  rewrite buf_write_prefix by (rewrite length_replicate; lia).
  cbn [mbind option_bind]. rewrite heap_set_app_new.
  rewrite Hx16, drop_replicate. reflexivity.
Qed.

(** X5.  [xs_grow] on a well-formed string and a length below
    [2 ^ 32] returns a string whose capacity is at least that length and at
    least the old capacity.  Within the capacity nothing changes; above it
    the result is a heap string of capacity [2 ^ (ilog2 len + 1) - 1] on a
    new block of that many bytes plus one. *)
Theorem xs_grow_capacity (x : list Z) (len : Z) (h : list (option (list Z))) :
  xs_wf x h = true → 0 <= len < 2 ^ 32 →
  Z.of_nat (length h) + 1 < 2 ^ 64 →
  ∃ x' h',
    xs_grow x len h = Some (x', h')
    ∧ len <= xs_capacity x'
    ∧ xs_capacity x <= xs_capacity x'
    ∧ (len <= xs_capacity x → x' = x ∧ h' = h)
    ∧ (xs_capacity x < len →
       xs_is_ptr x' = true
       ∧ xs_capacity x' = 2 ^ (Z.log2 len + 1) - 1
       ∧ heap_get h (x_ptr x') = None
       ∧ ∃ b, heap_get h' (x_ptr x') = Some b
              ∧ Z.of_nat (length b) = xs_capacity x' + 1).
Proof.
  intros Hwf Hlen Hh.
  destruct (wf_capacity x h Hwf) as [Hsz Hcapx].
  destruct (wf_buffer x h Hwf)
    as (a & r & Hobj & Ha & Hbl & Hnz & Hby & Hok & _).
  destruct (Z.le_gt_cases len (xs_capacity x)) as [Hle|Hgt].
  { exists x, h. rewrite xs_grow_noop by exact Hle.
    repeat split; auto; lia. }
  destruct (grow_class len ltac:(lia)) as (Hlg & Hc & Hpow & Hshift).
  set (c := Z.log2 len + 1) in *.
  set (q := Z.of_nat (length h) + 1).
  destruct (grow_header x q c Hok ltac:(unfold q; lia) ltac:(lia))
    as (Hok' & Hq' & Hc' & Hi' & Hs').
  assert (Hcap' : xs_capacity (set_capacity c (set_is_ptr true (set_ptr q x)))
                  = 2 ^ c - 1).
  { unfold xs_capacity, xs_is_ptr. rewrite Hi', Hc', shiftl_1 by lia.
    reflexivity. }
  assert (Hfresh : heap_get h q = None)
    by (apply heap_get_fresh; unfold q; lia).
  destruct (xs_is_ptr x) eqn:Hp.
  - unfold xs_data in Hobj. rewrite Hp in Hobj. cbn [object_at] in Hobj.
    destruct (xs_grow_heap_result x len h _ Hwf Hp Hobj ltac:(lia)) as [E Hl].
    fold c q in E, Hl. rewrite E.
    eexists _, _. split; [reflexivity|].
    rewrite Hcap'. split; [lia|]. split; [lia|]. split; [lia|].
    intros _. unfold xs_is_ptr. rewrite Hi', Hq'.
    split; [reflexivity|]. split; [reflexivity|]. split; [exact Hfresh|].
    eexists. split.
    { unfold q. rewrite <- (length_heap_set h (x_ptr x) None).
      apply heap_get_app_new. }
    rewrite length_app, length_replicate. lia.
  - assert (Hc15 : xs_capacity x = 15)
      by (unfold xs_capacity; rewrite Hp; reflexivity).
    destruct (xs_grow_inline_result x len h Hok Hp ltac:(lia) Hh) as [E Hl].
    fold c q in E, Hl. rewrite E.
    eexists _, _. split; [reflexivity|].
    rewrite Hcap'. split; [lia|]. split; [lia|]. split; [lia|].
    intros _. unfold xs_is_ptr. rewrite Hi', Hq'.
    split; [reflexivity|]. split; [reflexivity|]. split; [exact Hfresh|].
    eexists. split; [unfold q; apply heap_get_app_new|].
    rewrite length_app, length_replicate. pose proof (xs_ok_length _ Hok). lia.
Qed.

(** X6.  [xs_grow] on a well-formed heap string keeps its
    size, its bytes and its reference count, and returns a well-formed
    heap string. *)
Theorem xs_grow_heap_keeps (x : list Z) (len : Z) (h : list (option (list Z)))
    (k : Z) :
  xs_wf x h = true → xs_is_ptr x = true → xs_ref_counter x h = Some k →
  0 <= len < 2 ^ 32 → Z.of_nat (length h) + 1 < 2 ^ 64 →
  ∃ bs x' h',
    xs_grow x len h = Some (x', h')
    ∧ xs_bytes x h = Some bs
    ∧ xs_wf x' h' = true
    ∧ xs_is_ptr x' = true
    ∧ xs_size x' = xs_size x
    ∧ xs_bytes x' h' = Some bs
    ∧ xs_ref_counter x' h' = Some k.
Proof.
  intros Hwf Hp Hk Hlen Hh.
  destruct (wf_heap_block x h Hwf Hp)
    as (a & k' & r & Hb & Ha & Hnz & Hbytes & Hk' & Hok & Hcap & Hbl).
  rewrite (heap_string_counter x h a k' r Hb Ha) in Hk. injection Hk as ->.
  pose proof (heap_string_bytes x h a k r Hp Hb Ha) as Hbs.
  exists a.
  destruct (Z.le_gt_cases len (xs_capacity x)) as [Hle|Hgt].
  { exists x, h. rewrite xs_grow_noop by exact Hle.
    repeat split; auto. apply (heap_string_counter x h a k r Hb Ha). }
  destruct (xs_grow_heap_result x len h _ Hwf Hp Hb ltac:(lia)) as [E Hl].
  destruct (wf_capacity x h Hwf) as [Hsz _].
  destruct (grow_class len ltac:(lia)) as (Hlg & Hc & Hpow & Hshift).
  set (c := Z.log2 len + 1) in *.
  set (q := Z.of_nat (length h) + 1) in *.
  destruct (grow_header x q c Hok ltac:(unfold q; lia) ltac:(lia))
    as (Hok' & Hq' & Hc' & Hi' & Hs').
  set (x' := set_capacity c (set_is_ptr true (set_ptr q x))) in *.
  eexists x', _. split; [exact E|]. split; [exact Hbs|].
  set (pad := replicate (Z.to_nat (2 ^ c) - length (a ++ 0 :: k :: r)) uninit).
  assert (Hb' : heap_get (heap_set h (x_ptr x) None
                          ++ [Some ((a ++ 0 :: k :: r) ++ pad)]) (x_ptr x')
                = Some (a ++ 0 :: k :: (r ++ pad))).
  { rewrite Hq'. unfold q. rewrite <- (length_heap_set h (x_ptr x) None).
    rewrite heap_get_app_new. rewrite <- app_assoc. reflexivity. }
  assert (Ha' : Z.of_nat (length a) = x_size x') by lia.
  pose proof (xs_wf_heap_inv x h Hwf Hp)
    as (_ & b0 & Hb0 & _ & _ & Hs0 & Hby0 & _).
  rewrite Hb in Hb0. injection Hb0 as <-.
  split.
  { apply (xs_wf_heap x' _ _ Hok' Hi' Hb'); rewrite ?Hc', ?Hs'.
    - change (a ++ 0 :: k :: r ++ pad) with (a ++ (0 :: k :: r) ++ pad).
      rewrite app_assoc, length_app. unfold pad. rewrite length_replicate. lia.
    - lia.
    - lia.
    - change (a ++ 0 :: k :: r ++ pad) with (a ++ (0 :: k :: r) ++ pad).
      rewrite app_assoc. apply Forall_app. split; [exact Hby0|].
      apply Forall_replicate. unfold uninit. lia.
    - rewrite strlen_app by exact Hnz. f_equal. lia. }
  assert (Hp' : xs_is_ptr x' = true) by exact Hi'.
  split; [exact Hp'|].
  split; [unfold xs_size; rewrite Hp, Hp'; exact Hs'|].
  split; [exact (heap_string_bytes x' _ a k _ Hp' Hb' Ha')|].
  exact (heap_string_counter x' _ a k _ Hb' Ha').
Qed.

(** X7.  [xs_grow] on a well-formed inline string, to a
    length above 15, copies the 16 bytes of the object to the front of a
    new block, so the payload and its terminator are found at the new data
    pointer; the size member is left as the bits of the object had it. *)
Theorem xs_grow_inline_moves (x : list Z) (len : Z)
    (h : list (option (list Z))) :
  xs_wf x h = true → xs_is_ptr x = false → 15 < len < 2 ^ 32 →
  Z.of_nat (length h) + 1 < 2 ^ 64 →
  ∃ bs x' h' pad,
    xs_grow x len h = Some (x', h')
    ∧ xs_bytes x h = Some bs
    ∧ xs_is_ptr x' = true
    ∧ h' = h ++ [Some (x ++ pad)]
    ∧ heap_get h' (x_ptr x') = Some (x ++ pad)
    ∧ mem_read x' h' (xs_data x') (xs_size x) = Some bs
    ∧ mem_load x' h' (padd (xs_data x') (xs_size x)) = Some 0
    ∧ x_size x' = x_size x.
Proof.
  intros Hwf Hp Hlen Hh.
  destruct (wf_buffer x h Hwf)
    as (a & r & Hobj & Ha & Hbl & Hnz & Hby & Hok & _).
  unfold xs_data in Hobj. rewrite Hp in Hobj. cbn [object_at] in Hobj.
  injection Hobj as Hx.
  destruct (xs_grow_inline_result x len h Hok Hp Hlen Hh) as [E Hl].
  destruct (grow_class len ltac:(lia)) as (Hlg & Hc & Hpow & Hshift).
  set (c := Z.log2 len + 1) in *.
  set (q := Z.of_nat (length h) + 1) in *.
  destruct (grow_header x q c Hok ltac:(unfold q; lia) ltac:(lia))
    as (Hok' & Hq' & Hc' & Hi' & Hs').
  set (x' := set_capacity c (set_is_ptr true (set_ptr q x))) in *.
  set (pad := replicate (Z.to_nat (2 ^ c) - 16) uninit) in *.
  assert (Hp' : xs_is_ptr x' = true) by exact Hi'.
  assert (Hb' : heap_get (h ++ [Some (x ++ pad)]) (x_ptr x') = Some (x ++ pad)).
  { rewrite Hq'. apply heap_get_app_new. }
  exists a, x', (h ++ [Some (x ++ pad)]), pad.
  split; [exact E|]. split.
  { unfold xs_bytes, xs_data. rewrite Hp.
    unfold mem_read. cbn [object_at addr_off mbind option_bind].
    rewrite Hx at 1. apply buf_read_prefix. lia. }
  split; [exact Hp'|]. split; [reflexivity|]. split; [exact Hb'|].
  unfold xs_data. rewrite Hp'. cbn [padd].
  assert (Hxp : x ++ pad = a ++ 0 :: (r ++ pad)).
  { clearbody pad. rewrite Hx at 1. rewrite <- app_assoc. reflexivity. }
  split; [|split; [|exact Hs']].
  - rewrite (mem_read_heap _ _ _ _ _ _ Hb'), Hxp.
    apply buf_read_prefix. lia.
  - rewrite (mem_load_heap _ _ _ _ _ Hb'), Hxp by lia.
    replace (Z.to_nat (0 + xs_size x)) with (length a + 0)%nat by lia.
    rewrite lookup_app_r by lia.
    replace (length a + 0 - length a)%nat with 0%nat by lia. reflexivity.
Qed.

(** * Byte sets *)

Lemma land_bit a k :
  0 <= k → (Z.land a (1 ≪ k) =? 0) = negb (Z.testbit a k).
Proof.
  intros Hk. rewrite Z.shiftl_1_l.
  destruct (Z.testbit a k) eqn:E; simpl.
  - apply Z.eqb_neq. intros H.
    assert (Z.testbit (Z.land a (2 ^ k)) k = true).
    { rewrite Z.land_spec, E, Z.pow2_bits_true by lia. reflexivity. }
    rewrite H, Z.bits_0 in *. discriminate.
  - apply Z.eqb_eq. apply Z.bits_inj'. intros i Hi.
    rewrite Z.land_spec, Z.bits_0, Z.pow2_bits_eqb by lia.
    destruct (Z.eqb_spec k i) as [->|]; [rewrite E|]; 
      rewrite ?andb_false_r; reflexivity.
Qed.

Lemma check_bit_testbit mask c :
  check_bit mask c
  = Z.testbit (nth (Z.to_nat (byte c / 8)) mask 0) (byte c mod 8).
Proof.
  unfold check_bit. rewrite land_bit, negb_involutive; [reflexivity|].
  apply Z.mod_pos_bound. lia.
Qed.

Lemma length_set_bit mask c : length (set_bit mask c) = length mask.
Proof. unfold set_bit. apply length_insert. Qed.

Lemma check_set_bit mask d c :
  length mask = 32%nat →
  check_bit (set_bit mask d) c = check_bit mask c || (byte c =? byte d).
Proof.
  intros Hl. rewrite !check_bit_testbit. unfold set_bit.
  pose proof (byte_range c) as Hc. pose proof (byte_range d) as Hd.
  set (bc := byte c) in *. set (bd := byte d) in *.
  assert (0 <= bc mod 8 < 8) by (apply Z.mod_pos_bound; lia).
  assert (0 <= bd mod 8 < 8) by (apply Z.mod_pos_bound; lia).
  assert (0 <= bc / 8 < 32)
    by (split; [apply Z.div_pos; lia | apply Z.div_lt_upper_bound; lia]).
  assert (0 <= bd / 8 < 32)
    by (split; [apply Z.div_pos; lia | apply Z.div_lt_upper_bound; lia]).
  destruct (Z.eq_dec (bc / 8) (bd / 8)) as [Ej|Ej].
  - rewrite Ej. rewrite nth_lookup, list_lookup_insert_eq by lia. simpl.
    unfold byte. change 256 with (2 ^ 8).
    rewrite Z.mod_pow2_bits_low by lia.
    rewrite Z.lor_spec, Z.shiftl_1_l, Z.pow2_bits_eqb by lia.
    f_equal.
    destruct (Z.eqb_spec (bd mod 8) (bc mod 8)) as [Ek|Ek];
      destruct (Z.eqb_spec bc bd) as [E|E]; try reflexivity.
    + exfalso. apply E.
      rewrite (Z.div_mod bc 8), (Z.div_mod bd 8) by lia. lia.
    + exfalso. apply Ek. rewrite E. reflexivity.
  - rewrite !nth_lookup, list_lookup_insert_ne by lia.
    destruct (Z.eqb_spec bc bd) as [E|E]; [rewrite E in Ej; lia|].
    rewrite orb_false_r. reflexivity.
Qed.

Lemma check_bit_foldl l mask c :
  length mask = 32%nat →
  check_bit (foldl set_bit mask l) c
  = check_bit mask c || existsb (λ d, byte c =? byte d) l.
Proof.
  revert mask. induction l as [|d l IH]; intros mask Hl; simpl.
  - rewrite orb_false_r. reflexivity.
  - rewrite IH by (rewrite length_set_bit; exact Hl).
    rewrite check_set_bit by exact Hl. rewrite orb_assoc. reflexivity.
Qed.

Lemma check_bit_empty c : check_bit (replicate 32 0) c = false.
Proof.
  rewrite check_bit_testbit.
  pose proof (byte_range c).
  assert (Z.to_nat (byte c / 8) < 32)%nat.
  { assert (byte c / 8 < 32) by (apply Z.div_lt_upper_bound; lia).
    assert (0 <= byte c / 8) by (apply Z.div_pos; lia). lia. }
  rewrite nth_lookup, lookup_replicate_2 by assumption. apply Z.bits_0.
Qed.

Lemma check_bit_make_mask set n c :
  check_bit (make_mask set n) c
  = existsb (λ d, byte c =? byte d) (take (Z.to_nat n) set).
Proof.
  unfold make_mask. rewrite check_bit_foldl by apply length_replicate.
  rewrite check_bit_empty. reflexivity.
Qed.

(** X8.  The 32-byte mask built by [set_bit] from the first [n]
    bytes of a set makes [check_bit] true at [c] exactly when one of those
    bytes equals [c] as an unsigned char. *)
Theorem mask_membership (set : list Z) (n c : Z) :
  check_bit (make_mask set n) c = true
  ↔ ∃ d, d ∈ take (Z.to_nat n) set ∧ byte d = byte c.
Proof.
  rewrite check_bit_make_mask, existsb_exists. split.
  - intros (d & Hd & E). exists d. split; [apply list_elem_of_In, Hd|].
    apply Z.eqb_eq in E. congruence.
  - intros (d & Hd & E). exists d. split; [apply list_elem_of_In, Hd|].
    apply Z.eqb_eq. congruence.
Qed.


(** * Reading and writing through the data pointer *)

Lemma same_but_refl p h : same_but p h h.
Proof. split; auto. Qed.

Lemma same_but_trans p h h1 h2 :
  same_but p h h1 → same_but p h1 h2 → same_but p h h2.
Proof.
  intros [L1 F1] [L2 F2]. split; [congruence|].
  intros q Hq. rewrite F2, F1 by exact Hq. reflexivity.
Qed.

Lemma same_but_set p h b :
  0 < p → same_but p h (heap_set h p b).
Proof.
  intros Hp. split; [apply length_heap_set|].
  intros q Hq. apply heap_get_set_ne; lia.
Qed.

(** * The three copies of [xs_concat] on a buffer *)

Lemma buf_write_Some (b : list Z) off bs :
  0 <= off → off + Z.of_nat (length bs) <= Z.of_nat (length b) →
  buf_write b off bs
  = Some (take (Z.to_nat off) b ++ bs ++ drop (Z.to_nat off + length bs) b).
Proof.
  intros H1 H2. unfold buf_write.
  destruct (Z.leb_spec 0 off); [|lia].
  destruct (Z.leb_spec (off + Z.of_nat (length bs)) (Z.of_nat (length b)));
    [|lia]. reflexivity.
Qed.

Lemma concat_buffer (B a pa sa : list Z) :
  (length pa + length a + length sa + 1 <= length B)%nat →
  ∃ B1 B2,
    buf_write B (Z.of_nat (length pa)) a = Some B1
    ∧ buf_write B1 0 pa = Some B2
    ∧ buf_write B2 (Z.of_nat (length pa) + Z.of_nat (length a)) (sa ++ [0])
      = Some ((pa ++ a ++ sa)
              ++ 0 :: drop (length pa + length a + length sa + 1) B).
Proof.
  intros HL.
  eexists _, _. split; [apply buf_write_Some; lia|].
  rewrite Nat2Z.id.
  split.
  { rewrite buf_write_prefix.
    - reflexivity.
    - rewrite !length_app, length_take, length_drop. lia. }
  rewrite drop_app_length' by (rewrite length_take; lia).
  rewrite buf_write_Some.
  2: lia.
  2: { rewrite !length_app, length_drop. simpl. lia. }
  f_equal.
  replace (Z.to_nat (Z.of_nat (length pa) + Z.of_nat (length a)))
    with (length pa + length a)%nat by lia.
  rewrite (app_assoc pa a), take_app_length' by (rewrite length_app; lia).
  rewrite length_app. change (length [0]) with 1%nat.
  rewrite drop_app_ge by (rewrite length_app; lia).
  rewrite drop_drop, length_app.
  replace (length pa + length a
           + (length pa + length a + (length sa + 1)
              - (length pa + length a)))%nat
    with (length pa + length a + length sa + 1)%nat by lia.
  rewrite <- !app_assoc. reflexivity.
Qed.

(** * Writing through the data pointer *)

Lemma addr_block_padd a k : addr_block (padd a k) = addr_block a.
Proof. destruct a; reflexivity. Qed.

Lemma addr_block_data x :
  addr_block (xs_data x) = if xs_is_ptr x then x_ptr x else 0.
Proof. unfold xs_data. destruct (xs_is_ptr x); reflexivity. Qed.

(** A write through [a]: the object [a] points into is replaced.  An
    inline object is the string itself; a write into a heap block leaves
    the string and every other block alone. *)
Lemma mem_write_obj x h a bs B B' :
  object_at x h a = Some B →
  buf_write B (addr_off a) bs = Some B' →
  ∃ x1 h1,
    mem_write x h a bs = Some (x1, h1)
    ∧ object_at x1 h1 a = Some B'
    ∧ same_but (addr_block a) h h1
    ∧ (addr_block a = 0 → x1 = B' ∧ h1 = h)
    ∧ (addr_block a ≠ 0 → x1 = x).
Proof.
  intros Hb Hw. destruct a as [o|p o]; simpl in *.
  - injection Hb as ->. rewrite Hw. cbn [mbind option_bind].
    eexists _, _. split; [reflexivity|]. split; [reflexivity|].
    split; [apply same_but_refl|]. split; [auto|]. intros; lia.
  - rewrite Hb. cbn [mbind option_bind]. rewrite Hw. cbn [mbind option_bind].
    pose proof (heap_get_Some _ _ _ Hb) as Hr.
    eexists _, _. split; [reflexivity|].
    split; [apply heap_get_set_eq; lia|].
    split; [apply same_but_set; lia|]. split; [lia|reflexivity].
Qed.

Lemma mem_load_at x h a B :
  object_at x h a = Some B → 0 <= addr_off a →
  mem_load x h a = B !! Z.to_nat (addr_off a).
Proof.
  intros Hb Hk. unfold mem_load. rewrite (mem_read_object _ _ _ _ _ Hb).
  apply buf_read_one, Hk.
Qed.

Lemma bytes_of_buffer x h (a r : list Z) :
  object_at x h (xs_data x) = Some (a ++ 0 :: r) →
  Z.of_nat (length a) = xs_size x →
  xs_bytes x h = Some a.
Proof.
  intros Hobj Ha. unfold xs_bytes.
  rewrite (mem_read_object _ _ _ _ _ Hobj).
  replace (addr_off (xs_data x)) with 0
    by (unfold xs_data; destruct (xs_is_ptr x); reflexivity).
  apply buf_read_prefix. lia.
Qed.

(** A source string read while another buffer is being written. *)
Lemma source_frame y h h1 p (a r : list Z) :
  object_at y h (xs_data y) = Some (a ++ 0 :: r) →
  same_but p h h1 →
  (xs_is_ptr y = true → p ≠ 0 → x_ptr y ≠ p) →
  object_at y h1 (xs_data y) = Some (a ++ 0 :: r).
Proof.
  intros Hb [_ F] Hne. unfold xs_data in *.
  destruct (xs_is_ptr y); [|exact Hb]. simpl in *.
  pose proof (heap_get_Some _ _ _ Hb).
  rewrite F; [exact Hb|].
  destruct (Z.eq_dec p 0); [lia|auto].
Qed.

(** * Storing the new size *)

Lemma inline_tail_is_ptr (B m : list Z) :
  length B = 16%nat → x_is_ptr B = false → (length m <= 15)%nat →
  x_is_ptr (m ++ 0 :: drop (length m + 1) B) = false.
Proof.
  intros HB Hp Hm. unfold x_is_ptr, byte15 in *.
  destruct (decide (length m = 15%nat)) as [E|E].
  - rewrite app_nth2 by lia. rewrite E. simpl. reflexivity.
  - rewrite app_nth2 by lia.
    destruct (15 - length m)%nat as [|k] eqn:Ek; [lia|]. simpl.
    rewrite !nth_lookup, lookup_drop in *.
    replace (length m + 1 + k)%nat with 15%nat by lia. exact Hp.
Qed.

Lemma inline_finish (B m rest : list Z) h v :
  B = m ++ 0 :: rest → length B = 16%nat →
  Forall (λ c, 0 <= c < 256) B → Forall (λ c, c ≠ 0) m →
  x_is_ptr B = false → v = 15 - Z.of_nat (length m) →
  let x' := set_space_left (sz v) B in
  xs_wf x' h = true ∧ xs_is_ptr x' = false
  ∧ xs_size x' = Z.of_nat (length m) ∧ xs_bytes x' h = Some m.
Proof.
  intros HB HL Hby Hnz Hp Hv x'.
  assert (Hm : (length m <= 15)%nat).
  { rewrite HB, length_app in HL. simpl in HL. lia. }
  assert (Hok : xs_ok B = true) by (apply xs_ok_spec; auto).
  subst x'. rewrite sz_small by lia. set (x' := set_space_left v B).
  assert (Hp' : x_is_ptr x' = false)
    by (unfold x'; rewrite is_ptr_set_space_left by exact HL; exact Hp).
  assert (Hsl : x_space_left x' = v).
  { unfold x'. rewrite space_left_set_space_left by exact HL.
    apply bits_small; lia. }
  assert (Hs : strlen x' = Some (Z.of_nat (length m))).
  { unfold x', set_space_left. rewrite HB at 2.
    destruct (decide (length m = 15%nat)) as [E|E].
    - assert (rest = []) as ->.
      { rewrite HB, length_app in HL. simpl in HL.
        destruct rest; [reflexivity|simpl in HL; lia]. }
      replace 15%nat with (length m + 0)%nat by lia.
      rewrite insert_app_r. simpl.
      assert (byte15 B = 0) as ->.
      { unfold byte15. rewrite HB, app_nth2 by lia. rewrite E. reflexivity. }
      replace v with 0 by lia. change (set_bits 0 4 0 0) with 0.
      apply strlen_app, Hnz.
    - replace 15%nat with (length m + S (14 - length m))%nat by lia.
      rewrite insert_app_r. simpl. apply strlen_app, Hnz. }
  split.
  { apply xs_wf_inline; [apply set_space_left_ok, Hok|exact Hp'|].
    rewrite Hs, Hsl. f_equal. lia. }
  split; [exact Hp'|]. split.
  { unfold xs_size, xs_is_ptr. rewrite Hp', Hsl. lia. }
  unfold xs_bytes, xs_data, xs_size, xs_is_ptr. rewrite Hp', Hsl.
  unfold mem_read. cbn [object_at addr_off mbind option_bind].
  rewrite buf_read_Some by (unfold x'; rewrite ?length_set_space_left; lia).
  change (Z.to_nat 0) with 0%nat. rewrite drop_0. f_equal.
  unfold x'. rewrite take_set_space_left by lia.
  rewrite HB. replace (Z.to_nat (15 - v)) with (length m) by lia.
  apply take_app_length.
Qed.

Lemma heap_finish x h (m rest : list Z) v :
  xs_ok x = true → x_is_ptr x = true → v = Z.of_nat (length m) →
  heap_get h (x_ptr x) = Some (m ++ 0 :: rest) →
  Z.of_nat (length (m ++ 0 :: rest)) = 2 ^ x_capacity x →
  x_capacity x <= 32 → v + 1 < 2 ^ x_capacity x →
  Forall (λ c, 0 <= c < 256) (m ++ 0 :: rest) → Forall (λ c, c ≠ 0) m →
  let x' := set_size v x in
  ∃ h',
    set_ref_counter x' 1 h = Some h'
    ∧ xs_wf x' h' = true ∧ xs_is_ptr x' = true
    ∧ xs_size x' = v ∧ xs_bytes x' h' = Some m
    ∧ xs_ref_counter x' h' = Some 1
    ∧ x_ptr x' = x_ptr x ∧ x_capacity x' = x_capacity x
    ∧ same_but (x_ptr x) h h'.
Proof.
  intros Hok Hp Hv Hb HL Hc Hn Hby Hnz x'.
  assert (0 <= x_capacity x) by (apply (bits_range 54 6); lia).
  assert (2 ^ x_capacity x <= 2 ^ 32) by (apply Z.pow_le_mono_r; lia).
  destruct rest as [|c rest].
  { rewrite length_app in HL. simpl in HL. lia. }
  pose proof (heap_get_Some _ _ _ Hb) as Hr.
  assert (Hok' : xs_ok x' = true) by apply set_size_ok, Hok.
  assert (Hp' : x_is_ptr x' = true)
    by (unfold x'; rewrite is_ptr_set_size by exact Hok; exact Hp).
  assert (Hs' : x_size x' = v).
  { unfold x'. rewrite size_set_size by exact Hok. apply bits_small; lia. }
  assert (Hq' : x_ptr x' = x_ptr x) by apply ptr_set_size, Hok.
  assert (Hc' : x_capacity x' = x_capacity x) by apply capacity_set_size, Hok.
  assert (Hb0 : heap_get h (x_ptr x') = Some (m ++ 0 :: c :: rest))
    by (rewrite Hq'; exact Hb).
  assert (Ha : Z.of_nat (length m) = x_size x') by lia.
  rewrite (heap_string_set_counter x' h m c rest Hb0 Ha).
  change (byte 1) with 1.
  eexists. split; [reflexivity|].
  assert (Hb1 : heap_get (heap_set h (x_ptr x') (Some (m ++ 0 :: 1 :: rest)))
                  (x_ptr x') = Some (m ++ 0 :: 1 :: rest))
    by (apply heap_get_set_eq; lia).
  split.
  { apply (xs_wf_heap x' _ _ Hok' Hp' Hb1); rewrite ?Hc', ?Hs'.
    - rewrite length_app in *. exact HL.
    - exact Hc.
    - exact Hn.
    - apply Forall_app in Hby as [H1 H2]. apply Forall_app. split; [exact H1|].
      inversion H2 as [|? ? ? H3]; subst. inversion H3; subst.
      repeat constructor; auto; lia.
    - rewrite strlen_app by exact Hnz. f_equal. lia. }
  split; [exact Hp'|].
  split; [unfold xs_size, xs_is_ptr; rewrite Hp'; exact Hs'|].
  split; [exact (heap_string_bytes x' _ m 1 rest Hp' Hb1 Ha)|].
  split; [exact (heap_string_counter x' _ m 1 rest Hb1 Ha)|].
  split; [exact Hq'|]. split; [exact Hc'|].
  rewrite Hq'. apply same_but_set. lia.
Qed.

(** * Concatenation in the buffer at hand *)

Lemma not_shared_ptr y x :
  (xs_is_ptr x = true → already_shares y x = false) →
  xs_is_ptr y = true → (if xs_is_ptr x then x_ptr x else 0) ≠ 0 →
  x_ptr y ≠ (if xs_is_ptr x then x_ptr x else 0).
Proof.
  intros Hns Hy Hx. destruct (xs_is_ptr x); [|lia].
  specialize (Hns eq_refl). unfold already_shares in Hns. rewrite Hy in Hns.
  simpl in Hns. apply Z.eqb_neq, Hns.
Qed.

Lemma cstr_read (sa sr : list Z) n :
  n = Z.of_nat (length sa) + 1 →
  buf_read (sa ++ 0 :: sr) 0 n = Some (sa ++ [0]).
Proof.
  intros ->. change (sa ++ 0 :: sr) with (sa ++ [0] ++ sr).
  rewrite app_assoc. apply buf_read_prefix. rewrite length_app. simpl. lia.
Qed.

Lemma xs_concat_in_place_spec (x p s : list Z) (h : list (option (list Z))) :
  xs_wf x h = true → (xs_is_ptr x = true → xs_ref_counter x h = Some 1) →
  xs_wf p h = true → xs_wf s h = true →
  (xs_is_ptr x = true → already_shares p x = false) →
  (xs_is_ptr x = true → already_shares s x = false) →
  xs_size p + xs_size x + xs_size s <= xs_capacity x →
  (xs_is_ptr x = true → xs_size p + xs_size x + xs_size s < xs_capacity x) →
  ∃ bx bp bs x' h',
    xs_bytes x h = Some bx ∧ xs_bytes p h = Some bp ∧ xs_bytes s h = Some bs
    ∧ xs_concat x p s h = Some (x', h')
    ∧ xs_wf x' h' = true
    ∧ xs_bytes x' h' = Some (bp ++ bx ++ bs)
    ∧ xs_size x' = xs_size p + xs_size x + xs_size s
    ∧ xs_is_ptr x' = xs_is_ptr x
    ∧ (xs_is_ptr x = false → h' = h)
    ∧ (xs_is_ptr x = true →
       x_ptr x' = x_ptr x ∧ xs_capacity x' = xs_capacity x
       ∧ xs_ref_counter x' h' = Some 1)
    ∧ xs_bytes p h' = Some bp ∧ xs_bytes s h' = Some bs
    ∧ (xs_is_ptr x = true → same_but (x_ptr x) h h').
Proof.
  intros Hwf Hex Hwp Hws Hnp Hns Hfit Hroom.
  destruct (wf_buffer x h Hwf)
    as (a & r & Hobj & Ha & HL & Hnz & Hby & Hok & Hoff & Hbx).
  destruct (wf_buffer p h Hwp)
    as (pa & pr & Hpobj & Hpa & _ & Hpnz & Hpby & _ & Hpoff & Hbp).
  destruct (wf_buffer s h Hws)
    as (sa & sr & Hsobj & Hsa & _ & Hsnz & Hsby & _ & Hsoff & Hbs).
  destruct (wf_capacity x h Hwf) as [Hsz Hcapx].
  exists a, pa, sa.
  set (B := a ++ 0 :: r) in *.
  set (n := xs_size p + xs_size x + xs_size s) in *.
  assert (Hn : 0 <= n <= xs_capacity x) by (unfold n; lia).
  assert (Hcap32 : xs_capacity x < 2 ^ 32).
  { unfold xs_capacity in *. destruct (xs_is_ptr x); [|lia].
    destruct (Hcapx eq_refl) as [E Hc]. rewrite E.
    assert (2 ^ x_capacity x <= 2 ^ 32) by (apply Z.pow_le_mono_r; lia). lia. }
  assert (Hcow : cow_if_shared x h = Some (x, h)).
  { unfold cow_if_shared. destruct (xs_is_ptr x); [|reflexivity].
    rewrite (Hex eq_refl). reflexivity. }
  destruct (concat_buffer B a pa sa ltac:(lia)) as (B1 & B2 & W1 & W2 & W3).
  set (B3 := (pa ++ a ++ sa) ++ 0
               :: drop (length pa + length a + length sa + 1) B) in *.
  set (d := xs_data x) in *.
  set (px := if xs_is_ptr x then x_ptr x else 0).
  assert (Hblk : ∀ k, addr_block (padd d k) = px)
    by (intros k; rewrite addr_block_padd; apply addr_block_data).
  assert (Hblk0 : addr_block d = px) by apply addr_block_data.
  (* memmove(data + pres, data, size) *)
  destruct (mem_write_obj x h (padd d (xs_size p)) a B B1)
    as (x1 & h1 & E1 & O1 & F1 & I1 & P1).
  { rewrite object_at_padd. exact Hobj. }
  { rewrite addr_off_padd, Hoff, <- Hpa. exact W1. }
  rewrite object_at_padd in O1. rewrite Hblk in F1, I1, P1.
  (* memcpy(data, pre, pres) *)
  destruct (mem_write_obj x1 h1 d pa B1 B2 O1)
    as (x2 & h2 & E2 & O2 & F2 & I2 & P2).
  { rewrite Hoff. exact W2. }
  rewrite Hblk0 in F2, I2, P2.
  (* memcpy(data + pres + size, suf, sufs + 1) *)
  destruct (mem_write_obj x2 h2 (padd (padd d (xs_size p)) (xs_size x))
              (sa ++ [0]) B2 B3)
    as (x3 & h3 & E3 & O3 & F3 & I3 & P3).
  { rewrite !object_at_padd. exact O2. }
  { rewrite !addr_off_padd, Hoff, <- Hpa, <- Ha. exact W3. }
  rewrite !object_at_padd in O3. rewrite !addr_block_padd, Hblk0 in F3, I3, P3.
  pose proof (same_but_trans _ _ _ _ F1 F2) as F12.
  pose proof (same_but_trans _ _ _ _ F12 F3) as F13.
  (* the sources, read while the buffer is written *)
  assert (Hp1 : object_at p h1 (xs_data p) = Some (pa ++ 0 :: pr)).
  { apply (source_frame p h h1 px _ _ Hpobj F1).
    intros Hy Hx. apply not_shared_ptr; assumption. }
  assert (Hs2 : object_at s h2 (xs_data s) = Some (sa ++ 0 :: sr)).
  { apply (source_frame s h h2 px _ _ Hsobj F12).
    intros Hy Hx. apply not_shared_ptr; assumption. }
  unfold xs_concat. rewrite Hcow. cbn [mbind option_bind].
  fold d. replace (xs_size x + xs_size p + xs_size s) with n by (unfold n; lia).
  rewrite (sz_small n) by lia.
  destruct (Z.leb_spec n (xs_capacity x)); [|lia].
  rewrite (mem_read_object _ _ _ _ _ Hobj). fold d. rewrite Hoff.
  unfold B at 1. rewrite buf_read_prefix by lia. cbn [mbind option_bind].
  rewrite E1. cbn [mbind option_bind].
  rewrite (mem_read_object _ _ _ _ _ Hp1), Hpoff.
  rewrite buf_read_prefix by lia. cbn [mbind option_bind].
  rewrite E2. cbn [mbind option_bind].
  rewrite (mem_read_object _ _ _ _ _ Hs2), Hsoff.
  rewrite (sz_small (xs_size s + 1)) by lia.
  rewrite cstr_read by lia. cbn [mbind option_bind].
  rewrite E3. cbn [mbind option_bind].
  assert (Hlen3 : length (pa ++ a ++ sa) = Z.to_nat n)
    by (rewrite !length_app; unfold n; lia).
  assert (Hnz3 : Forall (λ c, c ≠ 0) (pa ++ a ++ sa))
    by (rewrite !Forall_app; auto).
  assert (Hby3 : Forall (λ c, 0 <= c < 256) B3).
  { unfold B3. apply Forall_app in Hpby as [Hpby _].
    apply Forall_app in Hsby as [Hsby _].
    pose proof Hby as Hby'. apply Forall_app in Hby' as [Hby' _].
    rewrite !Forall_app. split; [auto|]. constructor; [lia|].
    apply Forall_drop, Hby. }
  assert (HL3 : length B3 = length B).
  { unfold B3. rewrite length_app. simpl. rewrite length_drop, !length_app.
    lia. }
  assert (Hsrc : ∀ y (ya yr : list Z) k,
            object_at y h (xs_data y) = Some (ya ++ 0 :: yr) →
            Z.of_nat (length ya) = xs_size y →
            (xs_is_ptr x = true → already_shares y x = false) →
            same_but px h k → xs_bytes y k = Some ya).
  { intros y ya yr k Hy Hya Hny Fk.
    apply (bytes_of_buffer y k ya yr); [|exact Hya].
    apply (source_frame y h k px _ _ Hy Fk).
    intros Hyp Hx. apply not_shared_ptr; assumption. }
  destruct (xs_is_ptr x) eqn:Hp.
  - (* heap layout: the size member and the count byte *)
    assert (Hpx : px ≠ 0).
    { unfold px. unfold d, xs_data in Hobj. rewrite Hp in Hobj.
      apply heap_get_Some in Hobj. lia. }
    rewrite (P3 Hpx), (P2 Hpx), (P1 Hpx) in *.
    destruct (Hcapx eq_refl) as [Ecap Hc].
    unfold d, xs_data in O3. rewrite Hp in O3. cbn [object_at] in O3.
    specialize (Hroom eq_refl).
    destruct (heap_finish x h3 (pa ++ a ++ sa) _ n Hok Hp ltac:(lia) O3)
      as (h' & Eset & Hwf' & Hp' & Hsz' & Hby' & Hrc' & Hq' & Hc' & F');
      try assumption.
    { fold B3. rewrite HL3. lia. }
    { lia. }
    { lia. }
    rewrite Hp. cbn [mbind option_bind]. rewrite Hp'.
    rewrite Eset. cbn [mbind option_bind].
    eexists _, _. split; [exact Hbx|]. split; [exact Hbp|].
    split; [exact Hbs|]. split; [reflexivity|].
    split; [exact Hwf'|]. split; [exact Hby'|]. split; [exact Hsz'|].
    split; [exact Hp'|]. split; [discriminate|].
    pose proof (same_but_trans _ _ _ _ F13 F') as F.
    split.
    { intros _. split; [exact Hq'|]. split; [|exact Hrc'].
      unfold xs_capacity. rewrite Hp, Hp', Hc'.
      reflexivity. }
    split; [apply (Hsrc p pa pr _ Hpobj Hpa Hnp F)|].
    split; [apply (Hsrc s sa sr _ Hsobj Hsa Hns F)|].
    intros _. exact F.
  - (* inline layout: space_left *)
    destruct (I1 eq_refl) as [-> ->]. destruct (I2 eq_refl) as [-> ->].
    destruct (I3 eq_refl) as [-> ->].
    assert (HB16 : length B = 16%nat).
    { apply xs_ok_length in Hok. unfold d, xs_data in Hobj.
      rewrite Hp in Hobj. injection Hobj as <-. exact Hok. }
    assert (Hxp : x_is_ptr B3 = false).
    { unfold B3. replace (length pa + length a + length sa + 1)%nat
        with (length (pa ++ a ++ sa) + 1)%nat by (rewrite !length_app; lia).
      apply inline_tail_is_ptr; [exact HB16| |unfold xs_capacity in *; lia].
      unfold d, xs_data in Hobj. rewrite Hp in Hobj. injection Hobj as <-.
      exact Hp. }
    replace (xs_is_ptr B3) with false by (symmetry; exact Hxp).
    cbn [mbind option_bind].
    destruct (inline_finish B3 (pa ++ a ++ sa) _ h (15 - n) eq_refl
                ltac:(lia) Hby3 Hnz3 Hxp ltac:(lia))
      as (Hwf' & Hp' & Hsz' & Hby').
    rewrite Hp'.
    eexists _, _. split; [exact Hbx|]. split; [exact Hbp|].
    split; [exact Hbs|]. split; [reflexivity|].
    split; [exact Hwf'|]. split; [exact Hby'|].
    split; [rewrite Hsz'; unfold n; lia|].
    split; [exact Hp'|]. split; [reflexivity|].
    split; [discriminate|]. split; [exact Hbp|]. split; [exact Hbs|].
    discriminate.
Qed.

(** * Concatenation into a new buffer *)

Lemma source_ext y h k (B : list Z) :
  object_at y h (xs_data y) = Some B →
  object_at y (h ++ k) (xs_data y) = Some B.
Proof.
  unfold xs_data. destruct (xs_is_ptr y); [|auto]. simpl. intros Hb.
  rewrite heap_get_app_l; [exact Hb|]. apply heap_get_Some in Hb. lia.
Qed.

Lemma source_live y h (B : list Z) :
  object_at y h (xs_data y) = Some B → xs_is_ptr y = true →
  0 < x_ptr y <= Z.of_nat (length h).
Proof.
  unfold xs_data. intros Hb Hp. rewrite Hp in Hb. simpl in Hb.
  apply heap_get_Some in Hb. exact Hb.
Qed.

Lemma xs_concat_grows_spec (x p s : list Z) (h : list (option (list Z))) :
  xs_wf x h = true → (xs_is_ptr x = true → xs_ref_counter x h = Some 1) →
  xs_wf p h = true → xs_wf s h = true →
  (xs_is_ptr x = true → already_shares p x = false) →
  (xs_is_ptr x = true → already_shares s x = false) →
  Z.of_nat (length h) + 1 < 2 ^ 64 →
  let n := xs_size p + xs_size x + xs_size s in
  xs_capacity x < n < 2 ^ 32 → 15 <= xs_capacity x →
  n + 1 < 2 ^ (Z.log2 n + 1) →
  ∃ bx bp bs x' h',
    xs_bytes x h = Some bx ∧ xs_bytes p h = Some bp ∧ xs_bytes s h = Some bs
    ∧ xs_concat x p s h = Some (x', h')
    ∧ xs_wf x' h' = true
    ∧ xs_bytes x' h' = Some (bp ++ bx ++ bs)
    ∧ xs_size x' = n
    ∧ xs_is_ptr x' = true
    ∧ xs_capacity x' = 2 ^ (Z.log2 n + 1) - 1
    ∧ heap_get h (x_ptr x') = None
    ∧ xs_ref_counter x' h' = Some 1
    ∧ (xs_is_ptr x = true → heap_get h' (x_ptr x) = None)
    ∧ xs_bytes p h' = Some bp ∧ xs_bytes s h' = Some bs
    ∧ (∀ q b, heap_get h q = Some b →
              (xs_is_ptr x = true → q ≠ x_ptr x) →
              heap_get h' q = Some b).
Proof.
  intros Hwf Hex Hwp Hws Hnp Hns Hh n Hn H15 Hroom.
  destruct (wf_buffer x h Hwf)
    as (a & r & Hobj & Ha & HL & Hnz & Hby & Hok & Hoff & Hbx).
  destruct (wf_buffer p h Hwp)
    as (pa & pr & Hpobj & Hpa & _ & Hpnz & Hpby & _ & Hpoff & Hbp).
  destruct (wf_buffer s h Hws)
    as (sa & sr & Hsobj & Hsa & _ & Hsnz & Hsby & _ & Hsoff & Hbs).
  exists a, pa, sa.
  set (B := a ++ 0 :: r) in *.
  assert (Hcow : cow_if_shared x h = Some (x, h)).
  { unfold cow_if_shared. destruct (xs_is_ptr x); [|reflexivity].
    rewrite (Hex eq_refl). reflexivity. }
  (* the new buffer *)
  destruct (xs_grow_inline_result xs_literal_empty n h literal_empty_ok
              eq_refl ltac:(lia) Hh) as [Eg H16].
  destruct (grow_class n ltac:(lia)) as (_ & Hc & Hpow & _).
  set (c := Z.log2 n + 1) in *.
  set (q := Z.of_nat (length h) + 1) in *.
  destruct (grow_header xs_literal_empty q c literal_empty_ok
              ltac:(unfold q; lia) ltac:(lia))
    as (Hok' & Hq' & Hc' & Hi' & _).
  set (T := set_capacity c (set_is_ptr true (set_ptr q xs_literal_empty))) in *.
  set (Bq := xs_literal_empty ++ replicate (Z.to_nat (2 ^ c) - 16) uninit) in *.
  set (h0 := h ++ [Some Bq]) in *.
  assert (HLq : Z.of_nat (length Bq) = 2 ^ c).
  { unfold Bq. rewrite length_app, length_replicate.
    change (length xs_literal_empty) with 16%nat. lia. }
  assert (Hbyq : Forall (λ c, 0 <= c < 256) Bq).
  { unfold Bq. apply Forall_app. split.
    - apply xs_ok_bytes, literal_empty_ok.
    - apply Forall_replicate. unfold uninit. lia. }
  assert (HTd : xs_data T = InHeap q 0).
  { unfold xs_data, xs_is_ptr. rewrite Hi', Hq'. reflexivity. }
  assert (Hq0 : heap_get h0 q = Some Bq) by apply heap_get_app_new.
  assert (Hlens : (length pa + length a + length sa + 1 <= length Bq)%nat)
    by (unfold n in *; lia).
  destruct (concat_buffer Bq a pa sa Hlens) as (B1 & B2 & W1 & W2 & W3).
  set (B3 := (pa ++ a ++ sa) ++ 0
               :: drop (length pa + length a + length sa + 1) Bq) in *.
  destruct (mem_write_obj T h0 (InHeap q (0 + xs_size p)) a Bq B1 Hq0)
    as (T1 & h1 & E1 & O1 & F1 & _ & P1).
  { cbn [addr_off]. rewrite <- Hpa. exact W1. }
  cbn [addr_block object_at] in *.
  assert (Hqne : q ≠ 0) by (unfold q; lia).
  rewrite (P1 Hqne) in *. clear P1.
  destruct (mem_write_obj T h1 (InHeap q 0) pa B1 B2 O1)
    as (T2 & h2 & E2 & O2 & F2 & _ & P2).
  { exact W2. }
  cbn [addr_block object_at] in *. rewrite (P2 Hqne) in *. clear P2.
  destruct (mem_write_obj T h2 (InHeap q (0 + xs_size p + xs_size x))
              (sa ++ [0]) B2 B3 O2)
    as (T3 & h3 & E3 & O3 & F3 & _ & P3).
  { cbn [addr_off]. rewrite <- Hpa, <- Ha. exact W3. }
  cbn [addr_block object_at] in *. rewrite (P3 Hqne) in *. clear P3.
  pose proof (same_but_trans _ _ _ _ F1 F2) as F12.
  pose proof (same_but_trans _ _ _ _ F12 F3) as F13.
  (* every block of [h] other than the one of [x] is as it was *)
  assert (Hfar : ∀ y (B : list Z), object_at y h (xs_data y) = Some B →
            ∀ k, same_but q h0 k → object_at y k (xs_data y) = Some B).
  { intros y By Hy k Fk. pose proof (source_ext y h [Some Bq] By Hy) as Hy0.
    fold h0 in Hy0. unfold xs_data in *.
    destruct (xs_is_ptr y) eqn:Hyp; [|exact Hy0]. cbn [object_at] in *.
    destruct Fk as [_ Fk]. rewrite Fk; [exact Hy0|].
    apply heap_get_Some in Hy. unfold q. lia. }
  unfold xs_concat. rewrite Hcow. cbn [mbind option_bind].
  replace (xs_size x + xs_size p + xs_size s) with n by (unfold n; lia).
  rewrite (sz_small n) by lia.
  destruct (Z.leb_spec n (xs_capacity x)); [lia|].
  fold q c in Eg. fold T Bq h0 in Eg. rewrite Eg. cbn [mbind option_bind].
  rewrite HTd. cbn [padd].
  rewrite (mem_read_object _ _ _ _ _ (Hfar x B Hobj h0 (same_but_refl _ _))).
  rewrite Hoff. unfold B at 1. rewrite buf_read_prefix by lia.
  cbn [mbind option_bind]. rewrite E1. cbn [mbind option_bind].
  rewrite (mem_read_object _ _ _ _ _ (Hfar p _ Hpobj h1 F1)), Hpoff.
  rewrite buf_read_prefix by lia. cbn [mbind option_bind].
  rewrite E2. cbn [mbind option_bind].
  rewrite (mem_read_object _ _ _ _ _ (Hfar s _ Hsobj h2 F12)), Hsoff.
  rewrite (sz_small (xs_size s + 1)) by lia.
  rewrite cstr_read by lia. cbn [mbind option_bind].
  rewrite E3. cbn [mbind option_bind].
  (* xs_free(string) *)
  pose proof (Hfar x B Hobj h3 F13) as Hx3.
  set (px := if xs_is_ptr x then x_ptr x else 0).
  assert (Hfree : ∃ h4, xs_free x h3 = Some (xs_literal_empty, h4)
                        ∧ same_but px h3 h4
                        ∧ (xs_is_ptr x = true → heap_get h4 (x_ptr x) = None)
                        ∧ (px ≠ q)).
  { unfold xs_free, xs_newempty, px. unfold xs_data in *.
    destruct (xs_is_ptr x); cbn [object_at] in *.
    - rewrite (free_live _ _ _ Hx3). cbn [mbind option_bind].
      pose proof (heap_get_Some _ _ _ Hx3) as R3.
      pose proof (heap_get_Some _ _ _ Hobj) as R.
      eexists. split; [reflexivity|]. split; [apply same_but_set; lia|].
      split; [intros _; apply heap_get_set_eq; lia|unfold q; lia].
    - exists h3. split; [reflexivity|]. split; [apply same_but_refl|].
      split; [discriminate|unfold q; lia]. }
  destruct Hfree as (h4 & Ef & F4 & Hgone & Hpq).
  rewrite Ef. cbn [mbind option_bind].
  assert (O4 : heap_get h4 (x_ptr T) = Some B3).
  { rewrite Hq'. destruct F4 as [_ F4]. rewrite F4 by lia. exact O3. }
  assert (Hnz3 : Forall (λ c, c ≠ 0) (pa ++ a ++ sa))
    by (rewrite !Forall_app; auto).
  assert (Hby3 : Forall (λ c, 0 <= c < 256) B3).
  { unfold B3. apply Forall_app in Hpby as [Hpby _].
    apply Forall_app in Hsby as [Hsby _].
    pose proof Hby as Hby'. apply Forall_app in Hby' as [Hby' _].
    rewrite !Forall_app. split; [auto|]. constructor; [lia|].
    apply Forall_drop, Hbyq. }
  assert (HL3 : length B3 = length Bq).
  { unfold B3. rewrite length_app. cbn [length].
    rewrite length_drop, !length_app. lia. }
  destruct (heap_finish T h4 (pa ++ a ++ sa) _ n Hok' Hi'
              ltac:(rewrite !length_app; unfold n; lia) O4)
    as (h' & Eset & Hwf' & Hp' & Hsz' & Hby' & Hrc' & Hq'' & Hc'' & F');
    try assumption.
  { fold B3. rewrite HL3, Hc'. lia. }
  { rewrite Hc'. lia. }
  { rewrite Hc'. exact Hroom. }
  rewrite Hp', Eset. cbn [mbind option_bind].
  rewrite Hq' in F'.
  eexists _, _. split; [exact Hbx|]. split; [exact Hbp|].
  split; [exact Hbs|]. split; [reflexivity|].
  split; [exact Hwf'|]. split; [exact Hby'|]. split; [exact Hsz'|].
  split; [exact Hp'|]. split.
  { unfold xs_capacity. rewrite Hp', Hc'', Hc', shiftl_1 by lia. reflexivity. }
  split; [rewrite Hq'', Hq'; apply heap_get_fresh; unfold q; lia|].
  split; [exact Hrc'|].
  split.
  { intros Hp. destruct F' as [_ F']. rewrite F'.
    - apply Hgone, Hp.
    - unfold px in Hpq. rewrite Hp in Hpq. exact Hpq. }
  assert (Hsrc : ∀ y (ya yr : list Z),
            object_at y h (xs_data y) = Some (ya ++ 0 :: yr) →
            Z.of_nat (length ya) = xs_size y →
            (xs_is_ptr x = true → already_shares y x = false) →
            xs_bytes y h' = Some ya).
  { intros y ya yr Hy Hya Hny.
    apply (bytes_of_buffer y h' ya yr); [|exact Hya].
    apply (source_frame y h4 h' q _ _); [|exact F'|].
    - apply (source_frame y h3 h4 px _ _); [|exact F4|].
      + apply (Hfar y _ Hy h3 F13).
      + intros Hyp Hx. apply not_shared_ptr; assumption.
    - intros Hyp _. pose proof (source_live y h _ Hy Hyp). unfold q. lia. }
  split; [apply (Hsrc p pa pr Hpobj Hpa Hnp)|].
  split; [apply (Hsrc s sa sr Hsobj Hsa Hns)|].
  intros t b Ht Hne. pose proof (heap_get_Some _ _ _ Ht) as Rt.
  destruct F' as [_ F']. rewrite F' by (unfold q; lia).
  destruct F4 as [_ F4]. rewrite F4.
  2:{ unfold px. destruct (xs_is_ptr x); [auto|lia]. }
  destruct F13 as [_ F13]. rewrite F13 by (unfold q; lia).
  unfold h0. rewrite heap_get_app_l by lia. exact Ht.
Qed.


(** * The scanning loops *)

Lemma scan_up_skip rd stop (l : list Z) n i :
  (∀ k c, l !! k = Some c →
          rd (i + Z.of_nat k) = Some c ∧ stop c = false) →
  scan_up (length l + n) rd stop i
  = scan_up n rd stop (i + Z.of_nat (length l)).
Proof.
  revert i. induction l as [|c l IH]; intros i H.
  - simpl. f_equal. lia.
  - destruct (H 0%nat c eq_refl) as [Hr Hs].
    replace (i + Z.of_nat 0) with i in Hr by lia.
    cbn [length Nat.add scan_up]. rewrite Hr. cbn [mbind option_bind].
    rewrite Hs. rewrite IH.
    + f_equal. cbn [length]. lia.
    + intros k c' Hk. specialize (H (S k) c' Hk).
      replace (i + 1 + Z.of_nat k) with (i + Z.of_nat (S k)) by lia. exact H.
Qed.

Lemma scan_up_stop rd stop n i c :
  rd i = Some c → stop c = true → scan_up (S n) rd stop i = Some i.
Proof. intros Hr Hs. simpl. rewrite Hr. simpl. rewrite Hs. reflexivity. Qed.

Lemma scan_down_skip rd stop (t : list Z) n j :
  (∀ k c, t !! k = Some c →
          rd (j + Z.of_nat k) = Some c ∧ stop c = false) →
  scan_down (length t + n) rd stop (j + Z.of_nat (length t))
  = scan_down n rd stop j.
Proof.
  induction t as [|c t IH] using rev_ind; intros H.
  - simpl. f_equal. lia.
  - rewrite length_app. cbn [length].
    replace (length t + 1 + n)%nat with (S (length t + n)) by lia.
    cbn [scan_down].
    destruct (H (length t) c) as [Hr Hs].
    { rewrite lookup_app_r by lia.
      replace (length t - length t)%nat with 0%nat by lia. reflexivity. }
    replace (j + Z.of_nat (length t + 1) - 1) with (j + Z.of_nat (length t))
      by lia.
    rewrite Hr. cbn [mbind option_bind]. rewrite Hs. apply IH.
    intros k c' Hk. apply H. rewrite lookup_app_l; [exact Hk|].
    apply lookup_lt_Some in Hk. exact Hk.
Qed.

Lemma scan_down_stop rd stop n j c :
  rd (j - 1) = Some c → stop c = true → scan_down (S n) rd stop j = Some j.
Proof. intros Hr Hs. simpl. rewrite Hr. simpl. rewrite Hs. reflexivity. Qed.

(** * Membership in a set given as a C string *)

Lemma member_check (ta tr : list Z) c :
  c ∈ ta →
  check_bit (make_mask (ta ++ 0 :: tr) (Z.of_nat (length ta))) c = true.
Proof.
  intros Hc. rewrite check_bit_make_mask, Nat2Z.id, take_app_length.
  apply existsb_exists. exists c. split; [apply list_elem_of_In, Hc|].
  apply Z.eqb_refl.
Qed.

Lemma nonmember_check (ta tr : list Z) c :
  Forall (λ d, 0 <= d < 256) ta → 0 <= c < 256 → c ∉ ta →
  check_bit (make_mask (ta ++ 0 :: tr) (Z.of_nat (length ta))) c = false.
Proof.
  intros Hta Hc Hn. rewrite check_bit_make_mask, Nat2Z.id, take_app_length.
  apply not_true_is_false. intros E. apply existsb_exists in E as (d & Hd & E).
  apply list_elem_of_In in Hd. apply Z.eqb_eq in E.
  rewrite Forall_forall in Hta. specialize (Hta d Hd).
  rewrite !byte_small in E by lia. subst d. auto.
Qed.

(** [if (orig\[k\]) orig\[k\] = 0;] *)
Lemma store_terminator x h d (B : list Z) k :
  object_at x h d = Some B → addr_off d = 0 →
  0 <= k < Z.of_nat (length B) →
  ∃ x1 h1,
    (c ← mem_load x h (padd d k);
     if c =? 0 then Some (x, h) else mem_store x h (padd d k) 0)
    = Some (x1, h1)
    ∧ object_at x1 h1 d = Some (<[Z.to_nat k := 0]> B)
    ∧ same_but (addr_block d) h h1
    ∧ (addr_block d = 0 → x1 = <[Z.to_nat k := 0]> B ∧ h1 = h)
    ∧ (addr_block d ≠ 0 → x1 = x).
Proof.
  intros Hobj Hoff Hk.
  assert (Hobj' : object_at x h (padd d k) = Some B)
    by (rewrite object_at_padd; exact Hobj).
  rewrite (mem_load_at _ _ _ _ Hobj') by (rewrite addr_off_padd; lia).
  rewrite addr_off_padd, Hoff, Z.add_0_l.
  destruct (lookup_lt_is_Some_2 B (Z.to_nat k) ltac:(lia)) as [c Hc].
  rewrite Hc. cbn [mbind option_bind].
  destruct (Z.eqb_spec c 0) as [->|Hne].
  - exists x, h. rewrite (list_insert_id _ _ _ Hc).
    split; [reflexivity|]. split; [exact Hobj|].
    split; [apply same_but_refl|]. split; [|reflexivity].
    intros E. split; [|reflexivity].
    destruct d; simpl in *; [congruence|].
    apply heap_get_Some in Hobj. lia.
  - destruct (mem_write_obj x h (padd d k) [byte 0] B (<[Z.to_nat k := 0]> B)
                Hobj')
      as (x1 & h1 & E1 & O1 & F1 & I1 & P1).
    { rewrite addr_off_padd, Hoff, Z.add_0_l. apply buf_write_one. lia. }
    rewrite object_at_padd in O1. rewrite addr_block_padd in F1, I1, P1.
    exists x1, h1. unfold mem_store. auto.
Qed.

(** * Trimming *)

Lemma last_app_cons_inv (m : list Z) :
  m ≠ [] → ∃ m' c, m = m' ++ [c] ∧ last m = Some c.
Proof.
  intros Hm. destruct (exists_last Hm) as (m' & c & ->).
  exists m', c. split; [reflexivity|]. apply last_snoc.
Qed.

(** [xs_trim] on a string that needs no copy: the runs of set members at
    both ends go, the rest moves to the front of the same buffer. *)
Lemma xs_trim_exclusive x (ta tr l m t : list Z) h :
  xs_wf x h = true → (xs_is_ptr x = true → xs_ref_counter x h = Some 1) →
  ta ≠ [] → Forall (λ c, c ≠ 0) ta → Forall (λ c, 0 <= c < 256) ta →
  xs_bytes x h = Some (l ++ m ++ t) →
  Forall (λ c, c ∈ ta) l → Forall (λ c, c ∈ ta) t →
  (∀ c, head m = Some c → c ∉ ta) → (∀ c, last m = Some c → c ∉ ta) →
  (m = [] → l = [] ∧ t = []) →
  ∃ x' h',
    xs_trim x (ta ++ 0 :: tr) h = Some (x', h')
    ∧ xs_wf x' h' = true
    ∧ xs_bytes x' h' = Some m
    ∧ xs_size x' = Z.of_nat (length m)
    ∧ xs_is_ptr x' = xs_is_ptr x
    ∧ (xs_is_ptr x = false → h' = h)
    ∧ (xs_is_ptr x = true →
       x_ptr x' = x_ptr x ∧ xs_capacity x' = xs_capacity x
       ∧ xs_ref_counter x' h' = Some 1
       ∧ same_but (x_ptr x) h h').
Proof.
  intros Hwf Hex Hta Htnz Htby Hbytes Hl Ht Hhead Hlast Hempty.
  destruct (wf_buffer x h Hwf)
    as (a & r & Hobj & Ha & HL & Hnz & Hby & Hok & Hoff & Hbx).
  rewrite Hbx in Hbytes. injection Hbytes as ->.
  destruct (wf_capacity x h Hwf) as [Hsz Hcapx].
  destruct (wf_data x h Hwf) as (_ & _ & _ & _ & _ & _ & Hs54 & _).
  set (B := (l ++ m ++ t) ++ 0 :: r) in *.
  set (d := xs_data x) in *.
  set (px := if xs_is_ptr x then x_ptr x else 0).
  assert (Hblk0 : addr_block d = px) by apply addr_block_data.
  assert (Hcow : cow_if_shared x h = Some (x, h)).
  { unfold cow_if_shared. destruct (xs_is_ptr x); [|reflexivity].
    rewrite (Hex eq_refl). reflexivity. }
  set (mask := make_mask (ta ++ 0 :: tr) (Z.of_nat (length ta))).
  set (stop := λ c : Z, negb (check_bit mask c)).
  set (rd := λ k, mem_load x h (padd d k)).
  assert (Hrd : ∀ k, 0 <= k → rd k = B !! Z.to_nat k).
  { intros k Hk. unfold rd. rewrite (mem_load_at _ _ _ B).
    - rewrite addr_off_padd, Hoff. f_equal.
    - rewrite object_at_padd. exact Hobj.
    - rewrite addr_off_padd. lia. }
  apply Forall_app in Hby as [Hbya Hbyr].
  apply Forall_app in Hbya as [Hbyl Hbym].
  apply Forall_app in Hbym as [Hbym Hbyt].
  apply Forall_app in Hnz as [Hnzl Hnzm].
  apply Forall_app in Hnzm as [Hnzm Hnzt].
  rewrite !length_app in Ha.
  assert (Hstop_in : ∀ c, c ∈ ta → stop c = false).
  { intros c Hc. unfold stop, mask. rewrite member_check by exact Hc.
    reflexivity. }
  assert (Hstop_out : ∀ c, 0 <= c < 256 → c ∉ ta → stop c = true).
  { intros c Hc Hn. unfold stop, mask.
    rewrite nonmember_check by assumption. reflexivity. }
  (* the forward scan stops at the first byte of [m] *)
  assert (Hup : scan_up (Z.to_nat (xs_size x)) rd stop 0
                = Some (Z.of_nat (length l))).
  { replace (Z.to_nat (xs_size x))
      with (length l + (length m + length t))%nat by lia.
    rewrite scan_up_skip.
    2:{ intros k c Hk. rewrite Hrd by lia. split.
        - replace (Z.to_nat (0 + Z.of_nat k)) with k by lia.
          unfold B. rewrite <- app_assoc, lookup_app_l
            by (apply lookup_lt_Some in Hk; exact Hk). exact Hk.
        - apply Hstop_in. rewrite Forall_forall in Hl. apply Hl.
          apply list_elem_of_lookup_2 in Hk. exact Hk. }
    destruct m as [|c m'].
    - destruct (Hempty eq_refl) as [-> ->]. reflexivity.
    - cbn [length Nat.add]. apply (scan_up_stop _ _ _ _ c).
      + rewrite Hrd by lia.
        replace (Z.to_nat (0 + Z.of_nat (length l))) with (length l + 0)%nat
          by lia.
        unfold B. rewrite <- app_assoc, lookup_app_r by lia.
        replace (length l + 0 - length l)%nat with 0%nat by lia. reflexivity.
      + apply Hstop_out; [inversion Hbym; assumption|].
        apply Hhead. reflexivity. }
  (* the backward scan stops at the last byte of [m] *)
  assert (Hdown : scan_down (Z.to_nat (xs_size x)) rd stop (xs_size x)
                  = Some (Z.of_nat (length l) + Z.of_nat (length m))).
  { replace (Z.to_nat (xs_size x))
      with (length t + (length l + length m))%nat by lia.
    replace (xs_size x)
      with (Z.of_nat (length l) + Z.of_nat (length m) + Z.of_nat (length t))
      by lia.
    rewrite scan_down_skip.
    2:{ intros k c Hk. rewrite Hrd by lia. split.
        - replace (Z.to_nat (Z.of_nat (length l) + Z.of_nat (length m)
                             + Z.of_nat k))
            with (length (l ++ m) + k)%nat by (rewrite length_app; lia).
          unfold B. rewrite (app_assoc l m t), <- app_assoc.
          rewrite lookup_app_r by lia.
          replace (length (l ++ m) + k - length (l ++ m))%nat with k by lia.
          rewrite lookup_app_l by (apply lookup_lt_Some in Hk; exact Hk).
          exact Hk.
        - apply Hstop_in. rewrite Forall_forall in Ht. apply Ht.
          apply list_elem_of_lookup_2 in Hk. exact Hk. }
    destruct (decide (m = [])) as [->|Hm].
    - destruct (Hempty eq_refl) as [-> ->]. reflexivity.
    - destruct (last_app_cons_inv m Hm) as (m' & c & Em & Hc).
      replace (length l + length m)%nat with (S (length l + length m'))
        by (rewrite Em, length_app; simpl; lia).
      apply (scan_down_stop _ _ _ _ c).
      + rewrite Hrd by (rewrite Em, length_app; simpl; lia).
        replace (Z.to_nat (Z.of_nat (length l) + Z.of_nat (length m) - 1))
          with (length (l ++ m') + 0)%nat
          by (rewrite Em, !length_app; simpl; lia).
        unfold B. rewrite Em. rewrite <- (app_assoc m' [c] t).
        rewrite (app_assoc l m'), <- (app_assoc (l ++ m')).
        rewrite lookup_app_r by lia.
        replace (length (l ++ m') + 0 - length (l ++ m'))%nat with 0%nat
          by lia.
        reflexivity.
      + apply Hstop_out; [|apply Hlast, Hc].
        rewrite Em in Hbym. apply Forall_app in Hbym as [_ Hbc].
        inversion Hbc; assumption. }
  (* memmove(orig, dataptr, slen) *)
  set (B1 := m ++ drop (length m) B).
  destruct (mem_write_obj x h d m B B1 Hobj)
    as (x1 & h1 & E1 & O1 & F1 & I1 & P1).
  { rewrite Hoff. apply buf_write_prefix. unfold B. rewrite !length_app.
    lia. }
  rewrite Hblk0 in F1, I1, P1.
  (* the terminator *)
  destruct (store_terminator x1 h1 d B1 (Z.of_nat (length m)) O1 Hoff)
    as (x2 & h2 & E2 & O2 & F2 & I2 & P2).
  { unfold B1, B. rewrite !length_app, length_drop, !length_app.
    cbn [length]. lia. }
  rewrite Hblk0 in F2, I2, P2. rewrite Nat2Z.id in O2, I2.
  pose proof (same_but_trans _ _ _ _ F1 F2) as F12.
  set (B2 := m ++ 0 :: drop (length m + 1) B).
  assert (HB2 : <[length m := 0]> B1 = B2).
  { unfold B1, B2.
    replace (length m) with (length m + 0)%nat at 1 by lia.
    rewrite insert_app_r.
    destruct (lookup_lt_is_Some_2 B (length m)) as [c Hc].
    { unfold B. rewrite !length_app. cbn [length]. lia. }
    rewrite (drop_S _ _ _ Hc), Nat.add_1_r. reflexivity. }
  rewrite HB2 in O2, I2.
  assert (HL2 : length B2 = length B).
  { unfold B2. rewrite length_app. cbn [length]. rewrite length_drop.
    unfold B. rewrite !length_app. cbn [length]. lia. }
  assert (Hby2 : Forall (λ c, 0 <= c < 256) B2).
  { unfold B2. apply Forall_app. split; [exact Hbym|].
    constructor; [lia|]. apply Forall_drop. unfold B.
    rewrite !Forall_app. auto. }
  (* run the code *)
  unfold xs_trim.
  destruct ta as [|t0 ta']; [congruence|].
  cbn [app lookup list_lookup mbind option_bind].
  inversion Htnz as [|? ? Ht0 _]; subst.
  destruct (Z.eqb_spec t0 0); [contradiction|].
  rewrite Hcow. cbn [mbind option_bind]. fold d.
  change (t0 :: ta' ++ 0 :: tr) with ((t0 :: ta') ++ 0 :: tr).
  rewrite strlen_app by exact Htnz. cbn [mbind option_bind].
  fold mask. fold stop. fold rd.
  rewrite Hup. cbn [mbind option_bind]. rewrite Hdown.
  cbn [mbind option_bind].
  replace (Z.of_nat (length l) + Z.of_nat (length m) - Z.of_nat (length l))
    with (Z.of_nat (length m)) by lia.
  rewrite (sz_small (Z.of_nat (length m))) by lia.
  rewrite (mem_read_object _ _ _ _ B).
  2:{ rewrite object_at_padd. exact Hobj. }
  rewrite addr_off_padd, Hoff.
  rewrite buf_read_Some.
  2: lia. 2: lia.
  2:{ unfold B. rewrite !length_app. cbn [length]. lia. }
  assert (Hmid : take (Z.to_nat (Z.of_nat (length m)))
                   (drop (Z.to_nat (0 + Z.of_nat (length l))) B) = m).
  { replace (Z.to_nat (0 + Z.of_nat (length l))) with (length l) by lia.
    rewrite Nat2Z.id. unfold B. rewrite <- !app_assoc.
    rewrite drop_app_length. apply take_app_length. }
  rewrite Hmid. cbn [mbind option_bind].
  rewrite E1. cbn [mbind option_bind].
  destruct (mem_load x1 h1 (padd d (Z.of_nat (length m)))) as [c|];
    [|discriminate E2].
  cbn [mbind option_bind] in E2 |- *. rewrite E2. cbn [mbind option_bind].
  clear E2 c.
  destruct (xs_is_ptr x) eqn:Hp.
  - assert (Hpx : px ≠ 0).
    { unfold px. unfold d, xs_data in Hobj. rewrite Hp in Hobj.
      apply heap_get_Some in Hobj. lia. }
    rewrite (P2 Hpx), (P1 Hpx) in *. rewrite Hp.
    destruct (Hcapx eq_refl) as (Ecap & Hc & Hlt).
    unfold d, xs_data in O2. rewrite Hp in O2. cbn [object_at] in O2.
    destruct (heap_finish x h2 m _ (Z.of_nat (length m)) Hok Hp eq_refl O2)
      as (h' & Eset & Hwf' & Hp' & Hsz' & Hby' & Hrc' & Hq' & Hc' & F');
      try assumption.
    { fold B2. rewrite HL2. lia. }
    { lia. }
    { lia. }
    rewrite Eset. cbn [mbind option_bind].
    eexists _, _. split; [reflexivity|].
    split; [exact Hwf'|]. split; [exact Hby'|]. split; [exact Hsz'|].
    split; [exact Hp'|]. split; [discriminate|]. intros _.
    split; [exact Hq'|]. split.
    { unfold xs_capacity. rewrite Hp, Hp', Hc'. reflexivity. }
    split; [exact Hrc'|].
    apply (same_but_trans _ _ _ _ F12 F').
  - destruct (I1 eq_refl) as [-> ->]. destruct (I2 eq_refl) as [-> ->].
    assert (HB16 : length B = 16%nat).
    { apply xs_ok_length in Hok. unfold d, xs_data in Hobj.
      rewrite Hp in Hobj. injection Hobj as <-. exact Hok. }
    assert (Hxp : x_is_ptr B2 = false).
    { unfold B2. apply inline_tail_is_ptr; [exact HB16| |lia].
      unfold d, xs_data in Hobj. rewrite Hp in Hobj. injection Hobj as <-.
      exact Hp. }
    replace (xs_is_ptr B2) with false by (symmetry; exact Hxp).
    destruct (inline_finish B2 m _ h (15 - Z.of_nat (length m)) eq_refl
                ltac:(lia) Hby2 Hnzm Hxp eq_refl)
      as (Hwf' & Hp' & Hsz' & Hby').
    eexists _, _. split; [reflexivity|].
    split; [exact Hwf'|]. split; [exact Hby'|]. split; [exact Hsz'|].
    split; [exact Hp'|]. split; [reflexivity|discriminate].
Qed.


(** * Mutators on shared strings *)

Lemma bytes_frame y h h' p :
  xs_wf y h = true → same_but p h h' →
  (xs_is_ptr y = true → x_ptr y ≠ p) →
  xs_bytes y h' = xs_bytes y h.
Proof.
  intros Hy F Hne.
  destruct (wf_buffer y h Hy)
    as (ya & yr & Hobj & Hya & _ & _ & _ & _ & _ & Hbytes).
  rewrite Hbytes. apply (bytes_of_buffer y h' ya yr); [|exact Hya].
  apply (source_frame y h h' p _ _ Hobj F). auto.
Qed.

Lemma wf_frame y h h' p :
  xs_wf y h = true → same_but p h h' →
  (xs_is_ptr y = true → x_ptr y ≠ p) →
  xs_wf y h' = true.
Proof.
  intros Hy [_ F] Hne. unfold xs_wf in *.
  destruct (xs_ok y); [|discriminate]. cbn [andb] in *.
  destruct (xs_is_ptr y); [|exact Hy]. rewrite F by auto. exact Hy.
Qed.

(** The copy-on-write test, with what it leaves behind in both cases. *)
Lemma cow_if_shared_full x h :
  xs_wf x h = true → Z.of_nat (length h) + 1 < 2 ^ 64 →
  ∃ x1 h1 bs,
    cow_if_shared x h = Some (x1, h1)
    ∧ cow_if_shared x1 h1 = Some (x1, h1)
    ∧ xs_bytes x h = Some bs ∧ xs_bytes x1 h1 = Some bs
    ∧ xs_size x1 = xs_size x
    ∧ xs_wf x1 h1 = true
    ∧ (xs_is_ptr x1 = true → xs_ref_counter x1 h1 = Some 1)
    ∧ (∀ y, xs_wf y h = true →
            xs_wf y h1 = true ∧ xs_bytes y h1 = xs_bytes y h)
    ∧ Z.of_nat (length h1) <= Z.of_nat (length h) + 1
    ∧ ((xs_is_ptr x = true → xs_ref_counter x h = Some 1) →
       x1 = x ∧ h1 = h)
    ∧ (∀ c, xs_is_ptr x = true → xs_ref_counter x h = Some c → c ≠ 1 →
            xs_ref_counter x h1 = Some (byte (c - 1))
            ∧ (xs_is_ptr x1 = true → heap_get h (x_ptr x1) = None)
            ∧ xs_is_ptr x1 = (16 <=? xs_size x)
            ∧ (∀ q b, heap_get h q = Some b →
                      ∃ b1, heap_get h1 q = Some b1)).
Proof.
  intros Hwf Hh.
  destruct (wf_buffer x h Hwf)
    as (a & r & Hobj & Ha & _ & _ & _ & _ & _ & Hbytes).
  assert (Hself : ∀ k, (xs_is_ptr x = true → xs_ref_counter x k = Some 1) →
                       cow_if_shared x k = Some (x, k)).
  { intros k Hk. unfold cow_if_shared. destruct (xs_is_ptr x); [|reflexivity].
    rewrite (Hk eq_refl). reflexivity. }
  assert (Hexcl : (xs_is_ptr x = true → xs_ref_counter x h = Some 1) →
            ∃ x1 h1 bs,
              cow_if_shared x h = Some (x1, h1)
              ∧ cow_if_shared x1 h1 = Some (x1, h1)
              ∧ xs_bytes x h = Some bs ∧ xs_bytes x1 h1 = Some bs
              ∧ xs_size x1 = xs_size x
              ∧ xs_wf x1 h1 = true
              ∧ (xs_is_ptr x1 = true → xs_ref_counter x1 h1 = Some 1)
              ∧ (∀ y, xs_wf y h = true →
                      xs_wf y h1 = true ∧ xs_bytes y h1 = xs_bytes y h)
              ∧ Z.of_nat (length h1) <= Z.of_nat (length h) + 1
              ∧ ((xs_is_ptr x = true → xs_ref_counter x h = Some 1) →
                 x1 = x ∧ h1 = h)
              ∧ (∀ c, xs_is_ptr x = true → xs_ref_counter x h = Some c →
                      c ≠ 1 →
                      xs_ref_counter x h1 = Some (byte (c - 1))
                      ∧ (xs_is_ptr x1 = true →
                         heap_get h (x_ptr x1) = None)
                      ∧ xs_is_ptr x1 = (16 <=? xs_size x)
                      ∧ (∀ q b, heap_get h q = Some b →
                                ∃ b1, heap_get h1 q = Some b1))).
  { intros Hex. exists x, h, a. rewrite (Hself h Hex).
    repeat (split; [first [reflexivity | assumption | auto; fail | lia]|]).
    intros c Hp Hc Hne. rewrite (Hex Hp) in Hc. congruence. }
  destruct (xs_is_ptr x) eqn:Hp; [|apply Hexcl; discriminate].
  destruct (wf_heap_block x h Hwf Hp) as (a' & c & r' & Hb & Ha' & _).
  pose proof (heap_string_counter x h a' c r' Hb Ha') as Hc.
  destruct (Z.eq_dec c 1) as [->|Hne]; [apply Hexcl; auto|].
  clear Hexcl.
  destruct (xs_cow_full x h Hwf Hp Hh)
    as (a2 & c2 & r2 & x1 & h1 & Hb2 & Ha2 & Hcow & Hb1 & Hsz & Hby & Hwf1
        & Hp1 & Hfresh & Hkeep & Hall & Hlen).
  rewrite Hb in Hb2. injection Hb2 as Hb2.
  apply app_inj_1 in Hb2 as [<- Hb2]; [|lia]. injection Hb2 as <- <-.
  rewrite (heap_string_bytes x h a' c r' Hp Hb Ha') in Hbytes.
  injection Hbytes as <-.
  exists x1, h1, a'.
  split.
  { unfold cow_if_shared. rewrite Hp, Hc. cbn [mbind option_bind].
    destruct (Z.eqb_spec c 1); [contradiction|exact Hcow]. }
  split.
  { unfold cow_if_shared. destruct (xs_is_ptr x1) eqn:E; [|reflexivity].
    destruct (Hfresh eq_refl) as [_ ->]. reflexivity. }
  split; [exact (heap_string_bytes x h a' c r' Hp Hb Ha')|].
  split; [exact Hby|]. split; [exact Hsz|]. split; [exact Hwf1|].
  split; [intros E; apply Hfresh, E|].
  split; [exact Hall|]. split; [exact Hlen|].
  split.
  { intros Hex. rewrite (Hex eq_refl) in Hc. congruence. }
  intros c0 _ Hc0 _. rewrite Hc in Hc0. injection Hc0 as <-.
  split; [exact (heap_string_counter x h1 a' _ r' Hb1 Ha')|].
  split; [intros E; apply Hfresh, E|]. split; [exact Hp1|].
  intros q b Hq. destruct (Z.eq_dec q (x_ptr x)) as [->|Nq]; [eauto|].
  exists b. apply Hkeep; assumption.
Qed.

Lemma xs_trim_cow x x1 (t0 : Z) ts h h1 :
  t0 ≠ 0 →
  cow_if_shared x h = Some (x1, h1) → cow_if_shared x1 h1 = Some (x1, h1) →
  xs_trim x (t0 :: ts) h = xs_trim x1 (t0 :: ts) h1.
Proof.
  intros Ht E1 E2. unfold xs_trim. cbn [lookup list_lookup mbind option_bind].
  destruct (Z.eqb_spec t0 0); [contradiction|]. rewrite E1, E2. reflexivity.
Qed.

(** [xs_trim] on any well-formed string, shared or not. *)
Lemma xs_trim_any x (ta tr l m t : list Z) h :
  xs_wf x h = true → Z.of_nat (length h) + 1 < 2 ^ 64 →
  ta ≠ [] → Forall (λ c, c ≠ 0) ta → Forall (λ c, 0 <= c < 256) ta →
  xs_bytes x h = Some (l ++ m ++ t) →
  Forall (λ c, c ∈ ta) l → Forall (λ c, c ∈ ta) t →
  (∀ c, head m = Some c → c ∉ ta) → (∀ c, last m = Some c → c ∉ ta) →
  (m = [] → l = [] ∧ t = []) →
  ∃ x1 h1 x' h',
    cow_if_shared x h = Some (x1, h1)
    ∧ xs_trim x (ta ++ 0 :: tr) h = Some (x', h')
    ∧ xs_wf x' h' = true
    ∧ xs_bytes x' h' = Some m
    ∧ xs_size x' = Z.of_nat (length m)
    ∧ (xs_is_ptr x' = true → xs_ref_counter x' h' = Some 1)
    ∧ xs_is_ptr x' = xs_is_ptr x1
    ∧ (xs_is_ptr x1 = false → h' = h1)
    ∧ (xs_is_ptr x1 = true →
       x_ptr x' = x_ptr x1 ∧ xs_capacity x' = xs_capacity x1
       ∧ same_but (x_ptr x1) h1 h').
Proof.
  intros Hwf Hh Hta Htnz Htby Hbytes Hl Ht Hhead Hlast Hempty.
  destruct (cow_if_shared_full x h Hwf Hh)
    as (x1 & h1 & bs & Hcow & Hcow1 & Hbs & Hbs1 & Hsz1 & Hwf1 & Hex1 & _).
  rewrite Hbytes in Hbs. injection Hbs as <-.
  destruct (xs_trim_exclusive x1 ta tr l m t h1 Hwf1 Hex1 Hta Htnz Htby Hbs1
              Hl Ht Hhead Hlast Hempty)
    as (x' & h' & Htrim & Hwf' & Hby' & Hsz' & Hp' & Hin & Hhp).
  exists x1, h1, x', h'. split; [exact Hcow|]. split.
  { destruct ta as [|t0 ta']; [congruence|].
    inversion Htnz; subst. cbn [app] in *.
    rewrite (xs_trim_cow x x1 t0 _ h h1) by assumption. exact Htrim. }
  split; [exact Hwf'|]. split; [exact Hby'|]. split; [exact Hsz'|].
  split.
  { intros E. rewrite Hp' in E. apply (Hhp E). }
  split; [exact Hp'|]. split; [exact Hin|].
  intros E. destruct (Hhp E) as (? & ? & _ & ?). auto.
Qed.

(** X9.  [xs_trim] with a non-empty set, on a well-formed string
    whose payload is set members, then a part [m] that starts and ends with
    a byte outside the set (or is empty, with nothing around it), then set
    members: the result is well formed, holds exactly [m], and has count 1
    when on the heap.  A string that needed no copy keeps its layout, its
    buffer and its capacity, and an inline one leaves the heap alone. *)
Theorem xs_trim_strips (x ta tr l m t : list Z) (h : list (option (list Z))) :
  xs_wf x h = true → Z.of_nat (length h) + 1 < 2 ^ 64 →
  ta ≠ [] → Forall (λ c, c ≠ 0) ta → Forall (λ c, 0 <= c < 256) ta →
  xs_bytes x h = Some (l ++ m ++ t) →
  Forall (λ c, c ∈ ta) l → Forall (λ c, c ∈ ta) t →
  (∀ c, head m = Some c → c ∉ ta) → (∀ c, last m = Some c → c ∉ ta) →
  (m = [] → l = [] ∧ t = []) →
  ∃ x' h',
    xs_trim x (ta ++ 0 :: tr) h = Some (x', h')
    ∧ xs_wf x' h' = true
    ∧ xs_bytes x' h' = Some m
    ∧ xs_size x' = Z.of_nat (length m)
    ∧ (xs_is_ptr x' = true → xs_ref_counter x' h' = Some 1)
    ∧ ((xs_is_ptr x = true → xs_ref_counter x h = Some 1) →
       xs_is_ptr x' = xs_is_ptr x
       ∧ (xs_is_ptr x = false → h' = h)
       ∧ (xs_is_ptr x = true →
          x_ptr x' = x_ptr x ∧ xs_capacity x' = xs_capacity x)).
Proof.
  intros Hwf Hh Hta Htnz Htby Hbytes Hl Ht Hhead Hlast Hempty.
  destruct (xs_trim_any x ta tr l m t h Hwf Hh Hta Htnz Htby Hbytes Hl Ht
              Hhead Hlast Hempty)
    as (x1 & h1 & x' & h' & Hcow & Htrim & Hwf' & Hby' & Hsz' & Hrc' & Hp'
        & Hin & Hhp).
  exists x', h'. repeat (split; [assumption|]).
  intros Hex.
  assert (x1 = x ∧ h1 = h) as [-> ->].
  { unfold cow_if_shared in Hcow. destruct (xs_is_ptr x); [|split; congruence].
    rewrite (Hex eq_refl) in Hcow. simpl in Hcow. split; congruence. }
  split; [exact Hp'|]. split; [exact Hin|].
  intros E. destruct (Hhp E) as (? & ? & _). auto.
Qed.

(** X10.  [xs_trim] on a heap string whose count is not 1 works
    on a copy: the result holds the trimmed bytes on a buffer of its own,
    the count of the shared buffer goes down by one, and every string
    that was well formed, the other aliases included, stays well formed and
    reads the bytes it read before. *)
Theorem xs_trim_shared (x ta tr l m t : list Z) (h : list (option (list Z)))
    (c : Z) :
  xs_wf x h = true → Z.of_nat (length h) + 1 < 2 ^ 64 →
  xs_is_ptr x = true → xs_ref_counter x h = Some c → c ≠ 1 →
  ta ≠ [] → Forall (λ c, c ≠ 0) ta → Forall (λ c, 0 <= c < 256) ta →
  xs_bytes x h = Some (l ++ m ++ t) →
  Forall (λ c, c ∈ ta) l → Forall (λ c, c ∈ ta) t →
  (∀ c, head m = Some c → c ∉ ta) → (∀ c, last m = Some c → c ∉ ta) →
  (m = [] → l = [] ∧ t = []) →
  ∃ x' h',
    xs_trim x (ta ++ 0 :: tr) h = Some (x', h')
    ∧ xs_bytes x' h' = Some m
    ∧ xs_ref_counter x h' = Some (byte (c - 1))
    ∧ (xs_is_ptr x' = true → x_ptr x' ≠ x_ptr x)
    ∧ ∀ y, xs_wf y h = true →
           xs_wf y h' = true ∧ xs_bytes y h' = xs_bytes y h.
Proof.
  intros Hwf Hh Hp Hc Hne Hta Htnz Htby Hbytes Hl Ht Hhead Hlast Hempty.
  destruct (xs_trim_any x ta tr l m t h Hwf Hh Hta Htnz Htby Hbytes Hl Ht
              Hhead Hlast Hempty)
    as (x1 & h1 & x' & h' & Hcow & Htrim & Hwf' & Hby' & Hsz' & Hrc' & Hp'
        & Hin & Hhp).
  destruct (cow_if_shared_full x h Hwf Hh)
    as (x1' & h1' & bs & Hcow' & _ & _ & _ & _ & Hwf1 & _ & Hall & _ & _
        & Hshared).
  rewrite Hcow in Hcow'. injection Hcow' as <- <-.
  destruct (Hshared c Hp Hc Hne) as (Hc1 & Hfresh & _).
  destruct (wf_heap_block x h Hwf Hp) as (a & c0 & r & Hb & _).
  assert (Hfar : ∀ y, xs_wf y h = true → xs_is_ptr y = true →
                      xs_is_ptr x1 = true → x_ptr y ≠ x_ptr x1).
  { intros y Hy Hyp E1 E. destruct (wf_heap_block y h Hy Hyp)
      as (ya & yc & yr & Hyb & _).
    rewrite E, (Hfresh E1) in Hyb. discriminate. }
  assert (Hframe : ∀ y, xs_wf y h = true →
            xs_wf y h' = true ∧ xs_bytes y h' = xs_bytes y h).
  { intros y Hy. destruct (Hall y Hy) as [Hy1 Hyb1].
    destruct (xs_is_ptr x1) eqn:E1.
    - destruct (Hhp eq_refl) as (_ & _ & F). split.
      + apply (wf_frame y h1 h' _ Hy1 F). intros Hyp. apply Hfar; auto.
      + rewrite <- Hyb1. apply (bytes_frame y h1 h' _ Hy1 F).
        intros Hyp. apply Hfar; auto.
    - rewrite (Hin eq_refl). auto. }
  exists x', h'. split; [exact Htrim|]. split; [exact Hby'|].
  split.
  { destruct (xs_is_ptr x1) eqn:E1.
    - destruct (Hhp eq_refl) as (_ & _ & [_ F]).
      unfold xs_ref_counter, mem_load, mem_read, ref_addr in *.
      cbn [object_at] in *. rewrite F; [exact Hc1|].
      apply Hfar; auto.
    - rewrite (Hin eq_refl). exact Hc1. }
  split; [|exact Hframe].
  intros E. rewrite Hp' in E. destruct (Hhp E) as (-> & _).
  intros E'. symmetry in E'. revert E'. apply Hfar; auto.
Qed.

(** X11.  Trimming twice with the same set gives what
    trimming once gives: the second call returns the same bytes, size and
    layout, on the same buffer. *)
Theorem xs_trim_idempotent (x ta tr l m t : list Z)
    (h : list (option (list Z))) :
  xs_wf x h = true → Z.of_nat (length h) + 1 < 2 ^ 64 →
  ta ≠ [] → Forall (λ c, c ≠ 0) ta → Forall (λ c, 0 <= c < 256) ta →
  xs_bytes x h = Some (l ++ m ++ t) →
  Forall (λ c, c ∈ ta) l → Forall (λ c, c ∈ ta) t →
  (∀ c, head m = Some c → c ∉ ta) → (∀ c, last m = Some c → c ∉ ta) →
  (m = [] → l = [] ∧ t = []) →
  ∃ x' h' x'' h'',
    xs_trim x (ta ++ 0 :: tr) h = Some (x', h')
    ∧ xs_trim x' (ta ++ 0 :: tr) h' = Some (x'', h'')
    ∧ xs_bytes x'' h'' = xs_bytes x' h'
    ∧ xs_bytes x'' h'' = Some m
    ∧ xs_size x'' = xs_size x'
    ∧ xs_is_ptr x'' = xs_is_ptr x'
    ∧ (xs_is_ptr x' = true → x_ptr x'' = x_ptr x')
    ∧ (xs_is_ptr x' = false → h'' = h').
Proof.
  intros Hwf Hh Hta Htnz Htby Hbytes Hl Ht Hhead Hlast Hempty.
  destruct (xs_trim_any x ta tr l m t h Hwf Hh Hta Htnz Htby Hbytes Hl Ht
              Hhead Hlast Hempty)
    as (x1 & h1 & x' & h' & Hcow & Htrim & Hwf' & Hby' & Hsz' & Hrc' & _).
  destruct (xs_trim_exclusive x' ta tr [] m [] h' Hwf' Hrc' Hta Htnz Htby)
    as (x'' & h'' & Htrim2 & Hwf'' & Hby'' & Hsz'' & Hp'' & Hin & Hhp);
    auto.
  { rewrite app_nil_r. exact Hby'. }
  exists x', h', x'', h''. split; [exact Htrim|]. split; [exact Htrim2|].
  split; [congruence|]. split; [exact Hby''|]. split; [congruence|].
  split; [exact Hp''|]. split; [|exact Hin].
  intros E. apply (Hhp E).
Qed.

(** * Concatenation: the theorems *)

(** A string whose block is as it was reads the same bytes. *)
Lemma keep_block y h h' :
  xs_wf y h = true →
  (xs_is_ptr y = true →
   ∀ b, heap_get h (x_ptr y) = Some b → heap_get h' (x_ptr y) = Some b) →
  xs_wf y h' = true ∧ xs_bytes y h' = xs_bytes y h.
Proof.
  intros Hy Hk.
  destruct (wf_buffer y h Hy)
    as (ya & yr & Hobj & Hya & _ & _ & _ & _ & _ & Hbytes).
  assert (Hobj' : object_at y h' (xs_data y) = Some (ya ++ 0 :: yr)).
  { unfold xs_data in *. destruct (xs_is_ptr y); [|exact Hobj].
    cbn [object_at] in *. apply (Hk eq_refl), Hobj. }
  split.
  - unfold xs_wf in *. destruct (xs_ok y); [|discriminate]. cbn [andb] in *.
    unfold xs_data in *. destruct (xs_is_ptr y); [|exact Hy].
    cbn [object_at] in *. rewrite Hobj in Hy. rewrite Hobj'. exact Hy.
  - rewrite Hbytes. apply (bytes_of_buffer y h' ya yr Hobj' Hya).
Qed.

(** X12.  [xs_concat] on a string that needs no copy, when
    the new size fits the capacity (strictly, on the heap): the result is
    well formed, holds prefix, old payload and suffix in this order, keeps
    layout, buffer and capacity, has count 1 on the heap, and the prefix
    and the suffix read as before. *)
Theorem xs_concat_in_place (x p s : list Z) (h : list (option (list Z))) :
  xs_wf x h = true → (xs_is_ptr x = true → xs_ref_counter x h = Some 1) →
  xs_wf p h = true → xs_wf s h = true →
  (xs_is_ptr x = true → already_shares p x = false) →
  (xs_is_ptr x = true → already_shares s x = false) →
  xs_size p + xs_size x + xs_size s <= xs_capacity x →
  (xs_is_ptr x = true → xs_size p + xs_size x + xs_size s < xs_capacity x) →
  ∃ bx bp bs x' h',
    xs_bytes x h = Some bx ∧ xs_bytes p h = Some bp ∧ xs_bytes s h = Some bs
    ∧ xs_concat x p s h = Some (x', h')
    ∧ xs_wf x' h' = true
    ∧ xs_bytes x' h' = Some (bp ++ bx ++ bs)
    ∧ xs_size x' = xs_size p + xs_size x + xs_size s
    ∧ xs_is_ptr x' = xs_is_ptr x
    ∧ (xs_is_ptr x = false → h' = h)
    ∧ (xs_is_ptr x = true →
       x_ptr x' = x_ptr x ∧ xs_capacity x' = xs_capacity x
       ∧ xs_ref_counter x' h' = Some 1)
    ∧ xs_bytes p h' = Some bp ∧ xs_bytes s h' = Some bs.
Proof.
  intros Hwf Hex Hwp Hws Hnp Hns Hfit Hroom.
  destruct (xs_concat_in_place_spec x p s h Hwf Hex Hwp Hws Hnp Hns Hfit Hroom)
    as (bx & bp & bs & x' & h' & H).
  exists bx, bp, bs, x', h'. tauto.
Qed.

(** X13.  [xs_concat] on a string that needs no copy, when the
    new size [n] is above the capacity and [n + 1] is below the block size
    [2 ^ (ilog2 n + 1)]: the result is a well-formed heap string of size [n]
    holding prefix, old payload and suffix, alone (count 1) on a block that
    did not exist; the old block of a heap string is released; prefix and
    suffix read as before. *)
Theorem xs_concat_grows (x p s : list Z) (h : list (option (list Z))) :
  xs_wf x h = true → (xs_is_ptr x = true → xs_ref_counter x h = Some 1) →
  xs_wf p h = true → xs_wf s h = true →
  (xs_is_ptr x = true → already_shares p x = false) →
  (xs_is_ptr x = true → already_shares s x = false) →
  Z.of_nat (length h) + 1 < 2 ^ 64 →
  let n := xs_size p + xs_size x + xs_size s in
  xs_capacity x < n < 2 ^ 32 → 15 <= xs_capacity x →
  n + 1 < 2 ^ (Z.log2 n + 1) →
  ∃ bx bp bs x' h',
    xs_bytes x h = Some bx ∧ xs_bytes p h = Some bp ∧ xs_bytes s h = Some bs
    ∧ xs_concat x p s h = Some (x', h')
    ∧ xs_wf x' h' = true
    ∧ xs_bytes x' h' = Some (bp ++ bx ++ bs)
    ∧ xs_size x' = n
    ∧ xs_is_ptr x' = true
    ∧ xs_capacity x' = 2 ^ (Z.log2 n + 1) - 1
    ∧ heap_get h (x_ptr x') = None
    ∧ xs_ref_counter x' h' = Some 1
    ∧ (xs_is_ptr x = true → heap_get h' (x_ptr x) = None)
    ∧ xs_bytes p h' = Some bp ∧ xs_bytes s h' = Some bs.
Proof.
  intros Hwf Hex Hwp Hws Hnp Hns Hh n Hn H15 Hroom.
  destruct (xs_concat_grows_spec x p s h Hwf Hex Hwp Hws Hnp Hns Hh Hn H15
              Hroom)
    as (bx & bp & bs & x' & h' & H).
  exists bx, bp, bs, x', h'. tauto.
Qed.

Lemma pow2_pred_log2 n k :
  0 < n → 0 <= k → n + 1 = 2 ^ k → ¬ n + 1 < 2 ^ (Z.log2 n + 1).
Proof.
  intros Hn Hk E Hlt.
  pose proof (Z.log2_spec n Hn) as [Hlo _].
  pose proof (Z.log2_nonneg n).
  assert (k <= Z.log2 n).
  { destruct (Z.le_gt_cases k (Z.log2 n)); [assumption|].
    assert (2 ^ (Z.log2 n + 1) <= 2 ^ k) by (apply Z.pow_le_mono_r; lia).
    lia. }
  assert (2 ^ k <= 2 ^ Z.log2 n) by (apply Z.pow_le_mono_r; lia).
  lia.
Qed.

(** X14.  [xs_concat] on a heap string whose count is not 1
    works on a copy: when the new size [n] is at most 15 or [n + 1] is
    below [2 ^ (ilog2 n + 1)], the result holds prefix, old payload and
    suffix on a buffer of its own, the count of the shared buffer goes
    down by one, and every string that was well formed, the other aliases
    included, stays well formed and reads the bytes it read before. *)
Theorem xs_concat_shared (x p s : list Z) (h : list (option (list Z)))
    (c : Z) :
  xs_wf x h = true → xs_is_ptr x = true →
  xs_ref_counter x h = Some c → c ≠ 1 →
  xs_wf p h = true → xs_wf s h = true →
  Z.of_nat (length h) + 2 < 2 ^ 64 →
  let n := xs_size p + xs_size x + xs_size s in
  n < 2 ^ 32 → n <= 15 ∨ n + 1 < 2 ^ (Z.log2 n + 1) →
  ∃ bx bp bs x' h',
    xs_bytes x h = Some bx ∧ xs_bytes p h = Some bp ∧ xs_bytes s h = Some bs
    ∧ xs_concat x p s h = Some (x', h')
    ∧ xs_wf x' h' = true
    ∧ xs_bytes x' h' = Some (bp ++ bx ++ bs)
    ∧ xs_size x' = n
    ∧ (xs_is_ptr x' = true →
       xs_ref_counter x' h' = Some 1 ∧ heap_get h (x_ptr x') = None)
    ∧ xs_ref_counter x h' = Some (byte (c - 1))
    ∧ ∀ y, xs_wf y h = true →
           xs_wf y h' = true ∧ xs_bytes y h' = xs_bytes y h.
Proof.
  intros Hwf Hp Hc Hne Hwp Hws Hh n Hn Hok.
  destruct (cow_if_shared_full x h Hwf ltac:(lia))
    as (x1 & h1 & bx & Hcow & Hcow1 & Hbx & Hbx1 & Hsz1 & Hwf1 & Hex1 & Hall
        & Hlen1 & _ & Hshared).
  destruct (Hshared c Hp Hc Hne) as (Hc1 & Hfresh & Hp1 & Hlive).
  destruct (Hall p Hwp) as [Hwp1 Hbp1]. destruct (Hall s Hws) as [Hws1 Hbs1].
  destruct (wf_capacity x1 h1 Hwf1) as [Hs1 Hcap1].
  destruct (wf_capacity p h Hwp) as [Hsp _].
  destruct (wf_capacity s h Hws) as [Hss _].
  assert (Hfar : ∀ y, xs_wf y h = true → xs_is_ptr y = true →
                      xs_is_ptr x1 = true → x_ptr y ≠ x_ptr x1).
  { intros y Hy Hyp E1 E. destruct (wf_heap_block y h Hy Hyp)
      as (ya & yc & yr & Hyb & _).
    rewrite E, (Hfresh E1) in Hyb. discriminate. }
  assert (Hns : ∀ y, xs_wf y h = true →
                     xs_is_ptr x1 = true → already_shares y x1 = false).
  { intros y Hy E1. unfold already_shares.
    destruct (xs_is_ptr y) eqn:Hyp; [|reflexivity]. simpl.
    apply Z.eqb_neq. apply Hfar; auto. }
  rewrite (xs_concat_cow x x1 p s h h1 Hcow Hcow1).
  subst n. rewrite <- Hsz1 in Hn, Hok |- *.
  set (n := xs_size p + xs_size x1 + xs_size s) in *.
  assert (Hold : ∀ k, (xs_is_ptr x1 = true → same_but (x_ptr x1) h1 k)
                      → (xs_is_ptr x1 = false → k = h1) →
            xs_ref_counter x k = Some (byte (c - 1))
            ∧ ∀ y, xs_wf y h = true →
                   xs_wf y k = true ∧ xs_bytes y k = xs_bytes y h).
  { intros k Fk Ik. destruct (xs_is_ptr x1) eqn:E1.
    - specialize (Fk eq_refl). split.
      + destruct Fk as [_ Fk].
        unfold xs_ref_counter, mem_load, mem_read, ref_addr in *.
        cbn [object_at] in *. rewrite Fk; [exact Hc1|]. apply Hfar; auto.
      + intros y Hy. destruct (Hall y Hy) as [Hy1 Hyb1]. split.
        * apply (wf_frame y h1 k _ Hy1 Fk). intros Hyp. apply Hfar; auto.
        * rewrite <- Hyb1. apply (bytes_frame y h1 k _ Hy1 Fk).
          intros Hyp. apply Hfar; auto.
    - rewrite (Ik eq_refl). auto. }
  assert (Hin_place : n <= xs_capacity x1 →
            (xs_is_ptr x1 = true → n < xs_capacity x1) →
            ∃ bx0 bp bs x' h',
              xs_bytes x h = Some bx0 ∧ xs_bytes p h = Some bp
              ∧ xs_bytes s h = Some bs
              ∧ xs_concat x1 p s h1 = Some (x', h')
              ∧ xs_wf x' h' = true
              ∧ xs_bytes x' h' = Some (bp ++ bx0 ++ bs)
              ∧ xs_size x' = n
              ∧ (xs_is_ptr x' = true →
                 xs_ref_counter x' h' = Some 1 ∧ heap_get h (x_ptr x') = None)
              ∧ xs_ref_counter x h' = Some (byte (c - 1))
              ∧ ∀ y, xs_wf y h = true →
                     xs_wf y h' = true ∧ xs_bytes y h' = xs_bytes y h).
  { intros Hfit Hroom.
    destruct (xs_concat_in_place_spec x1 p s h1 Hwf1 Hex1 Hwp1 Hws1
                (Hns p Hwp) (Hns s Hws) Hfit Hroom)
      as (bx' & bp & bs & x' & h' & Hb1 & Hb2 & Hb3 & Hcat & Hwf' & Hby'
          & Hsz' & Hp' & Hin & Hhp & _ & _ & F).
    rewrite Hbx1 in Hb1. injection Hb1 as <-.
    exists bx, bp, bs, x', h'.
    split; [exact Hbx|]. split; [congruence|]. split; [congruence|].
    split; [exact Hcat|]. split; [exact Hwf'|]. split; [exact Hby'|].
    split; [exact Hsz'|]. split.
    { intros E. rewrite Hp' in E. destruct (Hhp E) as (-> & _ & Hrc).
      split; [exact Hrc|]. apply Hfresh, E. }
    apply Hold; assumption. }
  assert (Hgrow : xs_capacity x1 < n → 15 <= xs_capacity x1 →
            n + 1 < 2 ^ (Z.log2 n + 1) →
            ∃ bx0 bp bs x' h',
              xs_bytes x h = Some bx0 ∧ xs_bytes p h = Some bp
              ∧ xs_bytes s h = Some bs
              ∧ xs_concat x1 p s h1 = Some (x', h')
              ∧ xs_wf x' h' = true
              ∧ xs_bytes x' h' = Some (bp ++ bx0 ++ bs)
              ∧ xs_size x' = n
              ∧ (xs_is_ptr x' = true →
                 xs_ref_counter x' h' = Some 1 ∧ heap_get h (x_ptr x') = None)
              ∧ xs_ref_counter x h' = Some (byte (c - 1))
              ∧ ∀ y, xs_wf y h = true →
                     xs_wf y h' = true ∧ xs_bytes y h' = xs_bytes y h).
  { intros Hgt H15 Hpow.
    destruct (xs_concat_grows_spec x1 p s h1 Hwf1 Hex1 Hwp1 Hws1
                (Hns p Hwp) (Hns s Hws) ltac:(lia) ltac:(fold n; lia) H15
                Hpow)
      as (bx' & bp & bs & x' & h' & Hb1 & Hb2 & Hb3 & Hcat & Hwf' & Hby'
          & Hsz' & Hp' & _ & Hnew & Hrc & _ & _ & _ & Hkeep).
    rewrite Hbx1 in Hb1. injection Hb1 as <-.
    exists bx, bp, bs, x', h'.
    split; [exact Hbx|]. split; [congruence|]. split; [congruence|].
    split; [exact Hcat|]. split; [exact Hwf'|]. split; [exact Hby'|].
    split; [exact Hsz'|].
    assert (Hblk : ∀ q b, heap_get h1 q = Some b →
                          (xs_is_ptr x1 = true → q ≠ x_ptr x1) →
                          heap_get h' q = Some b) by exact Hkeep.
    destruct (wf_heap_block x h Hwf Hp) as (a0 & c0 & r0 & Hb0 & Ha0 & _).
    split.
    { intros _. split; [exact Hrc|].
      destruct (heap_get h (x_ptr x')) as [b|] eqn:E; [|reflexivity].
      destruct (Hlive _ _ E) as [b1 Hb1']. rewrite Hnew in Hb1'.
      discriminate. }
    assert (Hstill : ∀ y, xs_wf y h1 = true →
              (xs_is_ptr y = true → xs_is_ptr x1 = true →
               x_ptr y ≠ x_ptr x1) →
              xs_wf y h' = true ∧ xs_bytes y h' = xs_bytes y h1).
    { intros y Hy Hney. apply keep_block; [exact Hy|].
      intros Hyp b Hb. apply Hblk; [exact Hb|]. intros E1. apply Hney; auto. }
    split.
    { destruct (wf_heap_block x h Hwf Hp) as (a & c' & r & Hb & Ha & _).
      unfold xs_ref_counter, mem_load, mem_read, ref_addr in *.
      cbn [object_at] in *.
      destruct (heap_get h1 (x_ptr x)) as [b1|] eqn:E; [|discriminate Hc1].
      rewrite (Hblk _ _ E); [exact Hc1|].
      intros E1 Eq. rewrite Eq, (Hfresh E1) in Hb. discriminate. }
    intros y Hy. destruct (Hall y Hy) as [Hy1 Hyb1].
    destruct (Hstill y Hy1) as [Hy' Hyb'].
    { intros Hyp E1. apply Hfar; auto. }
    split; [exact Hy'|congruence]. }
  assert (Hn0 : 0 <= n) by (unfold n; lia).
  assert (H15 : 15 <= xs_capacity x1
                ∧ (xs_is_ptr x1 = true → 16 <= xs_size x1 < xs_capacity x1)).
  { destruct (xs_is_ptr x1) eqn:E1.
    - destruct (Hcap1 eq_refl) as (_ & _ & Hlt).
      symmetry in Hp1. apply Z.leb_le in Hp1. lia.
    - unfold xs_capacity. rewrite E1. split; [lia|discriminate]. }
  destruct H15 as [H15 H16].
  destruct (Z.le_gt_cases n (xs_capacity x1)) as [Hle|Hgt].
  - apply Hin_place; [exact Hle|]. intros E1.
    destruct (Hcap1 E1) as (Ecap & Hcr & Hlt). specialize (H16 E1).
    destruct (Z.eq_dec n (xs_capacity x1)) as [En|Nn]; [exfalso|lia].
    destruct Hok as [Hok|Hok]; [lia|].
    apply (pow2_pred_log2 n (x_capacity x1)); lia.
  - apply Hgrow; [lia|exact H15|].
    destruct Hok as [Hok|Hok]; [lia|exact Hok].
Qed.


(** * The size written back after a string was shortened in its buffer *)

Lemma shrink_spec x h x2 h2 (m : list Z) :
  xs_wf x h = true → Z.of_nat (length m) <= xs_size x →
  Forall (λ c, c ≠ 0) m → Forall (λ c, 0 <= c < 256) m →
  (∀ B, object_at x h (xs_data x) = Some B →
        object_at x2 h2 (xs_data x)
        = Some (m ++ 0 :: drop (length m + 1) B)) →
  (xs_is_ptr x = false → ∀ B, object_at x2 h2 (xs_data x) = Some B → x2 = B) →
  (xs_is_ptr x = true → x2 = x) →
  let x3 := if xs_is_ptr x2 then set_size (Z.of_nat (length m)) x2
            else set_space_left (sz (15 - Z.of_nat (length m))) x2 in
  xs_wf x3 h2 = true ∧ xs_bytes x3 h2 = Some m
  ∧ xs_size x3 = Z.of_nat (length m)
  ∧ xs_is_ptr x3 = xs_is_ptr x ∧ xs_data x3 = xs_data x
  ∧ xs_capacity x3 = xs_capacity x.
Proof.
  intros Hwf Hm Hnz Hby Hobj2 Hin Hhp x3.
  destruct (wf_buffer x h Hwf)
    as (a & r & Hobj & Ha & HL & _ & HbyB & Hok & Hoff & _).
  destruct (wf_capacity x h Hwf) as [Hsz Hcapx].
  specialize (Hobj2 _ Hobj).
  set (B := a ++ 0 :: r) in *.
  set (B2 := m ++ 0 :: drop (length m + 1) B) in *.
  assert (HL2 : length B2 = length B).
  { unfold B2. rewrite length_app. cbn [length]. rewrite length_drop.
    unfold B. rewrite !length_app. cbn [length]. lia. }
  assert (Hby2 : Forall (λ c, 0 <= c < 256) B2).
  { unfold B2. apply Forall_app. split; [exact Hby|].
    constructor; [lia|]. apply Forall_drop, HbyB. }
  destruct (xs_is_ptr x) eqn:Hp.
  - subst x3. rewrite (Hhp eq_refl) in *. rewrite Hp.
    destruct (Hcapx eq_refl) as (Ecap & Hc & Hlt).
    unfold xs_data in Hobj2. rewrite Hp in Hobj2. cbn [object_at] in Hobj2.
    set (x3 := set_size (Z.of_nat (length m)) x).
    assert (Hpow : 2 ^ x_capacity x <= 2 ^ 32)
      by (apply Z.pow_le_mono_r; lia).
    assert (Hok' : xs_ok x3 = true) by apply set_size_ok, Hok.
    assert (Hp' : x_is_ptr x3 = true)
      by (unfold x3; rewrite is_ptr_set_size by exact Hok; exact Hp).
    assert (Hs' : x_size x3 = Z.of_nat (length m)).
    { unfold x3. rewrite size_set_size by exact Hok. apply bits_small; lia. }
    assert (Hq' : x_ptr x3 = x_ptr x) by apply ptr_set_size, Hok.
    assert (Hc' : x_capacity x3 = x_capacity x)
      by apply capacity_set_size, Hok.
    assert (Hb3 : heap_get h2 (x_ptr x3)
                  = Some (m ++ 0 :: drop (length m + 1) B))
      by (rewrite Hq'; exact Hobj2).
    split.
    { apply (xs_wf_heap x3 _ _ Hok' Hp' Hb3); rewrite ?Hc', ?Hs'.
      - fold B2. rewrite HL2. lia.
      - lia.
      - lia.
      - exact Hby2.
      - apply strlen_app, Hnz. }
    split.
    { apply (bytes_of_buffer x3 h2 m (drop (length m + 1) B)).
      - unfold xs_data, xs_is_ptr. rewrite Hp'. exact Hb3.
      - unfold xs_size, xs_is_ptr. rewrite Hp', Hs'. reflexivity. }
    split; [unfold xs_size, xs_is_ptr; rewrite Hp'; exact Hs'|].
    split; [exact Hp'|].
    assert (Hp0 : x_is_ptr x = true) by exact Hp.
    split; [unfold xs_data, xs_is_ptr; rewrite Hp', Hp0, Hq'; reflexivity|].
    unfold xs_capacity, xs_is_ptr. rewrite Hp', Hp0, Hc'. reflexivity.
  - pose proof (Hin eq_refl _ Hobj2) as E2. subst x3. rewrite E2.
    assert (HB16 : length B = 16%nat).
    { apply xs_ok_length in Hok. unfold xs_data in Hobj.
      rewrite Hp in Hobj. injection Hobj as <-. exact Hok. }
    assert (Hxp : x_is_ptr B2 = false).
    { unfold B2. apply inline_tail_is_ptr; [exact HB16| |lia].
      unfold xs_data in Hobj. rewrite Hp in Hobj. injection Hobj as <-.
      exact Hp. }
    replace (xs_is_ptr B2) with false by (symmetry; exact Hxp).
    destruct (inline_finish B2 m _ h2 (15 - Z.of_nat (length m)) eq_refl
                ltac:(lia) Hby2 Hnz Hxp eq_refl)
      as (Hwf' & Hp' & Hsz' & Hby').
    split; [exact Hwf'|]. split; [exact Hby'|]. split; [exact Hsz'|].
    split; [exact Hp'|].
    split; [unfold xs_data; rewrite Hp', Hp; reflexivity|].
    unfold xs_capacity. rewrite Hp', Hp. reflexivity.
Qed.

(** * One call of the tokenizer *)

(** [xs_ref_counter(x) = 1] on a well-formed heap string. *)
Lemma set_counter_one x h :
  xs_wf x h = true → xs_is_ptr x = true →
  ∃ h', set_ref_counter x 1 h = Some h'
        ∧ xs_wf x h' = true ∧ xs_bytes x h' = xs_bytes x h
        ∧ xs_ref_counter x h' = Some 1
        ∧ same_but (x_ptr x) h h'.
Proof.
  intros Hwf Hp.
  destruct (wf_heap_block x h Hwf Hp)
    as (a & c & r & Hb & Ha & Hnz & Hby & Hc & Hok & Hcap & HL).
  pose proof (heap_get_Some _ _ _ Hb) as Hr.
  rewrite (heap_string_set_counter x h a c r Hb Ha). change (byte 1) with 1.
  eexists. split; [reflexivity|].
  assert (Hb1 : heap_get (heap_set h (x_ptr x) (Some (a ++ 0 :: 1 :: r)))
                  (x_ptr x) = Some (a ++ 0 :: 1 :: r))
    by (apply heap_get_set_eq; lia).
  split.
  { apply (xs_wf_block_update x h (x_ptr x) _ _ Hwf Hb).
    - rewrite !length_app. reflexivity.
    - destruct (xs_wf_heap_inv x h Hwf Hp)
        as (_ & b0 & Hb0 & _ & _ & _ & Hby0 & _).
      rewrite Hb in Hb0. injection Hb0 as <-.
      apply Forall_app in Hby0 as [H1 H2]. apply Forall_app. split; [auto|].
      inversion H2 as [|? ? ? H3]; subst. inversion H3; subst.
      repeat constructor; auto; lia.
    - rewrite !strlen_app by exact Hnz. reflexivity. }
  split.
  { rewrite (heap_string_bytes x h a c r Hp Hb Ha).
    apply (heap_string_bytes x _ a 1 r Hp Hb1 Ha). }
  split; [apply (heap_string_counter x _ a 1 r Hb1 Ha)|].
  apply same_but_set. lia.
Qed.

Lemma xs_tmp_empty h :
  ∃ e, xs_tmp [0] h = Some (e, h) ∧ xs_is_ptr e = false
       ∧ xs_wf e h = true ∧ xs_bytes e h = Some [].
Proof.
  eexists. split; [reflexivity|]. repeat split; reflexivity.
Qed.

(** The first half of [xs_tok]: the leading delimiters go, the rest of
    the string moves to the front and gets its size. *)
Lemma tok_skip x h (mask l m r : list Z) :
  xs_wf x h = true →
  object_at x h (xs_data x) = Some ((l ++ m) ++ 0 :: r) →
  Z.of_nat (length (l ++ m)) = xs_size x →
  Forall (λ c, c ≠ 0) m → Forall (λ c, 0 <= c < 256) m →
  Forall (λ c, check_bit mask c = true) l →
  (∀ c, head m = Some c → check_bit mask c = false) →
  ∃ x2 h2 x3,
    scan_up (Z.to_nat (xs_size x))
      (λ k, mem_load x h (padd (xs_data x) k))
      (λ c, negb (check_bit mask c)) 0 = Some (Z.of_nat (length l))
    ∧ mem_read x h (padd (xs_data x) (Z.of_nat (length l)))
        (sz (xs_size x - Z.of_nat (length l))) = Some m
    ∧ mem_write x h (xs_data x) m = Some (x2, h2) ∧
    ∃ x2' h2',
      mem_store x2 h2 (padd (xs_data x) (sz (xs_size x - Z.of_nat (length l))))
        0 = Some (x2', h2')
      ∧ x3 = (if xs_is_ptr x2'
              then set_size (sz (xs_size x - Z.of_nat (length l))) x2'
              else set_space_left
                     (sz (15 - sz (xs_size x - Z.of_nat (length l)))) x2')
      ∧ xs_wf x3 h2' = true ∧ xs_bytes x3 h2' = Some m
      ∧ xs_size x3 = Z.of_nat (length m)
      ∧ xs_is_ptr x3 = xs_is_ptr x ∧ xs_data x3 = xs_data x
      ∧ xs_capacity x3 = xs_capacity x
      ∧ same_but (addr_block (xs_data x)) h h2'
      ∧ (xs_is_ptr x = false → h2' = h)
      ∧ (xs_is_ptr x = true → x_ptr x3 = x_ptr x).
Proof.
  intros Hwf Hobj Ha Hnz Hby Hl Hhead.
  destruct (wf_capacity x h Hwf) as [Hsz Hcapx].
  destruct (wf_data x h Hwf) as (_ & _ & _ & Hoff & _ & _ & Hs54 & _).
  set (B := (l ++ m) ++ 0 :: r) in *.
  set (d := xs_data x) in *.
  rewrite length_app in Ha.
  set (rd := λ k, mem_load x h (padd d k)).
  assert (Hrd : ∀ k, 0 <= k → rd k = B !! Z.to_nat k).
  { intros k Hk. unfold rd. rewrite (mem_load_at _ _ _ B).
    - rewrite addr_off_padd, Hoff. f_equal.
    - rewrite object_at_padd. exact Hobj.
    - rewrite addr_off_padd. lia. }
  assert (Hup : scan_up (Z.to_nat (xs_size x)) rd
                  (λ c, negb (check_bit mask c)) 0
                = Some (Z.of_nat (length l))).
  { replace (Z.to_nat (xs_size x)) with (length l + length m)%nat by lia.
    rewrite scan_up_skip.
    2:{ intros k c Hk. rewrite Hrd by lia. split.
        - replace (Z.to_nat (0 + Z.of_nat k)) with k by lia.
          unfold B. rewrite <- !app_assoc, lookup_app_l
            by (apply lookup_lt_Some in Hk; exact Hk). exact Hk.
        - rewrite Forall_forall in Hl. rewrite Hl; [reflexivity|].
          apply list_elem_of_lookup_2 in Hk. exact Hk. }
    destruct m as [|c m']; [reflexivity|].
    cbn [length]. apply (scan_up_stop _ _ _ _ c).
    - rewrite Hrd by lia.
      replace (Z.to_nat (0 + Z.of_nat (length l))) with (length l + 0)%nat
        by lia.
      unfold B. rewrite <- !app_assoc, lookup_app_r by lia.
      replace (length l + 0 - length l)%nat with 0%nat by lia. reflexivity.
    - rewrite (Hhead c eq_refl). reflexivity. }
  replace (xs_size x - Z.of_nat (length l)) with (Z.of_nat (length m)) by lia.
  rewrite (sz_small (Z.of_nat (length m))) by lia.
  set (B1 := m ++ drop (length m) B).
  destruct (mem_write_obj x h d m B B1 Hobj)
    as (x1 & h1 & E1 & O1 & F1 & I1 & P1).
  { rewrite Hoff. apply buf_write_prefix. unfold B. rewrite !length_app.
    lia. }
  set (B2 := m ++ 0 :: drop (length m + 1) B).
  assert (HB2 : <[length m := 0]> B1 = B2).
  { unfold B1, B2.
    replace (length m) with (length m + 0)%nat at 1 by lia.
    rewrite insert_app_r.
    destruct (lookup_lt_is_Some_2 B (length m)) as [c Hc].
    { unfold B. rewrite !length_app. cbn [length]. lia. }
    rewrite (drop_S _ _ _ Hc), Nat.add_1_r. reflexivity. }
  destruct (mem_write_obj x1 h1 (padd d (Z.of_nat (length m))) [byte 0]
              B1 B2)
    as (x2 & h2 & E2 & O2 & F2 & I2 & P2).
  { rewrite object_at_padd. exact O1. }
  { rewrite addr_off_padd, Hoff, Z.add_0_l, <- HB2.
    replace (length m) with (Z.to_nat (Z.of_nat (length m))) at 2 by lia.
    apply buf_write_one. unfold B1, B.
    rewrite !length_app, length_drop, !length_app. cbn [length]. lia. }
  rewrite object_at_padd in O2. rewrite addr_block_padd in F2, I2, P2.
  pose proof (same_but_trans _ _ _ _ F1 F2) as F12.
  assert (Hblk : addr_block d = if xs_is_ptr x then x_ptr x else 0)
    by apply addr_block_data.
  destruct (shrink_spec x h x2 h2 m Hwf ltac:(lia) Hnz Hby)
    as (Hwf3 & Hby3 & Hsz3 & Hp3 & Hd3 & Hc3).
  { intros B' HB'. fold d in HB'. rewrite Hobj in HB'. injection HB' as <-.
    exact O2. }
  { intros Hp B' HB'. rewrite Hp in Hblk. destruct (I2 Hblk) as [-> _].
    fold d in HB'. rewrite O2 in HB'. injection HB' as <-. reflexivity. }
  { intros Hp. rewrite Hp in Hblk.
    assert (addr_block d ≠ 0).
    { rewrite Hblk. unfold d, xs_data in Hobj. rewrite Hp in Hobj.
      apply heap_get_Some in Hobj. lia. }
    rewrite (P2 H), (P1 H). reflexivity. }
  eexists x1, h1, _. split; [exact Hup|]. split.
  { rewrite (mem_read_object _ _ _ _ B)
      by (rewrite object_at_padd; exact Hobj).
    rewrite addr_off_padd, Hoff. rewrite buf_read_Some.
    2: lia. 2: lia.
    2:{ unfold B. rewrite !length_app. cbn [length]. lia. }
    f_equal. replace (Z.to_nat (0 + Z.of_nat (length l))) with (length l)
      by lia.
    rewrite Nat2Z.id. unfold B. rewrite <- !app_assoc.
    rewrite drop_app_length. apply take_app_length. }
  split; [exact E1|]. exists x2, h2.
  split; [exact E2|]. split; [reflexivity|].
  split; [exact Hwf3|]. split; [exact Hby3|]. split; [exact Hsz3|].
  split; [exact Hp3|]. split; [exact Hd3|]. split; [exact Hc3|].
  split; [exact F12|]. split.
  - intros Hp. rewrite Hp in Hblk. destruct (I1 Hblk) as [_ ->].
    destruct (I2 Hblk) as [_ ->]. reflexivity.
  - intros Hp. unfold xs_data in Hd3. rewrite Hp3, Hp in Hd3.
    congruence.
Qed.


Lemma data_not_null x h :
  xs_wf x h = true → is_null (xs_data x) = false.
Proof.
  intros Hwf. unfold xs_data. destruct (xs_is_ptr x) eqn:Hp; [|reflexivity].
  destruct (wf_heap_block x h Hwf Hp) as (a & c & r & Hb & _).
  apply heap_get_Some in Hb. simpl.
  destruct (Z.eqb_spec (x_ptr x) 0); [lia|reflexivity].
Qed.

Lemma is_ptr_insert_low (x : list Z) k v :
  (k < 15)%nat → x_is_ptr (<[k := v]> x) = x_is_ptr x.
Proof.
  intros Hk. unfold x_is_ptr, byte15.
  rewrite !nth_lookup, list_lookup_insert_ne by lia. reflexivity.
Qed.

(** One call of [xs_tok] on a string that needs no copy.  The payload is
    [l ++ tk ++ rest]: delimiters, then the token, then nothing or a
    delimiter and what follows it.  Where nothing follows the token, the
    call hands [old] to [xs_copy]. *)
Lemma xs_tok_spec x (da dr l tk rest : list Z) old h :
  xs_wf x h = true → (xs_is_ptr x = true → xs_ref_counter x h = Some 1) →
  Z.of_nat (length h) + 1 < 2 ^ 64 →
  da ≠ [] → Forall (λ c, c ≠ 0) da → Forall (λ c, 0 <= c < 256) da →
  xs_bytes x h = Some (l ++ tk ++ rest) →
  Forall (λ c, c ∈ da) l → Forall (λ c, c ∉ da) tk →
  (∀ d, head rest = Some d → d ∈ da) →
  (tk = [] → rest = []) →
  (rest = [] → old ≠ None → xs_tok (Some x) (da ++ 0 :: dr) old h = None)
  ∧ ((rest = [] → old = None) →
     ∃ r,
       xs_tok (Some x) (da ++ 0 :: dr) old h = Some r
       ∧ xs_wf (tok_x r) (tok_heap r) = true
       ∧ xs_bytes (tok_x r) (tok_heap r) = Some tk
       ∧ token r = match tk with [] => None | _ => Some (tok_x r) end
       ∧ (xs_is_ptr (tok_x r) = true →
          xs_ref_counter (tok_x r) (tok_heap r) = Some 1)
       ∧ xs_is_ptr (tok_x r) = xs_is_ptr x
       ∧ (xs_is_ptr x = true → x_ptr (tok_x r) = x_ptr x)
       ∧ tok_old r = match rest with [] => None | _ :: _ => Some Dangling end
       ∧ (xs_is_ptr x = false → tok_heap r = h)
       ∧ (∀ q b, heap_get h q = Some b →
                 (xs_is_ptr x = true → q ≠ x_ptr x) →
                 heap_get (tok_heap r) q = Some b)).
Proof.
  intros Hwf Hex Hh Hda Hdnz Hdby Hbytes Hl Htk Hrest Hempty.
  destruct (wf_buffer x h Hwf)
    as (a & r0 & Hobj & Ha & HL & Hnz & Hby & Hok & Hoff & Hbx).
  rewrite Hbx in Hbytes. injection Hbytes as ->.
  destruct (wf_capacity x h Hwf) as [Hsz Hcapx].
  destruct (wf_data x h Hwf) as (_ & _ & _ & _ & _ & _ & Hs54 & _).
  assert (Hs32 : xs_size x < 2 ^ 32).
  { destruct (xs_is_ptr x) eqn:Hp.
    - destruct (Hcapx eq_refl) as (E & Hc & Hlt).
      assert (2 ^ x_capacity x <= 2 ^ 32) by (apply Z.pow_le_mono_r; lia).
      lia.
    - unfold xs_capacity in Hsz. rewrite Hp in Hsz. lia. }
  pose proof Hby as Hby0. apply Forall_app in Hby0 as [Hbya _].
  apply Forall_app in Hbya as [Hbyl Hbym].
  pose proof Hbym as Hbytr. apply Forall_app in Hbytr as [Hbyt Hbyr].
  pose proof Hnz as Hnz0. apply Forall_app in Hnz0 as [Hnzl Hnzm].
  pose proof Hnzm as Hnztr. apply Forall_app in Hnztr as [Hnzt Hnzr].
  set (mask := make_mask (da ++ 0 :: dr) (Z.of_nat (length da))).
  assert (Hin : ∀ c, c ∈ da → check_bit mask c = true)
    by (intros c Hc; apply member_check, Hc).
  assert (Hout : ∀ c, 0 <= c < 256 → c ∉ da → check_bit mask c = false)
    by (intros c Hc Hn; apply nonmember_check; assumption).
  assert (Hcow : cow_if_shared x h = Some (x, h)).
  { unfold cow_if_shared. destruct (xs_is_ptr x); [|reflexivity].
    rewrite (Hex eq_refl). reflexivity. }
  rewrite !length_app in Ha.
  destruct (tok_skip x h mask l (tk ++ rest) r0 Hwf Hobj)
    as (x1 & h1 & x3 & Hup & Hrd & E1 & x2 & h2 & E2 & Ex3 & Hwf3 & Hby3
        & Hsz3 & Hp3 & Hd3 & Hc3 & F & Hinl & Hptr); try assumption.
  { rewrite !length_app. lia. }
  { rewrite Forall_forall. intros c Hc. apply Hin.
    rewrite Forall_forall in Hl. auto. }
  { intros c Hc. destruct tk as [|c' tk'].
    - rewrite (Hempty eq_refl) in Hc. discriminate.
    - injection Hc as <-. apply Forall_cons in Htk as [? _].
      apply Forall_cons in Hbyt as [? _]. apply Hout; assumption. }
  assert (Exl : sz (xs_size x - Z.of_nat (length l))
                = Z.of_nat (length (tk ++ rest))).
  { rewrite length_app, sz_small by lia. lia. }
  rewrite Exl in *.
  (* the string after the first half *)
  destruct (wf_buffer x3 h2 Hwf3)
    as (a3 & r3 & Hobj3 & Ha3 & HL3 & _ & Hbyb3 & Hok3 & Hoff3 & Hbx3).
  rewrite Hby3 in Hbx3. injection Hbx3 as <-.
  rewrite Hd3 in Hobj3, Hoff3.
  set (d := xs_data x) in *.
  set (B3 := (tk ++ rest) ++ 0 :: r3) in *.
  assert (Hld : ∀ k, 0 <= k →
                     mem_load x3 h2 (padd d k) = B3 !! Z.to_nat k).
  { intros k Hk. rewrite (mem_load_at _ _ _ B3).
    - rewrite addr_off_padd, Hoff3. f_equal.
    - rewrite object_at_padd. exact Hobj3.
    - rewrite addr_off_padd. lia. }
  assert (Hld0 : mem_load x3 h2 d = B3 !! 0%nat).
  { rewrite (mem_load_at _ _ _ B3 Hobj3) by lia. rewrite Hoff3. reflexivity. }
  assert (Hlen2 : length h2 = length h) by (destruct F; assumption).
  assert (Hstep : ∀ p k k' q b, same_but p k k' → heap_get k q = Some b →
                                q ≠ p → heap_get k' q = Some b).
  { intros p k k' q b [_ Fk] Hq Hne. rewrite Fk by exact Hne. exact Hq. }
  assert (Hfr2 : ∀ q b, heap_get h q = Some b →
                        (xs_is_ptr x = true → q ≠ x_ptr x) →
                        heap_get h2 q = Some b).
  { intros q b Hq Hne. apply (Hstep _ _ _ _ _ F Hq).
    unfold d. rewrite addr_block_data. apply heap_get_Some in Hq as Hr.
    destruct (xs_is_ptr x); [auto|lia]. }
  (* run the code up to the first test *)
  match goal with
  | |- (?A → ?B → xs_tok ?x' ?d' ?o' ?h' = None) ∧ ?G =>
      cut (∀ res, xs_tok x' d' o' h' = res →
                  (A → B → res = None)
                  ∧ ((rest = [] → old = None) →
                     ∃ r, res = Some r
                          ∧ xs_wf (tok_x r) (tok_heap r) = true
                          ∧ xs_bytes (tok_x r) (tok_heap r) = Some tk
                          ∧ token r = match tk with
                                      | [] => None
                                      | _ => Some (tok_x r)
                                      end
                          ∧ (xs_is_ptr (tok_x r) = true →
                             xs_ref_counter (tok_x r) (tok_heap r) = Some 1)
                          ∧ xs_is_ptr (tok_x r) = xs_is_ptr x
                          ∧ (xs_is_ptr x = true → x_ptr (tok_x r) = x_ptr x)
                          ∧ tok_old r = match rest with
                                        | [] => None
                                        | _ :: _ => Some Dangling
                                        end
                          ∧ (xs_is_ptr x = false → tok_heap r = h)
                          ∧ (∀ q b, heap_get h q = Some b →
                                    (xs_is_ptr x = true → q ≠ x_ptr x) →
                                    heap_get (tok_heap r) q = Some b)));
        [intros Hcut; exact (Hcut _ eq_refl)|]
  end.
  intros res. unfold xs_tok. cbn [mbind option_bind].
  rewrite (data_not_null x h Hwf).
  destruct da as [|d0 da']; [congruence|].
  cbn [app lookup list_lookup mbind option_bind].
  pose proof Hdnz as Hd0. apply Forall_cons in Hd0 as [Hd0 _].
  destruct (Z.eqb_spec d0 0); [contradiction|].
  rewrite Hcow. cbn [mbind option_bind].
  change (d0 :: da' ++ 0 :: dr) with ((d0 :: da') ++ 0 :: dr).
  rewrite strlen_app by exact Hdnz. cbn [mbind option_bind].
  fold mask. fold d. rewrite Hup. cbn [mbind option_bind].
  rewrite Exl, Hrd. cbn [mbind option_bind].
  rewrite E1. cbn [mbind option_bind]. rewrite E2. cbn [mbind option_bind].
  rewrite <- Ex3. rewrite Hd3. fold d. rewrite Hld0.
  destruct tk as [|c tk'].
  - (* nothing but delimiters: the string is exhausted *)
    pose proof (Hempty eq_refl) as Er. subst rest. cbn [app] in *.
    unfold B3. cbn [app lookup list_lookup mbind option_bind].
    change (0 =? 0) with true. cbv iota.
    intros <-. split.
    { intros _ Ho. destruct old as [[]|]; [reflexivity|congruence]. }
    intros Hold. rewrite (Hold eq_refl).
    cbn [pointee xs_copy mbind option_bind].
    destruct (xs_is_ptr x3) eqn:Hp3'.
    + destruct (set_counter_one x3 h2 Hwf3 Hp3')
        as (h' & Eset & Hwf' & Hby' & Hrc' & F').
      rewrite Eset. cbn [mbind option_bind].
      eexists. split; [reflexivity|]. cbn [tok_x tok_heap token tok_old].
      split; [exact Hwf'|]. split; [congruence|]. split; [reflexivity|].
      split; [auto|]. split; [congruence|]. split; [exact Hptr|].
      split; [reflexivity|]. split; [intros Hpx; congruence|].
      intros q b Hq Hne. apply (Hstep _ _ _ _ _ F' (Hfr2 _ _ Hq Hne)).
      rewrite Hptr by congruence. apply Hne. congruence.
    + eexists. split; [reflexivity|]. cbn [tok_x tok_heap token tok_old].
      split; [exact Hwf3|]. split; [exact Hby3|]. split; [reflexivity|].
      split; [congruence|]. split; [congruence|]. split; [exact Hptr|].
      split; [reflexivity|]. split; [exact Hinl|exact Hfr2].
  - (* there is a token *)
    pose proof Htk as Hc. apply Forall_cons in Hc as [Hc _].
    pose proof Hbyt as Hcb. apply Forall_cons in Hcb as [Hcb _].
    pose proof Hnzt as Hcz. apply Forall_cons in Hcz as [Hcz _].
    unfold B3 at 1. cbn [app lookup list_lookup mbind option_bind].
    destruct (Z.eqb_spec c 0); [contradiction|].
    change (c :: tk' ++ rest) with ((c :: tk') ++ rest) in *.
    set (tk := c :: tk') in *.
    assert (Hscan : scan_up (Z.to_nat (Z.of_nat (length (tk ++ rest))))
                      (λ k, mem_load x3 h2 (padd d k)) (check_bit mask) 0
                    = Some (Z.of_nat (length tk))).
    { rewrite Nat2Z.id, length_app. rewrite scan_up_skip.
      2:{ intros k c' Hk. rewrite Hld by lia. split.
          - replace (Z.to_nat (0 + Z.of_nat k)) with k by lia.
            unfold B3. rewrite <- !app_assoc, lookup_app_l
              by (apply lookup_lt_Some in Hk; exact Hk). exact Hk.
          - apply list_elem_of_lookup_2 in Hk. apply Hout.
            + rewrite Forall_forall in Hbyt. auto.
            + rewrite Forall_forall in Htk. auto. }
      destruct rest as [|dl rest']; [reflexivity|].
      cbn [length]. apply (scan_up_stop _ _ _ _ dl).
      - rewrite Hld by lia.
        replace (Z.to_nat (0 + Z.of_nat (length tk)))
          with (length tk + 0)%nat by lia.
        unfold B3. rewrite <- !app_assoc, lookup_app_r by lia.
        replace (length tk + 0 - length tk)%nat with 0%nat
          by lia.
        reflexivity.
      - apply Hin, Hrest. reflexivity. }
    rewrite Hscan. cbn [mbind option_bind].
    rewrite Hld by lia.
    rewrite Nat2Z.id.
    assert (Hblk : addr_block d = if xs_is_ptr x then x_ptr x else 0)
      by apply addr_block_data.
    destruct rest as [|dl rest'].
    + (* the token ends the string *)
      rewrite app_nil_r in *.
      assert (HlA : B3 !! length tk = Some 0).
      { unfold B3. rewrite app_nil_r.
        replace (length tk) with (length tk + 0)%nat at 1 by lia.
        rewrite lookup_app_r by lia.
        replace (length tk + 0 - length tk)%nat with 0%nat by lia.
        reflexivity. }
      rewrite HlA. cbn [mbind option_bind]. change (0 =? 0) with true.
      cbv iota.
      destruct (xs_tmp_empty h2) as (e & Ee & Hpe & Hwfe & Hbe).
      rewrite Ee. cbn [mbind option_bind].
      intros <-. split.
      { intros _ Ho. destruct old as [[]|]; [reflexivity|congruence]. }
      intros Hold. rewrite (Hold eq_refl).
      cbn [pointee xs_copy mbind option_bind].
      destruct (xs_is_ptr x3) eqn:Hp3'.
      * destruct (set_counter_one x3 h2 Hwf3 Hp3')
          as (h' & Eset & Hwf' & Hby' & Hrc' & F').
        rewrite Eset. cbn [mbind option_bind].
        eexists. split; [reflexivity|].
        cbn [tok_x tok_heap token tok_old].
        split; [exact Hwf'|]. split; [congruence|].
        split; [reflexivity|].
        split; [auto|]. split; [congruence|]. split; [exact Hptr|].
        split; [reflexivity|]. split; [intros Hpx; congruence|].
        intros q b Hq Hne. apply (Hstep _ _ _ _ _ F' (Hfr2 _ _ Hq Hne)).
        rewrite Hptr by congruence. apply Hne. congruence.
      * eexists. split; [reflexivity|].
        cbn [tok_x tok_heap token tok_old].
        split; [exact Hwf3|]. split; [exact Hby3|].
        split; [reflexivity|].
        split; [congruence|]. split; [congruence|]. split; [exact Hptr|].
        split; [reflexivity|]. split; [exact Hinl|exact Hfr2].
    + (* a delimiter follows: cut there, keep the rest for the next call *)
      intros Hres. split; [discriminate|]. intros _. revert Hres.
      pose proof Hnzr as Hdl. apply Forall_cons in Hdl as [Hdl Hnzr'].
      pose proof Hbyr as Hdlb. apply Forall_cons in Hdlb as [Hdlb Hbyr'].
      rewrite length_app in Hsz3, Ha3. cbn [length] in Hsz3, Ha3, Ha.
      assert (HlB : B3 !! length tk = Some dl).
      { unfold B3. rewrite <- app_assoc.
        replace (length tk) with (length tk + 0)%nat at 1 by lia.
        rewrite lookup_app_r by lia.
        replace (length tk + 0 - length tk)%nat with 0%nat by lia.
        reflexivity. }
      rewrite HlB. cbn [mbind option_bind].
      destruct (Z.eqb_spec dl 0); [contradiction|].
      set (B4 := tk ++ 0 :: rest' ++ 0 :: r3).
      assert (HB4 : <[length tk := 0]> B3 = B4).
      { unfold B3, B4. rewrite <- app_assoc.
        replace (length tk) with (length tk + 0)%nat at 1 by lia.
        rewrite insert_app_r. reflexivity. }
      assert (HL4 : length B3 = (length tk + length rest' + 2 + length r3)%nat).
      { unfold B3. rewrite !length_app. cbn [length]. lia. }
      destruct (mem_write_obj x3 h2 (padd d (Z.of_nat (length tk))) [byte 0]
                  B3 B4)
        as (x4 & h4 & E4 & O4 & F4 & I4 & P4).
      { rewrite object_at_padd. exact Hobj3. }
      { rewrite addr_off_padd, Hoff3, Z.add_0_l, <- HB4.
        replace (length tk) with (Z.to_nat (Z.of_nat (length tk))) at 2
          by lia.
        apply buf_write_one. lia. }
      unfold mem_store. rewrite E4. cbn [mbind option_bind].
      rewrite object_at_padd in O4. rewrite addr_block_padd in F4, I4, P4.
      assert (Hlen4 : length h4 = length h)
        by (destruct F4 as [-> _]; exact Hlen2).
      assert (Hcap15 : xs_is_ptr x = false → xs_size x3 <= 15).
      { intros Hp. destruct (wf_capacity x3 h2 Hwf3) as [? _].
        unfold xs_capacity in *. rewrite Hp3, Hp in *. lia. }
      assert (Hp4 : xs_is_ptr x4 = xs_is_ptr x ∧ xs_data x4 = d
                    ∧ (xs_is_ptr x = false → x4 = B4 ∧ h4 = h)
                    ∧ (xs_is_ptr x = true → x4 = x3)).
      { destruct (xs_is_ptr x) eqn:Hp.
        - assert (Hne : addr_block d ≠ 0).
          { rewrite Hblk. unfold d, xs_data in Hobj. rewrite Hp in Hobj.
            apply heap_get_Some in Hobj. lia. }
          rewrite (P4 Hne). repeat split; auto; discriminate.
        - destruct (I4 Hblk) as [-> ->].
          assert (E3 : x3 = B3).
          { unfold d, xs_data in Hobj3. rewrite Hp in Hobj3.
            cbn [object_at] in Hobj3. congruence. }
          assert (Hq : x_is_ptr B4 = false).
          { rewrite <- HB4, is_ptr_insert_low
              by (specialize (Hcap15 eq_refl); lia).
            rewrite <- E3. exact Hp3. }
          split; [exact Hq|]. split.
          + unfold xs_data, xs_is_ptr. rewrite Hq. unfold d, xs_data.
            rewrite Hp. reflexivity.
          + split; [|discriminate]. intros _. split; [reflexivity|].
            apply Hinl. reflexivity. }
      destruct Hp4 as (Hp4 & Hd4 & Hin4 & Hhp4).
      rewrite Hd4.
      (* the remainder, copied out by xs_tmp *)
      assert (Hcstr : mem_cstr x4 h4
                        (padd (padd d (Z.of_nat (length tk))) 1)
                      = Some (rest' ++ 0 :: r3)).
      { unfold mem_cstr. rewrite !object_at_padd, O4.
        cbn [mbind option_bind]. rewrite !addr_off_padd, Hoff3.
        assert (HL4' : length B4 = length B3)
          by (rewrite <- HB4; apply length_insert).
        destruct (Z.leb_spec 0 (0 + Z.of_nat (length tk) + 1)); [|lia].
        destruct (Z.leb_spec (0 + Z.of_nat (length tk) + 1)
                    (Z.of_nat (length B4))); [|lia].
        cbn [andb]. f_equal. unfold B4.
        replace (Z.to_nat (0 + Z.of_nat (length tk) + 1))
          with (length tk + 1)%nat by lia.
        rewrite drop_app_ge by lia.
        replace (length tk + 1 - length tk)%nat with 1%nat by lia.
        reflexivity. }
      rewrite Hcstr. cbn [mbind option_bind].
      destruct (xs_new_spec rest' r3 h4 Hnzr' ltac:(lia) ltac:(lia))
        as (o & h5 & Enew & Hszo & Hbyo & _ & Hwfo & Hpo & Hino & Hhpo).
      unfold xs_tmp. rewrite Enew. cbn [mbind option_bind].
      specialize (Hwfo Hbyr').
      assert (Hkeep : ∀ q b, heap_get h4 q = Some b → heap_get h5 q = Some b).
      { destruct (xs_is_ptr o) eqn:E.
        - destruct (Hhpo eq_refl) as (_ & _ & _ & blk & -> & _).
          intros q b Hq. rewrite heap_get_app_l; [exact Hq|].
          apply heap_get_Some in Hq. lia.
        - rewrite (Hino eq_refl). auto. }
      destruct (shrink_spec x3 h2 x4 h5 tk Hwf3 ltac:(lia) Hnzt Hbyt)
        as (Hwf5 & Hby5 & Hsz5 & Hp5 & Hd5 & Hc5).
      { intros B' HB'. rewrite Hd3 in *. fold d in HB' |- *.
        rewrite Hobj3 in HB'. injection HB' as <-.
        assert (HB4' : tk ++ 0 :: drop (length tk + 1) B3 = B4).
        { unfold B3, B4. rewrite <- app_assoc.
          rewrite drop_app_ge by lia.
          replace (length tk + 1 - length tk)%nat with 1%nat by lia.
          reflexivity. }
        rewrite HB4'. unfold d, xs_data in *.
        destruct (xs_is_ptr x); cbn [object_at] in *.
        - apply Hkeep, O4.
        - exact O4. }
      { intros Hp B' HB'. rewrite Hp3 in Hp. rewrite Hd3 in HB'. fold d in HB'.
        unfold d, xs_data in HB'. rewrite Hp in HB'. cbn [object_at] in HB'.
        congruence. }
      { intros Hp. rewrite Hp3 in Hp. apply Hhp4, Hp. }
      rewrite Hp4.
      destruct (xs_is_ptr x) eqn:Hp.
      * rewrite Hp4 in Hwf5, Hby5, Hsz5, Hp5, Hd5, Hc5.
        set (x5 := set_size (Z.of_nat (length tk)) x4) in *.
        assert (Hp5' : xs_is_ptr x5 = true) by congruence.
        destruct (set_counter_one x5 h5 Hwf5 Hp5')
          as (h6 & Eset & Hwf6 & Hby6 & Hrc6 & F6).
        rewrite Eset. cbn [mbind option_bind].
        assert (Hq5 : x_ptr x5 = x_ptr x).
        { rewrite Hd3 in Hd5. unfold d, xs_data in Hd5.
          rewrite Hp5', Hp in Hd5. congruence. }
        assert (Hfar : xs_is_ptr o = true → x_ptr o ≠ x_ptr x5).
        { intros E. destruct (Hhpo E) as (-> & _). rewrite Hq5.
          unfold d, xs_data in Hobj. rewrite Hp in Hobj.
          apply heap_get_Some in Hobj. lia. }
        intros <-.
        eexists. split; [reflexivity|]. cbn [tok_x tok_heap token tok_old].
        split; [exact Hwf6|]. split; [congruence|]. split; [reflexivity|].
        split; [auto|]. split; [congruence|]. split; [intros _; exact Hq5|].
        split; [reflexivity|]. split; [discriminate|].
        intros q b Hq Hne. specialize (Hne eq_refl).
        apply (Hstep _ _ _ _ _ F6); [|rewrite Hq5; exact Hne].
        apply Hkeep. apply (Hstep _ _ _ _ _ F4); [apply Hfr2; auto|].
        rewrite Hblk. exact Hne.
      * rewrite Hp4 in Hwf5, Hby5, Hsz5, Hp5, Hd5, Hc5.
        destruct (Hin4 eq_refl) as [_ ->].
        assert (Hoi : xs_is_ptr o = false).
        { rewrite Hpo. apply Z.leb_gt. specialize (Hcap15 eq_refl). lia. }
        rewrite (Hino Hoi) in *.
        intros <-.
        eexists. split; [reflexivity|]. cbn [tok_x tok_heap token tok_old].
        split; [exact Hwf5|]. split; [exact Hby5|]. split; [reflexivity|].
        split; [congruence|]. split; [congruence|]. split; [discriminate|].
        split; [reflexivity|]. split; [reflexivity|auto].
Qed.


(** * The tokenizer, call by call *)

(** X15.  [xs_tok] on a string that needs no copy, whose
    payload is delimiters, a non-empty token free of delimiters, a
    delimiter and a rest, whatever [old] holds: the call returns the
    string itself, now holding exactly the token (same layout and buffer,
    count 1 on the heap); every other live block is as it was, and an
    inline string leaves the heap alone.  [old] is left with the address
    of a temporary of this call, which ends with the call. *)
Theorem xs_tok_cuts_token (x da dr l tk rest : list Z) (d : Z)
    (old : option dangling) (h : list (option (list Z))) :
  xs_wf x h = true → (xs_is_ptr x = true → xs_ref_counter x h = Some 1) →
  Z.of_nat (length h) + 1 < 2 ^ 64 →
  da ≠ [] → Forall (λ c, c ≠ 0) da → Forall (λ c, 0 <= c < 256) da →
  xs_bytes x h = Some (l ++ tk ++ d :: rest) →
  Forall (λ c, c ∈ da) l → Forall (λ c, c ∉ da) tk → tk ≠ [] → d ∈ da →
  ∃ r t,
    xs_tok (Some x) (da ++ 0 :: dr) old h = Some r
    ∧ token r = Some t ∧ tok_x r = t
    ∧ xs_wf t (tok_heap r) = true
    ∧ xs_bytes t (tok_heap r) = Some tk
    ∧ xs_is_ptr t = xs_is_ptr x
    ∧ (xs_is_ptr t = true →
       x_ptr t = x_ptr x ∧ xs_ref_counter t (tok_heap r) = Some 1)
    ∧ tok_old r = Some Dangling
    ∧ (xs_is_ptr x = false → tok_heap r = h)
    ∧ (∀ q b, heap_get h q = Some b →
              (xs_is_ptr x = true → q ≠ x_ptr x) →
              heap_get (tok_heap r) q = Some b).
Proof.
  intros Hwf Hex Hh Hda Hdnz Hdby Hbytes Hl Htk Hne Hd.
  destruct (xs_tok_spec x da dr l tk (d :: rest) old h Hwf Hex Hh Hda Hdnz
              Hdby Hbytes Hl Htk) as [_ Hs].
  { intros d' [= <-]. exact Hd. }
  { intros E. contradiction. }
  destruct Hs as (r & Htok & Hwfr & Hbyr & Htoken & Hrc & Hp & Hq & Ho
                  & Hinl & Hfr); [discriminate|].
  exists r, (tok_x r). split; [exact Htok|].
  split; [destruct tk; [contradiction|exact Htoken]|].
  split; [reflexivity|]. split; [exact Hwfr|]. split; [exact Hbyr|].
  split; [exact Hp|]. split.
  { intros E. split; [apply Hq; congruence|apply Hrc, E]. }
  split; [exact Ho|]. split; [exact Hinl|exact Hfr].
Qed.

(** X16.  [xs_tok] on a string that needs no copy, whose
    payload is delimiters and then a non-empty token up to the end, with
    [old] null: the call returns the string holding exactly the token and
    leaves [old] null. *)
Theorem xs_tok_last_token (x da dr l tk : list Z)
    (h : list (option (list Z))) :
  xs_wf x h = true → (xs_is_ptr x = true → xs_ref_counter x h = Some 1) →
  Z.of_nat (length h) + 1 < 2 ^ 64 →
  da ≠ [] → Forall (λ c, c ≠ 0) da → Forall (λ c, 0 <= c < 256) da →
  xs_bytes x h = Some (l ++ tk) →
  Forall (λ c, c ∈ da) l → Forall (λ c, c ∉ da) tk → tk ≠ [] →
  ∃ r t,
    xs_tok (Some x) (da ++ 0 :: dr) None h = Some r
    ∧ token r = Some t ∧ tok_x r = t
    ∧ xs_wf t (tok_heap r) = true
    ∧ xs_bytes t (tok_heap r) = Some tk
    ∧ xs_is_ptr t = xs_is_ptr x
    ∧ (xs_is_ptr t = true →
       x_ptr t = x_ptr x ∧ xs_ref_counter t (tok_heap r) = Some 1)
    ∧ tok_old r = None
    ∧ (xs_is_ptr x = false → tok_heap r = h).
Proof.
  intros Hwf Hex Hh Hda Hdnz Hdby Hbytes Hl Htk Hne.
  destruct (xs_tok_spec x da dr l tk [] None h Hwf Hex Hh Hda Hdnz Hdby)
    as [_ Hs]; auto.
  { rewrite app_nil_r. exact Hbytes. }
  { discriminate. }
  destruct Hs as (r & Htok & Hwfr & Hbyr & Htoken & Hrc & Hp & Hq & Ho
                  & Hinl & _); [reflexivity|].
  exists r, (tok_x r). split; [exact Htok|].
  split; [destruct tk; [contradiction|exact Htoken]|].
  split; [reflexivity|]. split; [exact Hwfr|]. split; [exact Hbyr|].
  split; [exact Hp|]. split.
  { intros E. split; [apply Hq; congruence|apply Hrc, E]. }
  split; [exact Ho|]. intros E. apply (Hinl E).
Qed.

(** X17.  [xs_tok] on a string that needs no copy and holds
    nothing but delimiters (or nothing), with [old] null: no token is
    returned, the string is left well formed and empty, and [old] stays
    null. *)
Theorem xs_tok_exhausted (x da dr l : list Z) (h : list (option (list Z))) :
  xs_wf x h = true → (xs_is_ptr x = true → xs_ref_counter x h = Some 1) →
  Z.of_nat (length h) + 1 < 2 ^ 64 →
  da ≠ [] → Forall (λ c, c ≠ 0) da → Forall (λ c, 0 <= c < 256) da →
  xs_bytes x h = Some l → Forall (λ c, c ∈ da) l →
  ∃ r,
    xs_tok (Some x) (da ++ 0 :: dr) None h = Some r
    ∧ token r = None ∧ tok_old r = None
    ∧ xs_wf (tok_x r) (tok_heap r) = true
    ∧ xs_bytes (tok_x r) (tok_heap r) = Some []
    ∧ xs_size (tok_x r) = 0
    ∧ xs_is_ptr (tok_x r) = xs_is_ptr x
    ∧ (xs_is_ptr x = false → tok_heap r = h).
Proof.
  intros Hwf Hex Hh Hda Hdnz Hdby Hbytes Hl.
  destruct (xs_tok_spec x da dr l [] [] None h Hwf Hex Hh Hda Hdnz Hdby)
    as [_ Hs]; auto.
  { rewrite app_nil_r. exact Hbytes. }
  { discriminate. }
  destruct Hs as (r & Htok & Hwfr & Hbyr & Htoken & Hrc & Hp & Hq & Ho
                  & Hinl & _); [reflexivity|].
  exists r. split; [exact Htok|]. split; [exact Htoken|].
  split; [exact Ho|]. split; [exact Hwfr|]. split; [exact Hbyr|].
  split.
  { destruct (wf_buffer (tok_x r) (tok_heap r) Hwfr)
      as (a & ? & _ & Ha & _ & _ & _ & _ & _ & Hb).
    rewrite Hbyr in Hb. injection Hb as <-. simpl in Ha. lia. }
  split; [exact Hp|]. intros E. apply (Hinl E).
Qed.

Lemma xs_tok_cow x x1 (d0 : Z) ds old h h1 :
  d0 ≠ 0 → is_null (xs_data x) = false → is_null (xs_data x1) = false →
  cow_if_shared x h = Some (x1, h1) → cow_if_shared x1 h1 = Some (x1, h1) →
  xs_tok (Some x) (d0 :: ds) old h = xs_tok (Some x1) (d0 :: ds) old h1.
Proof.
  intros Hd N N1 E1 E2. unfold xs_tok. cbn [mbind option_bind].
  rewrite N, N1. cbn [lookup list_lookup mbind option_bind].
  destruct (Z.eqb_spec d0 0); [contradiction|]. rewrite E1, E2. reflexivity.
Qed.

(** X20.  [xs_tok] with [old] null on a heap string whose count
    is not 1 works on a copy: the token is on a buffer of its own, the
    count of the shared buffer goes down by one, and every string that
    was well formed, the other aliases included, stays well formed and
    reads the bytes it read before. *)
Theorem xs_tok_shared (x da dr l tk rest : list Z)
    (h : list (option (list Z))) (c : Z) :
  xs_wf x h = true → xs_is_ptr x = true →
  xs_ref_counter x h = Some c → c ≠ 1 →
  Z.of_nat (length h) + 2 < 2 ^ 64 →
  da ≠ [] → Forall (λ c, c ≠ 0) da → Forall (λ c, 0 <= c < 256) da →
  xs_bytes x h = Some (l ++ tk ++ rest) →
  Forall (λ c, c ∈ da) l → Forall (λ c, c ∉ da) tk →
  (∀ d, head rest = Some d → d ∈ da) → (tk = [] → rest = []) →
  ∃ r,
    xs_tok (Some x) (da ++ 0 :: dr) None h = Some r
    ∧ token r = match tk with [] => None | _ => Some (tok_x r) end
    ∧ xs_bytes (tok_x r) (tok_heap r) = Some tk
    ∧ (xs_is_ptr (tok_x r) = true → x_ptr (tok_x r) ≠ x_ptr x)
    ∧ xs_ref_counter x (tok_heap r) = Some (byte (c - 1))
    ∧ ∀ y, xs_wf y h = true →
           xs_wf y (tok_heap r) = true
           ∧ xs_bytes y (tok_heap r) = xs_bytes y h.
Proof.
  intros Hwf Hp Hc Hne Hh Hda Hdnz Hdby Hbytes Hl Htk Hrest Hempty.
  destruct (cow_if_shared_full x h Hwf ltac:(lia))
    as (x1 & h1 & bx & Hcow & Hcow1 & Hbx & Hbx1 & Hsz1 & Hwf1 & Hex1 & Hall
        & Hlen1 & _ & Hshared).
  destruct (Hshared c Hp Hc Hne) as (Hc1 & Hfresh & Hp1 & Hlive).
  rewrite Hbytes in Hbx. injection Hbx as <-.
  destruct (xs_tok_spec x1 da dr l tk rest None h1 Hwf1 Hex1 ltac:(lia) Hda
              Hdnz Hdby Hbx1 Hl Htk Hrest Hempty) as [_ Hs].
  destruct Hs as (r & Htok & Hwfr & Hbyr & Htoken & Hrc & Hpr & Hq & _
                  & Hinl & Hfr); [reflexivity|].
  assert (Hfar : ∀ y, xs_wf y h = true → xs_is_ptr y = true →
                      xs_is_ptr x1 = true → x_ptr y ≠ x_ptr x1).
  { intros y Hy Hyp E1 E. destruct (wf_heap_block y h Hy Hyp)
      as (ya & yc & yr & Hyb & _).
    rewrite E, (Hfresh E1) in Hyb. discriminate. }
  exists r. split.
  { destruct da as [|d0 da']; [congruence|]. cbn [app] in *.
    apply Forall_cons in Hdnz as [Hd0 _].
    rewrite (xs_tok_cow x x1 d0 _ None h h1 Hd0 (data_not_null x h Hwf)
               (data_not_null x1 h1 Hwf1) Hcow Hcow1).
    exact Htok. }
  split; [exact Htoken|]. split; [exact Hbyr|].
  split.
  { intros E. rewrite Hpr in E. rewrite (Hq E). intros E'.
    symmetry in E'. revert E'. apply Hfar; auto. }
  split.
  { unfold xs_ref_counter, mem_load, mem_read, ref_addr in *.
    cbn [object_at] in *.
    destruct (heap_get h1 (x_ptr x)) as [b1|] eqn:E; [|discriminate Hc1].
    rewrite (Hfr _ _ E); [exact Hc1|]. intros E1. apply Hfar; auto. }
  intros y Hy. destruct (Hall y Hy) as [Hy1 Hyb1].
  destruct (keep_block y h1 (tok_heap r) Hy1) as [Hy' Hyb'].
  { intros Hyp b Hb. apply Hfr; [exact Hb|]. intros E1. apply Hfar; auto. }
  split; [exact Hy'|congruence].
Qed.

(** X18.  Once a call has cut a token before a delimiter, [old]
    dangles.  A later call [xs_tok(x, delim)] on a well-formed string,
    shared or not, in which no delimiter follows the first token (the
    payload is delimiters only, or delimiters and a last token up to the
    end) reaches [xs_copy(old, ..)] at xs.c:267 or xs.c:280, which reads
    the dead temporary: the call has no defined result. *)
Theorem xs_tok_dangling_old (x da dr l tk : list Z)
    (h : list (option (list Z))) :
  xs_wf x h = true → Z.of_nat (length h) + 2 < 2 ^ 64 →
  da ≠ [] → Forall (λ c, c ≠ 0) da → Forall (λ c, 0 <= c < 256) da →
  xs_bytes x h = Some (l ++ tk) →
  Forall (λ c, c ∈ da) l → Forall (λ c, c ∉ da) tk →
  xs_tok (Some x) (da ++ 0 :: dr) (Some Dangling) h = None.
Proof.
  intros Hwf Hh Hda Hdnz Hdby Hbytes Hl Htk.
  destruct (cow_if_shared_full x h Hwf ltac:(lia))
    as (x1 & h1 & bx & Hcow & Hcow1 & Hbx & Hbx1 & _ & Hwf1 & Hex1 & _
        & Hlen1 & _).
  rewrite Hbytes in Hbx. injection Hbx as <-.
  destruct (xs_tok_spec x1 da dr l tk [] (Some Dangling) h1 Hwf1 Hex1
              ltac:(lia) Hda Hdnz Hdby) as [Hs _]; auto.
  { rewrite app_nil_r. exact Hbx1. }
  { discriminate. }
  destruct da as [|d0 da']; [congruence|]. cbn [app] in *.
  pose proof Hdnz as Hd0. apply Forall_cons in Hd0 as [Hd0 _].
  rewrite (xs_tok_cow x x1 d0 _ _ h h1 Hd0 (data_not_null x h Hwf)
             (data_not_null x1 h1 Hwf1) Hcow Hcow1).
  apply Hs; [reflexivity|discriminate].
Qed.

(** * Assignment from an inline string *)

Lemma release_spec d h :
  xs_wf d h = true → xs_is_ptr d = true →
  ∃ a c r h1,
    heap_get h (x_ptr d) = Some (a ++ 0 :: c :: r)
    ∧ Z.of_nat (length a) = x_size d
    ∧ release d h = Some h1
    ∧ same_but (x_ptr d) h h1
    ∧ (c = 1 → heap_get h1 (x_ptr d) = None)
    ∧ (c ≠ 1 → heap_get h1 (x_ptr d) = Some (a ++ 0 :: byte (c - 1) :: r)).
Proof.
  intros Hwf Hp. unfold release. rewrite Hp.
  destruct (wf_heap_block d h Hwf Hp)
    as (da & dk & dr & Hdb & Hda & _ & _ & Hdk & _ & _ & _).
  pose proof (heap_get_Some _ _ _ Hdb) as Hdrange.
  exists da, dk, dr.
  rewrite (heap_string_counter d h da dk dr Hdb Hda).
  cbn [mbind option_bind].
  rewrite (heap_string_set_counter d h da dk dr Hdb Hda).
  cbn [mbind option_bind].
  set (h1 := heap_set h (x_ptr d) (Some (da ++ 0 :: byte (dk - 1) :: dr))).
  assert (Hdb1 : heap_get h1 (x_ptr d)
                 = Some (da ++ 0 :: byte (dk - 1) :: dr))
    by (apply heap_get_set_eq; lia).
  rewrite (heap_string_counter d h1 da _ dr Hdb1 Hda).
  cbn [mbind option_bind].
  pose proof (byte_pred_zero dk Hdk) as Hz.
  destruct (Z.eqb_spec (byte (dk - 1)) 0) as [E|E].
  - unfold xs_data. rewrite Hp. rewrite (free_live _ _ _ Hdb1).
    eexists. split; [exact Hdb|]. split; [exact Hda|].
    split; [reflexivity|]. split.
    { apply (same_but_trans _ h h1); apply same_but_set; lia. }
    split.
    + intros _. apply heap_get_set_eq. unfold h1. rewrite length_heap_set.
      lia.
    + intros Hn. exfalso. apply Hn, Hz, E.
  - exists h1. split; [exact Hdb|]. split; [exact Hda|].
    split; [reflexivity|]. split; [apply same_but_set; lia|]. split.
    + intros ->. exfalso. apply E, Hz. reflexivity.
    + intros _. exact Hdb1.
Qed.

(** X21.  [xs_copy] from an inline string makes [dest] a
    bit copy of it and touches the heap only to let go of the buffer
    [dest] held: with count 1 that block is released, otherwise its count
    goes down by one and its bytes stay. *)
Theorem xs_copy_from_inline (dest src : list Z)
    (h : list (option (list Z))) :
  xs_wf dest h = true → xs_wf src h = true → xs_is_ptr src = false →
  ∃ h',
    xs_copy (Some dest) (Some src) h = Some (Some src, h')
    ∧ xs_wf src h' = true
    ∧ xs_bytes src h' = xs_bytes src h
    ∧ (xs_is_ptr dest = false → h' = h)
    ∧ (xs_is_ptr dest = true →
       same_but (x_ptr dest) h h'
       ∧ ∀ c, xs_ref_counter dest h = Some c →
              (c = 1 → heap_get h' (x_ptr dest) = None)
              ∧ (c ≠ 1 →
                 xs_ref_counter dest h' = Some (byte (c - 1))
                 ∧ xs_bytes dest h' = xs_bytes dest h)).
Proof.
  intros Hwd Hws Hps.
  assert (Hsrc : ∀ k, xs_wf src k = true ∧ xs_bytes src k = xs_bytes src h).
  { intros k. split; [apply (xs_wf_inline_any src h k Hps Hws)|].
    unfold xs_bytes, mem_read, xs_data. rewrite Hps. reflexivity. }
  unfold xs_copy. fold (release dest h).
  destruct (xs_is_ptr dest) eqn:Hpd.
  - destruct (release_spec dest h Hwd Hpd)
      as (a & c & r & h1 & Hb & Ha & Hrel & F & Hone & Hmore).
    rewrite Hrel. cbn [mbind option_bind]. rewrite Hps.
    cbn [mbind option_bind].
    exists h1. split; [reflexivity|].
    split; [apply Hsrc|]. split; [apply Hsrc|]. split; [discriminate|].
    intros _. split; [exact F|]. intros c' Hc'.
    rewrite (heap_string_counter dest h a c r Hb Ha) in Hc'.
    injection Hc' as <-. split; [exact Hone|].
    intros Hn. specialize (Hmore Hn). split.
    + apply (heap_string_counter dest h1 a _ r Hmore Ha).
    + rewrite (heap_string_bytes dest h a c r Hpd Hb Ha).
      apply (heap_string_bytes dest h1 a _ r Hpd Hmore Ha).
  - unfold release. rewrite Hpd. cbn [mbind option_bind]. rewrite Hps.
    cbn [mbind option_bind].
    exists h. split; [reflexivity|].
    split; [apply Hsrc|]. split; [reflexivity|]. split; [reflexivity|].
    discriminate.
Qed.

(** * Where the count byte does not fit *)

(** The count byte of a string that fills its block lies outside it. *)
Lemma count_outside x h (b : list Z) v :
  xs_ok x = true → x_is_ptr x = true →
  heap_get h (x_ptr x) = Some b →
  Z.of_nat (length b) = v + 1 → 0 <= v < 2 ^ 54 →
  set_ref_counter (set_size v x) 1 h = None.
Proof.
  intros Hok Hp Hb HL Hv.
  unfold set_ref_counter, mem_store, mem_write, ref_addr.
  rewrite ptr_set_size, size_set_size, bits_small by (try exact Hok; lia).
  rewrite Hb. cbn [mbind option_bind]. unfold buf_write.
  destruct (Z.leb_spec 0 (v + 1)); [|lia].
  destruct (Z.leb_spec (v + 1 + Z.of_nat (length [byte 1]))
              (Z.of_nat (length b))); [simpl in *; lia|].
  reflexivity.
Qed.

Lemma xs_concat_count_outside_spec (x p s : list Z)
    (h : list (option (list Z))) :
  xs_wf x h = true → xs_is_ptr x = true → xs_ref_counter x h = Some 1 →
  xs_wf p h = true → xs_wf s h = true →
  already_shares p x = false → already_shares s x = false →
  xs_size p + xs_size x + xs_size s = xs_capacity x →
  xs_concat x p s h = None.
Proof.
  intros Hwf Hp Hex0 Hwp Hws Hnp0 Hns0 Heq.
  assert (Hex : xs_is_ptr x = true → xs_ref_counter x h = Some 1) by auto.
  assert (Hnp : xs_is_ptr x = true → already_shares p x = false) by auto.
  assert (Hns : xs_is_ptr x = true → already_shares s x = false) by auto.
  assert (Hfit : xs_size p + xs_size x + xs_size s <= xs_capacity x) by lia.
  destruct (wf_buffer x h Hwf)
    as (a & r & Hobj & Ha & HL & Hnz & Hby & Hok & Hoff & Hbx).
  destruct (wf_buffer p h Hwp)
    as (pa & pr & Hpobj & Hpa & _ & Hpnz & Hpby & _ & Hpoff & Hbp).
  destruct (wf_buffer s h Hws)
    as (sa & sr & Hsobj & Hsa & _ & Hsnz & Hsby & _ & Hsoff & Hbs).
  destruct (wf_capacity x h Hwf) as [Hsz Hcapx].
  set (B := a ++ 0 :: r) in *.
  set (n := xs_size p + xs_size x + xs_size s) in *.
  assert (Hn : 0 <= n <= xs_capacity x) by (unfold n; lia).
  assert (Hcap32 : xs_capacity x < 2 ^ 32).
  { unfold xs_capacity in *. destruct (xs_is_ptr x); [|lia].
    destruct (Hcapx eq_refl) as [E Hc]. rewrite E.
    assert (2 ^ x_capacity x <= 2 ^ 32) by (apply Z.pow_le_mono_r; lia). lia. }
  assert (Hcow : cow_if_shared x h = Some (x, h)).
  { unfold cow_if_shared. destruct (xs_is_ptr x); [|reflexivity].
    rewrite (Hex eq_refl). reflexivity. }
  destruct (concat_buffer B a pa sa ltac:(lia)) as (B1 & B2 & W1 & W2 & W3).
  set (B3 := (pa ++ a ++ sa) ++ 0
               :: drop (length pa + length a + length sa + 1) B) in *.
  set (d := xs_data x) in *.
  set (px := if xs_is_ptr x then x_ptr x else 0).
  assert (Hblk : ∀ k, addr_block (padd d k) = px)
    by (intros k; rewrite addr_block_padd; apply addr_block_data).
  assert (Hblk0 : addr_block d = px) by apply addr_block_data.
  (* memmove(data + pres, data, size) *)
  destruct (mem_write_obj x h (padd d (xs_size p)) a B B1)
    as (x1 & h1 & E1 & O1 & F1 & I1 & P1).
  { rewrite object_at_padd. exact Hobj. }
  { rewrite addr_off_padd, Hoff, <- Hpa. exact W1. }
  rewrite object_at_padd in O1. rewrite Hblk in F1, I1, P1.
  (* memcpy(data, pre, pres) *)
  destruct (mem_write_obj x1 h1 d pa B1 B2 O1)
    as (x2 & h2 & E2 & O2 & F2 & I2 & P2).
  { rewrite Hoff. exact W2. }
  rewrite Hblk0 in F2, I2, P2.
  (* memcpy(data + pres + size, suf, sufs + 1) *)
  destruct (mem_write_obj x2 h2 (padd (padd d (xs_size p)) (xs_size x))
              (sa ++ [0]) B2 B3)
    as (x3 & h3 & E3 & O3 & F3 & I3 & P3).
  { rewrite !object_at_padd. exact O2. }
  { rewrite !addr_off_padd, Hoff, <- Hpa, <- Ha. exact W3. }
  rewrite !object_at_padd in O3. rewrite !addr_block_padd, Hblk0 in F3, I3, P3.
  pose proof (same_but_trans _ _ _ _ F1 F2) as F12.
  pose proof (same_but_trans _ _ _ _ F12 F3) as F13.
  (* the sources, read while the buffer is written *)
  assert (Hp1 : object_at p h1 (xs_data p) = Some (pa ++ 0 :: pr)).
  { apply (source_frame p h h1 px _ _ Hpobj F1).
    intros Hy Hx. apply not_shared_ptr; assumption. }
  assert (Hs2 : object_at s h2 (xs_data s) = Some (sa ++ 0 :: sr)).
  { apply (source_frame s h h2 px _ _ Hsobj F12).
    intros Hy Hx. apply not_shared_ptr; assumption. }
  unfold xs_concat. rewrite Hcow. cbn [mbind option_bind].
  fold d. replace (xs_size x + xs_size p + xs_size s) with n by (unfold n; lia).
  rewrite (sz_small n) by lia.
  destruct (Z.leb_spec n (xs_capacity x)); [|lia].
  rewrite (mem_read_object _ _ _ _ _ Hobj). fold d. rewrite Hoff.
  unfold B at 1. rewrite buf_read_prefix by lia. cbn [mbind option_bind].
  rewrite E1. cbn [mbind option_bind].
  rewrite (mem_read_object _ _ _ _ _ Hp1), Hpoff.
  rewrite buf_read_prefix by lia. cbn [mbind option_bind].
  rewrite E2. cbn [mbind option_bind].
  rewrite (mem_read_object _ _ _ _ _ Hs2), Hsoff.
  rewrite (sz_small (xs_size s + 1)) by lia.
  rewrite cstr_read by lia. cbn [mbind option_bind].
  rewrite E3. cbn [mbind option_bind].
  assert (Hpx : px ≠ 0).
  { unfold px. rewrite Hp. unfold d, xs_data in Hobj. rewrite Hp in Hobj.
    apply heap_get_Some in Hobj. lia. }
  rewrite (P3 Hpx), (P2 Hpx), (P1 Hpx) in *.
  destruct (Hcapx Hp) as (Ecap & Hc & _).
  unfold d, xs_data in O3. rewrite Hp in O3. cbn [object_at] in O3.
  rewrite Hp. cbn [mbind option_bind].
  assert (HL3 : length B3 = length B).
  { unfold B3. rewrite length_app. cbn [length].
    rewrite length_drop, !length_app. lia. }
  rewrite (is_ptr_set_size x Hok n : xs_is_ptr (set_size n x) = x_is_ptr x).
  change (x_is_ptr x) with (xs_is_ptr x). rewrite Hp.
  rewrite (count_outside x h3 B3 n Hok Hp O3); [reflexivity|lia|lia].
Qed.

(** X22.  [xs_concat] in place on a heap string, when
    the new size equals the capacity: the terminator is the last byte of
    the block and the store to the reference count lies outside it, so the
    call has no defined result. *)
Theorem xs_concat_count_outside (x p s : list Z)
    (h : list (option (list Z))) :
  xs_wf x h = true → xs_is_ptr x = true → xs_ref_counter x h = Some 1 →
  xs_wf p h = true → xs_wf s h = true →
  already_shares p x = false → already_shares s x = false →
  xs_size p + xs_size x + xs_size s = xs_capacity x →
  xs_concat x p s h = None.
Proof.
  intros Hwf Hp Hex Hwp Hws Hnp Hns Heq.
  apply xs_concat_count_outside_spec; assumption.
Qed.

Lemma xs_concat_grows_count_outside_spec (x p s : list Z)
    (h : list (option (list Z))) :
  xs_wf x h = true → (xs_is_ptr x = true → xs_ref_counter x h = Some 1) →
  xs_wf p h = true → xs_wf s h = true →
  Z.of_nat (length h) + 1 < 2 ^ 64 →
  let n := xs_size p + xs_size x + xs_size s in
  xs_capacity x < n < 2 ^ 32 → 15 <= xs_capacity x →
  n + 1 = 2 ^ (Z.log2 n + 1) →
  xs_concat x p s h = None.
Proof.
  intros Hwf Hex Hwp Hws Hh n Hn H15 Hpow2.
  destruct (wf_buffer x h Hwf)
    as (a & r & Hobj & Ha & HL & Hnz & Hby & Hok & Hoff & Hbx).
  destruct (wf_buffer p h Hwp)
    as (pa & pr & Hpobj & Hpa & _ & Hpnz & Hpby & _ & Hpoff & Hbp).
  destruct (wf_buffer s h Hws)
    as (sa & sr & Hsobj & Hsa & _ & Hsnz & Hsby & _ & Hsoff & Hbs).
  set (B := a ++ 0 :: r) in *.
  assert (Hcow : cow_if_shared x h = Some (x, h)).
  { unfold cow_if_shared. destruct (xs_is_ptr x); [|reflexivity].
    rewrite (Hex eq_refl). reflexivity. }
  (* the new buffer *)
  destruct (xs_grow_inline_result xs_literal_empty n h literal_empty_ok
              eq_refl ltac:(lia) Hh) as [Eg H16].
  destruct (grow_class n ltac:(lia)) as (_ & Hc & Hpow & _).
  set (c := Z.log2 n + 1) in *.
  set (q := Z.of_nat (length h) + 1) in *.
  destruct (grow_header xs_literal_empty q c literal_empty_ok
              ltac:(unfold q; lia) ltac:(lia))
    as (Hok' & Hq' & Hc' & Hi' & _).
  set (T := set_capacity c (set_is_ptr true (set_ptr q xs_literal_empty))) in *.
  set (Bq := xs_literal_empty ++ replicate (Z.to_nat (2 ^ c) - 16) uninit) in *.
  set (h0 := h ++ [Some Bq]) in *.
  assert (HLq : Z.of_nat (length Bq) = 2 ^ c).
  { unfold Bq. rewrite length_app, length_replicate.
    change (length xs_literal_empty) with 16%nat. lia. }
  assert (Hbyq : Forall (λ c, 0 <= c < 256) Bq).
  { unfold Bq. apply Forall_app. split.
    - apply xs_ok_bytes, literal_empty_ok.
    - apply Forall_replicate. unfold uninit. lia. }
  assert (HTd : xs_data T = InHeap q 0).
  { unfold xs_data, xs_is_ptr. rewrite Hi', Hq'. reflexivity. }
  assert (Hq0 : heap_get h0 q = Some Bq) by apply heap_get_app_new.
  assert (Hlens : (length pa + length a + length sa + 1 <= length Bq)%nat)
    by (unfold n in *; lia).
  destruct (concat_buffer Bq a pa sa Hlens) as (B1 & B2 & W1 & W2 & W3).
  set (B3 := (pa ++ a ++ sa) ++ 0
               :: drop (length pa + length a + length sa + 1) Bq) in *.
  destruct (mem_write_obj T h0 (InHeap q (0 + xs_size p)) a Bq B1 Hq0)
    as (T1 & h1 & E1 & O1 & F1 & _ & P1).
  { cbn [addr_off]. rewrite <- Hpa. exact W1. }
  cbn [addr_block object_at] in *.
  assert (Hqne : q ≠ 0) by (unfold q; lia).
  rewrite (P1 Hqne) in *. clear P1.
  destruct (mem_write_obj T h1 (InHeap q 0) pa B1 B2 O1)
    as (T2 & h2 & E2 & O2 & F2 & _ & P2).
  { exact W2. }
  cbn [addr_block object_at] in *. rewrite (P2 Hqne) in *. clear P2.
  destruct (mem_write_obj T h2 (InHeap q (0 + xs_size p + xs_size x))
              (sa ++ [0]) B2 B3 O2)
    as (T3 & h3 & E3 & O3 & F3 & _ & P3).
  { cbn [addr_off]. rewrite <- Hpa, <- Ha. exact W3. }
  cbn [addr_block object_at] in *. rewrite (P3 Hqne) in *. clear P3.
  pose proof (same_but_trans _ _ _ _ F1 F2) as F12.
  pose proof (same_but_trans _ _ _ _ F12 F3) as F13.
  (* every block of [h] other than the one of [x] is as it was *)
  assert (Hfar : ∀ y (B : list Z), object_at y h (xs_data y) = Some B →
            ∀ k, same_but q h0 k → object_at y k (xs_data y) = Some B).
  { intros y By Hy k Fk. pose proof (source_ext y h [Some Bq] By Hy) as Hy0.
    fold h0 in Hy0. unfold xs_data in *.
    destruct (xs_is_ptr y) eqn:Hyp; [|exact Hy0]. cbn [object_at] in *.
    destruct Fk as [_ Fk]. rewrite Fk; [exact Hy0|].
    apply heap_get_Some in Hy. unfold q. lia. }
  unfold xs_concat. rewrite Hcow. cbn [mbind option_bind].
  replace (xs_size x + xs_size p + xs_size s) with n by (unfold n; lia).
  rewrite (sz_small n) by lia.
  destruct (Z.leb_spec n (xs_capacity x)); [lia|].
  fold q c in Eg. fold T Bq h0 in Eg. rewrite Eg. cbn [mbind option_bind].
  rewrite HTd. cbn [padd].
  rewrite (mem_read_object _ _ _ _ _ (Hfar x B Hobj h0 (same_but_refl _ _))).
  rewrite Hoff. unfold B at 1. rewrite buf_read_prefix by lia.
  cbn [mbind option_bind]. rewrite E1. cbn [mbind option_bind].
  rewrite (mem_read_object _ _ _ _ _ (Hfar p _ Hpobj h1 F1)), Hpoff.
  rewrite buf_read_prefix by lia. cbn [mbind option_bind].
  rewrite E2. cbn [mbind option_bind].
  rewrite (mem_read_object _ _ _ _ _ (Hfar s _ Hsobj h2 F12)), Hsoff.
  rewrite (sz_small (xs_size s + 1)) by lia.
  rewrite cstr_read by lia. cbn [mbind option_bind].
  rewrite E3. cbn [mbind option_bind].
  (* xs_free(string) *)
  pose proof (Hfar x B Hobj h3 F13) as Hx3.
  set (px := if xs_is_ptr x then x_ptr x else 0).
  assert (Hfree : ∃ h4, xs_free x h3 = Some (xs_literal_empty, h4)
                        ∧ same_but px h3 h4
                        ∧ (xs_is_ptr x = true → heap_get h4 (x_ptr x) = None)
                        ∧ (px ≠ q)).
  { unfold xs_free, xs_newempty, px. unfold xs_data in *.
    destruct (xs_is_ptr x); cbn [object_at] in *.
    - rewrite (free_live _ _ _ Hx3). cbn [mbind option_bind].
      pose proof (heap_get_Some _ _ _ Hx3) as R3.
      pose proof (heap_get_Some _ _ _ Hobj) as R.
      eexists. split; [reflexivity|]. split; [apply same_but_set; lia|].
      split; [intros _; apply heap_get_set_eq; lia|unfold q; lia].
    - exists h3. split; [reflexivity|]. split; [apply same_but_refl|].
      split; [discriminate|unfold q; lia]. }
  destruct Hfree as (h4 & Ef & F4 & Hgone & Hpq).
  rewrite Ef. cbn [mbind option_bind].
  assert (O4 : heap_get h4 (x_ptr T) = Some B3).
  { rewrite Hq'. destruct F4 as [_ F4]. rewrite F4 by lia. exact O3. }
  assert (HL3 : length B3 = length Bq).
  { unfold B3. rewrite length_app. cbn [length].
    rewrite length_drop, !length_app. lia. }
  rewrite (is_ptr_set_size T Hok' n : xs_is_ptr (set_size n T) = x_is_ptr T).
  rewrite Hi'.
  rewrite (count_outside T h4 B3 n Hok' Hi' O4); [reflexivity|lia|lia].
Qed.

(** X23.  [xs_concat] into a new buffer, when
    the new size [n] has [n + 1 = 2 ^ (ilog2 n + 1)], the size of the block
    [xs_grow] allocates: the store to the reference count lies outside that
    block, so the call has no defined result. *)
Theorem xs_concat_grows_count_outside (x p s : list Z)
    (h : list (option (list Z))) :
  xs_wf x h = true → (xs_is_ptr x = true → xs_ref_counter x h = Some 1) →
  xs_wf p h = true → xs_wf s h = true →
  Z.of_nat (length h) + 1 < 2 ^ 64 →
  let n := xs_size p + xs_size x + xs_size s in
  xs_capacity x < n < 2 ^ 32 → 15 <= xs_capacity x →
  n + 1 = 2 ^ (Z.log2 n + 1) →
  xs_concat x p s h = None.
Proof.
  intros Hwf Hex Hwp Hws Hh n Hn H15 Hpow2.
  apply xs_concat_grows_count_outside_spec; assumption.
Qed.

(** * Trimming a string of set members only *)

Lemma xs_trim_only_members_exclusive x (ta tr a : list Z) h :
  xs_wf x h = true → (xs_is_ptr x = true → xs_ref_counter x h = Some 1) →
  ta ≠ [] → Forall (λ c, c ≠ 0) ta →
  xs_bytes x h = Some a → a ≠ [] → Forall (λ c, c ∈ ta) a →
  xs_trim x (ta ++ 0 :: tr) h = None.
Proof.
  intros Hwf Hex Hta Htnz Hbytes Hne Hall.
  destruct (wf_buffer x h Hwf)
    as (a' & r & Hobj & Ha & HL & Hnz & Hby & Hok & Hoff & Hbx).
  rewrite Hbx in Hbytes. injection Hbytes as ->.
  destruct (wf_capacity x h Hwf) as [Hsz Hcapx].
  destruct (wf_data x h Hwf) as (_ & _ & _ & _ & _ & _ & Hs54 & _).
  assert (Hcap32 : xs_capacity x < 2 ^ 32).
  { unfold xs_capacity in *. destruct (xs_is_ptr x); [|lia].
    destruct (Hcapx eq_refl) as (E & Hc & _). rewrite E.
    assert (2 ^ x_capacity x <= 2 ^ 32) by (apply Z.pow_le_mono_r; lia). lia. }
  set (B := a ++ 0 :: r) in *.
  set (d := xs_data x) in *.
  assert (Hcow : cow_if_shared x h = Some (x, h)).
  { unfold cow_if_shared. destruct (xs_is_ptr x); [|reflexivity].
    rewrite (Hex eq_refl). reflexivity. }
  set (mask := make_mask (ta ++ 0 :: tr) (Z.of_nat (length ta))).
  set (stop := λ c : Z, negb (check_bit mask c)).
  set (rd := λ k, mem_load x h (padd d k)).
  assert (Hrd : ∀ k c, a !! k = Some c →
                       rd (0 + Z.of_nat k) = Some c ∧ stop c = false).
  { intros k c Hk. split.
    - unfold rd. rewrite (mem_load_at _ _ _ B).
      + rewrite addr_off_padd, Hoff.
        replace (Z.to_nat (0 + (0 + Z.of_nat k))) with k by lia.
        unfold B. rewrite lookup_app_l
          by (apply lookup_lt_Some in Hk; exact Hk). exact Hk.
      + rewrite object_at_padd. exact Hobj.
      + rewrite addr_off_padd. lia.
    - unfold stop, mask. rewrite member_check; [reflexivity|].
      rewrite Forall_forall in Hall. apply Hall.
      apply list_elem_of_lookup_2 in Hk. exact Hk. }
  assert (Hup : scan_up (Z.to_nat (xs_size x)) rd stop 0
                = Some (Z.of_nat (length a))).
  { replace (Z.to_nat (xs_size x)) with (length a + 0)%nat by lia.
    rewrite (scan_up_skip rd stop a 0 0 Hrd). reflexivity. }
  assert (Hdown : scan_down (Z.to_nat (xs_size x)) rd stop (xs_size x)
                  = Some 0).
  { replace (Z.to_nat (xs_size x)) with (length a + 0)%nat by lia.
    replace (xs_size x) with (0 + Z.of_nat (length a)) by lia.
    rewrite (scan_down_skip rd stop a 0 0 Hrd). reflexivity. }
  assert (Hlen : (0 < length a)%nat) by (destruct a; [congruence|simpl; lia]).
  unfold xs_trim.
  destruct ta as [|t0 ta']; [congruence|].
  cbn [app lookup list_lookup mbind option_bind].
  pose proof Htnz as Ht0. apply Forall_cons in Ht0 as [Ht0 _].
  destruct (Z.eqb_spec t0 0); [contradiction|].
  rewrite Hcow. cbn [mbind option_bind]. fold d.
  change (t0 :: ta' ++ 0 :: tr) with ((t0 :: ta') ++ 0 :: tr).
  rewrite strlen_app by exact Htnz. cbn [mbind option_bind].
  fold mask. fold stop. fold rd.
  rewrite Hup. cbn [mbind option_bind]. rewrite Hdown.
  cbn [mbind option_bind].
  assert (Hwrap : sz (0 - Z.of_nat (length a)) = 2 ^ 64 - Z.of_nat (length a)).
  { unfold sz.
    replace (0 - Z.of_nat (length a))
      with (2 ^ 64 - Z.of_nat (length a) + -1 * 2 ^ 64) by lia.
    rewrite Z.mod_add by lia. apply Z.mod_small. lia. }
  rewrite Hwrap.
  rewrite (mem_read_object _ _ _ _ B)
    by (rewrite object_at_padd; exact Hobj).
  rewrite addr_off_padd, Hoff. unfold buf_read.
  destruct (Z.leb_spec 0 (0 + Z.of_nat (length a))); [|lia].
  destruct (Z.leb_spec 0 (2 ^ 64 - Z.of_nat (length a))); [|lia].
  destruct (Z.leb_spec (0 + Z.of_nat (length a)
                        + (2 ^ 64 - Z.of_nat (length a)))
              (Z.of_nat (length B))); [lia|].
  reflexivity.
Qed.

(** X24.  [xs_trim] on a non-empty string all of whose bytes
    are in the set has no defined result: both scans cover the whole
    string, the length left wraps around in [size_t] and [memmove] is
    called with it. *)
Theorem xs_trim_only_members (x ta tr a : list Z)
    (h : list (option (list Z))) :
  xs_wf x h = true → Z.of_nat (length h) + 1 < 2 ^ 64 →
  ta ≠ [] → Forall (λ c, c ≠ 0) ta →
  xs_bytes x h = Some a → a ≠ [] → Forall (λ c, c ∈ ta) a →
  xs_trim x (ta ++ 0 :: tr) h = None.
Proof.
  intros Hwf Hh Hta Htnz Hbytes Hne Hall.
  destruct (cow_if_shared_full x h Hwf Hh)
    as (x1 & h1 & bs & Hcow & Hcow1 & Hbs & Hbs1 & _ & Hwf1 & Hex1 & _).
  rewrite Hbytes in Hbs. injection Hbs as <-.
  destruct ta as [|t0 ta'] eqn:Eta; [congruence|].
  pose proof Htnz as Ht0. apply Forall_cons in Ht0 as [Ht0 _].
  cbn [app]. rewrite (xs_trim_cow x x1 t0 _ h h1 Ht0 Hcow Hcow1).
  apply (xs_trim_only_members_exclusive x1 (t0 :: ta') tr a h1); auto.
Qed.

(** * Reference counts that stay exact *)

Lemma holders_nonneg p ys : 0 <= holders p ys.
Proof.
  induction ys as [|y ys IH]; cbn [holders]; [lia|].
  destruct (on_block p y); cbn [Z.b2z]; lia.
Qed.

Lemma holders_zero p ys :
  holders p ys = 0 ↔ ∀ y, y ∈ ys → on_block p y = false.
Proof.
  induction ys as [|y ys IH]; cbn [holders].
  - split; [|reflexivity]. intros _ y Hy. apply elem_of_nil in Hy as [].
  - pose proof (holders_nonneg p ys). split.
    + intros E z Hz. apply elem_of_cons in Hz as [->|Hz].
      * destruct (on_block p y); [cbn [Z.b2z] in E; lia|reflexivity].
      * apply IH; [|exact Hz]. destruct (on_block p y); cbn [Z.b2z] in E; lia.
    + intros Hall. rewrite (Hall y) by apply list_elem_of_here.
      cbn [Z.b2z]. apply IH. intros z Hz. apply Hall.
      apply list_elem_of_further, Hz.
Qed.

Lemma counts_exact_spec ys h :
  counts_exact ys h = true ↔
  ∀ y, y ∈ ys →
       xs_wf y h = true
       ∧ (xs_is_ptr y = true →
          xs_ref_counter y h = Some (holders (x_ptr y) ys)).
Proof.
  unfold counts_exact. rewrite forallb_forall. split.
  - intros H y Hy. apply list_elem_of_In in Hy. specialize (H y Hy).
    unfold counted in H. apply andb_true_iff in H as [Hw Hc].
    split; [exact Hw|]. intros Hp. rewrite Hp in Hc.
    destruct (xs_ref_counter y h) as [c|]; [|discriminate].
    apply Z.eqb_eq in Hc. congruence.
  - intros H y Hy. apply list_elem_of_In in Hy.
    destruct (H y Hy) as [Hw Hc]. unfold counted. rewrite Hw. cbn [andb].
    destruct (xs_is_ptr y); [|reflexivity]. rewrite (Hc eq_refl).
    apply Z.eqb_refl.
Qed.

(** The count of a heap string is read from its block. *)
Lemma counter_block y h h' :
  heap_get h' (x_ptr y) = heap_get h (x_ptr y) →
  xs_ref_counter y h' = xs_ref_counter y h.
Proof.
  intros E. unfold xs_ref_counter, mem_load, mem_read, ref_addr.
  cbn [object_at]. rewrite E. reflexivity.
Qed.

(** No well-formed string is on a block that is not live. *)
Lemma holders_fresh p ys h :
  (∀ y, y ∈ ys → xs_wf y h = true) → heap_get h p = None →
  holders p ys = 0.
Proof.
  intros Hwf Hp. apply holders_zero. intros y Hy. unfold on_block.
  destruct (xs_is_ptr y) eqn:E; [|reflexivity]. cbn [andb].
  apply Z.eqb_neq. intros <-.
  destruct (wf_heap_block y h (Hwf y Hy) E) as (a & c & r & Hb & _).
  congruence.
Qed.

(** A string alone on its buffer is replaced by a string alone on that
    buffer or on a new one, and the other live blocks are kept: the counts
    stay exact. *)
Lemma exact_step x x' ys h h' :
  counts_exact (x :: ys) h = true →
  (xs_is_ptr x = true → xs_ref_counter x h = Some 1) →
  xs_wf x' h' = true →
  (xs_is_ptr x' = true → xs_ref_counter x' h' = Some 1) →
  (xs_is_ptr x' = true →
   (xs_is_ptr x = true ∧ x_ptr x' = x_ptr x)
   ∨ heap_get h (x_ptr x') = None) →
  (∀ q b, heap_get h q = Some b →
          (xs_is_ptr x = true → q ≠ x_ptr x) →
          heap_get h' q = Some b) →
  counts_exact (x' :: ys) h' = true
  ∧ (xs_is_ptr x' = true →
     xs_ref_counter x' h' = Some 1 ∧ holders (x_ptr x') ys = 0).
Proof.
  intros Hex H1 Hwf' Hc' Hwhere Hkeep.
  rewrite counts_exact_spec in Hex.
  assert (Hys : ∀ y, y ∈ ys → xs_wf y h = true).
  { intros y Hy. apply Hex. apply list_elem_of_further, Hy. }
  assert (H0 : xs_is_ptr x = true → holders (x_ptr x) ys = 0).
  { intros Hp. destruct (Hex x (list_elem_of_here _ _)) as [_ Hc].
    specialize (Hc Hp). rewrite (H1 Hp) in Hc. injection Hc as Hc.
    cbn [holders] in Hc. unfold on_block in Hc.
    rewrite Hp, Z.eqb_refl in Hc. cbn [andb Z.b2z] in Hc. lia. }
  assert (Halone : xs_is_ptr x' = true → holders (x_ptr x') ys = 0).
  { intros Hp'. destruct (Hwhere Hp') as [[Hp E]|Hnew].
    - rewrite E. apply H0, Hp.
    - apply (holders_fresh _ _ h Hys Hnew). }
  split; [|intros Hp'; split; [apply Hc', Hp'|apply Halone, Hp']].
  apply counts_exact_spec. intros y Hy.
  apply elem_of_cons in Hy as [->|Hy].
  - split; [exact Hwf'|]. intros Hp'. rewrite (Hc' Hp'). f_equal.
    cbn [holders]. unfold on_block. rewrite Hp', Z.eqb_refl.
    cbn [andb Z.b2z]. rewrite (Halone Hp'). reflexivity.
  - destruct (Hex y (list_elem_of_further _ _ _ Hy)) as [Hwy Hcy].
    assert (Hfar : xs_is_ptr y = true → xs_is_ptr x = true →
                   x_ptr y ≠ x_ptr x).
    { intros Hpy Hp E. specialize (H0 Hp).
      rewrite holders_zero in H0. specialize (H0 y Hy).
      unfold on_block in H0. rewrite Hpy, E, Z.eqb_refl in H0.
      discriminate. }
    assert (Hblk : xs_is_ptr y = true →
                   heap_get h' (x_ptr y) = heap_get h (x_ptr y)).
    { intros Hpy. destruct (wf_heap_block y h Hwy Hpy) as (a & c & r & Hb & _).
      rewrite Hb. apply (Hkeep _ _ Hb). intros Hp. apply Hfar; assumption. }
    split.
    + apply (keep_block y h h' Hwy). intros Hpy b Hb.
      rewrite (Hblk Hpy). exact Hb.
    + intros Hpy. rewrite (counter_block y h h' (Hblk Hpy)), (Hcy Hpy).
      f_equal. cbn [holders].
      assert (on_block (x_ptr y) x = false) as ->.
      { unfold on_block. destruct (xs_is_ptr x) eqn:Hp; [|reflexivity].
        cbn [andb]. apply Z.eqb_neq. intros E. apply (Hfar Hpy eq_refl).
        congruence. }
      assert (on_block (x_ptr y) x' = false) as ->; [|reflexivity].
      unfold on_block. destruct (xs_is_ptr x') eqn:Hp'; [|reflexivity].
      cbn [andb]. apply Z.eqb_neq. intros E.
      destruct (Hwhere eq_refl) as [[Hp E']|Hnew].
      * apply (Hfar Hpy Hp). congruence.
      * destruct (wf_heap_block y h Hwy Hpy) as (a & c & r & Hb & _).
        congruence.
Qed.

Lemma alone x ys h :
  counts_exact (x :: ys) h = true →
  xs_is_ptr x = true → xs_ref_counter x h = Some 1 →
  holders (x_ptr x) ys = 0.
Proof.
  intros Hex Hp H1. rewrite counts_exact_spec in Hex.
  destruct (Hex x (list_elem_of_here _ _)) as [_ Hc].
  specialize (Hc Hp). rewrite H1 in Hc. injection Hc as Hc.
  cbn [holders] in Hc. unfold on_block in Hc.
  rewrite Hp, Z.eqb_refl in Hc. cbn [andb Z.b2z] in Hc. lia.
Qed.

(** The copy-on-write test keeps the counts exact: a shared string
    leaves its buffer, whose count goes down by one, for a buffer of its
    own. *)
Lemma cow_exact x ys h :
  counts_exact (x :: ys) h = true → Z.of_nat (length h) + 1 < 2 ^ 64 →
  ∃ x1 h1,
    cow_if_shared x h = Some (x1, h1)
    ∧ cow_if_shared x1 h1 = Some (x1, h1)
    ∧ counts_exact (x1 :: ys) h1 = true
    ∧ xs_wf x1 h1 = true
    ∧ (xs_is_ptr x1 = true → xs_ref_counter x1 h1 = Some 1)
    ∧ xs_size x1 = xs_size x
    ∧ (15 <= xs_capacity x → 15 <= xs_capacity x1)
    ∧ Z.of_nat (length h1) <= Z.of_nat (length h) + 1.
Proof.
  intros Hex Hh. pose proof Hex as Hex0. rewrite counts_exact_spec in Hex.
  destruct (Hex x (list_elem_of_here _ _)) as [Hwf Hcx].
  assert (Hsame : (xs_is_ptr x = true → xs_ref_counter x h = Some 1) →
            ∃ x1 h1,
              cow_if_shared x h = Some (x1, h1)
              ∧ cow_if_shared x1 h1 = Some (x1, h1)
              ∧ counts_exact (x1 :: ys) h1 = true
              ∧ xs_wf x1 h1 = true
              ∧ (xs_is_ptr x1 = true → xs_ref_counter x1 h1 = Some 1)
              ∧ xs_size x1 = xs_size x
              ∧ (15 <= xs_capacity x → 15 <= xs_capacity x1)
              ∧ Z.of_nat (length h1) <= Z.of_nat (length h) + 1).
  { intros H1. exists x, h.
    assert (cow_if_shared x h = Some (x, h)) as ->.
    { unfold cow_if_shared. destruct (xs_is_ptr x); [|reflexivity].
      rewrite (H1 eq_refl). reflexivity. }
    repeat (split; [first [reflexivity | assumption | auto; fail]|]). lia. }
  destruct (xs_is_ptr x) eqn:Hp; [|apply Hsame; discriminate].
  specialize (Hcx eq_refl).
  destruct (xs_cow_full x h Hwf Hp Hh)
    as (a & c & r & x1 & h1 & Hb & Ha & Hcow & Hb1 & Hsz & Hby & Hwf1
        & Hp1 & Hfresh & Hkeep & Hall & Hlen).
  pose proof (heap_string_counter x h a c r Hb Ha) as Hc.
  destruct (Z.eq_dec c 1) as [->|Hne]; [apply Hsame; auto|]. clear Hsame.
  rewrite Hc in Hcx. injection Hcx as Hcx. cbn [holders] in Hcx.
  unfold on_block in Hcx. rewrite Hp, Z.eqb_refl in Hcx.
  cbn [andb Z.b2z] in Hcx.
  pose proof (holders_nonneg (x_ptr x) ys) as Hnn.
  destruct (wf_heap_block x h Hwf Hp) as (a0 & c0 & r0 & Hb0 & _ & _ & _
                                          & Hc0 & _).
  rewrite Hb in Hb0.
  assert (Hcr : 0 <= c < 256).
  { destruct (xs_wf_heap_inv x h Hwf Hp) as (_ & b & Hbb & _ & _ & _ & Hby0 & _).
    rewrite Hb in Hbb. injection Hbb as <-.
    apply Forall_app in Hby0 as [_ Hby0].
    apply Forall_cons in Hby0 as [_ Hby0].
    apply Forall_cons in Hby0 as [Hby0 _]. exact Hby0. }
  assert (Hbyte : byte (c - 1) = holders (x_ptr x) ys).
  { rewrite byte_small by lia. lia. }
  assert (Hys : ∀ y, y ∈ ys → xs_wf y h = true).
  { intros y Hy. apply Hex. apply list_elem_of_further, Hy. }
  assert (Hoff : on_block (x_ptr x) x1 = false).
  { unfold on_block. destruct (xs_is_ptr x1) eqn:E; [|reflexivity].
    cbn [andb]. apply Z.eqb_neq. intros E'.
    destruct (Hfresh eq_refl) as [Hnew _]. congruence. }
  exists x1, h1. split.
  { unfold cow_if_shared. rewrite Hp, Hc. cbn [mbind option_bind].
    destruct (Z.eqb_spec c 1); [contradiction|exact Hcow]. }
  split.
  { unfold cow_if_shared. destruct (xs_is_ptr x1) eqn:E; [|reflexivity].
    destruct (Hfresh eq_refl) as [_ ->]. reflexivity. }
  split.
  { apply counts_exact_spec. intros y Hy.
    apply elem_of_cons in Hy as [->|Hy].
    - split; [exact Hwf1|]. intros E. destruct (Hfresh E) as [Hnew ->].
      f_equal. cbn [holders]. unfold on_block. rewrite E, Z.eqb_refl.
      cbn [andb Z.b2z]. rewrite (holders_fresh _ _ h Hys Hnew). reflexivity.
    - destruct (Hex y (list_elem_of_further _ _ _ Hy)) as [Hwy Hcy].
      split; [apply Hall, Hwy|]. intros Hpy. specialize (Hcy Hpy).
      cbn [holders] in Hcy |- *.
      destruct (Z.eq_dec (x_ptr y) (x_ptr x)) as [E|N].
      + rewrite E, Hoff. cbn [Z.b2z].
        assert (Es : x_size y = x_size x).
        { destruct (xs_wf_heap_inv y h Hwy Hpy)
            as (_ & b & Hbb & _ & _ & _ & _ & Hs).
          destruct (xs_wf_heap_inv x h Hwf Hp)
            as (_ & b' & Hbb' & _ & _ & _ & _ & Hs').
          rewrite E, Hb in Hbb. rewrite Hb in Hbb'. congruence. }
        rewrite <- E in Hb1. rewrite <- Es in Ha.
        rewrite (heap_string_counter y h1 a _ r Hb1 Ha). f_equal.
        rewrite Z.add_0_l. exact Hbyte.
      + assert (Hk : heap_get h1 (x_ptr y) = heap_get h (x_ptr y)).
        { destruct (wf_heap_block y h Hwy Hpy) as (ya & yc & yr & Hyb & _).
          rewrite Hyb. apply Hkeep; assumption. }
        rewrite (counter_block y h h1 Hk), Hcy. f_equal.
        assert (on_block (x_ptr y) x = false) as ->.
        { unfold on_block. rewrite Hp. cbn [andb]. apply Z.eqb_neq. auto. }
        assert (on_block (x_ptr y) x1 = false) as ->; [|reflexivity].
        unfold on_block. destruct (xs_is_ptr x1) eqn:E1; [|reflexivity].
        cbn [andb]. apply Z.eqb_neq. intros E'.
        destruct (Hfresh eq_refl) as [Hnew _].
        destruct (wf_heap_block y h Hwy Hpy) as (ya & yc & yr & Hyb & _).
        congruence. }
  split; [exact Hwf1|]. split; [intros E; apply Hfresh, E|].
  split; [exact Hsz|]. split; [|exact Hlen].
  intros _. destruct (wf_capacity x1 h1 Hwf1) as [Hs1 Hcap1].
  destruct (xs_is_ptr x1) eqn:E1.
  - destruct (Hcap1 eq_refl) as (_ & _ & Hlt).
    symmetry in Hp1. apply Z.leb_le in Hp1. lia.
  - unfold xs_capacity. rewrite E1. lia.
Qed.

(** * Splitting a payload *)

(** The longest prefix of [a] made of members of [s]. *)
Lemma span_members (s a : list Z) :
  ∃ l r, a = l ++ r ∧ Forall (λ c, c ∈ s) l
         ∧ ∀ c, head r = Some c → c ∉ s.
Proof.
  induction a as [|c a IH].
  - exists [], []. split; [reflexivity|]. split; [constructor|discriminate].
  - destruct (decide (c ∈ s)) as [Hc|Hc].
    + destruct IH as (l & r & -> & Hl & Hr). exists (c :: l), r.
      split; [reflexivity|]. split; [constructor; assumption|exact Hr].
    + exists [], (c :: a). split; [reflexivity|]. split; [constructor|].
      intros c' [= <-]. exact Hc.
Qed.

(** The longest prefix of [a] made of bytes outside [s]. *)
Lemma span_others (s a : list Z) :
  ∃ l r, a = l ++ r ∧ Forall (λ c, c ∉ s) l
         ∧ ∀ c, head r = Some c → c ∈ s.
Proof.
  induction a as [|c a IH].
  - exists [], []. split; [reflexivity|]. split; [constructor|discriminate].
  - destruct (decide (c ∈ s)) as [Hc|Hc].
    + exists [], (c :: a). split; [reflexivity|]. split; [constructor|].
      intros c' [= <-]. exact Hc.
    + destruct IH as (l & r & -> & Hl & Hr). exists (c :: l), r.
      split; [reflexivity|]. split; [constructor; assumption|exact Hr].
Qed.

(** Every payload is delimiters, a token, and nothing or a delimiter and
    a rest. *)
Lemma tok_split (da a : list Z) :
  ∃ l tk rest,
    a = l ++ tk ++ rest
    ∧ Forall (λ c, c ∈ da) l ∧ Forall (λ c, c ∉ da) tk
    ∧ (∀ d, head rest = Some d → d ∈ da)
    ∧ (tk = [] → rest = []).
Proof.
  destruct (span_members da a) as (l & r & -> & Hl & Hr).
  destruct (span_others da r) as (tk & rest & -> & Htk & Hrest).
  exists l, tk, rest. split; [reflexivity|]. split; [exact Hl|].
  split; [exact Htk|]. split; [exact Hrest|].
  intros ->. cbn [app] in Hr. destruct rest as [|d rest]; [reflexivity|].
  exfalso. apply (Hr d eq_refl). apply Hrest. reflexivity.
Qed.

(** Every payload is made of set members only, or has a part between
    two bytes outside the set with set members around it. *)
Lemma trim_split (ta a : list Z) :
  (a ≠ [] ∧ Forall (λ c, c ∈ ta) a)
  ∨ ∃ l m t,
      a = l ++ m ++ t
      ∧ Forall (λ c, c ∈ ta) l ∧ Forall (λ c, c ∈ ta) t
      ∧ (∀ c, head m = Some c → c ∉ ta)
      ∧ (∀ c, last m = Some c → c ∉ ta)
      ∧ (m = [] → l = [] ∧ t = []).
Proof.
  destruct (span_members ta a) as (l & r & -> & Hl & Hr).
  destruct r as [|c r].
  { rewrite app_nil_r. destruct l as [|c l].
    - right. exists [], [], []. repeat split; try constructor; discriminate.
    - left. split; [discriminate|exact Hl]. }
  right.
  destruct (span_members ta (reverse (c :: r))) as (t' & m' & E & Ht & Hm).
  assert (Er : c :: r = reverse m' ++ reverse t').
  { rewrite <- reverse_app, <- E, reverse_involutive. reflexivity. }
  exists l, (reverse m'), (reverse t').
  split; [rewrite Er; reflexivity|]. split; [exact Hl|].
  split; [apply Forall_reverse, Ht|].
  assert (Hne : m' ≠ []).
  { intros ->. cbn [reverse app] in Er. rewrite reverse_nil in Er.
    cbn [app] in Er.
    assert (c ∈ ta).
    { rewrite Forall_forall in Ht. apply Ht. apply elem_of_reverse.
      rewrite <- Er. apply list_elem_of_here. }
    apply (Hr c eq_refl). assumption. }
  split.
  { intros c' Hc'. destruct (reverse m') as [|c0 m0] eqn:Em.
    - discriminate.
    - injection Hc' as ->. cbn [app] in Er. injection Er as <- _.
      apply (Hr c eq_refl). }
  split.
  { intros c' Hc'. rewrite last_reverse in Hc'. apply Hm, Hc'. }
  intros Em. apply (f_equal reverse) in Em.
  rewrite reverse_involutive, reverse_nil in Em. contradiction.
Qed.

(** * The string worked on is left alone on its buffer *)

Lemma trim_exact x ys (ta tr : list Z) h x' h' :
  counts_exact (x :: ys) h = true → Z.of_nat (length h) + 1 < 2 ^ 64 →
  ta ≠ [] → Forall (λ c, c ≠ 0) ta → Forall (λ c, 0 <= c < 256) ta →
  xs_trim x (ta ++ 0 :: tr) h = Some (x', h') →
  counts_exact (x' :: ys) h' = true
  ∧ (xs_is_ptr x' = true →
     xs_ref_counter x' h' = Some 1 ∧ holders (x_ptr x') ys = 0).
Proof.
  intros Hex Hh Hta Htnz Htby Htrim.
  destruct (cow_exact x ys h Hex Hh)
    as (x1 & h1 & Hcow & Hcow1 & Hex1 & Hwf1 & Hc1 & _).
  destruct (wf_buffer x1 h1 Hwf1) as (a & r & _ & _ & _ & _ & _ & _ & _ & Hbx).
  assert (Htrim1 : xs_trim x1 (ta ++ 0 :: tr) h1 = Some (x', h')).
  { destruct ta as [|t0 ta']; [congruence|].
    pose proof Htnz as Ht0. apply Forall_cons in Ht0 as [Ht0 _].
    cbn [app] in *.
    rewrite <- (xs_trim_cow x x1 t0 _ h h1 Ht0 Hcow Hcow1). exact Htrim. }
  destruct (trim_split ta a)
    as [[Hne Hall]|(l & m & t & -> & Hl & Ht & Hhead & Hlast & Hempty)].
  { rewrite (xs_trim_only_members_exclusive x1 ta tr a h1 Hwf1 Hc1 Hta Htnz
               Hbx Hne Hall) in Htrim1. discriminate. }
  destruct (xs_trim_exclusive x1 ta tr l m t h1 Hwf1 Hc1 Hta Htnz Htby Hbx Hl
              Ht Hhead Hlast Hempty)
    as (x2 & h2 & Htrim2 & Hwf2 & _ & _ & Hp2 & Hin & Hhp).
  rewrite Htrim2 in Htrim1. injection Htrim1 as <- <-.
  apply (exact_step x1 x2 ys h1 h2 Hex1 Hc1 Hwf2).
  - intros E. rewrite Hp2 in E. apply (Hhp E).
  - intros E. rewrite Hp2 in E. left. split; [exact E|apply (Hhp E)].
  - intros q b Hq Hne. destruct (xs_is_ptr x1) eqn:E1.
    + destruct (Hhp eq_refl) as (_ & _ & _ & [_ F]).
      rewrite F by auto. exact Hq.
    + rewrite (Hin eq_refl). exact Hq.
Qed.

Lemma tok_exact x ys (da dr : list Z) old h r :
  counts_exact (x :: ys) h = true → Z.of_nat (length h) + 2 < 2 ^ 64 →
  da ≠ [] → Forall (λ c, c ≠ 0) da → Forall (λ c, 0 <= c < 256) da →
  xs_tok (Some x) (da ++ 0 :: dr) old h = Some r →
  counts_exact (tok_x r :: ys) (tok_heap r) = true
  ∧ (xs_is_ptr (tok_x r) = true →
     xs_ref_counter (tok_x r) (tok_heap r) = Some 1
     ∧ holders (x_ptr (tok_x r)) ys = 0).
Proof.
  intros Hex Hh Hda Hdnz Hdby Htok.
  destruct (cow_exact x ys h Hex ltac:(lia))
    as (x1 & h1 & Hcow & Hcow1 & Hex1 & Hwf1 & Hc1 & _ & _ & Hlen).
  assert (Hwf : xs_wf x h = true).
  { rewrite counts_exact_spec in Hex. apply Hex, list_elem_of_here. }
  destruct (wf_buffer x1 h1 Hwf1) as (a & r0 & _ & _ & _ & _ & _ & _ & _ & Hbx).
  assert (Htok1 : xs_tok (Some x1) (da ++ 0 :: dr) old h1 = Some r).
  { destruct da as [|d0 da']; [congruence|].
    pose proof Hdnz as Hd0. apply Forall_cons in Hd0 as [Hd0 _].
    cbn [app] in *.
    rewrite <- (xs_tok_cow x x1 d0 _ old h h1 Hd0 (data_not_null x h Hwf)
                  (data_not_null x1 h1 Hwf1) Hcow Hcow1). exact Htok. }
  destruct (tok_split da a)
    as (l & tk & rest & -> & Hl & Htk & Hrest & Hempty).
  destruct (xs_tok_spec x1 da dr l tk rest old h1 Hwf1 Hc1 ltac:(lia) Hda
              Hdnz Hdby Hbx Hl Htk Hrest Hempty) as [Hbad Hgood].
  assert (Hold : rest = [] → old = None).
  { intros E. destruct old as [o|]; [|reflexivity].
    rewrite (Hbad E) in Htok1; discriminate. }
  destruct (Hgood Hold)
    as (r' & Htok' & Hwf' & _ & _ & Hrc & Hp' & Hq & _ & Hinl & Hfr).
  rewrite Htok' in Htok1. injection Htok1 as <-.
  apply (exact_step x1 (tok_x r') ys h1 (tok_heap r') Hex1 Hc1 Hwf' Hrc).
  - intros E. rewrite Hp' in E. left. split; [exact E|apply (Hq E)].
  - exact Hfr.
Qed.

Lemma concat_exact x p s ys h x' h' :
  counts_exact (x :: ys) h = true → Z.of_nat (length h) + 2 < 2 ^ 64 →
  p ∈ ys → s ∈ ys → 15 <= xs_capacity x →
  xs_size p + xs_size x + xs_size s < 2 ^ 32 →
  xs_concat x p s h = Some (x', h') →
  counts_exact (x' :: ys) h' = true
  ∧ (xs_is_ptr x' = true →
     xs_ref_counter x' h' = Some 1 ∧ holders (x_ptr x') ys = 0).
Proof.
  intros Hex Hh Hp Hs H15 Hn Hcat.
  destruct (cow_exact x ys h Hex ltac:(lia))
    as (x1 & h1 & Hcow & Hcow1 & Hex1 & Hwf1 & Hc1 & Hsz1 & Hcap15 & Hlen).
  specialize (Hcap15 H15).
  rewrite (xs_concat_cow x x1 p s h h1 Hcow Hcow1) in Hcat.
  rewrite <- Hsz1 in Hn.
  pose proof Hex1 as Hex1'. rewrite counts_exact_spec in Hex1'.
  destruct (Hex1' p (list_elem_of_further _ _ _ Hp)) as [Hwp _].
  destruct (Hex1' s (list_elem_of_further _ _ _ Hs)) as [Hws _].
  assert (Hns : ∀ y, y ∈ ys → xs_is_ptr x1 = true →
                     already_shares y x1 = false).
  { intros y Hy E1.
    pose proof (alone x1 ys h1 Hex1 E1 (Hc1 E1)) as H0.
    rewrite holders_zero in H0. apply (H0 y Hy). }
  destruct (wf_capacity x1 h1 Hwf1) as [Hs1 Hcap1].
  destruct (wf_capacity p h1 Hwp) as [Hsp _].
  destruct (wf_capacity s h1 Hws) as [Hss _].
  set (n := xs_size p + xs_size x1 + xs_size s) in *.
  destruct (Z.le_gt_cases n (xs_capacity x1)) as [Hle|Hgt].
  - assert (Hroom : xs_is_ptr x1 = true → n < xs_capacity x1).
    { intros E1. destruct (Z.eq_dec n (xs_capacity x1)) as [E|N]; [|lia].
      rewrite (xs_concat_count_outside_spec x1 p s h1 Hwf1 E1 (Hc1 E1) Hwp Hws
                 (Hns p Hp E1) (Hns s Hs E1) E) in Hcat. discriminate. }
    destruct (xs_concat_in_place_spec x1 p s h1 Hwf1 Hc1 Hwp Hws (Hns p Hp)
                (Hns s Hs) Hle Hroom)
      as (bx & bp & bs & x2 & h2 & _ & _ & _ & Hcat2 & Hwf2 & _ & _ & Hp2
          & Hin & Hhp & _ & _ & F).
    rewrite Hcat2 in Hcat. injection Hcat as <- <-.
    apply (exact_step x1 x2 ys h1 h2 Hex1 Hc1 Hwf2).
    + intros E. rewrite Hp2 in E. apply (Hhp E).
    + intros E. rewrite Hp2 in E. left. split; [exact E|apply (Hhp E)].
    + intros q b Hq Hne. destruct (xs_is_ptr x1) eqn:E1.
      * destruct (F eq_refl) as [_ F']. rewrite F' by auto. exact Hq.
      * rewrite (Hin eq_refl). exact Hq.
  - assert (H0 : 0 < n) by lia.
    pose proof (Z.log2_spec n H0) as [_ Hup].
    replace (Z.succ (Z.log2 n)) with (Z.log2 n + 1) in Hup by lia.
    destruct (Z.eq_dec (n + 1) (2 ^ (Z.log2 n + 1))) as [E|N].
    { rewrite (xs_concat_grows_count_outside_spec x1 p s h1 Hwf1 Hc1 Hwp Hws
                 ltac:(lia) ltac:(fold n; lia) Hcap15 E) in Hcat.
      discriminate. }
    destruct (xs_concat_grows_spec x1 p s h1 Hwf1 Hc1 Hwp Hws (Hns p Hp)
                (Hns s Hs) ltac:(lia) ltac:(fold n; lia) Hcap15
                ltac:(fold n; lia))
      as (bx & bp & bs & x2 & h2 & _ & _ & _ & Hcat2 & Hwf2 & _ & _ & Hp2
          & _ & Hnew & Hrc & _ & _ & _ & Hkeep).
    rewrite Hcat2 in Hcat. injection Hcat as <- <-.
    apply (exact_step x1 x2 ys h1 h2 Hex1 Hc1 Hwf2).
    + intros _. exact Hrc.
    + intros _. right. exact Hnew.
    + exact Hkeep.
Qed.

(** C10 (amended).  In a state whose reference counts are exact (every
    heap string's count is the number of string objects on its block),
    take a call of a mutator that completes: [xs_concat] with prefix and
    suffix among the other strings and a new size below [2 ^ 32], or
    [xs_trim] or [xs_tok] with a non-empty set.  The counts are exact
    again afterwards, and the string worked on, when it is a heap string,
    has count 1 and no other string on its block: it is never left
    shared. *)
Theorem mutators_leave_exclusive (x prefix suffix ta tr : list Z)
    (ys : list (list Z)) (old : option dangling)
    (h : list (option (list Z))) :
  counts_exact (x :: ys) h = true →
  Z.of_nat (length h) + 2 < 2 ^ 64 →
  ta ≠ [] → Forall (λ c, c ≠ 0) ta → Forall (λ c, 0 <= c < 256) ta →
  (∀ x' h',
     prefix ∈ ys → suffix ∈ ys → 15 <= xs_capacity x →
     xs_size prefix + xs_size x + xs_size suffix < 2 ^ 32 →
     xs_concat x prefix suffix h = Some (x', h') →
     counts_exact (x' :: ys) h' = true
     ∧ (xs_is_ptr x' = true →
        xs_ref_counter x' h' = Some 1 ∧ holders (x_ptr x') ys = 0))
  ∧ (∀ x' h',
       xs_trim x (ta ++ 0 :: tr) h = Some (x', h') →
       counts_exact (x' :: ys) h' = true
       ∧ (xs_is_ptr x' = true →
          xs_ref_counter x' h' = Some 1 ∧ holders (x_ptr x') ys = 0))
  ∧ (∀ r,
       xs_tok (Some x) (ta ++ 0 :: tr) old h = Some r →
       counts_exact (tok_x r :: ys) (tok_heap r) = true
       ∧ (xs_is_ptr (tok_x r) = true →
          xs_ref_counter (tok_x r) (tok_heap r) = Some 1
          ∧ holders (x_ptr (tok_x r)) ys = 0)).
Proof.
  intros Hex Hh Hta Htnz Htby. split; [|split].
  - intros x' h' Hp Hs H15 Hn Hcat.
    apply (concat_exact x prefix suffix ys h x' h'); assumption.
  - intros x' h' Htrim.
    apply (trim_exact x ys ta tr h x' h'); try assumption. lia.
  - intros r Htok.
    apply (tok_exact x ys ta tr old h r); assumption.
Qed.

(** * The theorems above at sample states *)

(** A decidable proposition, settled by evaluating its decision
    procedure. *)
Ltac decided := apply (bool_decide_unpack _); vm_compute; exact I.

(** A comparison of two numbers, settled by evaluating them. *)
Ltac compared :=
  vm_compute; repeat split; first [reflexivity | discriminate].

(** An equation between an accessor and [true] that evaluates to
    [false = true]. *)
Ltac never := let E := fresh in intros E; vm_compute in E; discriminate E.

(** The sample states added for these theorems are what [xs_new] computes
    from the empty heap. *)
Lemma more_samples_reachable :
  xs_new (cstr "  hi  ") [] = Some (hi_padded, [])
  ∧ xs_new (cstr "a,b") [] = Some (a_b, [])
  ∧ xs_new (cstr ",,") [] = Some (commas, [])
  ∧ xs_new (cstr "123456789") [] = Some (nine, [])
  ∧ xs_new (cstr "0123456789abcde") [] = Some (fifteen, [])
  ∧ xs_new (cstr "0123456789abcdef") [] = Some sixteen.
Proof. repeat (split; [run|]). run. Qed.

(** [ilog2_floor] at a sample state. *)
Lemma ilog2_floor_witness :
  0 < 20 < 2 ^ 32
  ∧ ∃ k, ilog2 (20 + 3 * 2 ^ 32) = Some k
         ∧ 0 <= k < 32 ∧ 2 ^ k <= 20 < 2 ^ (k + 1).
Proof. split; [lia|]. apply (ilog2_floor 20 3). lia. Defined.

(** [xs_new_well_formed] at a sample state. *)
Lemma xs_new_well_formed_witness :
  ∃ x h',
    xs_new (cstr "hello") [] = Some (x, h')
    ∧ xs_wf x h' = true ∧ xs_size x <= xs_capacity x.
Proof.
  destruct (xs_new_well_formed (bytes_of "hello") [] [])
    as (x & h' & H1 & H2 & H3 & _);
    [decided | decided | compared | compared|].
  exists x, h'. auto.
Defined.

(** [xs_free_releases] at a sample state. *)
Lemma xs_free_releases_witness :
  xs_wf twenty.1 twenty.2 = true
  ∧ ∃ h', xs_free twenty.1 twenty.2 = Some (xs_literal_empty, h')
          ∧ heap_get h' (x_ptr twenty.1) = None.
Proof.
  split; [run|].
  destruct (xs_free_releases twenty.1 twenty.2) as (h' & H1 & _ & _ & H4);
    [run|].
  exists h'. split; [exact H1|]. apply H4. run.
Defined.

(** [xs_cow_detaches] at a sample state. *)
Lemma xs_cow_detaches_witness :
  xs_wf twenty_shared.1 twenty_shared.2 = true
  ∧ xs_ref_counter twenty_shared.1 twenty_shared.2 = Some 2
  ∧ ∃ bs x' h',
      xs_cow twenty_shared.1 twenty_shared.2 = Some (x', h')
      ∧ xs_bytes x' h' = Some bs
      ∧ xs_bytes twenty_shared.1 h' = Some bs
      ∧ xs_ref_counter twenty_shared.1 h' = Some 1.
Proof.
  split; [run|]. split; [run|].
  destruct (xs_cow_detaches twenty_shared.1 twenty_shared.2 2)
    as (bs & x' & h' & H1 & _ & _ & H4 & _ & _ & _ & H8 & H9 & _);
    [run | run | run | compared|].
  exists bs, x', h'. auto.
Defined.

(** [xs_grow_capacity] at a sample state. *)
Lemma xs_grow_capacity_witness :
  xs_wf ab [] = true
  ∧ ∃ x' h', xs_grow ab 40 [] = Some (x', h') ∧ 40 <= xs_capacity x'.
Proof.
  split; [run|].
  destruct (xs_grow_capacity ab 40 []) as (x' & h' & H1 & H2 & _);
    [run | lia | compared|].
  exists x', h'. auto.
Defined.

(** [xs_grow_heap_keeps] at a sample state. *)
Lemma xs_grow_heap_keeps_witness :
  xs_wf twenty.1 twenty.2 = true
  ∧ ∃ bs x' h',
      xs_grow twenty.1 100 twenty.2 = Some (x', h')
      ∧ xs_bytes twenty.1 twenty.2 = Some bs
      ∧ xs_bytes x' h' = Some bs
      ∧ xs_ref_counter x' h' = Some 1.
Proof.
  split; [run|].
  destruct (xs_grow_heap_keeps twenty.1 100 twenty.2 1)
    as (bs & x' & h' & H1 & H2 & _ & _ & _ & H6 & H7);
    [run | run | run | lia | compared|].
  exists bs, x', h'. auto.
Defined.

(** [xs_grow_inline_moves] at a sample state. *)
Lemma xs_grow_inline_moves_witness :
  xs_wf ab [] = true ∧ xs_is_ptr ab = false
  ∧ ∃ bs x' h' pad,
      xs_grow ab 20 [] = Some (x', h')
      ∧ xs_bytes ab [] = Some bs
      ∧ heap_get h' (x_ptr x') = Some (ab ++ pad)
      ∧ mem_read x' h' (xs_data x') (xs_size ab) = Some bs.
Proof.
  split; [run|]. split; [run|].
  destruct (xs_grow_inline_moves ab 20 [])
    as (bs & x' & h' & pad & H1 & H2 & _ & _ & H5 & H6 & _);
    [run | run | lia | compared|].
  exists bs, x', h', pad. auto.
Defined.

(** [xs_trim_strips] at a sample state. *)
Lemma xs_trim_strips_witness :
  xs_wf hi_padded [] = true
  ∧ xs_bytes hi_padded [] = Some ([32; 32] ++ [104; 105] ++ [32; 32])
  ∧ ∃ x' h',
      xs_trim hi_padded (cstr " ") [] = Some (x', h')
      ∧ xs_wf x' h' = true
      ∧ xs_bytes x' h' = Some [104; 105].
Proof.
  split; [run|]. split; [run|].
  destruct (xs_trim_strips hi_padded [32] [] [32; 32] [104; 105] [32; 32] [])
    as (x' & h' & H1 & H2 & H3 & _).
  - run.
  - compared.
  - discriminate.
  - decided.
  - decided.
  - run.
  - decided.
  - decided.
  - intros c [= <-]. decided.
  - intros c [= <-]. decided.
  - discriminate.
  - exists x', h'. auto.
Defined.

(** [xs_trim_shared] at a sample state. *)
Lemma xs_trim_shared_witness :
  xs_wf greeting_shared.1 greeting_shared.2 = true
  ∧ xs_ref_counter greeting_shared.1 greeting_shared.2 = Some 2
  ∧ ∃ x' h',
      xs_trim greeting_shared.1 (cstr " ") greeting_shared.2 = Some (x', h')
      ∧ xs_bytes x' h' = Some (bytes_of "hello, wide world")
      ∧ xs_ref_counter greeting_shared.1 h' = Some 1
      ∧ xs_bytes greeting_shared.1 h'
        = xs_bytes greeting_shared.1 greeting_shared.2.
Proof.
  split; [run|]. split; [run|].
  destruct (xs_trim_shared greeting_shared.1 [32] [] [32; 32]
              (bytes_of "hello, wide world") [32; 32] greeting_shared.2 2)
    as (x' & h' & H1 & H2 & H3 & _ & H5).
  - run.
  - compared.
  - run.
  - run.
  - discriminate.
  - discriminate.
  - decided.
  - decided.
  - run.
  - decided.
  - decided.
  - intros c Hc. vm_compute in Hc. injection Hc as <-. decided.
  - intros c Hc. vm_compute in Hc. injection Hc as <-. decided.
  - intros Hm. vm_compute in Hm. discriminate Hm.
  - exists x', h'. split; [exact H1|]. split; [exact H2|].
    split; [exact H3|]. apply H5. run.
Defined.

(** [xs_trim_idempotent] at a sample state. *)
Lemma xs_trim_idempotent_witness :
  xs_wf hi_padded [] = true
  ∧ ∃ x' h' x'' h'',
      xs_trim hi_padded (cstr " ") [] = Some (x', h')
      ∧ xs_trim x' (cstr " ") h' = Some (x'', h'')
      ∧ xs_bytes x'' h'' = xs_bytes x' h'.
Proof.
  split; [run|].
  destruct (xs_trim_idempotent hi_padded [32] [] [32; 32] [104; 105]
              [32; 32] [])
    as (x' & h' & x'' & h'' & H1 & H2 & H3 & _).
  - run.
  - compared.
  - discriminate.
  - decided.
  - decided.
  - run.
  - decided.
  - decided.
  - intros c [= <-]. decided.
  - intros c [= <-]. decided.
  - discriminate.
  - exists x', h', x'', h''. auto.
Defined.

(** [xs_concat_in_place] at a sample state. *)
Lemma xs_concat_in_place_witness :
  xs_wf ab [] = true
  ∧ xs_size ab + xs_size ab + xs_size ab <= xs_capacity ab
  ∧ ∃ x' h',
      xs_concat ab ab ab [] = Some (x', h')
      ∧ xs_bytes x' h' = Some (bytes_of "ababab").
Proof.
  split; [run|]. split; [compared|].
  destruct (xs_concat_in_place ab ab ab [])
    as (bx & bp & bs & x' & h' & H1 & H2 & H3 & H4 & _ & H6 & _);
    [run | never | run | run | never | never | compared | never|].
  exists x', h'. split; [exact H4|]. rewrite H6.
  vm_compute in H1, H2, H3.
  injection H1 as <-. injection H2 as <-. injection H3 as <-. reflexivity.
Defined.

(** [xs_concat_grows] at a sample state. *)
Lemma xs_concat_grows_witness :
  xs_wf ab [] = true ∧ xs_wf nine [] = true
  ∧ xs_capacity ab < xs_size nine + xs_size ab + xs_size nine
  ∧ ∃ x' h',
      xs_concat ab nine nine [] = Some (x', h')
      ∧ xs_size x' = 20 ∧ xs_is_ptr x' = true
      ∧ xs_ref_counter x' h' = Some 1.
Proof.
  split; [run|]. split; [run|]. split; [compared|].
  destruct (xs_concat_grows ab nine nine [])
    as (bx & bp & bs & x' & h' & _ & _ & _ & H4 & _ & _ & H7 & H8 & _ & _
        & H11 & _);
    [run | never | run | run | never | never | compared | compared
    | compared | compared|].
  exists x', h'. auto.
Defined.

(** [xs_concat_shared] at a sample state. *)
Lemma xs_concat_shared_witness :
  xs_wf twenty_shared.1 twenty_shared.2 = true
  ∧ xs_ref_counter twenty_shared.1 twenty_shared.2 = Some 2
  ∧ ∃ x' h',
      xs_concat twenty_shared.1 ab ab twenty_shared.2 = Some (x', h')
      ∧ xs_size x' = 24
      ∧ xs_ref_counter twenty_shared.1 h' = Some 1
      ∧ xs_bytes twenty_shared.1 h'
        = xs_bytes twenty_shared.1 twenty_shared.2.
Proof.
  split; [run|]. split; [run|].
  destruct (xs_concat_shared twenty_shared.1 ab ab twenty_shared.2 2)
    as (bx & bp & bs & x' & h' & _ & _ & _ & H4 & _ & _ & H7 & _ & H9 & H10);
    [run | run | run | discriminate | run | run | compared | compared
    | right; compared|].
  exists x', h'. split; [exact H4|]. split; [exact H7|].
  split; [exact H9|]. apply H10. run.
Defined.

(** [xs_tok_cuts_token] at a sample state. *)
Lemma xs_tok_cuts_token_witness :
  xs_wf a_b [] = true
  ∧ xs_bytes a_b [] = Some ([] ++ [97] ++ 44 :: [98])
  ∧ ∃ r t,
      xs_tok (Some a_b) (cstr ",") (Some Dangling) [] = Some r
      ∧ token r = Some t
      ∧ xs_bytes t (tok_heap r) = Some [97]
      ∧ tok_old r = Some Dangling
      ∧ tok_heap r = [].
Proof.
  split; [run|]. split; [run|].
  destruct (xs_tok_cuts_token a_b [44] [] [] [97] [98] 44 (Some Dangling) [])
    as (r & t & H1 & H2 & _ & _ & H5 & _ & _ & H8 & H9 & _).
  - run.
  - never.
  - compared.
  - discriminate.
  - decided.
  - decided.
  - run.
  - decided.
  - decided.
  - discriminate.
  - decided.
  - exists r, t. repeat (split; [assumption|]). apply H9. run.
Defined.

(** [xs_tok_last_token] at a sample state. *)
Lemma xs_tok_last_token_witness :
  xs_wf ab [] = true
  ∧ ∃ r t,
      xs_tok (Some ab) (cstr ",") None [] = Some r
      ∧ token r = Some t
      ∧ xs_bytes t (tok_heap r) = Some [97; 98]
      ∧ tok_old r = None.
Proof.
  split; [run|].
  destruct (xs_tok_last_token ab [44] [] [] [97; 98] [])
    as (r & t & H1 & H2 & _ & _ & H5 & _ & _ & H8 & _).
  - run.
  - never.
  - compared.
  - discriminate.
  - decided.
  - decided.
  - run.
  - decided.
  - decided.
  - discriminate.
  - exists r, t. auto.
Defined.

(** [xs_tok_exhausted] at a sample state. *)
Lemma xs_tok_exhausted_witness :
  xs_wf commas [] = true
  ∧ xs_bytes commas [] = Some [44; 44]
  ∧ ∃ r,
      xs_tok (Some commas) (cstr ",") None [] = Some r
      ∧ token r = None
      ∧ xs_size (tok_x r) = 0.
Proof.
  split; [run|]. split; [run|].
  destruct (xs_tok_exhausted commas [44] [] [44; 44] [])
    as (r & H1 & H2 & _ & _ & _ & H6 & _).
  - run.
  - never.
  - compared.
  - discriminate.
  - decided.
  - decided.
  - run.
  - decided.
  - exists r. auto.
Defined.

(** [xs_tok_dangling_old] at a sample state. *)
Lemma xs_tok_dangling_old_witness :
  xs_wf ab [] = true
  ∧ xs_bytes ab [] = Some ([] ++ [97; 98])
  ∧ xs_tok (Some ab) (cstr ",") (Some Dangling) [] = None.
Proof.
  split; [run|]. split; [run|].
  apply (xs_tok_dangling_old ab [44] [] [] [97; 98] []).
  - run.
  - compared.
  - discriminate.
  - decided.
  - decided.
  - run.
  - decided.
  - decided.
Defined.

(** [xs_tok_shared] at a sample state. *)
Lemma xs_tok_shared_witness :
  xs_wf greeting_shared.1 greeting_shared.2 = true
  ∧ xs_ref_counter greeting_shared.1 greeting_shared.2 = Some 2
  ∧ ∃ r,
      xs_tok (Some greeting_shared.1) (cstr ",") None greeting_shared.2
      = Some r
      ∧ xs_bytes (tok_x r) (tok_heap r) = Some (bytes_of "  hello")
      ∧ xs_ref_counter greeting_shared.1 (tok_heap r) = Some 1
      ∧ xs_bytes greeting_shared.1 (tok_heap r)
        = xs_bytes greeting_shared.1 greeting_shared.2.
Proof.
  split; [run|]. split; [run|].
  destruct (xs_tok_shared greeting_shared.1 [44] [] []
              (bytes_of "  hello") (bytes_of ", wide world  ")
              greeting_shared.2 2)
    as (r & H1 & _ & H3 & _ & H5 & H6).
  - run.
  - run.
  - run.
  - discriminate.
  - compared.
  - discriminate.
  - decided.
  - decided.
  - run.
  - decided.
  - decided.
  - intros d Hd. vm_compute in Hd. injection Hd as <-. decided.
  - intros Hm. vm_compute in Hm. discriminate Hm.
  - exists r. split; [exact H1|]. split; [exact H3|]. split; [exact H5|].
    apply H6. run.
Defined.

(** [xs_copy_from_inline] at a sample state. *)
Lemma xs_copy_from_inline_witness :
  xs_wf twenty.1 twenty.2 = true ∧ xs_wf ab twenty.2 = true
  ∧ xs_is_ptr ab = false
  ∧ ∃ h', xs_copy (Some twenty.1) (Some ab) twenty.2 = Some (Some ab, h')
          ∧ heap_get h' (x_ptr twenty.1) = None.
Proof.
  split; [run|]. split; [run|]. split; [run|].
  destruct (xs_copy_from_inline twenty.1 ab twenty.2)
    as (h' & H1 & _ & _ & _ & H5); [run | run | run|].
  exists h'. split; [exact H1|].
  destruct (H5 ltac:(run)) as [_ H6].
  apply (H6 1); [run|reflexivity].
Defined.

(** [xs_concat_count_outside] at a sample state. *)
Lemma xs_concat_count_outside_witness :
  xs_wf sixteen.1 sixteen.2 = true
  ∧ xs_ref_counter sixteen.1 sixteen.2 = Some 1
  ∧ xs_size xs_literal_empty + xs_size sixteen.1 + xs_size fifteen
    = xs_capacity sixteen.1
  ∧ xs_concat sixteen.1 xs_literal_empty fifteen sixteen.2 = None.
Proof.
  split; [run|]. split; [run|]. split; [run|].
  apply (xs_concat_count_outside sixteen.1 xs_literal_empty fifteen
           sixteen.2); run.
Defined.

(** [xs_concat_grows_count_outside] at a sample state. *)
Lemma xs_concat_grows_count_outside_witness :
  xs_wf ab twenty.2 = true
  ∧ xs_size nine + xs_size ab + xs_size twenty.1 = 31
  ∧ xs_concat ab nine twenty.1 twenty.2 = None.
Proof.
  split; [run|]. split; [run|].
  apply (xs_concat_grows_count_outside ab nine twenty.1 twenty.2);
    [run | never | run | run | compared | compared | compared | run].
Defined.

(** [xs_trim_only_members] at a sample state. *)
Lemma xs_trim_only_members_witness :
  xs_wf commas [] = true ∧ xs_bytes commas [] = Some [44; 44]
  ∧ xs_trim commas (cstr ",") [] = None.
Proof.
  split; [run|]. split; [run|].
  apply (xs_trim_only_members commas [44] [] [44; 44] []);
    [run | compared | discriminate | decided | run | discriminate | decided].
Defined.

(** The three mutators at a 21-byte heap string with two aliases, among
    them the string worked on, and the inline string "ab". *)
Lemma mutators_leave_exclusive_witness :
  let '(x, h) := greeting_shared in
  let ys := [x; ab] in
  counts_exact (x :: ys) h = true
  ∧ xs_ref_counter x h = Some 2 ∧ holders (x_ptr x) ys = 1
  ∧ (∃ x' h', xs_concat x ab ab h = Some (x', h')
              ∧ counts_exact (x' :: ys) h' = true
              ∧ xs_is_ptr x' = true
              ∧ xs_ref_counter x' h' = Some 1
              ∧ holders (x_ptr x') ys = 0
              ∧ xs_ref_counter x h' = Some 1)
  ∧ (∃ x' h', xs_trim x (cstr " ") h = Some (x', h')
              ∧ counts_exact (x' :: ys) h' = true
              ∧ xs_is_ptr x' = true
              ∧ xs_ref_counter x' h' = Some 1
              ∧ holders (x_ptr x') ys = 0)
  ∧ (∃ r, xs_tok (Some x) (cstr ",") None h = Some r
          ∧ counts_exact (tok_x r :: ys) (tok_heap r) = true
          ∧ xs_ref_counter x (tok_heap r) = Some 1).
Proof.
  cbv beta iota delta [greeting_shared]. cbv zeta.
  split; [run|]. split; [run|]. split; [run|].
  match goal with
  | |- (∃ _ _, xs_concat ?x _ _ ?h = _ ∧ _) ∧ _ =>
      pose proof (mutators_leave_exclusive x ab ab [32] [] [x; ab] None h
                    ltac:(run) ltac:(compared) ltac:(discriminate)
                    ltac:(decided) ltac:(decided)) as (Hc & Ht & _);
      pose proof (mutators_leave_exclusive x ab ab [44] [] [x; ab] None h
                    ltac:(run) ltac:(compared) ltac:(discriminate)
                    ltac:(decided) ltac:(decided)) as (_ & _ & Hk)
  end.
  split; [|split].
  - do 2 eexists. split; [run|].
    match goal with
    | |- counts_exact (?x' :: _) ?h' = true ∧ _ =>
        destruct (Hc x' h') as [He Hx];
          [decided | decided | compared | compared | run |]
    end.
    split; [exact He|]. split; [run|].
    destruct (Hx ltac:(run)) as [H1 H0].
    split; [exact H1|]. split; [exact H0|]. run.
  - do 2 eexists. split; [run|].
    match goal with
    | |- counts_exact (?x' :: _) ?h' = true ∧ _ =>
        destruct (Ht x' h') as [He Hx]; [run|]
    end.
    split; [exact He|]. split; [run|].
    destruct (Hx ltac:(run)) as [H1 H0].
    split; [exact H1|exact H0].
  - eexists. split; [run|].
    match goal with
    | |- counts_exact (tok_x ?r :: _) _ = true ∧ _ =>
        destruct (Hk r) as [He _]; [run|]
    end.
    split; [exact He|]. run.
Defined.
